(* ===== verification/_CoqProject ===== *)
-Q . S2P
Prelude.v
Ints.v
Buffer.v
Kernel.v
World.v
Poller.v
Channel.v
TimerQueue.v
TcpConnection.v
EventLoop.v
Wakeup.v
ThreadPool.v
LoopThread.v
Endpoints.v
InetAddress.v
Frame.v
Reports.v
TimerRun.v
Reactor.v
Os.v
ServerInv.v
Server.v
Lifetime.v
TcpServer.v
TcpThreads.v
Teardown.v
Shared.v
Client.v
Decimal.v
Idle.v
Echo.v
AddOne.v
Clients.v
Sessions.v
Logger.v
TestLogger.v
