(* ===== verification/Prelude.v ===== *)
(** * mudong-ev: a TCP library on a reactor, and what its code guarantees

    The program (src/src) is a small C++ network library.  An EventLoop, owned
    by one thread, waits in epoll_wait and calls the Channel of each descriptor
    that is ready, then runs the tasks that other threads queued in it
    (runInLoop, queueInLoop; an eventfd ends the wait).  A TimerQueue sits on a
    timerfd of the loop.  A TcpConnection owns a Channel and two Buffers.  An
    Acceptor and a Connector make connections, which a TcpServerSingle or a
    TcpClient owns; a TcpServer runs one loop with one TcpServerSingle per
    thread; an EventLoopThread hands a loop over to its creator; a ThreadPool
    runs tasks of the user.

    ** How it is modelled

    Every method is a definition of the same name in the state-and-fault monad
    [M] of this file: it returns a value and the new state, or stops with a
    [fault] (a failed assert, an abort of FATAL, an exception, or undefined
    behaviour such as a use after free).  [Build] says whether asserts are
    compiled in; theorems that do not fix it hold for both builds.  Integers
    are [Z] with the wrap-around of their width written out (Ints.v); a buffer
    is the byte vector of the source with its two indices; pointers are
    addresses of heap objects, and an access to an object that is gone is a
    fault.  The kernel is a parameter (Kernel.v): the class [Kernel] decides the
    result of every system call, every call is logged, and the theorems speak
    of the log: the bytes written to a descriptor, what epoll has registered,
    whether the eventfd has been signalled.  Lambdas and binds that the code
    stores are the constructors of the closure types of World.v; Reactor.v says
    what each one runs.

    Where threads interact, the critical sections are functions, and a
    transition system interleaves them (Wakeup.v, ThreadPool.v, LoopThread.v,
    TcpThreads.v), with waits on condition variables, notifications and
    spurious wakeups as steps.

    ** The files

    - Prelude, Ints: the monad, its weakest preconditions [wp] and tactics
      ([wp_step]); integers, bytes and slices of vectors.
    - Kernel, World: the system calls and their log; the state of one reactor.
    - Buffer (Buffer.hpp, Buffer.cc): all methods; the invariant [wf], the
      refinement to a queue of bytes, growth, integers in network byte order,
      readFd.
    - Poller, Channel (EPollPoller, Channel, and the parts of EventLoop they
      call): the epoll protocol, the dispatch of events.
    - TimerQueue (Timer.hpp, TimerQueue, the timer calls of EventLoop): the set
      of deadlines, handleRead with callbacks that add and cancel timers.
    - TcpConnection: the state machine, sending with the output buffer, the
      handlers; integrity of the byte stream; shutdown after the data.
    - EventLoop, Wakeup: construction, iteration, tasks and quit, once as
      functions and once as a transition system with any number of other
      threads.
    - ThreadPool, LoopThread (CountDownLatch, EventLoopThread): the bounded
      queue and its workers; the hand-over of a loop.
    - Endpoints (Acceptor, Connector, TcpServerSingle, TcpClient), InetAddress.
    - Reactor: the installed closures, so that the loop runs all of the above.
    - Frame, Reports, TimerRun, ServerInv, Server: the composition. [Frame]
      shows that a call on one connection leaves the rest of the world alone;
      [Reports] states what epoll_wait and accept4 promise; [ServerInv] is the
      invariant of the world of a server in its loop and [app_run] the calls of
      an application; [Server] shows that every iteration keeps it.
    - Lifetime, Teardown, Shared: the references that keep a connection alive and
      its destruction when the last one goes, in the loop of a server; the
      destructors of a thread's objects and a whole thread from its start to its
      end; the same loop while other threads use its connections.
    - TcpServer, TcpThreads (TcpServer): what a thread of the server runs up to
      its loop; how the threads start and stop.
    - Client (TcpClient, Connector in the loop): the attempts to connect and
      their repetition have an invariant of their own ([seeking]); the session
      from the first instruction to the end of the connection; the destruction
      of a client.
    - Os: a concrete kernel that satisfies the laws; the examples run on it.
    - Idle, Echo, AddOne, Clients (src/examples), Decimal: the example servers
      with one thread and the interactive clients, as applications of the above;
      std::to_string and std::stoll.
    - Sessions: the loop of a client while other threads use its connection, and
      the interactive clients with the thread of the standard input.
    - Logger (Logger.hpp), TestLogger (src/test): the lines of the log and where
      they go; the test program of the log.

    ** What is shown

    - Safety of the whole server ([connections_outlive_use], [shared_loop_safe],
      [thread_lifecycle]): for an application whose callbacks keep a contract, no
      assertion fails, no object is used after its end, no connection leaks, no
      empty function is called and no integer overflows, whatever the kernel
      answers within its laws and whatever other threads do with the connections
      between two handlers.  The calls of the library's interface keep the
      contract, in the loop's thread ([calls_keep_contract]) and from others
      ([foreign_calls_keep_server]).  The end of a thread closes and destroys
      what is its own, exactly ([thread_ends_clean], [sweep_destroys_unowned]).
      [server_loop_safe] and [runInThread_safe] are the same without destruction.
    - Safety of a client ([client_session_safe], [shared_client_safe],
      [interactive_session_safe], [interactive_client_safe]): from connecting,
      through every retry ([retry_restarts]), to the end of the connection; a
      client that is destroyed before leaves nothing behind
      ([client_destroyed_clean]).
    - What goes over the wire: [stream_integrity], [sendInLoop_exact],
      [shutdown_flushes], [fin_after_data], [readFd_delivers].
    - The data structures against their specifications: [buffer_refines_queue],
      [int_roundtrip], [append_growth], the timer queue, the bounded queue of
      the pool, the texts of addresses and numbers, the lines of the log
      ([log_delivers]).
    - The examples: [onMessage_echoes], [onMessage_answers], [onTimeout_sweeps],
      [callbacks_keep_contract], [user_thread_queues], [test_output].
    - Protocols: [channel_protocol], [newConnection_establishes],
      [client_establishes], [connector_outcome].
    - Concurrency: [no_lost_wakeup], [tasks_fifo_once], [pool_conserves_tasks],
      [pool_progress], [start_publishes_all], [server_stops],
      [startLoop_returns_loop], [stop_joins_workers].
    - Where the code does not do what it means to, a theorem shows how
      ([thread_end_aborts], [stopRead_outlives_connection],
      [quit_can_be_lost], [close_race], [startRead_after_close],
      [self_cancel_faults], [immediate_connect_faults],
      [destructor_can_dangle], [server_destructor_can_hang],
      [stop_strands_producer], [restart_aborts], [bad_number_ends_server],
      [client_dtor_dangles], [retry_restarts]), or an example does
      ([retry_race], [shutdown_after_close], [closed_before_end]).

    ** Assumptions, bounds and fuel

    [KernelLaws] bounds the results of system calls by their documentation
    (read returns at most as many bytes as asked for, errno is positive, the
    clock stays below 2^62 nanoseconds).  [Reports.Rep.Epoll] adds that
    epoll_wait reports channels that are registered and whose descriptor was not
    closed since, each once, with events they asked for, and no EPOLLHUP with
    urgent data and without EPOLLIN; and that socket and accept4 do not return
    the descriptor of the loop's eventfd, which is open.  [Os] satisfies both.
    One loop of the program has no bound of its own, that of the reactor:
    [Ev.loop], and [Life.loop] and [Share.loop] which add the destruction of
    connections and other threads, take the number of iterations as fuel and say
    whether they returned; the safety theorems hold for every number, and
    [loop_returns_on_quit] shows that the loop returns when it sees a quit
    between two iterations and that more fuel changes nothing.  The other
    recursions are structural, but for the year of a date in Logger.v, whose
    fuel of 200 years is more than a clock below 2^62 reaches.  Vectors are no
    longer than [Buf.max_size]; growing beyond faults with [LengthError] as
    std::vector does.  Allocation does not fail and addresses are not used again.

    ** Not modelled

    A connection that a callback drops the last reference of is destroyed where
    its handler ends, not inside of the callback.  In the theorems on a client's
    loop no client is destroyed, and the report of the retry timer together with
    the connector is left to their hypothesis on faults; what happens otherwise
    is [client_dtor_dangles] and the last part of [retry_restarts].
    Calls of other threads on a connection are single steps in Shared.v and
    Sessions.v; what a finer interleaving of forceClose or shutdown with a close
    does is [close_race].  Also left out are the data races of the C++ memory
    model (atomic steps are interleaved sequentially consistently), and with them
    the multi-threaded use of the example servers, whose map of connections is
    not locked; SIGPIPE, which the library ignores so that write fails with
    EPIPE, as it may here; the log lines of the other components (Logger.v models
    the log itself, and the abort of FATAL and SYSFATAL is part of every
    definition that logs them); overloads that forward to another one; and the declarations of the headers, which say nothing
    that the definitions of the methods do not. *)

From Stdlib Require Export ZArith Lia.
From Stdlib Require Export Strings.Byte.
From stdpp Require Export base tactics list gmap option.
From Stdlib Require Strings.String.
Export Strings.String.StringSyntax.

Bind Scope string_scope with String.string.

#[global] Open Scope Z_scope.

(** Heap addresses and file descriptors; [nullptr] is address 0. *)
Abbreviation ptr := Z (only parsing).
Abbreviation nullptr := 0 (only parsing).

(** ** Faults, outcomes and the state-and-fault monad *)

(** The ways a call can fail to return normally. *)
Inductive fault :=
  | AssertFail (what : String.string)      (* assert() of a debug build *)
  | Fatal (what : String.string)           (* FATAL / SYSFATAL: log and abort() *)
  | LengthError                     (* std::length_error of std::vector *)
  | BadFunctionCall                 (* calling an empty std::function *)
  | Uncaught (what : String.string)        (* another exception that nothing catches *)
  | OutOfBounds                     (* access outside a vector's elements *)
  | OverlapUB                       (* std::copy onto an overlapping range *)
  | SignedOverflow                  (* signed integer overflow *)
  | NullDeref                       (* dereference of nullptr *)
  | UseAfterFree                    (* access to an object that is not live *)
  | DoubleFree.                     (* delete of an object that is not live *)

#[export] Instance fault_eq_dec : EqDecision fault.
Proof. solve_decision. Defined.

(** Undefined behaviour, as opposed to a defined termination. *)
Definition is_ub (f : fault) : bool :=
  match f with
  | OutOfBounds | OverlapUB | SignedOverflow
  | NullDeref | UseAfterFree | DoubleFree => true
  | _ => false
  end.

Inductive outcome (S A : Type) :=
  | Ok (a : A) (s : S)
  | Err (f : fault).
Arguments Ok {S A} a s.
Arguments Err {S A} f.

Definition M (S A : Type) := S -> outcome S A.

Definition ret {S A} (a : A) : M S A := fun s => Ok a s.
Definition throw {S A} (f : fault) : M S A := fun _ => Err f.
Definition bind {S A B} (m : M S A) (k : A -> M S B) : M S B :=
  fun s => match m s with Ok a s' => k a s' | Err f => Err f end.
Definition gets {S A} (f : S -> A) : M S A := fun s => Ok (f s) s.
Definition modify {S} (f : S -> S) : M S unit := fun s => Ok tt (f s).

Declare Scope ev_scope.
Delimit Scope ev_scope with ev.
Notation "'let!' x := c 'in' k" := (bind c (fun x => k))
  (at level 10, x name, c at level 100, k at level 200) : ev_scope.
Notation "'let!' ' p := c 'in' k" := (bind c (fun p => k))
  (at level 10, p pattern, c at level 100, k at level 200) : ev_scope.
Notation "c ;;; k" := (bind c (fun _ => k))
  (at level 190, k at level 200, right associativity) : ev_scope.
#[global] Open Scope ev_scope.

(** [if (b) c;] *)
Definition when {S} (b : bool) (c : M S unit) : M S unit :=
  if b then c else ret tt.

(** [for (auto& x : l) f(x);] over a list fixed before the loop. *)
Fixpoint for_each {S A} (l : list A) (f : A -> M S unit) : M S unit :=
  match l with
  | [] => ret tt
  | x :: l' => f x ;;; for_each l' f
  end.

(** Dereference: [None] is an object that is not live. *)
Definition deref {S A} (f : fault) (g : S -> option A) : M S A :=
  fun s => match g s with Some a => Ok a s | None => Err f end.

(** The build: with NDEBUG defined (the Release build, CMakeLists.txt's
    default) [assert] expands to nothing. *)
Class Build := { ndebug : bool }.

Definition assert_ `{Build} {S} (b : bool) (what : String.string) : M S unit :=
  if ndebug || b then ret tt else throw (AssertFail what).

(** Run a computation on a component of the state. *)
Definition zoom {S T A} (get : S -> T) (put : T -> S -> S) (m : M T A) : M S A :=
  fun s => match m (get s) with
           | Ok a t => Ok a (put t s)
           | Err f => Err f
           end.

(** ** Weakest preconditions *)

(** [wp m E Q s]: from [s], [m] either returns normally with [Q] or faults
    with a fault allowed by [E]. *)
Definition wp {S A} (m : M S A) (E : fault -> Prop) (Q : A -> S -> Prop) (s : S) : Prop :=
  match m s with Ok a s' => Q a s' | Err f => E f end.

(** The two usual fault conditions. *)
Definition no_fault : fault -> Prop := fun _ => False.
Definition any_fault : fault -> Prop := fun _ => True.

Section wp.
Context {S : Type}.
Implicit Types (E : fault -> Prop) (s : S).

Lemma wp_mono {A} (m : M S A) E E' (Q Q' : A -> S -> Prop) s :
  wp m E Q s -> (forall f, E f -> E' f) -> (forall a s', Q a s' -> Q' a s') ->
  wp m E' Q' s.
Proof. unfold wp. destruct (m s); eauto. Qed.

Lemma wp_conseq {A} (m : M S A) E (Q Q' : A -> S -> Prop) s :
  wp m E Q s -> (forall a s', Q a s' -> Q' a s') -> wp m E Q' s.
Proof. intros. eapply wp_mono; eauto. Qed.

Lemma wp_weaken {A} (m : M S A) E (Q Q' : A -> S -> Prop) s :
  wp m no_fault Q s -> (forall a s', Q a s' -> Q' a s') -> wp m E Q' s.
Proof. intros. eapply wp_mono; eauto. by intros f []. Qed.

(** Two facts about one run. *)
Lemma wp_and {A} (m : M S A) E (Q Q' : A -> S -> Prop) s :
  wp m E Q s -> wp m any_fault Q' s -> wp m E (fun a s' => Q a s' /\ Q' a s') s.
Proof. unfold wp. destruct (m s); auto. Qed.

Lemma wp_bind {A B} (m : M S A) (k : A -> M S B) E Q s :
  wp m E (fun a s' => wp (k a) E Q s') s -> wp (bind m k) E Q s.
Proof. unfold wp, bind. by destruct (m s). Qed.

Lemma bind_assoc {A B C} (m : M S A) (k : A -> M S B) (k' : B -> M S C) s :
  bind (bind m k) k' s = bind m (fun a => bind (k a) k') s.
Proof. unfold bind. by destruct (m s). Qed.

Lemma bind_ext {A B} (m : M S A) (k k' : A -> M S B) s :
  (forall a s', k a s' = k' a s') -> bind m k s = bind m k' s.
Proof. unfold bind. by destruct (m s). Qed.

Lemma wp_bind_inv {A B} (m : M S A) (k : A -> M S B) E Q s :
  wp (bind m k) E Q s -> wp m E (fun a s' => wp (k a) E Q s') s.
Proof. unfold wp, bind. by destruct (m s). Qed.

Lemma wp_ret {A} (a : A) E (Q : A -> S -> Prop) s : Q a s -> wp (ret a) E Q s.
Proof. done. Qed.
Lemma wp_throw {A} f E (Q : A -> S -> Prop) s : E f -> wp (throw f) E Q s.
Proof. done. Qed.
Lemma wp_gets {A} (f : S -> A) E Q s : Q (f s) s -> wp (gets f) E Q s.
Proof. done. Qed.
Lemma wp_modify f E (Q : unit -> S -> Prop) s : Q tt (f s) -> wp (modify f) E Q s.
Proof. done. Qed.
Lemma wp_deref {A} f (g : S -> option A) E Q s :
  (forall a, g s = Some a -> Q a s) -> (g s = None -> E f) -> wp (deref f g) E Q s.
Proof. unfold wp, deref. destruct (g s); eauto. Qed.
Lemma wp_when b (c : M S unit) E Q s :
  (b = true -> wp c E Q s) -> (b = false -> Q tt s) -> wp (when b c) E Q s.
Proof. destruct b; simpl; intros; [auto|apply wp_ret; auto]. Qed.

Lemma wp_assert `{Build} b what E (Q : unit -> S -> Prop) s :
  (ndebug = true \/ b = true -> Q tt s) ->
  (ndebug = false -> b = false -> E (AssertFail what)) ->
  wp (assert_ b what) E Q s.
Proof. unfold wp, assert_. destruct ndebug, b; simpl; auto. Qed.

Lemma wp_assert_true `{Build} b what E (Q : unit -> S -> Prop) s :
  b = true -> Q tt s -> wp (assert_ b what) E Q s.
Proof. intros ->. unfold wp, assert_. rewrite orb_true_r. done. Qed.

Lemma wp_zoom {T A} (get : S -> T) (put : T -> S -> S) (m : M T A) E Q s :
  wp m E (fun a t => Q a (put t s)) (get s) -> wp (zoom get put m) E Q s.
Proof. unfold wp, zoom. by destruct (m (get s)). Qed.

Lemma wp_for_each {A} (l : list A) (f : A -> M S unit) E (I : list A -> S -> Prop) s :
  I l s ->
  (forall x l' s', I (x :: l') s' -> wp (f x) E (fun _ => I l') s') ->
  wp (for_each l f) E (fun _ => I []) s.
Proof.
  intros HI Hf. revert s HI. induction l as [|x l IH]; intros s HI; simpl.
  - by apply wp_ret.
  - apply wp_bind. eapply wp_conseq; [by apply Hf|]. simpl. intros. by apply IH.
Qed.

(** A run that returned satisfies every postcondition. *)
Lemma wp_ok {A} (m : M S A) E Q s a s' : m s = Ok a s' -> wp m E Q s -> Q a s'.
Proof. unfold wp. intros ->. done. Qed.
Lemma wp_total {A} (m : M S A) Q s : wp m no_fault Q s -> exists a s', m s = Ok a s' /\ Q a s'.
Proof. unfold wp. destruct (m s); [eauto | intros []]. Qed.

(** The state after a run that is known to return. *)
Definition is_ok {A} (o : outcome S A) : bool := match o with Ok _ _ => true | Err _ => false end.
Definition after {A} (o : outcome S A) (d : S) : S := match o with Ok _ s => s | Err _ => d end.
Lemma wp_after {A} (m : M S A) E Q s d : wp m E Q s -> is_ok (m s) = true -> exists a, Q a (after (m s) d).
Proof. unfold wp. destruct (m s) as [a s'|f]; [by exists a|done]. Qed.
End wp.

(** Reading a computed option off. *)
Lemma is_some {T} (o : option T) (P : T -> Prop) :
  match o with Some x => P x | None => False end -> exists x, o = Some x /\ P x.
Proof. destruct o as [x|]; [by exists x|done]. Qed.

(** Invariant preservation as a class, so that the preservation of a program
    is found from the preservation of its operations by instance search. *)
Class Preserves {S A} (I : S -> Prop) (m : M S A) : Prop :=
  preserves : forall s, I s -> wp m any_fault (fun _ => I) s.
#[global] Hint Mode Preserves - - ! ! : typeclass_instances.

Section preserves.
Context {S : Type} (I : S -> Prop).

#[global] Instance ret_preserves {A} (a : A) : Preserves I (ret a).
Proof. intros s Hs. by apply wp_ret. Qed.
#[global] Instance throw_preserves {A} f : Preserves (A := A) I (throw f).
Proof. intros s Hs. by apply wp_throw. Qed.
#[global] Instance gets_preserves {A} (f : S -> A) : Preserves I (gets f).
Proof. intros s Hs. by apply wp_gets. Qed.
#[global] Instance deref_preserves {A} f (g : S -> option A) : Preserves I (deref f g).
Proof. intros s Hs. by apply wp_deref. Qed.
#[global] Instance assert_preserves `{Build} b what : Preserves I (assert_ b what).
Proof. intros s Hs. by apply wp_assert. Qed.
#[global] Instance bind_preserves {A B} (m : M S A) (k : A -> M S B) :
  Preserves I m -> (forall a, Preserves I (k a)) -> Preserves I (bind m k).
Proof.
  intros Hm Hk s Hs. apply wp_bind. eapply wp_conseq; [by apply Hm|].
  intros a s' Hs'. by apply Hk.
Qed.
#[global] Instance if_preserves {A} (b : bool) (m n : M S A) :
  Preserves I m -> Preserves I n -> Preserves I (if b then m else n).
Proof. by destruct b. Qed.
#[global] Instance when_preserves b (m : M S unit) :
  Preserves I m -> Preserves I (when b m).
Proof. unfold when. apply _. Qed.
#[global] Instance for_each_preserves {A} (l : list A) (f : A -> M S unit) :
  (forall x, Preserves I (f x)) -> Preserves I (for_each l f).
Proof.
  intros Hf s Hs. apply (wp_for_each l f any_fault (fun _ => I)); [done|].
  intros x _ s' Hs'. by apply Hf.
Qed.
End preserves.

(** One step of symbolic execution. *)
Ltac wp_step :=
  match goal with
  | |- wp (bind _ _) _ _ _ => apply wp_bind
  | |- wp (ret _) _ _ _ => apply wp_ret
  | |- wp (gets _) _ _ _ => apply wp_gets
  | |- wp (modify _) _ _ _ => apply wp_modify
  | |- wp (throw _) _ _ _ => apply wp_throw
  | |- wp (if ?b then _ else _) _ _ _ => destruct b eqn:?
  | |- wp (when _ _) _ _ _ => apply wp_when; intros
  | |- wp (deref _ _) _ _ _ => apply wp_deref; intros
  | |- wp (zoom _ _ _) _ _ _ => apply wp_zoom
  | |- wp (match ?x with _ => _ end) _ _ _ => destruct x eqn:?
  end; cbn beta.
Ltac wp_steps := repeat wp_step.

(** A measure summed over a list. *)
Definition total {X} (f : X -> nat) (l : list X) : nat := foldr (fun x n => (f x + n)%nat) O l.
Lemma total_insert {X} (f : X -> nat) l i x y : l !! i = Some y ->
  (total f (<[i := x]> l) + f y = total f l + f x)%nat.
Proof.
  revert i. induction l as [|z l IH]; intros [|i] Hi; simplify_eq/=; [lia|].
  specialize (IH i Hi). lia.
Qed.

(** Turn boolean comparisons on [Z] into propositions. *)
Ltac zbool :=
  repeat match goal with
  | H : (_ <? _) = true |- _ => apply Z.ltb_lt in H
  | H : (_ <? _) = false |- _ => apply Z.ltb_ge in H
  | H : (_ <=? _) = true |- _ => apply Z.leb_le in H
  | H : (_ <=? _) = false |- _ => apply Z.leb_gt in H
  | H : (_ =? _) = true |- _ => apply Z.eqb_eq in H
  | H : (_ =? _) = false |- _ => apply Z.eqb_neq in H
  | H : (_ && _) = true |- _ => apply andb_true_iff in H; destruct H
  | H : (_ || _) = false |- _ => apply orb_false_iff in H; destruct H
  | H : negb _ = true |- _ => apply negb_true_iff in H
  | H : negb _ = false |- _ => apply negb_false_iff in H
  end.
