(* ===== verification/Ints.v ===== *)
(** Machine integers, bytes and byte ranges: the generic facts about widths,
    two's complement, little-endian memory representation and slices of a
    byte vector that the components share. *)

From S2P Require Import Prelude.

(** ** Widths *)

(** Unsigned and signed reduction to [n] bits (C++20: two's complement). *)
Definition wrapu (n z : Z) : Z := z mod 2 ^ n.
Definition wraps (n z : Z) : Z := wrapu n (z + 2 ^ (n - 1)) - 2 ^ (n - 1).

Abbreviation u64 := (wrapu 64).
Abbreviation u32 := (wrapu 32).
Abbreviation u16 := (wrapu 16).

Definition in_range_s (n z : Z) : bool := (- 2 ^ (n - 1) <=? z) && (z <? 2 ^ (n - 1)).

(** Addition of the 64-bit representation of a std::chrono duration. *)
Definition add_i64 {S} (a b : Z) : M S Z :=
  if in_range_s 64 (a + b) then ret (a + b) else throw SignedOverflow.

Lemma wrapu_small n z : 0 <= z < 2 ^ n -> wrapu n z = z.
Proof. intros. by apply Z.mod_small. Qed.

Lemma wrapu_range n z : 0 <= n -> 0 <= wrapu n z < 2 ^ n.
Proof. intros. apply Z.mod_pos_bound. lia. Qed.

Lemma wraps_small n z : 0 < n -> - 2 ^ (n - 1) <= z < 2 ^ (n - 1) -> wraps n z = z.
Proof.
  intros Hn Hz. unfold wraps. rewrite wrapu_small; [lia|].
  assert (2 ^ n = 2 * 2 ^ (n - 1)) by (rewrite <- Z.pow_succ_r by lia; f_equal; lia).
  lia.
Qed.

Lemma wraps_wrapu n z : 0 < n -> wraps n (wrapu n z) = wraps n z.
Proof. intros. unfold wraps, wrapu. by rewrite Zplus_mod_idemp_l. Qed.

(** ** Bytes *)

#[export] Instance byte_eq_dec : EqDecision byte := Byte.byte_eq_dec.

Definition byte_val (b : byte) : Z := Z.of_N (Byte.to_N b).
Definition to_byte (z : Z) : byte :=
  match Byte.of_N (Z.to_N (wrapu 8 z)) with Some b => b | None => x00 end.

Lemma byte_val_range b : 0 <= byte_val b < 2 ^ 8.
Proof. unfold byte_val. pose proof (Byte.to_N_bounded b). lia. Qed.

Lemma byte_val_to_byte z : byte_val (to_byte z) = wrapu 8 z.
Proof.
  unfold byte_val, to_byte. pose proof (wrapu_range 8 z ltac:(lia)) as Hr.
  destruct (Byte.of_N _) as [b|] eqn:Hb.
  - apply Byte.to_of_N in Hb. rewrite Hb. lia.
  - apply Byte.of_N_None_iff in Hb. change (2 ^ 8) with 256 in Hr. lia.
Qed.

Lemma to_byte_val b : to_byte (byte_val b) = b.
Proof.
  unfold to_byte. rewrite wrapu_small by apply byte_val_range.
  unfold byte_val. rewrite N2Z.id. by rewrite Byte.of_to_N.
Qed.

(** ** Little-endian representation in memory *)

Fixpoint le_bytes (n : nat) (z : Z) : list byte :=
  match n with
  | O => []
  | S n' => to_byte z :: le_bytes n' (z / 2 ^ 8)
  end.
Fixpoint le_value (l : list byte) : Z :=
  match l with
  | [] => 0
  | b :: l' => byte_val b + 2 ^ 8 * le_value l'
  end.

Lemma length_le_bytes n z : length (le_bytes n z) = n.
Proof. revert z. induction n; simpl; auto. Qed.

Lemma le_value_range l : 0 <= le_value l < 2 ^ (8 * Z.of_nat (length l)).
Proof.
  induction l as [|b l IH]; simpl length; simpl le_value; [lia|].
  pose proof (byte_val_range b). rewrite Nat2Z.inj_succ.
  replace (8 * Z.succ (Z.of_nat (length l))) with (8 + 8 * Z.of_nat (length l)) by lia.
  rewrite Z.pow_add_r by lia. nia.
Qed.

Lemma le_value_le_bytes n z : le_value (le_bytes n z) = wrapu (8 * Z.of_nat n) z.
Proof.
  revert z. induction n as [|n IH]; intros z; simpl le_bytes; simpl le_value.
  - unfold wrapu. by rewrite Z.mod_1_r.
  - rewrite IH, byte_val_to_byte. unfold wrapu. rewrite Nat2Z.inj_succ.
    replace (8 * Z.succ (Z.of_nat n)) with (8 + 8 * Z.of_nat n) by lia.
    rewrite Z.pow_add_r, Z.rem_mul_r by lia. done.
Qed.

Lemma le_bytes_le_value l : le_bytes (length l) (le_value l) = l.
Proof.
  induction l as [|b l IH]; simpl; [done|]. pose proof (byte_val_range b). f_equal.
  - rewrite <- (to_byte_val b) at 2. unfold to_byte.
    assert (wrapu 8 (byte_val b + 2 ^ 8 * le_value l) = wrapu 8 (byte_val b)) as ->; [|done].
    unfold wrapu.
    rewrite (Z.mul_comm (2 ^ 8)), Z_mod_plus_full. done.
  - replace ((byte_val b + 2 ^ 8 * le_value l) / 2 ^ 8) with (le_value l); [done|].
    rewrite Z.mul_comm, Z.div_add by lia. rewrite Z.div_small by done. lia.
Qed.

Lemma le_bytes_wrapu n z : le_bytes n (wrapu (8 * Z.of_nat n) z) = le_bytes n z.
Proof.
  rewrite <- le_value_le_bytes. rewrite <- (length_le_bytes n z) at 1.
  apply le_bytes_le_value.
Qed.

Lemma le_bytes_wraps n z : le_bytes n (wraps (8 * Z.of_nat n) z) = le_bytes n z.
Proof.
  rewrite <- le_bytes_wrapu, <- (le_bytes_wrapu n z). f_equal. unfold wraps, wrapu.
  rewrite Zminus_mod_idemp_l. f_equal. lia.
Qed.

(** ** Ranges of a byte vector *)

Definition zlen {A} (l : list A) : Z := Z.of_nat (length l).
(** The elements at offsets [off .. off+len). *)
Definition slice {A} (off len : Z) (l : list A) : list A :=
  take (Z.to_nat len) (drop (Z.to_nat off) l).
(** [l] with the elements from [off] on overwritten by [d]. *)
Definition splice {A} (off : Z) (d l : list A) : list A :=
  take (Z.to_nat off) l ++ d ++ drop (Z.to_nat off + length d) l.

Section slices.
Context {A : Type}.
Implicit Types (l d : list A).

Lemma zlen_nonneg l : 0 <= zlen l.
Proof. unfold zlen. lia. Qed.
Lemma zlen_app l d : zlen (l ++ d) = zlen l + zlen d.
Proof. unfold zlen. rewrite length_app. lia. Qed.
Lemma zlen_nil : zlen (@nil A) = 0.
Proof. done. Qed.
Lemma zlen_zero_nil l : zlen l = 0 <-> l = [].
Proof. unfold zlen. destruct l; simpl; split; intros; (done || lia). Qed.
Lemma zlen_slice off len l :
  0 <= off -> 0 <= len -> off + len <= zlen l -> zlen (slice off len l) = len.
Proof. unfold zlen, slice. intros. rewrite length_take, length_drop. lia. Qed.
Lemma zlen_splice off d l :
  0 <= off -> off + zlen d <= zlen l -> zlen (splice off d l) = zlen l.
Proof. unfold zlen, splice. intros. rewrite !length_app, length_take, length_drop. lia. Qed.
Lemma zlen_take n l : 0 <= n <= zlen l -> zlen (take (Z.to_nat n) l) = n.
Proof. unfold zlen. intros. rewrite length_take. lia. Qed.
Lemma zlen_drop n l : 0 <= n <= zlen l -> zlen (drop (Z.to_nat n) l) = zlen l - n.
Proof. unfold zlen. intros. rewrite length_drop. lia. Qed.

Lemma slice_0 off l : slice off 0 l = [].
Proof. done. Qed.
Lemma slice_all l : slice 0 (zlen l) l = l.
Proof. unfold slice, zlen. rewrite Nat2Z.id. simpl. by rewrite drop_0, firstn_all. Qed.

Lemma slice_app off n m l :
  0 <= off -> 0 <= n -> 0 <= m -> slice off (n + m) l = slice off n l ++ slice (off + n) m l.
Proof.
  intros. unfold slice. rewrite !Z2Nat.inj_add by lia.
  rewrite <- drop_drop. generalize (drop (Z.to_nat off) l) as k. intros k.
  rewrite <- (take_drop (Z.to_nat n) (take (Z.to_nat n + Z.to_nat m) k)).
  rewrite take_take, skipn_firstn_comm. f_equal; f_equal; lia.
Qed.

Lemma drop_slice off n len l :
  0 <= off -> 0 <= n <= len -> drop (Z.to_nat n) (slice off len l) = slice (off + n) (len - n) l.
Proof.
  intros. unfold slice. rewrite skipn_firstn_comm, drop_drop.
  rewrite Z2Nat.inj_add, Z2Nat.inj_sub by lia. done.
Qed.

Lemma take_slice off n len l :
  0 <= n <= len -> take (Z.to_nat n) (slice off len l) = slice off n l.
Proof. intros. unfold slice. rewrite take_take. f_equal. lia. Qed.

(** Reading back what was written. *)
Lemma slice_splice_same off d l :
  0 <= off -> off <= zlen l -> slice off (zlen d) (splice off d l) = d.
Proof.
  unfold zlen, slice, splice. intros. rewrite Nat2Z.id.
  rewrite drop_app_length' by (rewrite length_take; lia).
  by rewrite take_app_length.
Qed.

(** Reading before, and after, the written range. *)
Lemma slice_splice_before off d l o n :
  0 <= o -> 0 <= n -> o + n <= off -> off <= zlen l -> slice o n (splice off d l) = slice o n l.
Proof.
  unfold zlen, slice, splice. intros.
  rewrite drop_app_le, skipn_firstn_comm by (rewrite length_take; lia).
  rewrite take_app_le by (rewrite length_take, length_drop; lia).
  rewrite take_take. f_equal. lia.
Qed.

Lemma slice_app_before o n l d :
  0 <= o -> 0 <= n -> o + n <= zlen l -> slice o n (l ++ d) = slice o n l.
Proof.
  unfold zlen, slice. intros. rewrite drop_app_le by lia.
  rewrite take_app_le by (rewrite length_drop; lia). done.
Qed.

Lemma slice_splice_after off d l o n :
  0 <= off -> 0 <= n -> off + zlen d <= o -> off + zlen d <= zlen l ->
  slice o n (splice off d l) = slice o n l.
Proof.
  unfold zlen, slice, splice. intros.
  rewrite (app_assoc (take _ _)).
  rewrite drop_app_ge by (rewrite length_app, length_take; lia).
  rewrite length_app, length_take, drop_drop. f_equal. f_equal. lia.
Qed.
End slices.

Create HintDb ev discriminated.
Create Rewrite HintDb ev.
#[export] Hint Rewrite @zlen_app @zlen_nil @slice_0 @slice_all length_le_bytes : ev.
#[export] Hint Resolve zlen_nonneg : ev.
