(* ===== verification/Buffer.v ===== *)
(** The byte buffer of src/Buffer.hpp and src/Buffer.cc: a vector of bytes
    with a prepend area, the readable bytes and the writable space, addressed
    by two [size_t] indices.  Every method is a computation over [Buffer]
    whose index arithmetic wraps at 64 bits, whose [assert]s are those of the
    source, and which faults when the source would touch memory outside the
    vector.  Pointers into the buffer are offsets from [begin()]. *)

From S2P Require Import Prelude Ints.

Module Buf.

(** ** Data *)

Definition kCheapPrepend : Z := 8.
Definition kInitialSize : Z := 1024.
Definition kCRLF : list byte := [x0d; x0a].
(** std::vector<char>::max_size(). *)
Definition max_size : Z := 2 ^ 63 - 1.

Record Buffer := mkBuffer {
  buffer_ : list byte;
  readerIndex_ : Z;
  writerIndex_ : Z
}.

#[export] Instance Buffer_eq_dec : EqDecision Buffer.
Proof. solve_decision. Defined.

Definition size (b : Buffer) : Z := zlen (buffer_ b).
Definition set_buffer (v : list byte) (b : Buffer) : Buffer :=
  mkBuffer v (readerIndex_ b) (writerIndex_ b).
Definition set_reader (r : Z) (b : Buffer) : Buffer :=
  mkBuffer (buffer_ b) r (writerIndex_ b).
Definition set_writer (w : Z) (b : Buffer) : Buffer :=
  mkBuffer (buffer_ b) (readerIndex_ b) w.

(** ** Observers *)

Definition readableBytes (b : Buffer) : Z := u64 (writerIndex_ b - readerIndex_ b).
Definition writableBytes (b : Buffer) : Z := u64 (size b - writerIndex_ b).
Definition prependableBytes (b : Buffer) : Z := readerIndex_ b.
Definition peek (b : Buffer) : Z := readerIndex_ b.
Definition beginWrite (b : Buffer) : Z := writerIndex_ b.

Section ops.
Context `{Build}.

Definition Buffer_ctor {S} (initialSize : Z) : M S Buffer :=
  let b := mkBuffer (replicate (Z.to_nat (u64 (kCheapPrepend + initialSize))) x00)
                    kCheapPrepend kCheapPrepend in
  assert_ (readableBytes b =? 0) "readableBytes() == 0" ;;;
  assert_ (writableBytes b =? initialSize) "writableBytes() == initialSize" ;;;
  assert_ (prependableBytes b =? kCheapPrepend) "prependableBytes() == kCheapPrepend" ;;;
  ret b.

(** [swap(rhs)] on the pair of buffers. *)
Definition swap (p : Buffer * Buffer) : Buffer * Buffer :=
  let '(lhs, rhs) := p in
  (mkBuffer (buffer_ rhs) (readerIndex_ rhs) (writerIndex_ rhs),
   mkBuffer (buffer_ lhs) (readerIndex_ lhs) (writerIndex_ lhs)).

(** ** Memory accesses *)

(** The bytes in [off .. off+len). *)
Definition load (off len : Z) : M Buffer (list byte) :=
  fun b => if (0 <=? off) && (0 <=? len) && (off + len <=? size b)
           then Ok (slice off len (buffer_ b)) b else Err OutOfBounds.
(** std::copy of [d], which lies outside the vector, to [off]. *)
Definition store (off : Z) (d : list byte) : M Buffer unit :=
  fun b => if (0 <=? off) && (off + zlen d <=? size b)
           then Ok tt (set_buffer (splice off d (buffer_ b)) b) else Err OutOfBounds.
(** std::copy(begin()+first, begin()+last, begin()+dest): the destination
    must not lie in the source range. *)
Definition copy_within (first last dest : Z) : M Buffer unit :=
  if (first <=? dest) && (dest <? last) then throw OverlapUB else
  let! d := load first (last - first) in
  store dest d.
(** std::vector::resize: new elements are zero. *)
Definition resize (n : Z) : M Buffer unit :=
  fun b => if max_size <? n then Err LengthError
           else Ok tt (set_buffer (take (Z.to_nat n) (buffer_ b) ++
                         replicate (Z.to_nat n - length (buffer_ b)) x00) b).

(** ** Searching *)

(** std::search over the bytes [l], whose first byte is at offset [off]:
    the offset of the first occurrence of [pat], or that of the end. *)
Fixpoint search (pat l : list byte) (off : Z) : Z :=
  if bool_decide (take (length pat) l = pat) then off else
  match l with [] => off | _ :: l' => search pat l' (off + 1) end.

(** memchr: the offset of the first [c] in [l]. *)
Fixpoint memchr (c : byte) (l : list byte) (off : Z) : option Z :=
  match l with
  | [] => None
  | x :: l' => if bool_decide (x = c) then Some off else memchr c l' (off + 1)
  end.

Definition findCRLF_from (start : Z) : M Buffer (option Z) :=
  let! b := gets id in
  assert_ (peek b <=? start) "peek() <= start" ;;;
  assert_ (start <=? beginWrite b) "start <= beginWrite()" ;;;
  let! l := load start (beginWrite b - start) in
  let crlf := search kCRLF l start in
  ret (if crlf =? beginWrite b then None else Some crlf).

Definition findCRLF : M Buffer (option Z) :=
  let! b := gets id in
  let! l := load (peek b) (beginWrite b - peek b) in
  let crlf := search kCRLF l (peek b) in
  ret (if crlf =? beginWrite b then None else Some crlf).

Definition findEOL : M Buffer (option Z) :=
  let! b := gets id in
  let! l := load (peek b) (readableBytes b) in
  ret (memchr x0a l (peek b)).

Definition findEOL_from (start : Z) : M Buffer (option Z) :=
  let! b := gets id in
  assert_ (peek b <=? start) "peek() <= start" ;;;
  assert_ (start <=? beginWrite b) "start <= beginWrite()" ;;;
  let! l := load start (beginWrite b - start) in
  ret (memchr x0a l start).

(** ** Retrieving *)

Definition retrieveAll : M Buffer unit :=
  modify (fun b => mkBuffer (buffer_ b) kCheapPrepend kCheapPrepend).

Definition retrieve (len : Z) : M Buffer unit :=
  let! b := gets id in
  assert_ (len <=? readableBytes b) "len <= readableBytes()" ;;;
  if len <? readableBytes b
  then modify (fun b => set_reader (u64 (readerIndex_ b + len)) b)
  else retrieveAll.

Definition retrieveUntil (e : Z) : M Buffer unit :=
  let! b := gets id in
  assert_ (peek b <=? e) "peek() <= end" ;;;
  assert_ (e <=? beginWrite b) "end <= beginWrite()" ;;;
  retrieve (u64 (e - peek b)).

Definition retrieveInt64 : M Buffer unit := retrieve 8.
Definition retrieveInt32 : M Buffer unit := retrieve 4.
Definition retrieveInt16 : M Buffer unit := retrieve 2.
Definition retrieveInt8 : M Buffer unit := retrieve 1.

Definition retrieveAsString (len : Z) : M Buffer (list byte) :=
  let! b := gets id in
  assert_ (len <=? readableBytes b) "len <= readableBytes()" ;;;
  let! result := load (peek b) len in
  retrieve len ;;;
  ret result.

Definition retrieveAllAsString : M Buffer (list byte) :=
  let! b := gets id in
  retrieveAsString (readableBytes b).

(** ** Appending *)

Definition makeSpace (len : Z) : M Buffer unit :=
  let! b := gets id in
  if u64 (writableBytes b + prependableBytes b) <? u64 (len + kCheapPrepend)
  then resize (u64 (writerIndex_ b + len))
  else
    assert_ (kCheapPrepend <? readerIndex_ b) "kCheapPrepend < readerIndex_" ;;;
    let readable := readableBytes b in
    copy_within (readerIndex_ b) (writerIndex_ b) kCheapPrepend ;;;
    modify (set_reader kCheapPrepend) ;;;
    modify (fun b => set_writer (u64 (readerIndex_ b + readable)) b) ;;;
    let! b' := gets id in
    assert_ (readable =? readableBytes b') "readable == readableBytes()".

Definition ensureWritableBytes (len : Z) : M Buffer unit :=
  let! b := gets id in
  when (writableBytes b <? len) (makeSpace len) ;;;
  let! b' := gets id in
  assert_ (len <=? writableBytes b') "writableBytes() >= len".

Definition hasWritten (len : Z) : M Buffer unit :=
  let! b := gets id in
  assert_ (len <=? writableBytes b) "len <= writableBytes()" ;;;
  modify (fun b => set_writer (u64 (writerIndex_ b + len)) b).

(** append(const char* data, size_t len), the other overloads forward to it. *)
Definition append (data : list byte) : M Buffer unit :=
  ensureWritableBytes (zlen data) ;;;
  let! b := gets id in
  store (beginWrite b) data ;;;
  hasWritten (zlen data).

Definition prepend (data : list byte) : M Buffer unit :=
  let! b := gets id in
  assert_ (zlen data <=? prependableBytes b) "len <= prependableBytes()" ;;;
  modify (fun b => set_reader (u64 (readerIndex_ b - zlen data)) b) ;;;
  let! b' := gets id in
  store (readerIndex_ b') data.

(** ** Integers in network byte order *)

(** htobe16/32/64 and be16/32/64toh on the little-endian host: the value
    whose [n] bytes are those of [x] reversed. *)
Definition bswap (n : nat) (x : Z) : Z := le_value (rev (le_bytes n x)).
(** The object representation of an [n]-byte integer. *)
Definition object_bytes (n : nat) (x : Z) : list byte := le_bytes n x.
(** Conversion of the object representation back to a signed integer. *)
Definition bytes_object (n : nat) (l : list byte) : Z := wraps (8 * Z.of_nat n) (le_value l).

Definition htobe (n : nat) (x : Z) : Z :=
  wraps (8 * Z.of_nat n) (bswap n (wrapu (8 * Z.of_nat n) x)).
Definition betoh (n : nat) (x : Z) : Z :=
  wraps (8 * Z.of_nat n) (bswap n (wrapu (8 * Z.of_nat n) x)).

Definition appendInt64 (x : Z) : M Buffer unit := append (object_bytes 8 (htobe 8 x)).
Definition appendInt32 (x : Z) : M Buffer unit := append (object_bytes 4 (htobe 4 x)).
Definition appendInt16 (x : Z) : M Buffer unit := append (object_bytes 2 (htobe 2 x)).
Definition appendInt8 (x : Z) : M Buffer unit := append (object_bytes 1 x).

Definition prependInt64 (x : Z) : M Buffer unit := prepend (object_bytes 8 (htobe 8 x)).
Definition prependInt32 (x : Z) : M Buffer unit := prepend (object_bytes 4 (htobe 4 x)).
Definition prependInt16 (x : Z) : M Buffer unit := prepend (object_bytes 2 (htobe 2 x)).
Definition prependInt8 (x : Z) : M Buffer unit := prepend (object_bytes 1 x).

(** memcpy of sizeof bytes from peek(), then the conversion. *)
Definition peek_object (n : nat) : M Buffer Z :=
  let! b := gets id in
  assert_ (Z.of_nat n <=? readableBytes b) "readableBytes() >= sizeof" ;;;
  let! l := load (peek b) (Z.of_nat n) in
  ret (bytes_object n l).

Definition peekInt64 : M Buffer Z := let! be64 := peek_object 8 in ret (betoh 8 be64).
Definition peekInt32 : M Buffer Z := let! be32 := peek_object 4 in ret (betoh 4 be32).
Definition peekInt16 : M Buffer Z := let! be16 := peek_object 2 in ret (betoh 2 be16).
Definition peekInt8 : M Buffer Z := peek_object 1.

Definition readInt64 : M Buffer Z :=
  let! result := peekInt64 in retrieveInt64 ;;; ret result.
Definition readInt32 : M Buffer Z :=
  let! result := peekInt32 in retrieveInt32 ;;; ret result.
Definition readInt16 : M Buffer Z :=
  let! result := peekInt16 in retrieveInt16 ;;; ret result.
Definition readInt8 : M Buffer Z :=
  let! result := peekInt8 in retrieveInt8 ;;; ret result.

(** ** Reading from a file descriptor *)

Definition sizeof_extrabuf : Z := 65536.

(** The capacity of the iovecs passed to readv. *)
Definition readFd_capacity (b : Buffer) : Z :=
  let writable := writableBytes b in
  let iovcnt := if writable <? sizeof_extrabuf then 2 else 1 in
  if iovcnt =? 2 then writable + sizeof_extrabuf else writable.

(** readFd, given what readv delivers: the bytes it read (at most the
    capacity), or [inr errno].  readv itself fills the writable space first,
    then [extrabuf]. *)
Definition readFd (r : list byte + Z) : M Buffer (Z * option Z) :=
  let! b := gets id in
  let writable := writableBytes b in
  match r with
  | inr errno => ret (-1, Some errno)
  | inl bytes =>
      let n := zlen bytes in
      store (writerIndex_ b) (take (Z.to_nat writable) bytes) ;;;
      let extrabuf := drop (Z.to_nat writable) bytes in
      (if n <=? writable
       then modify (fun b => set_writer (u64 (writerIndex_ b + n)) b)
       else
         modify (fun b => set_writer (size b) b) ;;;
         append extrabuf) ;;;
      ret (n, None)
  end.

End ops.

(** ** Abstraction and invariant *)

(** The readable bytes. *)
Definition contents (b : Buffer) : list byte :=
  slice (readerIndex_ b) (writerIndex_ b - readerIndex_ b) (buffer_ b).

Definition wf (b : Buffer) : Prop :=
  0 <= readerIndex_ b <= writerIndex_ b /\ writerIndex_ b <= size b <= max_size /\
  kCheapPrepend <= writerIndex_ b.

(** A call that is not a prepend leaves the cheap-prepend room and does not
    move the end of the data up, but for the bytes [n] it appends. *)
Definition steady (n : Z) (b b' : Buffer) : Prop :=
  writerIndex_ b' <= writerIndex_ b + n /\
  Z.min kCheapPrepend (readerIndex_ b) <= readerIndex_ b'.

Section specs.
Context `{Build}.
Implicit Types (b : Buffer) (d : list byte).

Lemma zlen_contents b : wf b -> zlen (contents b) = writerIndex_ b - readerIndex_ b.
Proof. intros (?&?&?). apply zlen_slice; unfold size in *; lia. Qed.
Lemma readable_wf b : wf b -> readableBytes b = writerIndex_ b - readerIndex_ b.
Proof. intros (?&?&?). apply wrapu_small. unfold max_size in *. lia. Qed.
Lemma readable_contents b : wf b -> readableBytes b = zlen (contents b).
Proof. intros. rewrite readable_wf, zlen_contents; auto. Qed.
Lemma writable_wf b : wf b -> writableBytes b = size b - writerIndex_ b.
Proof. intros (?&?&?). apply wrapu_small. unfold max_size in *. lia. Qed.

Lemma wp_load off len E (Q : list byte -> Buffer -> Prop) b :
  0 <= off -> 0 <= len -> off + len <= size b -> Q (slice off len (buffer_ b)) b ->
  wp (load off len) E Q b.
Proof.
  intros. unfold wp, load. rewrite !(proj2 (Z.leb_le _ _)) by lia. done.
Qed.
Lemma wp_store off d E (Q : unit -> Buffer -> Prop) b :
  0 <= off -> off + zlen d <= size b -> Q tt (set_buffer (splice off d (buffer_ b)) b) ->
  wp (store off d) E Q b.
Proof.
  intros. unfold wp, store. rewrite !(proj2 (Z.leb_le _ _)) by lia. done.
Qed.
Lemma wp_resize n E (Q : unit -> Buffer -> Prop) b :
  n <= max_size ->
  Q tt (set_buffer (take (Z.to_nat n) (buffer_ b) ++
          replicate (Z.to_nat n - length (buffer_ b)) x00) b) ->
  wp (resize n) E Q b.
Proof. intros. unfold wp, resize. rewrite (proj2 (Z.ltb_ge _ _)) by lia. done. Qed.

(** Growing the vector keeps the readable bytes. *)
Lemma grow_contents b n :
  wf b -> size b <= n <= max_size ->
  let b' := set_buffer (take (Z.to_nat n) (buffer_ b) ++
                        replicate (Z.to_nat n - length (buffer_ b)) x00) b in
  wf b' /\ contents b' = contents b /\ size b' = n.
Proof.
  intros (?&?&?) Hn b'.
  assert (Hv : buffer_ b' = buffer_ b ++ replicate (Z.to_nat n - length (buffer_ b)) x00).
  { subst b'; simpl. rewrite take_ge; [done|]. unfold size, zlen in *. lia. }
  assert (size b' = n).
  { unfold size. rewrite Hv, zlen_app. unfold zlen, size, zlen in *. rewrite length_replicate. lia. }
  split; [|split; [|done]].
  - unfold wf in *. simpl. lia.
  - unfold contents. rewrite Hv. simpl. apply slice_app_before; unfold size in *; lia.
Qed.

(** Writing at [writerIndex_] and moving it is an append. *)
Lemma write_contents b d :
  wf b -> writerIndex_ b + zlen d <= size b ->
  let b' := set_writer (writerIndex_ b + zlen d)
              (set_buffer (splice (writerIndex_ b) d (buffer_ b)) b) in
  wf b' /\ contents b' = contents b ++ d /\ size b' = size b.
Proof.
  intros (?&?&?) Hd b'. pose proof (zlen_nonneg d).
  assert (size b' = size b) by (apply zlen_splice; unfold size in *; lia).
  split; [|split; [|done]].
  - unfold wf. simpl. lia.
  - unfold contents. simpl. unfold size in *.
    replace (writerIndex_ b + zlen d - readerIndex_ b)
      with ((writerIndex_ b - readerIndex_ b) + zlen d) by lia.
    rewrite slice_app by lia. f_equal.
    + apply slice_splice_before; lia.
    + replace (readerIndex_ b + (writerIndex_ b - readerIndex_ b)) with (writerIndex_ b) by lia.
      apply slice_splice_same; lia.
Qed.

(** The buffer after makeSpace moved the readable bytes down. *)
Definition compacted b : Buffer :=
  mkBuffer (splice kCheapPrepend (contents b) (buffer_ b)) kCheapPrepend
    (kCheapPrepend + (writerIndex_ b - readerIndex_ b)).

Lemma compact_contents b :
  wf b -> kCheapPrepend < readerIndex_ b ->
  wf (compacted b) /\ contents (compacted b) = contents b /\ size (compacted b) = size b.
Proof.
  intros Hwf Hr. pose proof (zlen_contents b Hwf) as Hl. destruct Hwf as (?&?&?).
  unfold kCheapPrepend in *.
  assert (size (compacted b) = size b) by (apply zlen_splice; unfold size, kCheapPrepend in *; lia).
  split; [|split; [|done]].
  - unfold wf, kCheapPrepend in *. simpl. unfold kCheapPrepend. lia.
  - unfold contents at 1. simpl. unfold size, kCheapPrepend in *.
    replace (8 + (writerIndex_ b - readerIndex_ b) - 8) with (zlen (contents b)) by lia.
    apply slice_splice_same; lia.
Qed.

(** The branch of makeSpace: enough room once compacted. *)
Definition compactable b (len : Z) : bool :=
  len + kCheapPrepend <=? (size b - writerIndex_ b) + readerIndex_ b.

(** The only fault of the growing methods is [std::length_error], when the data
    does not fit in a vector. *)
Definition fits (n : Z) (E : fault -> Prop) b : Prop :=
  writerIndex_ b + n <= max_size \/ (n <= max_size /\ E LengthError).

Lemma makeSpace_spec b len (E : fault -> Prop) :
  wf b -> size b - writerIndex_ b < len -> fits len E b ->
  wp (makeSpace len) E (fun _ b' =>
    wf b' /\ contents b' = contents b /\ len <= size b' - writerIndex_ b' /\ steady 0 b b' /\
    size b' = (if compactable b len then size b else writerIndex_ b + len)) b.
Proof.
  intros Hwf Hlen Hfit. pose proof Hwf as (?&?&?).
  assert (Hmax : len <= max_size) by (destruct Hfit; lia). unfold fits in Hfit.
  unfold makeSpace, compactable. unfold kCheapPrepend, max_size in *. wp_step. wp_step.
  rewrite writable_wf by done. unfold id, prependableBytes.
  rewrite !wrapu_small by (unfold max_size in *; lia).
  destruct (_ <? _) eqn:Hc; zbool.
  - rewrite (proj2 (Z.leb_gt _ _)) by lia.
    destruct (decide (writerIndex_ b + len <= 2 ^ 63 - 1)) as [Hsum|Hsum].
    2:{ unfold wp, resize, max_size. rewrite (proj2 (Z.ltb_lt _ _)) by lia. destruct Hfit; [lia|tauto]. }
    pose proof (grow_contents b (writerIndex_ b + len) Hwf ltac:(unfold max_size; lia)) as (?&?&Hs).
    apply wp_resize; [unfold max_size; lia|]. rewrite Hs.
    split_and!; auto; [simpl; lia|]. unfold steady. simpl. lia.
  - rewrite (proj2 (Z.leb_le _ _)) by lia.
    wp_step. apply wp_assert_true; [apply Z.ltb_lt; unfold kCheapPrepend; lia|].
    destruct (compact_contents b Hwf ltac:(unfold kCheapPrepend; lia)) as (Hwf'&Hc'&Hs').
    pose proof (zlen_contents b Hwf) as Hl. pose proof (readable_wf _ Hwf') as Hr'.
    wp_step. unfold copy_within, kCheapPrepend.
    rewrite (proj2 (Z.leb_gt (readerIndex_ b) 8)) by lia. simpl.
    wp_step. apply wp_load; [lia..|]. fold (contents b).
    apply wp_store; [lia | rewrite Hl; lia |].
    do 6 wp_step. simpl.
    rewrite readable_wf by done. rewrite wrapu_small by (unfold max_size in *; lia).
    change (set_writer _ _) with (compacted b).
    apply wp_assert_true; [apply Z.eqb_eq; rewrite Hr'; simpl; unfold kCheapPrepend; lia|].
    split_and!; auto; unfold steady; simpl; unfold kCheapPrepend; lia.
Qed.

Lemma ensureWritable_spec b len (E : fault -> Prop) :
  wf b -> 0 <= len -> fits len E b ->
  wp (ensureWritableBytes len) E (fun _ b' =>
    wf b' /\ contents b' = contents b /\ len <= size b' - writerIndex_ b' /\ steady 0 b b' /\
    size b' = (if (len <=? size b - writerIndex_ b) || compactable b len
               then size b else writerIndex_ b + len)) b.
Proof.
  intros Hwf Hlen Hmax. unfold ensureWritableBytes. wp_step. wp_step. wp_step.
  apply wp_conseq with (fun _ b' =>
    wf b' /\ contents b' = contents b /\ len <= size b' - writerIndex_ b' /\ steady 0 b b' /\
    size b' = (if (len <=? size b - writerIndex_ b) || compactable b len
               then size b else writerIndex_ b + len)).
  - apply wp_when; unfold id; rewrite writable_wf by done; intros Hb; zbool.
    + rewrite (proj2 (Z.leb_gt _ _)) by lia. apply makeSpace_spec; auto.
    + rewrite (proj2 (Z.leb_le _ _)) by lia. split_and!; auto; unfold steady; lia.
  - intros _ b' (Hwf'&Hc&Hl&Hst&Hs). wp_step. wp_step. unfold id.
    apply wp_assert_true; [|done]. rewrite writable_wf by done. by apply Z.leb_le.
Qed.

Lemma append_spec b d (E : fault -> Prop) :
  wf b -> fits (zlen d) E b ->
  wp (append d) E (fun _ b' =>
    wf b' /\ contents b' = contents b ++ d /\ steady (zlen d) b b' /\
    size b' = (if (zlen d <=? size b - writerIndex_ b) || compactable b (zlen d)
               then size b else writerIndex_ b + zlen d)) b.
Proof.
  intros Hwf Hfit. unfold append. pose proof (zlen_nonneg d). wp_step.
  assert (Hmax : zlen d <= max_size) by (destruct Hwf as (?&?&?); destruct Hfit; lia).
  eapply wp_conseq; [by apply ensureWritable_spec|]. simpl.
  intros _ b1 (Hwf1&Hc1&Hl1&Hst1&Hs1). wp_step. wp_step. unfold id, beginWrite.
  pose proof Hwf1 as (?&?&?). wp_step. apply wp_store; [lia..|].
  destruct (write_contents b1 d Hwf1 ltac:(lia)) as (Hwf2&Hc2&Hs2).
  unfold hasWritten. wp_step. wp_step. wp_step. unfold id.
  apply wp_assert_true.
  - apply Z.leb_le. unfold writableBytes, size. simpl.
    rewrite zlen_splice by (unfold size in *; lia).
    rewrite wrapu_small by (unfold size, max_size in *; lia). unfold size in *. lia.
  - wp_step. simpl. rewrite wrapu_small by (unfold max_size in *; lia).
    rewrite Hs2, Hc2, Hc1, Hs1. split_and!; auto. unfold steady in *. simpl. lia.
Qed.

Lemma retrieveAll_spec b :
  wf b -> wp retrieveAll no_fault (fun _ b' =>
    wf b' /\ contents b' = [] /\ readerIndex_ b' = kCheapPrepend /\ steady 0 b b' /\
    size b' = size b) b.
Proof.
  intros (?&?&?). apply wp_modify. unfold wf, steady, contents, size, kCheapPrepend in *. simpl.
  split_and!; (done || lia).
Qed.

(** retrieve consumes from the front; it is the only place where the length
    is trusted: a Release build given too large a length empties the buffer. *)
Lemma retrieve_spec b len E :
  wf b -> 0 <= len ->
  len <= zlen (contents b) \/ ndebug = true ->
  wp (retrieve len) E (fun _ b' =>
    wf b' /\ contents b' = drop (Z.to_nat len) (contents b) /\ steady 0 b b' /\
    size b' = size b) b.
Proof.
  intros Hwf Hlen Hok. unfold retrieve. pose proof (zlen_contents b Hwf) as Hl.
  wp_step. wp_step. unfold id. rewrite readable_contents by done. wp_step.
  apply wp_assert; [|intros; zbool; destruct Hok; [lia|congruence]]. intros _.
  destruct (_ <? _) eqn:Hc; zbool.
  - wp_step. pose proof Hwf as (?&?&?). rewrite wrapu_small by (unfold max_size in *; lia).
    split_and!; [| |unfold steady; simpl; lia|done].
    + unfold wf in *. simpl. unfold size in *. simpl. lia.
    + unfold contents. simpl. rewrite drop_slice by lia. f_equal. lia.
  - eapply wp_mono; [by apply retrieveAll_spec | intros ? [] |].
    intros _ b' (?&Hb'&_&?&?). rewrite Hb', drop_ge; [auto|]. unfold zlen in *. lia.
Qed.

Lemma retrieveAsString_spec b len :
  wf b -> 0 <= len <= zlen (contents b) ->
  wp (retrieveAsString len) no_fault (fun r b' =>
    wf b' /\ r = take (Z.to_nat len) (contents b) /\
    contents b' = drop (Z.to_nat len) (contents b) /\ steady 0 b b') b.
Proof.
  intros Hwf Hlen. unfold retrieveAsString. pose proof Hwf as (?&?&?).
  pose proof (zlen_contents b Hwf) as Hl.
  wp_step. wp_step. unfold id. wp_step.
  apply wp_assert_true; [apply Z.leb_le; rewrite readable_contents; auto; lia|].
  wp_step. apply wp_load; [unfold peek; lia..|].
  wp_step. eapply wp_conseq; [apply retrieve_spec; auto; lia|]. simpl.
  intros _ b' (?&?&?&?). wp_step. split_and!; auto.
  unfold contents. rewrite take_slice by lia. done.
Qed.

Lemma retrieveAllAsString_spec b :
  wf b -> wp retrieveAllAsString no_fault (fun r b' =>
    wf b' /\ r = contents b /\ contents b' = []) b.
Proof.
  intros Hwf. unfold retrieveAllAsString. wp_step. wp_step. unfold id.
  pose proof (zlen_nonneg (contents b)). rewrite readable_contents by done.
  eapply wp_conseq; [apply retrieveAsString_spec; auto; lia|]. simpl.
  intros r b' (?&->&->&_). unfold zlen. rewrite Nat2Z.id, firstn_all, drop_all. auto.
Qed.

Lemma prepend_spec b d :
  wf b -> zlen d <= readerIndex_ b ->
  wp (prepend d) no_fault (fun _ b' =>
    wf b' /\ contents b' = d ++ contents b /\ readerIndex_ b' = readerIndex_ b - zlen d /\
    writerIndex_ b' = writerIndex_ b /\ size b' = size b) b.
Proof.
  intros Hwf Hd. unfold prepend. pose proof Hwf as (?&?&?). pose proof (zlen_nonneg d).
  wp_step. wp_step. wp_step. unfold id, prependableBytes.
  apply wp_assert_true; [by apply Z.leb_le|].
  wp_step. wp_step. wp_step. wp_step. unfold id. simpl.
  rewrite wrapu_small by (unfold max_size in *; lia).
  apply wp_store; [lia | unfold size in *; simpl; lia |]. simpl.
  assert (Hs : zlen (splice (readerIndex_ b - zlen d) d (buffer_ b)) = zlen (buffer_ b))
    by (apply zlen_splice; unfold size in *; lia).
  split; [|split].
  - unfold wf, size in *. simpl. rewrite Hs. lia.
  - unfold contents. simpl.
    replace (writerIndex_ b - (readerIndex_ b - zlen d))
      with (zlen d + (writerIndex_ b - readerIndex_ b)) by lia.
    unfold size in *. rewrite slice_app by lia. f_equal.
    + apply slice_splice_same; lia.
    + replace (readerIndex_ b - zlen d + zlen d) with (readerIndex_ b) by lia.
      apply slice_splice_after; lia.
  - split_and!; auto.
Qed.

Lemma readFd_spec b bytes (E : fault -> Prop) :
  wf b -> zlen bytes <= readFd_capacity b ->
  size b + sizeof_extrabuf <= max_size \/ E LengthError ->
  wp (readFd (inl bytes)) E (fun r b' =>
    r = (zlen bytes, None) /\ wf b' /\ contents b' = contents b ++ bytes) b.
Proof.
  intros Hwf Hcap Hmax. unfold readFd. pose proof Hwf as (?&?&?).
  unfold readFd_capacity in Hcap. rewrite writable_wf in Hcap by done.
  set (wr := size b - writerIndex_ b) in *. unfold sizeof_extrabuf in *.
  wp_step. wp_step. unfold id. rewrite writable_wf by done. fold wr.
  wp_step. pose proof (zlen_nonneg bytes).
  destruct (decide (zlen bytes <= wr)) as [Hle|Hgt].
  - rewrite take_ge by (unfold zlen in *; lia).
    apply wp_store; [lia..|]. rewrite (proj2 (Z.leb_le _ _)) by lia.
    wp_steps. simpl. rewrite wrapu_small by (unfold max_size in *; lia).
    destruct (write_contents b bytes Hwf ltac:(lia)) as (?&?&_). auto.
  - assert (Ht : zlen (take (Z.to_nat wr) bytes) = wr) by (apply zlen_take; lia).
    assert (Hd : zlen (drop (Z.to_nat wr) bytes) = zlen bytes - wr) by (apply zlen_drop; lia).
    apply wp_store; [lia..|]. rewrite (proj2 (Z.leb_gt _ _)) by lia.
    destruct (write_contents b (take (Z.to_nat wr) bytes) Hwf ltac:(lia)) as (Hwf1&Hc1&Hs1).
    rewrite Ht in Hwf1, Hc1, Hs1. wp_step. wp_step. wp_step.
    assert (He : set_writer (size (set_buffer (splice (writerIndex_ b)
                   (take (Z.to_nat wr) bytes) (buffer_ b)) b))
                 (set_buffer (splice (writerIndex_ b) (take (Z.to_nat wr) bytes) (buffer_ b)) b)
               = set_writer (writerIndex_ b + wr)
                 (set_buffer (splice (writerIndex_ b) (take (Z.to_nat wr) bytes) (buffer_ b)) b)).
    { f_equal. unfold size. simpl. rewrite zlen_splice by (unfold size in *; lia).
      unfold wr, size. lia. }
    rewrite He. eapply wp_conseq; [apply append_spec; auto|].
    + unfold fits. simpl. rewrite Hd.
      destruct Hmax; [left|right; split; [|done]]; destruct (_ <? _); simpl in Hcap;
        unfold max_size in *; lia.
    + simpl. intros _ b' (?&Hc2&_&_). wp_step. rewrite Hc2, Hc1, <- app_assoc, take_drop. auto.
Qed.

(** ** Searching *)

(** [pat] occurs in [l] at position [i]. *)
Definition occurs (pat l : list byte) (i : nat) : Prop := take (length pat) (drop i l) = pat.

Lemma search_spec pat l off :
  exists i, search pat l off = off + Z.of_nat i /\ (i <= length l)%nat /\
    (forall j, (j < i)%nat -> ~ occurs pat l j) /\ ((i < length l)%nat -> occurs pat l i).
Proof.
  revert off. induction l as [|x l IH]; intros off; simpl search.
  - exists 0%nat. case_bool_decide; (split; [lia|]); simpl; (split; [lia|]); split; lia.
  - case_bool_decide as Hp.
    + exists 0%nat. split; [lia|]. split; [lia|]. split; [lia|]. by intros _.
    + destruct (IH (off + 1)) as (i&->&Hi&Hlt&Ho). exists (S i).
      split; [lia|]. split; [simpl; lia|]. split.
      * intros [|j] Hj; [done|]. apply (Hlt j). lia.
      * simpl. intros. apply Ho. lia.
Qed.

Lemma memchr_spec c l off :
  match memchr c l off with
  | Some p => exists i, p = off + Z.of_nat i /\ l !! i = Some c /\ ~ In c (take i l)
  | None => ~ In c l
  end.
Proof.
  revert off. induction l as [|x l IH]; intros off; simpl; [tauto|].
  case_bool_decide as Hx.
  - exists 0%nat. split; [lia|]. simpl. subst. tauto.
  - specialize (IH (off + 1)). destruct (memchr c l (off + 1)) as [p|].
    + destruct IH as (i&->&Hl&Hn). exists (S i). split; [lia|]. simpl. tauto.
    + tauto.
Qed.

(** No occurrence can start at or past the end. *)
Lemma occurs_lt pat l i : pat <> [] -> occurs pat l i -> (i < length l)%nat.
Proof.
  unfold occurs. intros Hp Ho. destruct (decide (i < length l)%nat); [done|].
  rewrite drop_ge, take_nil in Ho by lia. congruence.
Qed.

Lemma load_contents b E (Q : list byte -> Buffer -> Prop) :
  wf b -> Q (contents b) b -> wp (load (peek b) (beginWrite b - peek b)) E Q b.
Proof. intros (?&?&?) HQ. apply wp_load; unfold peek, beginWrite; auto; lia. Qed.

(** The two searches compute the position of the first match among the
    readable bytes, as an offset from begin(), or nullptr. *)
Lemma findCRLF_spec b :
  wf b -> wp findCRLF no_fault (fun r b' => b' = b /\
    match r with
    | Some p => exists i, p = peek b + Z.of_nat i /\ occurs kCRLF (contents b) i /\
                  forall j, (j < i)%nat -> ~ occurs kCRLF (contents b) j
    | None => forall j, ~ occurs kCRLF (contents b) j
    end) b.
Proof.
  intros Hwf. unfold findCRLF. pose proof (zlen_contents b Hwf) as Hl. pose proof Hwf as (?&?&?).
  wp_step. wp_step. unfold id. wp_step. apply load_contents; auto. wp_step. split; [done|].
  destruct (search_spec kCRLF (contents b) (peek b)) as (i&->&Hi&Hlt&Ho).
  unfold zlen, peek, beginWrite in *. destruct (_ =? _) eqn:He; zbool.
  - intros j Hj. pose proof (occurs_lt kCRLF _ _ ltac:(done) Hj). apply (Hlt j); auto. lia.
  - exists i. split; [done|]. split; [|done]. apply Ho. lia.
Qed.

Lemma findEOL_spec b :
  wf b -> wp findEOL no_fault (fun r b' => b' = b /\
    match r with
    | Some p => exists i, p = peek b + Z.of_nat i /\ contents b !! i = Some x0a /\
                  ~ In x0a (take i (contents b))
    | None => ~ In x0a (contents b)
    end) b.
Proof.
  intros Hwf. unfold findEOL. wp_step. wp_step. unfold id. rewrite readable_wf by done.
  wp_step. apply load_contents; auto. wp_step. split; [done|]. apply memchr_spec.
Qed.

(** ** Integers *)

(** The network representation. *)
Definition be_bytes (n : nat) (x : Z) : list byte := rev (le_bytes n x).

Lemma length_be_bytes n x : length (be_bytes n x) = n.
Proof. unfold be_bytes. by rewrite length_rev, length_le_bytes. Qed.

Lemma le_bytes_be_bytes n x : le_bytes n (le_value (be_bytes n x)) = be_bytes n x.
Proof.
  pose proof (le_bytes_le_value (be_bytes n x)) as Hb. by rewrite length_be_bytes in Hb.
Qed.

Lemma object_htobe n x : object_bytes n (htobe n x) = be_bytes n x.
Proof.
  unfold object_bytes, htobe, bswap. rewrite le_bytes_wraps, le_bytes_wrapu.
  apply le_bytes_be_bytes.
Qed.

Lemma betoh_object n x :
  (0 < n)%nat -> betoh n (bytes_object n (be_bytes n x)) = wraps (8 * Z.of_nat n) x.
Proof.
  intros Hn. unfold betoh, bytes_object, bswap. rewrite le_bytes_wrapu, le_bytes_wraps.
  rewrite le_bytes_be_bytes. unfold be_bytes. rewrite rev_involutive, le_value_le_bytes. apply wraps_wrapu. lia.
Qed.

Lemma peek_object_spec b n l rest :
  wf b -> contents b = l ++ rest -> length l = n ->
  wp (peek_object n) no_fault (fun r b' => b' = b /\ r = bytes_object n l) b.
Proof.
  intros Hwf Hc Hn. unfold peek_object. pose proof Hwf as (?&?&?).
  pose proof (zlen_contents b Hwf) as Hl. rewrite Hc, zlen_app in Hl. unfold zlen in Hl.
  wp_step. wp_step. unfold id. wp_step.
  apply wp_assert_true; [apply Z.leb_le; rewrite readable_wf; auto; lia|].
  wp_step. apply wp_load; [unfold peek; lia..|]. wp_step. split; [done|].
  f_equal. unfold peek. rewrite <- take_slice with (len := writerIndex_ b - readerIndex_ b) by lia.
  fold (contents b). rewrite Hc, Nat2Z.id, <- Hn. apply take_app_length.
Qed.

(** The integer methods of one width: bytes, append, prepend, read. *)
Inductive int_methods :
    nat -> (Z -> M Buffer unit) -> (Z -> M Buffer unit) -> M Buffer Z -> Prop :=
  | int64_methods : int_methods 8 appendInt64 prependInt64 readInt64
  | int32_methods : int_methods 4 appendInt32 prependInt32 readInt32
  | int16_methods : int_methods 2 appendInt16 prependInt16 readInt16
  | int8_methods : int_methods 1 appendInt8 prependInt8 readInt8.

Lemma object_bytes_1 x : object_bytes 1 x = be_bytes 1 x.
Proof. done. Qed.

Lemma append_int n app pre rd x :
  int_methods n app pre rd ->
  app x = append (be_bytes n x) /\ pre x = prepend (be_bytes n x).
Proof.
  destruct 1; split;
    unfold appendInt64, appendInt32, appendInt16, appendInt8,
           prependInt64, prependInt32, prependInt16, prependInt8;
    rewrite ?object_htobe, ?object_bytes_1; done.
Qed.

(** Every read method peeks, converts and consumes. *)
Lemma read_int_spec n app pre rd x b rest :
  int_methods n app pre rd -> wf b -> contents b = be_bytes n x ++ rest ->
  in_range_s (8 * Z.of_nat n) x = true ->
  wp rd no_fault (fun r b' => r = x /\ wf b' /\ contents b' = rest) b.
Proof.
  intros Hi Hwf Hc Hx. unfold in_range_s in Hx. zbool.
  assert (Hn : (0 < n)%nat) by (destruct Hi; lia).
  pose proof (betoh_object n x Hn) as Hb. rewrite wraps_small in Hb by lia.
  assert (Hp : forall k : Z, wp (retrieve (Z.of_nat n);;; ret k) no_fault
                 (fun r b' => r = k /\ wf b' /\ contents b' = rest) b).
  { intros k. wp_step. eapply wp_conseq.
    - apply retrieve_spec; auto; [lia|]. left. rewrite Hc, zlen_app.
      unfold zlen at 1. rewrite length_be_bytes. pose proof (zlen_nonneg rest). lia.
    - simpl. intros _ b' (?&Hd&_). wp_step. split_and!; auto.
      rewrite Hd, Hc, Nat2Z.id. rewrite drop_app_length'; [done|]. by rewrite length_be_bytes. }
  assert (Hq : forall f : Z -> Z, f (bytes_object n (be_bytes n x)) = x ->
             wp (let! r := (let! o := peek_object n in ret (f o)) in
                 retrieve (Z.of_nat n) ;;; ret r) no_fault
                (fun r b' => r = x /\ wf b' /\ contents b' = rest) b).
  { intros f Hf. wp_step. wp_step. eapply wp_conseq.
    - eapply peek_object_spec; eauto. apply length_be_bytes.
    - simpl. intros o b' [-> ->]. wp_step. rewrite Hf. apply Hp. }
  destruct Hi; try apply (Hq _ Hb).
  apply wp_bind. eapply wp_conseq; [eapply peek_object_spec; eauto|].
  simpl. intros o b' [-> ->].
  replace (bytes_object 1 _) with x; [apply Hp|].
  unfold bytes_object. change (be_bytes 1 x) with (le_bytes 1 x).
  rewrite le_value_le_bytes, wraps_wrapu, wraps_small; lia.
Qed.

(** ** The buffer as a queue of bytes *)

(** The promise of the class to its clients: a FIFO of bytes into which at
    least [headroom] more bytes can be pushed at the front. *)
Record queue := mkQueue { q_bytes : list byte; q_headroom : Z }.

Inductive buffer_call :=
  | CAppend (d : list byte)
  | CPrepend (d : list byte)
  | CRetrieve (len : Z)
  | CRetrieveAll
  | CRetrieveAsString (len : Z)
  | CEnsureWritable (len : Z).

(** What a call means for the queue, with the bytes it returns; [None] when
    the call is outside the contract. *)
Definition queue_call (c : buffer_call) (q : queue) : option (list byte * queue) :=
  match c with
  | CAppend d => Some ([], mkQueue (q_bytes q ++ d) (q_headroom q))
  | CPrepend d => if zlen d <=? q_headroom q
                  then Some ([], mkQueue (d ++ q_bytes q) (q_headroom q - zlen d)) else None
  | CRetrieve len => if (0 <=? len) && (len <=? zlen (q_bytes q))
                     then Some ([], mkQueue (drop (Z.to_nat len) (q_bytes q)) (q_headroom q))
                     else None
  | CRetrieveAll => Some ([], mkQueue [] kCheapPrepend)
  | CRetrieveAsString len =>
      if (0 <=? len) && (len <=? zlen (q_bytes q))
      then Some (take (Z.to_nat len) (q_bytes q),
                 mkQueue (drop (Z.to_nat len) (q_bytes q)) (q_headroom q))
      else None
  | CEnsureWritable len => if 0 <=? len then Some ([], q) else None
  end.

Definition buffer_call_run (c : buffer_call) : M Buffer (list byte) :=
  match c with
  | CAppend d => append d ;;; ret []
  | CPrepend d => prepend d ;;; ret []
  | CRetrieve len => retrieve len ;;; ret []
  | CRetrieveAll => retrieveAll ;;; ret []
  | CRetrieveAsString len => retrieveAsString len
  | CEnsureWritable len => ensureWritableBytes len ;;; ret []
  end.

(** The room a call may ask for. *)
Definition call_room (c : buffer_call) : Z :=
  match c with CAppend d => zlen d | CEnsureWritable len => len | _ => 0 end.

Fixpoint queue_calls (cs : list buffer_call) (q : queue) : option (list (list byte) * queue) :=
  match cs with
  | [] => Some ([], q)
  | c :: cs' =>
      match queue_call c q with
      | Some (r, q') =>
          match queue_calls cs' q' with Some (rs, q'') => Some (r :: rs, q'') | None => None end
      | None => None
      end
  end.
Fixpoint buffer_calls_run (cs : list buffer_call) : M Buffer (list (list byte)) :=
  match cs with
  | [] => ret []
  | c :: cs' => let! r := buffer_call_run c in
                let! rs := buffer_calls_run cs' in ret (r :: rs)
  end.
Fixpoint calls_room (cs : list buffer_call) : Z :=
  match cs with [] => 0 | c :: cs' => Z.max 0 (call_room c) + calls_room cs' end.

(** The buffer represents the queue. *)
Definition represents (b : Buffer) (q : queue) : Prop :=
  wf b /\ contents b = q_bytes q /\ 0 <= q_headroom q <= kCheapPrepend /\
  q_headroom q <= readerIndex_ b.

Lemma call_refines c q r q' b :
  represents b q -> queue_call c q = Some (r, q') ->
  writerIndex_ b + Z.max 0 (call_room c) <= max_size ->
  wp (buffer_call_run c) no_fault (fun r' b' => r' = r /\ represents b' q' /\
    writerIndex_ b' <= writerIndex_ b + Z.max 0 (call_room c)) b.
Proof.
  intros (Hwf&Hc&Hh&Hhr) Hq Hmax. unfold represents, kCheapPrepend in *.
  destruct c as [d|d|len| |len|len]; simpl in Hq, Hmax |- *; simplify_eq/=;
    try match type of Hq with (if ?x then _ else _) = _ => destruct x eqn:Hx; simplify_eq/=; zbool end.
  - pose proof (zlen_nonneg d). wp_step. eapply wp_conseq; [apply append_spec; [auto|left; lia]|].
    intros _ b' (?&Hd&[??]&_). wp_step. unfold kCheapPrepend in *. simpl.
    rewrite Hd, Hc. split_and!; auto; lia.
  - wp_step. eapply wp_conseq; [apply prepend_spec; auto; lia|].
    pose proof (zlen_nonneg d). intros _ b' (?&Hd&?&?&_). wp_step. simpl.
    rewrite Hd, Hc. split_and!; auto; lia.
  - wp_step. eapply wp_conseq; [apply retrieve_spec; auto; rewrite ?Hc; lia|].
    intros _ b' (?&Hd&[??]&_). wp_step. unfold kCheapPrepend in *. simpl.
    rewrite Hd, Hc. split_and!; auto; lia.
  - wp_step. eapply wp_conseq; [apply retrieveAll_spec; auto|].
    intros _ b' (?&Hd&?&[??]&_). wp_step. unfold kCheapPrepend in *. simpl. split_and!; auto; lia.
  - eapply wp_conseq; [apply retrieveAsString_spec; auto; rewrite ?Hc; lia|].
    intros r b' (?&->&Hd&[??]). unfold kCheapPrepend in *. simpl.
    rewrite Hd, Hc. split_and!; auto; lia.
  - wp_step. eapply wp_conseq; [apply ensureWritable_spec; [auto|lia|left; lia]|].
    intros _ b' (?&Hd&_&[??]&_). wp_step. unfold kCheapPrepend in *. simpl.
    rewrite Hd, Hc. split_and!; auto; lia.
Qed.

Lemma calls_refine cs q rs q' b :
  represents b q -> queue_calls cs q = Some (rs, q') ->
  writerIndex_ b + calls_room cs <= max_size ->
  wp (buffer_calls_run cs) no_fault (fun rs' b' => rs' = rs /\ represents b' q') b.
Proof.
  revert q rs b. induction cs as [|c cs IH]; intros q rs b Hr Hq Hmax; simpl in *.
  - simplify_eq. by apply wp_ret.
  - destruct (queue_call c q) as [[r q1]|] eqn:Hc; [|done].
    destruct (queue_calls cs q1) as [[rs1 q2]|] eqn:Hcs; simplify_eq.
    assert (0 <= calls_room cs) by (clear; induction cs; simpl; lia).
    wp_step. eapply wp_conseq; [eapply call_refines; eauto; lia|]. simpl.
    intros r' b' (->&Hr'&Hw). wp_step. eapply wp_conseq; [eapply IH; eauto; lia|].
    simpl. intros rs' b'' [-> Hr'']. by wp_step.
Qed.

Lemma ctor_spec {S} n (s : S) :
  0 <= n <= max_size - kCheapPrepend ->
  wp (Buffer_ctor n) no_fault (fun b _ =>
    represents b (mkQueue [] kCheapPrepend) /\ size b = kCheapPrepend + n /\
    writerIndex_ b = kCheapPrepend) s.
Proof.
  intros Hn. unfold Buffer_ctor, kCheapPrepend, max_size in *.
  rewrite wrapu_small by lia.
  set (b := mkBuffer _ _ _).
  assert (Hs : size b = 8 + n) by (unfold size, zlen; simpl; rewrite length_replicate; lia).
  assert (Hwf : wf b) by (unfold wf, max_size, kCheapPrepend; rewrite Hs; simpl; lia).
  wp_step. apply wp_assert_true; [apply Z.eqb_eq; rewrite readable_wf; auto|].
  wp_step. apply wp_assert_true; [apply Z.eqb_eq; rewrite writable_wf by auto; simpl; lia|].
  wp_step. apply wp_assert_true; [done|]. wp_step.
  unfold represents, kCheapPrepend. simpl. split_and!; auto; lia.
Qed.

(** A new buffer is empty, and the state is not touched. *)
Lemma wp_ctor {S} n E (Q : Buffer -> S -> Prop) s :
  0 <= n <= max_size - kCheapPrepend ->
  (forall b, wf b -> contents b = [] -> Q b s) -> wp (Buffer_ctor n) E Q s.
Proof.
  intros Hn HQ. pose proof (ctor_spec n s Hn) as Hs. revert Hs.
  unfold wp, Buffer_ctor, bind, assert_, ret, throw.
  repeat (destruct (_ || _); [|done]). intros ((Hwf&Hc&_)&_). by apply HQ.
Qed.

End specs.

(** ** Properties *)

Section properties.
Context `{Build}.

(** C9: the buffer implements a FIFO of bytes with cheap prepending. Any
    sequence of calls within the queue's contract runs without a fault or a
    failed assert (in both builds), returns what the queue returns, and leaves
    a buffer that represents the resulting queue, whatever reallocations and
    compactions happened on the way. *)
Theorem buffer_refines_queue cs q rs q' b :
  represents b q -> queue_calls cs q = Some (rs, q') ->
  writerIndex_ b + calls_room cs <= max_size ->
  exists b', buffer_calls_run cs b = Ok rs b' /\ represents b' q'.
Proof.
  intros Hr Hq Hm. destruct (wp_total _ _ _ (calls_refine _ _ _ _ _ Hr Hq Hm)) as (rs'&b'&Hrun&->&?).
  eauto.
Qed.

(** C34: an integer appended in network byte order is read back unchanged by
    the read method of its width, behind whatever was already queued; a
    prepended one is read back first. The wire representation is big-endian
    two's complement. *)
Theorem int_roundtrip n app pre rd x b :
  int_methods n app pre rd -> wf b -> in_range_s (8 * Z.of_nat n) x = true ->
  writerIndex_ b + Z.of_nat n <= max_size -> Z.of_nat n <= readerIndex_ b ->
  wp (app x ;;; let! front := gets contents in retrieve (zlen front - Z.of_nat n) ;;; rd)
     no_fault (fun r b' => r = x /\ contents b' = []) b /\
  wp (pre x ;;; rd) no_fault (fun r b' => r = x /\ contents b' = contents b) b /\
  le_value (rev (be_bytes n x)) = wrapu (8 * Z.of_nat n) x.
Proof.
  intros Hi Hwf Hx Hmax Hroom. destruct (append_int _ _ _ _ x Hi) as [-> ->].
  assert (Hlen : zlen (be_bytes n x) = Z.of_nat n) by (unfold zlen; by rewrite length_be_bytes).
  split; [|split].
  - pose proof (zlen_nonneg (contents b)).
    wp_step. eapply wp_conseq; [apply append_spec; [auto|left; lia]|].
    intros _ b1 (?&Hc1&_). wp_step. wp_step. wp_step.
    rewrite Hc1, zlen_app, Hlen.
    replace (zlen (contents b) + Z.of_nat n - Z.of_nat n) with (zlen (contents b)) by lia.
    eapply wp_conseq; [apply retrieve_spec; auto; rewrite ?Hc1, ?zlen_app; lia|].
    intros _ b2 (?&Hc2&_). eapply wp_conseq.
    + eapply read_int_spec; eauto. rewrite Hc2, Hc1, app_nil_r. unfold zlen. rewrite Nat2Z.id.
      apply drop_app_length.
    + simpl. intros r b' (->&_&->). auto.
  - wp_step. eapply wp_conseq; [apply prepend_spec; auto; lia|].
    intros _ b1 (?&Hc1&_). eapply wp_conseq; [eapply read_int_spec; eauto|].
    simpl. intros r b' (->&_&->). auto.
  - unfold be_bytes. by rewrite rev_involutive, le_value_le_bytes.
Qed.

(** Append reallocates only when it must. If the data fits after the
    readable bytes, or fits once they are moved down to the prepend boundary,
    the vector keeps its size; otherwise it grows to exactly the bytes needed;
    in every case the readable bytes are kept and the data follows them. *)
Theorem append_growth b d :
  wf b -> writerIndex_ b + zlen d <= max_size ->
  exists b', append d b = Ok tt b' /\ contents b' = contents b ++ d /\
    size b' = (if (zlen d <=? size b - writerIndex_ b) || compactable b (zlen d)
               then size b else writerIndex_ b + zlen d).
Proof.
  intros Hwf Hmax.
  destruct (wp_total _ _ _ (append_spec b d no_fault Hwf (or_introl Hmax))) as ([]&b'&Hrun&_&?&_&?). eauto.
Qed.

(** C32: readFd appends exactly the bytes readv delivered, also when they
    overflow into the stack buffer; on error it changes nothing and hands the
    errno out. *)
Theorem readFd_delivers b r :
  wf b -> size b + sizeof_extrabuf <= max_size ->
  match r with inl bytes => zlen bytes <= readFd_capacity b | inr _ => True end ->
  exists b', match r with
             | inl bytes => readFd r b = Ok (zlen bytes, None) b' /\
                            contents b' = contents b ++ bytes /\ wf b'
             | inr errno => readFd r b = Ok (-1, Some errno) b' /\ b' = b
             end.
Proof.
  intros Hwf Hmax Hcap. destruct r as [bytes|errno]; [|exists b; done].
  destruct (wp_total _ _ _ (readFd_spec b bytes no_fault Hwf Hcap (or_introl Hmax))) as (x&b'&Hrun&->&?&?). eauto.
Qed.

(** FindCRLF and findEOL return the first match among the readable bytes
    as a pointer into the buffer, and nullptr exactly when there is none;
    neither changes the buffer. *)
Theorem find_first b :
  wf b ->
  (exists r, findCRLF b = Ok r b /\
     match r with
     | Some p => exists i, p = peek b + Z.of_nat i /\ occurs kCRLF (contents b) i /\
                   forall j, (j < i)%nat -> ~ occurs kCRLF (contents b) j
     | None => forall j, ~ occurs kCRLF (contents b) j
     end) /\
  (exists r, findEOL b = Ok r b /\
     match r with
     | Some p => exists i, p = peek b + Z.of_nat i /\ contents b !! i = Some x0a /\
                   ~ In x0a (take i (contents b))
     | None => ~ In x0a (contents b)
     end).
Proof.
  intros Hwf. split.
  - destruct (wp_total _ _ _ (findCRLF_spec b Hwf)) as (r&b'&Hrun&->&?). eauto.
  - destruct (wp_total _ _ _ (findEOL_spec b Hwf)) as (r&b'&Hrun&->&?). eauto.
Qed.

(** Outside the contract the two builds differ. Retrieving more than is
    readable aborts in a debug build and empties the buffer in a Release
    build; prepending more than the room aborts in a debug build and is a
    wild write in a Release build; appending past max_size() throws
    std::length_error in both. *)
Theorem contract_violations b :
  wf b ->
  (forall len, zlen (contents b) < len -> len < 2 ^ 63 ->
     retrieve len b = if ndebug then Ok tt (mkBuffer (buffer_ b) kCheapPrepend kCheapPrepend)
                      else Err (AssertFail "len <= readableBytes()")) /\
  (forall d, readerIndex_ b < zlen d < 2 ^ 62 ->
     prepend d b = Err (if ndebug then OutOfBounds
                        else AssertFail "len <= prependableBytes()")) /\
  (forall d, max_size < writerIndex_ b + zlen d -> zlen d <= max_size - kCheapPrepend ->
     compactable b (zlen d) = false -> append d b = Err LengthError).
Proof.
  intros Hwf. pose proof Hwf as (?&?&?). pose proof (zlen_contents b Hwf) as Hl.
  unfold compactable, kCheapPrepend, max_size in *. split_and!.
  - intros len Hlen _. unfold retrieve, assert_, bind, gets, id.
    rewrite readable_contents by done.
    rewrite (proj2 (Z.leb_gt _ _)), (proj2 (Z.ltb_ge _ _)) by lia.
    destruct ndebug; done.
  - intros d Hd. unfold prepend, assert_, bind, gets, modify, id, prependableBytes.
    rewrite (proj2 (Z.leb_gt _ _)) by lia. destruct ndebug; [|done]. simpl.
    unfold store. simpl.
    assert (u64 (readerIndex_ b - zlen d) = readerIndex_ b - zlen d + 2 ^ 64) as ->.
    { symmetry. apply Z.mod_unique with (-1); lia. }
    rewrite andb_comm, (proj2 (Z.leb_gt _ _)); [done|]. unfold size in *. simpl. lia.
  - intros d Hd1 Hd2 Hc. zbool. unfold append, ensureWritableBytes, bind, gets, id.
    rewrite writable_wf by done. rewrite (proj2 (Z.ltb_lt _ _)) by lia. simpl.
    unfold makeSpace, bind, gets, id, prependableBytes. rewrite writable_wf by done.
    pose proof (zlen_nonneg d). unfold kCheapPrepend. rewrite !wrapu_small by lia.
    rewrite (proj2 (Z.ltb_lt _ _)) by lia.
    unfold resize. unfold max_size. by rewrite (proj2 (Z.ltb_lt _ _)) by lia.
Qed.

End properties.

(** ** Witnesses *)

#[local] Instance debug : Build := {| ndebug := false |}.

(** A small buffer holding "ab". *)
Definition sample : Buffer :=
  mkBuffer (replicate 8 x00 ++ [x61; x62] ++ replicate 6 x00) 8 10.

Lemma sample_wf : wf sample.
Proof. repeat split; vm_compute; discriminate. Qed.

Lemma buffer_refines_queue_witness :
  exists b', buffer_calls_run
      [CAppend [x63; x64; x65; x66; x67; x68; x69]; CPrepend [x01; x02]; CRetrieveAsString 3;
       CAppend [x6a]; CRetrieveAll] sample = Ok [[]; []; [x01; x02; x61]; []; []] b' /\
    represents b' (mkQueue [] kCheapPrepend).
Proof.
  apply (buffer_refines_queue _ (mkQueue [x61; x62] 8)).
  - unfold represents. split; [apply sample_wf|]. repeat split; vm_compute; discriminate.
  - reflexivity.
  - vm_compute. discriminate.
Defined.

Lemma int_roundtrip_witness :
  wp (appendInt32 (-2) ;;; let! front := gets contents in
      retrieve (zlen front - Z.of_nat 4) ;;; readInt32)
     no_fault (fun r b' => r = -2 /\ contents b' = []) sample /\
  wp (prependInt32 (-2) ;;; readInt32) no_fault
     (fun r b' => r = -2 /\ contents b' = contents sample) sample /\
  le_value (rev (be_bytes 4 (-2))) = wrapu (8 * Z.of_nat 4) (-2).
Proof.
  apply int_roundtrip;
    [constructor | apply sample_wf | reflexivity | vm_compute; discriminate
    | vm_compute; discriminate].
Defined.

Lemma append_growth_witness :
  exists b', append [x63; x64; x65; x66; x67; x68; x69] sample = Ok tt b' /\
    contents b' = contents sample ++ [x63; x64; x65; x66; x67; x68; x69] /\ size b' = 17.
Proof.
  apply append_growth; [apply sample_wf | vm_compute; discriminate].
Defined.

Lemma readFd_delivers_witness :
  exists b', readFd (inl [x63; x64; x65; x66; x67; x68; x69]) sample = Ok (7, None) b' /\
    contents b' = contents sample ++ [x63; x64; x65; x66; x67; x68; x69] /\ wf b'.
Proof.
  apply (readFd_delivers sample (inl [x63; x64; x65; x66; x67; x68; x69]));
    [apply sample_wf | vm_compute; discriminate..].
Defined.

(** "a\r\nb\n" *)
Definition sample_lines : Buffer :=
  mkBuffer (replicate 8 x00 ++ [x61; x0d; x0a; x62; x0a]) 8 13.

Lemma find_first_witness :
  findCRLF sample_lines = Ok (Some 9) sample_lines /\
  (exists r, findEOL sample_lines = Ok r sample_lines /\
     match r with
     | Some p => exists i, p = peek sample_lines + Z.of_nat i /\
                   contents sample_lines !! i = Some x0a /\ ~ In x0a (take i (contents sample_lines))
     | None => ~ In x0a (contents sample_lines)
     end).
Proof.
  split; [vm_compute; reflexivity|].
  apply find_first. repeat split; vm_compute; discriminate.
Defined.

Lemma contract_violations_witness :
  retrieve 3 sample = Err (AssertFail "len <= readableBytes()").
Proof.
  destruct (contract_violations sample sample_wf) as [Hv _]. apply (Hv 3); reflexivity.
Defined.

End Buf.
