(* ===== verification/Kernel.v ===== *)
(** The operating system as the library sees it: the system calls the sources
    make, their results, the log of the calls made, and the interface
    ([Kernel]) through which every component calls.  The kernel itself is a
    parameter: an implementation of [Kernel] decides the result of each call;
    [KernelLaws] states the documented bounds of those results that the code
    relies on.  [Script] is a concrete kernel that replays a list of results. *)

From S2P Require Import Prelude Ints.

(** ** Constants of the Linux headers *)

Definition EPOLLIN : Z := 1.
Definition EPOLLPRI : Z := 2.
Definition EPOLLOUT : Z := 4.
Definition EPOLLERR : Z := 8.
Definition EPOLLHUP : Z := 16.
Definition EPOLLRDHUP : Z := 8192.

Definition EINTR : Z := 4.
Definition EAGAIN : Z := 11.
Definition EMFILE : Z := 24.
Definition EPIPE : Z := 32.
Definition ECONNABORTED : Z := 103.
Definition ECONNRESET : Z := 104.
Definition ECONNREFUSED : Z := 111.
Definition EINPROGRESS : Z := 115.

Inductive epoll_op := EPOLL_CTL_ADD | EPOLL_CTL_MOD | EPOLL_CTL_DEL.
#[export] Instance epoll_op_eq_dec : EqDecision epoll_op.
Proof. solve_decision. Defined.

(** The IPv4 socket address; address and port are in network byte order. *)
Record sockaddr_in := mkSockaddr {
  sin_family : Z;
  sin_addr : Z;
  sin_port : Z
}.
#[export] Instance sockaddr_eq_dec : EqDecision sockaddr_in.
Proof. solve_decision. Defined.

(** ** System calls *)

Inductive syscall :=
  | SysRead (fd len : Z)                       (* read and readv *)
  | SysWrite (fd : Z) (data : list byte)
  | SysShutdownWr (fd : Z)
  | SysClose (fd : Z)
  | SysSoError (fd : Z)                        (* getsockopt(SOL_SOCKET, SO_ERROR) *)
  | SysSocket
  | SysReuse (fd : Z)                          (* setsockopt(SO_REUSEADDR / SO_REUSEPORT) *)
  | SysBind (fd : Z) (addr : sockaddr_in)
  | SysListen (fd : Z)
  | SysAccept4 (fd : Z)
  | SysConnect (fd : Z) (addr : sockaddr_in)
  | SysGetsockname (fd : Z)
  | SysEpollCtl (op : epoll_op) (fd events : Z) (data : ptr)
  | SysEpollWait (maxEvents : Z)
  | SysTimerfdSettime (fd tv_sec tv_nsec : Z)
  | SysEpollCreate1
  | SysEventfd
  | SysTimerfdCreate.

Inductive sysret (A : Type) := SysOk (a : A) | SysErr (errno : Z).
Arguments SysOk {A} a.
Arguments SysErr {A} errno.

(** What a successful call delivers. *)
Definition reply (c : syscall) : Type :=
  match c with
  | SysRead _ _ => list byte
  | SysWrite _ _ | SysSoError _ | SysSocket
  | SysEpollCreate1 | SysEventfd | SysTimerfdCreate => Z
  | SysAccept4 _ => Z * sockaddr_in
  | SysGetsockname _ => sockaddr_in
  | SysEpollWait _ => list (Z * ptr)
  | _ => unit
  end.

(** A call made and its result. *)
Record event := Event { ev_call : syscall; ev_result : sysret (reply ev_call) }.
Abbreviation trace := (list event).

(** The kernel: the result of each call, and system_clock::now() in
    nanoseconds. *)
Class Kernel (K : Type) := {
  k_call : forall c : syscall, K -> sysret (reply c) * K;
  k_now : K -> Z * K
}.

(** Documented bounds of successful results, and of errno. *)
Definition reply_ok (c : syscall) : sysret (reply c) -> Prop :=
  match c as c return sysret (reply c) -> Prop with
  | SysRead _ len => fun r => match r with SysOk l => zlen l <= Z.max 0 len | SysErr e => 0 < e end
  | SysWrite _ d => fun r => match r with SysOk n => 0 <= n <= zlen d | SysErr e => 0 < e end
  | SysEpollWait m => fun r => match r with SysOk l => zlen l <= Z.max 0 m | SysErr e => 0 < e end
  | SysAccept4 _ => fun r => match r with SysOk (fd, _) => 0 <= fd | SysErr e => 0 < e end
  | _ => fun r => match r with SysOk _ => True | SysErr e => 0 < e end
  end.

Class KernelLaws (K : Type) `{Kernel K} := {
  k_reply_ok : forall c k, reply_ok c (fst (k_call c k));
  (* the clock is far from the ends of the 64-bit range *)
  k_now_ok : forall k, 0 <= fst (k_now k) < 2 ^ 62
}.

(** ** What the log says *)

(** The bytes the kernel has accepted for [fd], in order. *)
Fixpoint wire (fd : Z) (tr : trace) : list byte :=
  match tr with
  | [] => []
  | e :: tr' =>
      match e with
      | Event (SysWrite fd' d) (SysOk n) =>
          if fd' =? fd then take (Z.to_nat n) d ++ wire fd tr' else wire fd tr'
      | _ => wire fd tr'
      end
  end.

(** Whether the write side of [fd] was shut down successfully or not. *)
Fixpoint shutdowns (fd : Z) (tr : trace) : nat :=
  match tr with
  | [] => 0
  | e :: tr' => match ev_call e with
                | SysShutdownWr fd' => if fd' =? fd then S (shutdowns fd tr') else shutdowns fd tr'
                | _ => shutdowns fd tr'
                end
  end.

(** The registration of the channel [p] after the epoll_ctl calls of the log:
    [None] when it is not registered, else the event mask; the epoll protocol
    (add only when absent, modify and delete only when present) is checked on
    the way, and breaking it is [Err]. *)
Inductive registration := Reg (mask : option Z) | Broken.
#[export] Instance registration_eq_dec : EqDecision registration.
Proof. solve_decision. Defined.

Definition reg_step (p : ptr) (r : registration) (e : event) : registration :=
  match ev_call e with
  | SysEpollCtl op _ ev data =>
      if data =? p then
        match r, op with
        | Reg None, EPOLL_CTL_ADD => Reg (Some ev)
        | Reg (Some _), EPOLL_CTL_MOD => Reg (Some ev)
        | Reg (Some _), EPOLL_CTL_DEL => Reg None
        | _, _ => Broken
        end
      else r
  | _ => r
  end.
Definition registered (p : ptr) (tr : trace) : registration :=
  fold_left (reg_step p) tr (Reg None).

(** The descriptor of the last epoll_ctl about [p] while it is open: closing it
    takes the channel out of epoll, whatever was registered. *)
Definition descriptor_step (p : ptr) (r : option Z) (e : event) : option Z :=
  match ev_call e with
  | SysEpollCtl _ fd _ data => if data =? p then Some fd else r
  | SysClose fd => if bool_decide (r = Some fd) then None else r
  | _ => r
  end.
Definition descriptor (p : ptr) (tr : trace) : option Z := fold_left (descriptor_step p) tr None.

(** epoll may report [p]. *)
Definition watched (p : ptr) (tr : trace) : Prop := registered p tr <> Reg None /\ descriptor p tr <> None.

(** The delay of the last timerfd_settime. *)
Definition armed_step (a : option (Z * Z)) (e : event) : option (Z * Z) :=
  match ev_call e with
  | SysTimerfdSettime _ s ns => Some (s, ns)
  | _ => a
  end.
Definition armed (tr : trace) : option (Z * Z) := fold_left armed_step tr None.

Lemma wire_app fd t1 t2 : wire fd (t1 ++ t2) = wire fd t1 ++ wire fd t2.
Proof.
  induction t1 as [|[c r] t1 IH]; [done|]. simpl.
  destruct c; try done. destruct r; [|done]. destruct (_ =? _); [|done].
  by rewrite IH, app_assoc.
Qed.
Lemma shutdowns_app fd t1 t2 : shutdowns fd (t1 ++ t2) = (shutdowns fd t1 + shutdowns fd t2)%nat.
Proof.
  induction t1 as [|[c r] t1 IH]; [done|]. simpl.
  destruct c; try done. destruct (_ =? _); rewrite IH; done.
Qed.
Lemma registered_snoc p tr e : registered p (tr ++ [e]) = reg_step p (registered p tr) e.
Proof. unfold registered. by rewrite fold_left_app. Qed.
Lemma descriptor_snoc p tr e : descriptor p (tr ++ [e]) = descriptor_step p (descriptor p tr) e.
Proof. unfold descriptor. by rewrite fold_left_app. Qed.

(** The calls between two logs leave the registration of [p] alone, but for
    closing its descriptor. *)
Definition keeps_reg (p : ptr) (tr tr' : trace) : Prop :=
  registered p tr' = registered p tr /\ (descriptor p tr' <> None -> descriptor p tr <> None).
#[export] Instance keeps_reg_preorder p : PreOrder (keeps_reg p).
Proof. split; [by split|]. intros t1 t2 t3 [R1 D1] [R2 D2]. split; [congruence|auto]. Qed.
Lemma keeps_reg_snoc p tr e :
  match ev_call e with SysEpollCtl _ _ _ q => q <> p | _ => True end -> keeps_reg p tr (tr ++ [e]).
Proof.
  unfold keeps_reg. rewrite registered_snoc, descriptor_snoc. unfold reg_step, descriptor_step.
  destruct (ev_call e); try done; [intros _; split; [done|]; by case_bool_decide|].
  intros Hq%Z.eqb_neq. by rewrite Hq.
Qed.
Lemma keeps_reg_watched p tr tr' : keeps_reg p tr tr' -> watched p tr' -> watched p tr.
Proof. intros [E Hd] [? ?]. split; [congruence|auto]. Qed.

Lemma armed_snoc tr e : armed (tr ++ [e]) = armed_step (armed tr) e.
Proof. unfold armed. by rewrite fold_left_app. Qed.

(** ** A scripted kernel *)

(** A raw result; it is coerced to the type and bounds of the call made. *)
Inductive raw := RErr (errno : Z) | RNum (n : Z) | RBytes (l : list byte)
  | RAccept (fd : Z) (a : sockaddr_in) | REvents (l : list (Z * ptr)).

Record Script := mkScript { s_replies : list raw; s_clock : list Z }.

Definition null_sockaddr : sockaddr_in := mkSockaddr 0 0 0.

Definition script_reply (c : syscall) (r : option raw) : sysret (reply c) :=
  match r with
  | Some (RErr e) => SysErr (Z.max 1 e)
  | _ =>
      match c as c return sysret (reply c) with
      | SysRead _ len => SysOk match r with Some (RBytes l) => take (Z.to_nat len) l | _ => [] end
      | SysWrite _ d => SysOk match r with
                              | Some (RNum n) => Z.max 0 (Z.min n (zlen d)) | _ => zlen d end
      | SysSoError _ => SysOk match r with Some (RNum n) => n | _ => 0 end
      | SysSocket | SysEpollCreate1 | SysEventfd | SysTimerfdCreate => SysOk match r with Some (RNum n) => Z.max 0 n | _ => 100 end
      | SysAccept4 _ => match r with
                        | Some (RAccept fd a) => SysOk (Z.max 0 fd, a) | _ => SysErr EAGAIN end
      | SysGetsockname _ => SysOk match r with Some (RAccept _ a) => a | _ => null_sockaddr end
      | SysEpollWait m => SysOk match r with Some (REvents l) => take (Z.to_nat m) l | _ => [] end
      | _ => SysOk tt
      end
  end.

(** Calls whose success the script does not spell out. *)
Definition unscripted (c : syscall) : bool :=
  match c with SysEpollCtl _ _ _ _ | SysTimerfdSettime _ _ _ | SysClose _ => true | _ => false end.

(** The clock reads the listed instants, then stands at the last one. *)
Definition script_now (s : Script) : Z * Script :=
  match s_clock s with
  | [] => (0, s)
  | t :: ts => (Z.max 0 (Z.min t (2 ^ 62 - 1)),
                mkScript (s_replies s) match ts with [] => [t] | _ => ts end)
  end.

#[export] Instance script_kernel : Kernel Script := {
  k_call := fun c s =>
    if unscripted c then (script_reply c None, s)
    else (script_reply c (head (s_replies s)), mkScript (tail (s_replies s)) (s_clock s));
  k_now := script_now
}.

Lemma script_reply_ok c r : reply_ok c (script_reply c r).
Proof.
  destruct c; destruct r as [[]|]; simpl;
    try (pose proof (zlen_nonneg data)); try lia; auto;
    unfold zlen, EAGAIN; rewrite ?length_take; simpl length; lia.
Qed.

#[export] Instance script_laws : KernelLaws Script.
Proof.
  split.
  - intros c k. unfold k_call, script_kernel.
    destruct (unscripted c); cbn [fst]; apply script_reply_ok.
  - intros k. simpl. unfold script_now. destruct (s_clock k); simpl; lia.
Qed.
