(* ===== verification/World.v ===== *)
(** The state of one reactor: the event loop with its poller and timer queue,
    the heap of the objects it manages (channels, timers, connections,
    acceptors, connectors, single-loop servers, clients), the kernel, and the
    state of the application.  Closures the sources install are represented by
    the inductive types below, one constructor per lambda or bind; their
    meaning is given where they are invoked.  Also the primitive accesses to
    this state shared by all components. *)

From S2P Require Import Prelude Ints Kernel Buffer.

(** ** Closures *)

(** User callbacks are known by a number the application gives them. *)
Abbreviation cbid := Z (only parsing).

(** The std::functions a Channel can hold. *)
Inductive ChannelCallback :=
  | ConnHandleRead (c : ptr) | ConnHandleWrite (c : ptr)
  | ConnHandleClose (c : ptr) | ConnHandleError (c : ptr)
  | AcceptorHandleRead (a : ptr)
  | ConnectorHandleWrite (x : ptr)
  | TimerQueueHandleRead
  | EventLoopHandleRead.

Inductive TimerCallback := TimerRetry (client : ptr) | TimerUser (cb : cbid).
Inductive CloseCallback := ServerCloseConnection (s : ptr) | ClientCloseConnection (c : ptr).
Inductive NewConnectionCallback := ServerNewConnection (s : ptr) | ClientNewConnection (c : ptr).
Inductive ConnectionCallback := DefaultConnection | UserConnection (cb : cbid).
Inductive MessageCallback := DefaultMessage | UserMessage (cb : cbid).

(** The tasks that can be queued in a loop. *)
Inductive Task :=
  | TaskSendInLoop (c : ptr) (str : list byte)
  | TaskShutdownInLoop (c : ptr)
  | TaskForceCloseInLoop (c : ptr)
  | TaskStopRead (c : ptr)
  | TaskStartRead (c : ptr)
  | TaskWriteComplete (cb : cbid) (c : ptr)
  | TaskHighWaterMark (cb : cbid) (c : ptr) (mark : Z)
  | TaskAddTimer (when : Z) (timer : ptr)
  | TaskCancelTimer (timer : ptr)
  | TaskUser (cb : cbid).

(** ** Objects *)

Record Channel := mkChannel {
  pooling : bool;
  fd_ : Z;
  tie_ : option ptr;
  tied_ : bool;
  events_ : Z;
  revents_ : Z;
  handlingEvents_ : bool;
  readCallback_ : option ChannelCallback;
  writeCallback_ : option ChannelCallback;
  closeCallback_ : option ChannelCallback;
  errorCallback_ : option ChannelCallback
}.

Record Timer := mkTimer {
  t_callback_ : option TimerCallback;
  when_ : Z;
  interval_ : Z;
  repeat_ : bool;
  canceled_ : bool
}.

Inductive ConnectState := kConnecting | kConnected | kDisconnecting | kDisconnected.
#[export] Instance ConnectState_eq_dec : EqDecision ConnectState.
Proof. solve_decision. Defined.

Record TcpConnection := mkConn {
  sockfd_ : Z;
  channel_ : ptr;
  state_ : ConnectState;
  local_ : sockaddr_in;
  peer_ : sockaddr_in;
  inputBuffer_ : Buf.Buffer;
  outputBuffer_ : Buf.Buffer;
  highWaterMark_ : Z;
  context_ : option Z;
  messageCallback_ : option MessageCallback;
  writeCompleteCallback_ : option cbid;
  highWaterMarkCallback_ : option cbid;
  connCloseCallback_ : option CloseCallback
}.

Record Acceptor := mkAcceptor {
  listening_ : bool;
  acceptfd_ : Z;
  acceptChannel_ : ptr;
  a_local_ : sockaddr_in;
  a_newConnectionCallback_ : option NewConnectionCallback
}.

Record Connector := mkConnector {
  x_peer_ : sockaddr_in;
  x_sockfd_ : Z;
  connected_ : bool;
  started_ : bool;
  x_channel_ : ptr;
  x_newConnectionCallback_ : option NewConnectionCallback;
  x_errorCallback_ : option cbid
}.

Record TcpServerSingle := mkSingle {
  acceptor_ : ptr;
  connections_ : gset ptr;
  s_connectionCallback_ : option ConnectionCallback;
  s_messageCallback_ : option MessageCallback;
  s_writeCompleteCallback_ : option cbid
}.

Record TcpClient := mkClient {
  c_connected_ : bool;
  c_peer_ : sockaddr_in;
  retryTimer_ : ptr;
  connector_ : ptr;
  connection_ : option ptr;
  c_connectionCallback_ : option ConnectionCallback;
  c_messageCallback_ : option MessageCallback;
  c_writeCompleteCallback_ : option cbid
}.

(** EventLoop, with its members EPollPoller (the size of [events_] and the
    descriptor) and TimerQueue ([timers_] is a std::set, kept in order). *)
Record EventLoop := mkLoop {
  tid_ : Z;
  quit_ : bool;
  doingPendingTasks_ : bool;
  poller_events_size : Z;
  activeChannels_ : list ptr;
  wakeupfd_ : Z;
  wakeupChannel_ : ptr;
  pendingTasks_ : list Task;
  timerfd_ : Z;
  timerChannel_ : ptr;
  timers_ : list (Z * ptr);
  epollfd_ : Z
}.

Record World (K A : Type) := mkWorld {
  w_kern : K;
  w_trace : trace;
  w_errno : Z;
  w_cur : Z;                         (* the thread making the current call *)
  w_loop : EventLoop;
  w_channels : gmap Z Channel;
  w_timers : gmap Z Timer;
  w_conns : gmap Z TcpConnection;
  w_acceptors : gmap Z Acceptor;
  w_connectors : gmap Z Connector;
  w_singles : gmap Z TcpServerSingle;
  w_clients : gmap Z TcpClient;
  w_next : Z;                        (* the next address of the allocator *)
  w_app : A
}.
Arguments mkWorld {K A}.
Arguments w_kern {K A}. Arguments w_trace {K A}. Arguments w_errno {K A}.
Arguments w_cur {K A}. Arguments w_loop {K A}. Arguments w_channels {K A}.
Arguments w_timers {K A}. Arguments w_conns {K A}. Arguments w_acceptors {K A}.
Arguments w_connectors {K A}. Arguments w_singles {K A}. Arguments w_clients {K A}.
Arguments w_next {K A}. Arguments w_app {K A}.

(** ** Field updates *)

Definition set_pooling (v : bool) (r : Channel) : Channel :=
  mkChannel v (fd_ r) (tie_ r) (tied_ r) (events_ r) (revents_ r) (handlingEvents_ r)
    (readCallback_ r) (writeCallback_ r) (closeCallback_ r) (errorCallback_ r).
Definition set_tie_ (v : option ptr) (r : Channel) : Channel :=
  mkChannel (pooling r) (fd_ r) v (tied_ r) (events_ r) (revents_ r) (handlingEvents_ r)
    (readCallback_ r) (writeCallback_ r) (closeCallback_ r) (errorCallback_ r).
Definition set_tied_ (v : bool) (r : Channel) : Channel :=
  mkChannel (pooling r) (fd_ r) (tie_ r) v (events_ r) (revents_ r) (handlingEvents_ r)
    (readCallback_ r) (writeCallback_ r) (closeCallback_ r) (errorCallback_ r).
Definition set_events_ (v : Z) (r : Channel) : Channel :=
  mkChannel (pooling r) (fd_ r) (tie_ r) (tied_ r) v (revents_ r) (handlingEvents_ r)
    (readCallback_ r) (writeCallback_ r) (closeCallback_ r) (errorCallback_ r).
Definition set_revents_ (v : Z) (r : Channel) : Channel :=
  mkChannel (pooling r) (fd_ r) (tie_ r) (tied_ r) (events_ r) v (handlingEvents_ r)
    (readCallback_ r) (writeCallback_ r) (closeCallback_ r) (errorCallback_ r).
Definition set_handlingEvents_ (v : bool) (r : Channel) : Channel :=
  mkChannel (pooling r) (fd_ r) (tie_ r) (tied_ r) (events_ r) (revents_ r) v (readCallback_ r)
    (writeCallback_ r) (closeCallback_ r) (errorCallback_ r).
Definition set_readCallback_ (v : option ChannelCallback) (r : Channel) : Channel :=
  mkChannel (pooling r) (fd_ r) (tie_ r) (tied_ r) (events_ r) (revents_ r) (handlingEvents_ r)
    v (writeCallback_ r) (closeCallback_ r) (errorCallback_ r).
Definition set_writeCallback_ (v : option ChannelCallback) (r : Channel) : Channel :=
  mkChannel (pooling r) (fd_ r) (tie_ r) (tied_ r) (events_ r) (revents_ r) (handlingEvents_ r)
    (readCallback_ r) v (closeCallback_ r) (errorCallback_ r).
Definition set_closeCallback_ (v : option ChannelCallback) (r : Channel) : Channel :=
  mkChannel (pooling r) (fd_ r) (tie_ r) (tied_ r) (events_ r) (revents_ r) (handlingEvents_ r)
    (readCallback_ r) (writeCallback_ r) v (errorCallback_ r).
Definition set_errorCallback_ (v : option ChannelCallback) (r : Channel) : Channel :=
  mkChannel (pooling r) (fd_ r) (tie_ r) (tied_ r) (events_ r) (revents_ r) (handlingEvents_ r)
    (readCallback_ r) (writeCallback_ r) (closeCallback_ r) v.
Definition set_when_ (v : Z) (r : Timer) : Timer :=
  mkTimer (t_callback_ r) v (interval_ r) (repeat_ r) (canceled_ r).
Definition set_canceled_ (v : bool) (r : Timer) : Timer :=
  mkTimer (t_callback_ r) (when_ r) (interval_ r) (repeat_ r) v.
Definition set_state_ (v : ConnectState) (r : TcpConnection) : TcpConnection :=
  mkConn (sockfd_ r) (channel_ r) v (local_ r) (peer_ r) (inputBuffer_ r) (outputBuffer_ r)
    (highWaterMark_ r) (context_ r) (messageCallback_ r) (writeCompleteCallback_ r)
    (highWaterMarkCallback_ r) (connCloseCallback_ r).
Definition set_inputBuffer_ (v : Buf.Buffer) (r : TcpConnection) : TcpConnection :=
  mkConn (sockfd_ r) (channel_ r) (state_ r) (local_ r) (peer_ r) v (outputBuffer_ r)
    (highWaterMark_ r) (context_ r) (messageCallback_ r) (writeCompleteCallback_ r)
    (highWaterMarkCallback_ r) (connCloseCallback_ r).
Definition set_outputBuffer_ (v : Buf.Buffer) (r : TcpConnection) : TcpConnection :=
  mkConn (sockfd_ r) (channel_ r) (state_ r) (local_ r) (peer_ r) (inputBuffer_ r) v
    (highWaterMark_ r) (context_ r) (messageCallback_ r) (writeCompleteCallback_ r)
    (highWaterMarkCallback_ r) (connCloseCallback_ r).
Definition set_highWaterMark_ (v : Z) (r : TcpConnection) : TcpConnection :=
  mkConn (sockfd_ r) (channel_ r) (state_ r) (local_ r) (peer_ r) (inputBuffer_ r)
    (outputBuffer_ r) v (context_ r) (messageCallback_ r) (writeCompleteCallback_ r)
    (highWaterMarkCallback_ r) (connCloseCallback_ r).
Definition set_context_ (v : option Z) (r : TcpConnection) : TcpConnection :=
  mkConn (sockfd_ r) (channel_ r) (state_ r) (local_ r) (peer_ r) (inputBuffer_ r)
    (outputBuffer_ r) (highWaterMark_ r) v (messageCallback_ r) (writeCompleteCallback_ r)
    (highWaterMarkCallback_ r) (connCloseCallback_ r).
Definition set_messageCallback_ (v : option MessageCallback) (r : TcpConnection) : TcpConnection :=
  mkConn (sockfd_ r) (channel_ r) (state_ r) (local_ r) (peer_ r) (inputBuffer_ r)
    (outputBuffer_ r) (highWaterMark_ r) (context_ r) v (writeCompleteCallback_ r)
    (highWaterMarkCallback_ r) (connCloseCallback_ r).
Definition set_writeCompleteCallback_ (v : option cbid) (r : TcpConnection) : TcpConnection :=
  mkConn (sockfd_ r) (channel_ r) (state_ r) (local_ r) (peer_ r) (inputBuffer_ r)
    (outputBuffer_ r) (highWaterMark_ r) (context_ r) (messageCallback_ r) v
    (highWaterMarkCallback_ r) (connCloseCallback_ r).
Definition set_highWaterMarkCallback_ (v : option cbid) (r : TcpConnection) : TcpConnection :=
  mkConn (sockfd_ r) (channel_ r) (state_ r) (local_ r) (peer_ r) (inputBuffer_ r)
    (outputBuffer_ r) (highWaterMark_ r) (context_ r) (messageCallback_ r)
    (writeCompleteCallback_ r) v (connCloseCallback_ r).
Definition set_connCloseCallback_ (v : option CloseCallback) (r : TcpConnection) : TcpConnection :=
  mkConn (sockfd_ r) (channel_ r) (state_ r) (local_ r) (peer_ r) (inputBuffer_ r)
    (outputBuffer_ r) (highWaterMark_ r) (context_ r) (messageCallback_ r)
    (writeCompleteCallback_ r) (highWaterMarkCallback_ r) v.
Definition set_a_newConnectionCallback_ (v : option NewConnectionCallback) (r : Acceptor) : Acceptor :=
  mkAcceptor (listening_ r) (acceptfd_ r) (acceptChannel_ r) (a_local_ r) v.
Definition set_connected_ (v : bool) (r : Connector) : Connector :=
  mkConnector (x_peer_ r) (x_sockfd_ r) v (started_ r) (x_channel_ r) (x_newConnectionCallback_
    r) (x_errorCallback_ r).
Definition set_started_ (v : bool) (r : Connector) : Connector :=
  mkConnector (x_peer_ r) (x_sockfd_ r) (connected_ r) v (x_channel_ r)
    (x_newConnectionCallback_ r) (x_errorCallback_ r).
Definition set_x_newConnectionCallback_ (v : option NewConnectionCallback) (r : Connector) : Connector :=
  mkConnector (x_peer_ r) (x_sockfd_ r) (connected_ r) (started_ r) (x_channel_ r) v
    (x_errorCallback_ r).
Definition set_x_errorCallback_ (v : option cbid) (r : Connector) : Connector :=
  mkConnector (x_peer_ r) (x_sockfd_ r) (connected_ r) (started_ r) (x_channel_ r)
    (x_newConnectionCallback_ r) v.
Definition set_connections_ (v : gset ptr) (r : TcpServerSingle) : TcpServerSingle :=
  mkSingle (acceptor_ r) v (s_connectionCallback_ r) (s_messageCallback_ r)
    (s_writeCompleteCallback_ r).
Definition set_s_connectionCallback_ (v : option ConnectionCallback) (r : TcpServerSingle) : TcpServerSingle :=
  mkSingle (acceptor_ r) (connections_ r) v (s_messageCallback_ r) (s_writeCompleteCallback_ r).
Definition set_s_messageCallback_ (v : option MessageCallback) (r : TcpServerSingle) : TcpServerSingle :=
  mkSingle (acceptor_ r) (connections_ r) (s_connectionCallback_ r) v (s_writeCompleteCallback_
    r).
Definition set_s_writeCompleteCallback_ (v : option cbid) (r : TcpServerSingle) : TcpServerSingle :=
  mkSingle (acceptor_ r) (connections_ r) (s_connectionCallback_ r) (s_messageCallback_ r) v.
Definition set_c_connected_ (v : bool) (r : TcpClient) : TcpClient :=
  mkClient v (c_peer_ r) (retryTimer_ r) (connector_ r) (connection_ r) (c_connectionCallback_
    r) (c_messageCallback_ r) (c_writeCompleteCallback_ r).
Definition set_retryTimer_ (v : ptr) (r : TcpClient) : TcpClient :=
  mkClient (c_connected_ r) (c_peer_ r) v (connector_ r) (connection_ r) (c_connectionCallback_
    r) (c_messageCallback_ r) (c_writeCompleteCallback_ r).
Definition set_connector_ (v : ptr) (r : TcpClient) : TcpClient :=
  mkClient (c_connected_ r) (c_peer_ r) (retryTimer_ r) v (connection_ r) (c_connectionCallback_
    r) (c_messageCallback_ r) (c_writeCompleteCallback_ r).
Definition set_connection_ (v : option ptr) (r : TcpClient) : TcpClient :=
  mkClient (c_connected_ r) (c_peer_ r) (retryTimer_ r) (connector_ r) v (c_connectionCallback_
    r) (c_messageCallback_ r) (c_writeCompleteCallback_ r).
Definition set_c_connectionCallback_ (v : option ConnectionCallback) (r : TcpClient) : TcpClient :=
  mkClient (c_connected_ r) (c_peer_ r) (retryTimer_ r) (connector_ r) (connection_ r) v
    (c_messageCallback_ r) (c_writeCompleteCallback_ r).
Definition set_c_messageCallback_ (v : option MessageCallback) (r : TcpClient) : TcpClient :=
  mkClient (c_connected_ r) (c_peer_ r) (retryTimer_ r) (connector_ r) (connection_ r)
    (c_connectionCallback_ r) v (c_writeCompleteCallback_ r).
Definition set_c_writeCompleteCallback_ (v : option cbid) (r : TcpClient) : TcpClient :=
  mkClient (c_connected_ r) (c_peer_ r) (retryTimer_ r) (connector_ r) (connection_ r)
    (c_connectionCallback_ r) (c_messageCallback_ r) v.
Definition set_quit_ (v : bool) (r : EventLoop) : EventLoop :=
  mkLoop (tid_ r) v (doingPendingTasks_ r) (poller_events_size r) (activeChannels_ r) (wakeupfd_
    r) (wakeupChannel_ r) (pendingTasks_ r) (timerfd_ r) (timerChannel_ r) (timers_ r) (epollfd_ r).
Definition set_doingPendingTasks_ (v : bool) (r : EventLoop) : EventLoop :=
  mkLoop (tid_ r) (quit_ r) v (poller_events_size r) (activeChannels_ r) (wakeupfd_ r)
    (wakeupChannel_ r) (pendingTasks_ r) (timerfd_ r) (timerChannel_ r) (timers_ r) (epollfd_ r).
Definition set_poller_events_size (v : Z) (r : EventLoop) : EventLoop :=
  mkLoop (tid_ r) (quit_ r) (doingPendingTasks_ r) v (activeChannels_ r) (wakeupfd_ r)
    (wakeupChannel_ r) (pendingTasks_ r) (timerfd_ r) (timerChannel_ r) (timers_ r) (epollfd_ r).
Definition set_activeChannels_ (v : list ptr) (r : EventLoop) : EventLoop :=
  mkLoop (tid_ r) (quit_ r) (doingPendingTasks_ r) (poller_events_size r) v (wakeupfd_ r)
    (wakeupChannel_ r) (pendingTasks_ r) (timerfd_ r) (timerChannel_ r) (timers_ r) (epollfd_ r).
Definition set_pendingTasks_ (v : list Task) (r : EventLoop) : EventLoop :=
  mkLoop (tid_ r) (quit_ r) (doingPendingTasks_ r) (poller_events_size r) (activeChannels_ r)
    (wakeupfd_ r) (wakeupChannel_ r) v (timerfd_ r) (timerChannel_ r) (timers_ r) (epollfd_ r).
Definition set_timers_ (v : list (Z * ptr)) (r : EventLoop) : EventLoop :=
  mkLoop (tid_ r) (quit_ r) (doingPendingTasks_ r) (poller_events_size r) (activeChannels_ r)
    (wakeupfd_ r) (wakeupChannel_ r) (pendingTasks_ r) (timerfd_ r) (timerChannel_ r) v (epollfd_ r).

Section setters.
Context {K A : Type}.
Definition set_w_kern (v : K) (r : World K A) : World K A :=
  mkWorld v (w_trace r) (w_errno r) (w_cur r) (w_loop r) (w_channels r) (w_timers r) (w_conns r)
    (w_acceptors r) (w_connectors r) (w_singles r) (w_clients r) (w_next r) (w_app r).
Definition set_w_trace (v : trace) (r : World K A) : World K A :=
  mkWorld (w_kern r) v (w_errno r) (w_cur r) (w_loop r) (w_channels r) (w_timers r) (w_conns r)
    (w_acceptors r) (w_connectors r) (w_singles r) (w_clients r) (w_next r) (w_app r).
Definition set_w_errno (v : Z) (r : World K A) : World K A :=
  mkWorld (w_kern r) (w_trace r) v (w_cur r) (w_loop r) (w_channels r) (w_timers r) (w_conns r)
    (w_acceptors r) (w_connectors r) (w_singles r) (w_clients r) (w_next r) (w_app r).
Definition set_w_cur (v : Z) (r : World K A) : World K A :=
  mkWorld (w_kern r) (w_trace r) (w_errno r) v (w_loop r) (w_channels r) (w_timers r) (w_conns
    r) (w_acceptors r) (w_connectors r) (w_singles r) (w_clients r) (w_next r) (w_app r).
Definition set_w_loop (v : EventLoop) (r : World K A) : World K A :=
  mkWorld (w_kern r) (w_trace r) (w_errno r) (w_cur r) v (w_channels r) (w_timers r) (w_conns r)
    (w_acceptors r) (w_connectors r) (w_singles r) (w_clients r) (w_next r) (w_app r).
Definition set_w_channels (v : gmap Z Channel) (r : World K A) : World K A :=
  mkWorld (w_kern r) (w_trace r) (w_errno r) (w_cur r) (w_loop r) v (w_timers r) (w_conns r)
    (w_acceptors r) (w_connectors r) (w_singles r) (w_clients r) (w_next r) (w_app r).
Definition set_w_timers (v : gmap Z Timer) (r : World K A) : World K A :=
  mkWorld (w_kern r) (w_trace r) (w_errno r) (w_cur r) (w_loop r) (w_channels r) v (w_conns r)
    (w_acceptors r) (w_connectors r) (w_singles r) (w_clients r) (w_next r) (w_app r).
Definition set_w_conns (v : gmap Z TcpConnection) (r : World K A) : World K A :=
  mkWorld (w_kern r) (w_trace r) (w_errno r) (w_cur r) (w_loop r) (w_channels r) (w_timers r) v
    (w_acceptors r) (w_connectors r) (w_singles r) (w_clients r) (w_next r) (w_app r).
Definition set_w_acceptors (v : gmap Z Acceptor) (r : World K A) : World K A :=
  mkWorld (w_kern r) (w_trace r) (w_errno r) (w_cur r) (w_loop r) (w_channels r) (w_timers r)
    (w_conns r) v (w_connectors r) (w_singles r) (w_clients r) (w_next r) (w_app r).
Definition set_w_connectors (v : gmap Z Connector) (r : World K A) : World K A :=
  mkWorld (w_kern r) (w_trace r) (w_errno r) (w_cur r) (w_loop r) (w_channels r) (w_timers r)
    (w_conns r) (w_acceptors r) v (w_singles r) (w_clients r) (w_next r) (w_app r).
Definition set_w_singles (v : gmap Z TcpServerSingle) (r : World K A) : World K A :=
  mkWorld (w_kern r) (w_trace r) (w_errno r) (w_cur r) (w_loop r) (w_channels r) (w_timers r)
    (w_conns r) (w_acceptors r) (w_connectors r) v (w_clients r) (w_next r) (w_app r).
Definition set_w_clients (v : gmap Z TcpClient) (r : World K A) : World K A :=
  mkWorld (w_kern r) (w_trace r) (w_errno r) (w_cur r) (w_loop r) (w_channels r) (w_timers r)
    (w_conns r) (w_acceptors r) (w_connectors r) (w_singles r) v (w_next r) (w_app r).
Definition set_w_next (v : Z) (r : World K A) : World K A :=
  mkWorld (w_kern r) (w_trace r) (w_errno r) (w_cur r) (w_loop r) (w_channels r) (w_timers r)
    (w_conns r) (w_acceptors r) (w_connectors r) (w_singles r) (w_clients r) v (w_app r).
Definition set_w_app (v : A) (r : World K A) : World K A :=
  mkWorld (w_kern r) (w_trace r) (w_errno r) (w_cur r) (w_loop r) (w_channels r) (w_timers r)
    (w_conns r) (w_acceptors r) (w_connectors r) (w_singles r) (w_clients r) (w_next r) v.
End setters.

(** ** Primitive accesses *)

Section primitives.
Context {K A : Type} `{Kernel K} `{Build}.
Implicit Types w : World K A.

(** A system call: logged with its result; errno is set on failure. *)
Definition sys (c : syscall) : M (World K A) (sysret (reply c)) := fun w =>
  let (r, k) := k_call c (w_kern w) in
  let w := set_w_kern k (set_w_trace (w_trace w ++ [Event c r]) w) in
  Ok r match r with SysErr e => set_w_errno e w | SysOk _ => w end.

(** clock::now() *)
Definition clock_now : M (World K A) Z := fun w =>
  let (t, k) := k_now (w_kern w) in Ok t (set_w_kern k w).

(** operator new: a fresh address. *)
Definition alloc : M (World K A) ptr := fun w =>
  Ok (w_next w) (set_w_next (w_next w + 1) w).

(** Dereferencing [p]. *)
Definition deref_at {T} (heap : World K A -> gmap Z T) (p : ptr) : M (World K A) T :=
  if p =? nullptr then throw NullDeref else deref UseAfterFree (fun w => heap w !! p).

Definition get_channel (p : ptr) : M (World K A) Channel := deref_at w_channels p.
Definition get_timer (p : ptr) : M (World K A) Timer := deref_at w_timers p.
Definition get_conn (p : ptr) : M (World K A) TcpConnection := deref_at w_conns p.
Definition get_acceptor (p : ptr) : M (World K A) Acceptor := deref_at w_acceptors p.
Definition get_connector (p : ptr) : M (World K A) Connector := deref_at w_connectors p.
Definition get_single (p : ptr) : M (World K A) TcpServerSingle := deref_at w_singles p.
Definition get_client (p : ptr) : M (World K A) TcpClient := deref_at w_clients p.

Definition put_channel (p : ptr) (x : Channel) w := set_w_channels (<[p := x]> (w_channels w)) w.
Definition put_timer (p : ptr) (x : Timer) w := set_w_timers (<[p := x]> (w_timers w)) w.
Definition put_conn (p : ptr) (x : TcpConnection) w := set_w_conns (<[p := x]> (w_conns w)) w.
Definition put_acceptor (p : ptr) (x : Acceptor) w :=
  set_w_acceptors (<[p := x]> (w_acceptors w)) w.
Definition put_connector (p : ptr) (x : Connector) w :=
  set_w_connectors (<[p := x]> (w_connectors w)) w.
Definition put_single (p : ptr) (x : TcpServerSingle) w :=
  set_w_singles (<[p := x]> (w_singles w)) w.
Definition put_client (p : ptr) (x : TcpClient) w := set_w_clients (<[p := x]> (w_clients w)) w.

Definition upd_channel (p : ptr) (f : Channel -> Channel) : M (World K A) unit :=
  let! x := get_channel p in modify (put_channel p (f x)).
Definition upd_timer (p : ptr) (f : Timer -> Timer) : M (World K A) unit :=
  let! x := get_timer p in modify (put_timer p (f x)).
Definition upd_conn (p : ptr) (f : TcpConnection -> TcpConnection) : M (World K A) unit :=
  let! x := get_conn p in modify (put_conn p (f x)).
Definition upd_acceptor (p : ptr) (f : Acceptor -> Acceptor) : M (World K A) unit :=
  let! x := get_acceptor p in modify (put_acceptor p (f x)).
Definition upd_connector (p : ptr) (f : Connector -> Connector) : M (World K A) unit :=
  let! x := get_connector p in modify (put_connector p (f x)).
Definition upd_single (p : ptr) (f : TcpServerSingle -> TcpServerSingle) : M (World K A) unit :=
  let! x := get_single p in modify (put_single p (f x)).
Definition upd_client (p : ptr) (f : TcpClient -> TcpClient) : M (World K A) unit :=
  let! x := get_client p in modify (put_client p (f x)).

Definition get_loop {T} (f : EventLoop -> T) : M (World K A) T := gets (fun w => f (w_loop w)).
Definition upd_loop (f : EventLoop -> EventLoop) : M (World K A) unit :=
  modify (fun w => set_w_loop (f (w_loop w)) w).

(** errno after a call: 0 stands for no error reported. *)
Definition get_errno : M (World K A) Z := gets w_errno.
Definition put_errno (e : Z) : M (World K A) unit := modify (set_w_errno e).

(** ** Reasoning about the primitives *)

Lemma wp_sys `{!KernelLaws K} c E (Q : sysret (reply c) -> World K A -> Prop) w :
  (forall r k, reply_ok c r ->
     Q r (set_w_errno match r with SysErr e => e | SysOk _ => w_errno w end
           (set_w_kern k (set_w_trace (w_trace w ++ [Event c r]) w)))) ->
  wp (sys c) E Q w.
Proof.
  intros HQ. unfold wp, sys. pose proof (k_reply_ok c (w_kern w)) as Hr.
  destruct (k_call c (w_kern w)) as [r k]. specialize (HQ r k Hr). by destruct r.
Qed.

(** The same, saying where result and kernel come from. *)
Lemma wp_sys_run `{!KernelLaws K} c E (Q : sysret (reply c) -> World K A -> Prop) w :
  (let (r, k) := k_call c (w_kern w) in reply_ok c r ->
     Q r (set_w_errno match r with SysErr e => e | SysOk _ => w_errno w end
           (set_w_kern k (set_w_trace (w_trace w ++ [Event c r]) w)))) ->
  wp (sys c) E Q w.
Proof.
  intros HQ. unfold wp, sys. pose proof (k_reply_ok c (w_kern w)) as Hr.
  destruct (k_call c (w_kern w)) as [r k]. specialize (HQ Hr). by destruct r.
Qed.

Lemma wp_now_run `{!KernelLaws K} E (Q : Z -> World K A -> Prop) w :
  (let (t, k) := k_now (w_kern w) in 0 <= t < 2 ^ 62 -> Q t (set_w_kern k w)) -> wp clock_now E Q w.
Proof.
  intros HQ. unfold wp, clock_now. pose proof (k_now_ok (w_kern w)) as Ht.
  destruct (k_now (w_kern w)) as [t k]. by apply HQ.
Qed.

Lemma wp_now `{!KernelLaws K} E (Q : Z -> World K A -> Prop) w :
  (forall t k, 0 <= t < 2 ^ 62 -> Q t (set_w_kern k w)) -> wp clock_now E Q w.
Proof.
  intros HQ. unfold wp, clock_now. pose proof (k_now_ok (w_kern w)) as Ht.
  destruct (k_now (w_kern w)) as [t k]. by apply HQ.
Qed.

Lemma wp_deref_at {T} (heap : World K A -> gmap Z T) p E (Q : T -> World K A -> Prop) w :
  (forall x, heap w !! p = Some x -> p <> nullptr -> Q x w) ->
  (p = nullptr -> E NullDeref) -> (heap w !! p = None -> E UseAfterFree) ->
  wp (deref_at heap p) E Q w.
Proof.
  intros HQ Hn Hu. unfold deref_at. destruct (p =? 0) eqn:Hp; zbool.
  - by apply wp_throw, Hn.
  - apply wp_deref; auto.
Qed.

Lemma wp_deref_some {T} (heap : World K A -> gmap Z T) p x E (Q : T -> World K A -> Prop) w :
  heap w !! p = Some x -> p <> nullptr -> Q x w -> wp (deref_at heap p) E Q w.
Proof. intros Hx Hp HQ. apply wp_deref_at; intros; simplify_eq; auto. Qed.
End primitives.

(** Resolve a dereference of an address whose object is known. *)
Ltac wp_lookup :=
  eapply wp_deref_some;
  [ cbn; rewrite ?lookup_insert_eq; (eassumption || reflexivity) | assumption | ].

(** ** A small world for the examples *)

Definition sample_loop : EventLoop := mkLoop 1 false false 128 [] 5 1 [] 6 2 [] 4.
Definition sample_world_with {A} (a : A) (replies : list raw) (clock : list Z) : World Script A :=
  mkWorld (mkScript replies clock) [] 0 1 sample_loop ∅ ∅ ∅ ∅ ∅ ∅ ∅ 10 a.
Definition sample_world (replies : list raw) (clock : list Z) : World Script unit :=
  sample_world_with tt replies clock.
