(* ===== verification/Poller.v ===== *)
(** The thread check of EventLoop, the wakeup and task queue entry points of
    src/EventLoop.cc that other components call, and EPollPoller
    (src/EPollPoller.hpp, src/EPollPoller.cc). *)

From S2P Require Import Prelude Ints Kernel Buffer World.

(** ** EventLoop: what the other components use *)

Module Loop.
Section ops.
Context {K A : Type} `{Kernel K} `{Build}.
Implicit Types w : World K A.

Definition isInLoopThread : M (World K A) bool :=
  gets (fun w => tid_ (w_loop w) =? w_cur w).
Definition assertInLoopThread : M (World K A) unit :=
  let! b := isInLoopThread in assert_ b "isInLoopThread()".
Definition assertNotInLoopThread : M (World K A) unit :=
  let! b := isInLoopThread in assert_ (negb b) "!isInLoopThread()".

(** wakeup: one more count in the eventfd. *)
Definition wakeup : M (World K A) unit :=
  let! fd := get_loop wakeupfd_ in
  let! _ := sys (SysWrite fd (le_bytes 8 1)) in
  ret tt.

Definition queueInLoop (task : Task) : M (World K A) unit :=
  upd_loop (fun l => set_pendingTasks_ (pendingTasks_ l ++ [task]) l) ;;;
  let! b := isInLoopThread in
  let! doing := get_loop doingPendingTasks_ in
  when (negb b || doing) wakeup.

(** runInLoop of a task whose body is [body]. *)
Definition runInLoop (task : Task) (body : M (World K A) unit) : M (World K A) unit :=
  let! b := isInLoopThread in
  if b then body else queueInLoop task.

Definition quit : M (World K A) unit :=
  let! q := get_loop quit_ in
  assert_ (negb q) "!quit_" ;;;
  upd_loop (set_quit_ true) ;;;
  let! b := isInLoopThread in
  when (negb b) wakeup.
End ops.
End Loop.

(** ** EPollPoller *)

Module Poller.
Section ops.
Context {K A : Type} `{Kernel K} `{Build}.
Implicit Types w : World K A.

Definition isNoneEvents (ch : Channel) : bool := events_ ch =? 0.

(** updateChannel(int op, Channel* channel): a failing epoll_ctl is only logged. *)
Definition updateChannel_op (op : epoll_op) (p : ptr) : M (World K A) unit :=
  let! ch := get_channel p in
  let! _ := sys (SysEpollCtl op (fd_ ch) (events_ ch) p) in
  ret tt.

Definition updateChannel (p : ptr) : M (World K A) unit :=
  Loop.assertInLoopThread ;;;
  let! ch := get_channel p in
  let! op :=
    (if negb (pooling ch) then
       assert_ (negb (isNoneEvents ch)) "!channel->isNoneEvents()" ;;;
       upd_channel p (set_pooling true) ;;;
       ret EPOLL_CTL_ADD
     else if negb (isNoneEvents ch) then ret EPOLL_CTL_MOD
     else
       upd_channel p (set_pooling false) ;;;
       ret EPOLL_CTL_DEL) in
  updateChannel_op op p.

(** The channels the kernel reports are marked with their events and appended
    to [activeChannels]; a full report doubles the event vector. *)
Definition setRevents (p : ptr) (revents : Z) : M (World K A) unit :=
  upd_channel p (set_revents_ revents).

Definition poll (activeChannels : list ptr) : M (World K A) (list ptr) :=
  Loop.assertInLoopThread ;;;
  let! n := get_loop poller_events_size in
  let maxEvents := wraps 32 n in
  let! r := sys (SysEpollWait maxEvents) in
  match r with
  | SysErr _ => ret activeChannels      (* logged unless EINTR *)
  | SysOk evs =>
      for_each evs (fun e => setRevents (snd e) (fst e)) ;;;
      when ((0 <? zlen evs) && (zlen evs =? maxEvents))
           (upd_loop (fun l => set_poller_events_size (2 * poller_events_size l) l)) ;;;
      ret (activeChannels ++ map snd evs)
  end.
End ops.
End Poller.
