(* ===== verification/Channel.v ===== *)
(** Channel (src/Channel.hpp, src/Channel.cc) with the two EventLoop methods it
    is mutually dependent on (updateChannel, removeChannel), and the proof that
    a channel's calls drive epoll by its protocol. *)

From S2P Require Import Prelude Ints Kernel Buffer World Poller.

Module Chan.
Section ops.
Context {K A : Type} `{Kernel K} `{Build}.
Implicit Types w : World K A.

Definition isNoneEvents (ch : Channel) : bool := Poller.isNoneEvents ch.
Definition isReading (ch : Channel) : bool := negb (Z.land (events_ ch) EPOLLIN =? 0).
Definition isWriting (ch : Channel) : bool := negb (Z.land (events_ ch) EPOLLOUT =? 0).

(** EventLoop::updateChannel *)
Definition loop_updateChannel (p : ptr) : M (World K A) unit :=
  Loop.assertInLoopThread ;;;
  Poller.updateChannel p.

Definition update (p : ptr) : M (World K A) unit := loop_updateChannel p.

Definition Channel_new (fd : Z) : Channel :=
  mkChannel false fd None false 0 0 false None None None None.

(** The channel is a member of the object that owns it: it is born at a fresh
    address and dies with its owner. *)
Definition Channel_ctor (fd : Z) : M (World K A) ptr :=
  let! p := alloc in
  modify (put_channel p (Channel_new fd)) ;;;
  ret p.
Definition Channel_dtor (p : ptr) : M (World K A) unit :=
  let! ch := get_channel p in
  assert_ (negb (handlingEvents_ ch)) "!handlingEvents_" ;;;
  modify (fun w => set_w_channels (delete p (w_channels w)) w).

Definition setReadCallback (p : ptr) (cb : ChannelCallback) : M (World K A) unit :=
  upd_channel p (set_readCallback_ (Some cb)).
Definition setWriteCallback (p : ptr) (cb : ChannelCallback) : M (World K A) unit :=
  upd_channel p (set_writeCallback_ (Some cb)).
Definition setCloseCallback (p : ptr) (cb : ChannelCallback) : M (World K A) unit :=
  upd_channel p (set_closeCallback_ (Some cb)).
Definition setErrorCallback (p : ptr) (cb : ChannelCallback) : M (World K A) unit :=
  upd_channel p (set_errorCallback_ (Some cb)).

Definition tie (p obj : ptr) : M (World K A) unit :=
  upd_channel p (fun ch => set_tied_ true (set_tie_ (Some obj) ch)).

Definition enableRead (p : ptr) : M (World K A) unit :=
  upd_channel p (fun ch => set_events_ (Z.lor (events_ ch) (Z.lor EPOLLIN EPOLLPRI)) ch) ;;;
  update p.
Definition enableWrite (p : ptr) : M (World K A) unit :=
  upd_channel p (fun ch => set_events_ (Z.lor (events_ ch) EPOLLOUT) ch) ;;;
  update p.
Definition disableRead (p : ptr) : M (World K A) unit :=
  upd_channel p (fun ch => set_events_ (Z.land (events_ ch) (Z.lnot EPOLLIN)) ch) ;;;
  update p.
Definition disableWrite (p : ptr) : M (World K A) unit :=
  upd_channel p (fun ch => set_events_ (Z.land (events_ ch) (Z.lnot EPOLLOUT)) ch) ;;;
  update p.
Definition disableAll (p : ptr) : M (World K A) unit :=
  upd_channel p (set_events_ 0) ;;;
  update p.

(** EventLoop::removeChannel *)
Definition removeChannel (p : ptr) : M (World K A) unit :=
  Loop.assertInLoopThread ;;;
  disableAll p.

Definition remove (p : ptr) : M (World K A) unit :=
  let! ch := get_channel p in
  assert_ (pooling ch) "this->pooling" ;;;
  removeChannel p.

(** ** Dispatch *)

Section dispatch.
Variable run : ChannelCallback -> M (World K A) unit.

(** [if (revents_ & bits) { if (cb) cb(); }]; the condition reads the object
    again, as the callbacks before it may have changed it. *)
Definition has (bits : Z) (ch : Channel) : bool := negb (Z.land (revents_ ch) bits =? 0).
Definition invoke (cb : option ChannelCallback) : M (World K A) unit :=
  match cb with Some cb => run cb | None => ret tt end.
Definition dispatch_if (p : ptr) (cond : Channel -> bool)
    (cb : Channel -> option ChannelCallback) : M (World K A) unit :=
  let! ch := get_channel p in
  when (cond ch) (invoke (cb ch)).

Definition handleEventWithGuard (p : ptr) : M (World K A) unit :=
  upd_channel p (set_handlingEvents_ true) ;;;
  dispatch_if p (fun ch => has EPOLLHUP ch && negb (has EPOLLIN ch)) closeCallback_ ;;;
  dispatch_if p (has EPOLLERR) errorCallback_ ;;;
  dispatch_if p (has (Z.lor EPOLLIN (Z.lor EPOLLPRI EPOLLRDHUP))) readCallback_ ;;;
  dispatch_if p (has EPOLLOUT) writeCallback_ ;;;
  upd_channel p (set_handlingEvents_ false).

(** tie_.lock() gives nullptr when the owner is gone. *)
Definition handleEvents (p : ptr) : M (World K A) unit :=
  Loop.assertInLoopThread ;;;
  let! ch := get_channel p in
  if tied_ ch then
    let! live := gets (fun w => match tie_ ch with
                                | Some o => bool_decide (is_Some (w_conns w !! o))
                                | None => false end) in
    when live (handleEventWithGuard p)
  else handleEventWithGuard p.
End dispatch.
End ops.

(** ** The effect of update *)

Section specs.
Context {K A : Type} `{Kernel K} `{!KernelLaws K} `{Build}.
Implicit Types w : World K A.

Definition in_loop_thread w : Prop := tid_ (w_loop w) = w_cur w.

Lemma wp_assertInLoopThread E (Q : unit -> World K A -> Prop) w :
  in_loop_thread w -> Q tt w -> wp Loop.assertInLoopThread E Q w.
Proof.
  intros Ht HQ. unfold Loop.assertInLoopThread, Loop.isInLoopThread. wp_step. wp_step.
  apply wp_assert_true; [apply Z.eqb_eq; exact Ht|exact HQ].
Qed.

(** The world after an epoll_ctl on channel [p]. *)
Definition after_ctl (p : ptr) (ch : Channel) (op : epoll_op)
    (r : sysret unit) (e : Z) (k : K) w : World K A :=
  set_w_errno e (set_w_kern k (set_w_trace
    (w_trace w ++ [Event (SysEpollCtl op (fd_ ch) (events_ ch) p) r]) (put_channel p ch w))).

(** The operation update chooses. *)
Definition ctl_op (ch : Channel) : epoll_op :=
  if pooling ch then if events_ ch =? 0 then EPOLL_CTL_DEL else EPOLL_CTL_MOD
  else EPOLL_CTL_ADD.
(** The registration flag it leaves. *)
Definition ctl_pooling (ch : Channel) : bool :=
  if pooling ch then negb (events_ ch =? 0) else true.

Lemma put_channel_id p ch w : w_channels w !! p = Some ch -> put_channel p ch w = w.
Proof.
  intros Hl. unfold put_channel. rewrite insert_id by done. by destruct w.
Qed.

Lemma set_pooling_id b ch : pooling ch = b -> set_pooling b ch = ch.
Proof. intros <-. by destruct ch. Qed.

Lemma update_wp p ch (E : fault -> Prop) (Q : unit -> World K A -> Prop) w :
  p <> nullptr -> in_loop_thread w -> w_channels w !! p = Some ch ->
  (ndebug = false -> pooling ch = false -> events_ ch = 0 ->
     E (AssertFail "!channel->isNoneEvents()")) ->
  (ndebug = true \/ pooling ch = true \/ events_ ch <> 0 -> forall r e k,
     Q tt (after_ctl p (set_pooling (ctl_pooling ch) ch) (ctl_op ch) r e k w)) ->
  wp (update p) E Q w.
Proof.
  intros Hp Ht Hl HE HQ. unfold update, loop_updateChannel, Poller.updateChannel.
  wp_step. apply wp_assertInLoopThread; [done|].
  wp_step. apply wp_assertInLoopThread; [done|].
  unfold get_channel. wp_step. wp_lookup. wp_step.
  assert (Hop : forall op w1, w1 = put_channel p (set_pooling (ctl_pooling ch) ch) w ->
            op = ctl_op ch ->
            ndebug = true \/ pooling ch = true \/ events_ ch <> 0 ->
            wp (Poller.updateChannel_op op p) E Q w1).
  { intros op w1 -> -> Hc. unfold Poller.updateChannel_op, get_channel. wp_step. wp_lookup.
    wp_step. apply wp_sys. intros r k _. wp_step. specialize (HQ Hc r
      (match r with SysErr e => e | SysOk _ => w_errno w end) k). exact HQ. }
  unfold Poller.isNoneEvents, ctl_op, ctl_pooling in *.
  destruct (pooling ch) eqn:Hpool; simpl.
  - destruct (events_ ch =? 0) eqn:Hev; simpl; zbool.
    + wp_step. unfold upd_channel, get_channel. wp_step. wp_lookup. wp_step. wp_step.
      apply Hop; auto.
    + wp_step. apply Hop; auto. simpl. rewrite set_pooling_id by done.
      symmetry. by apply put_channel_id.
  - wp_step. apply wp_assert.
    + intros Hc. unfold upd_channel, get_channel. wp_step. wp_step. wp_lookup. wp_step. wp_step.
      apply Hop; auto. destruct Hc as [?|Hc]; [auto|]. zbool. auto.
    + intros Hn Hc. zbool. auto.
Qed.

(** ** The registration protocol *)

Inductive channel_call := EnableRead | EnableWrite | DisableRead | DisableWrite | DisableAll.

Definition channel_call_run (p : ptr) (c : channel_call) : M (World K A) unit :=
  match c with
  | EnableRead => enableRead p
  | EnableWrite => enableWrite p
  | DisableRead => disableRead p
  | DisableWrite => disableWrite p
  | DisableAll => disableAll p
  end.

(** The interest mask a call asks for. *)
Definition next_mask (c : channel_call) (m : Z) : Z :=
  match c with
  | EnableRead => Z.lor m (Z.lor EPOLLIN EPOLLPRI)
  | EnableWrite => Z.lor m EPOLLOUT
  | DisableRead => Z.land m (Z.lnot EPOLLIN)
  | DisableWrite => Z.land m (Z.lnot EPOLLOUT)
  | DisableAll => 0
  end.

(** Channel [p] has mask [m] and is registered with epoll, with this mask,
    exactly when the mask is not empty. *)
Definition synced (p : ptr) (m : Z) w : Prop :=
  p <> nullptr /\ in_loop_thread w /\
  exists ch, w_channels w !! p = Some ch /\ events_ ch = m /\ pooling ch = negb (m =? 0) /\
    registered p (w_trace w) = Reg (if m =? 0 then None else Some m).

Lemma call_body p c w ch (E : fault -> Prop) (Q : unit -> World K A -> Prop) :
  p <> nullptr -> w_channels w !! p = Some ch ->
  wp (update p) E Q (put_channel p (set_events_ (next_mask c (events_ ch)) ch) w) ->
  wp (channel_call_run p c) E Q w.
Proof.
  intros Hp Hl HQ. destruct c; simpl;
    unfold enableRead, enableWrite, disableRead, disableWrite, disableAll, upd_channel, get_channel;
    wp_step; wp_step; wp_lookup; wp_step; exact HQ.
Qed.

Lemma reg_step_ctl p tr r (op : epoll_op) fd ev m :
  registered p tr = Reg r ->
  match r, op with
  | None, EPOLL_CTL_ADD => m = Reg (Some ev)
  | Some _, EPOLL_CTL_MOD => m = Reg (Some ev)
  | Some _, EPOLL_CTL_DEL => m = Reg None
  | _, _ => m = Broken
  end ->
  forall res, registered p (tr ++ [Event (SysEpollCtl op fd ev p) res]) = m.
Proof.
  intros Hr Hm res. rewrite registered_snoc, Hr. unfold reg_step. simpl.
  rewrite Z.eqb_refl. destruct r, op; done.
Qed.

Lemma call_synced p m c w :
  synced p m w -> m <> 0 \/ next_mask c m <> 0 ->
  wp (channel_call_run p c) no_fault (fun _ => synced p (next_mask c m)) w.
Proof.
  intros (Hp&Ht&ch&Hl&Hev&Hpool&Hreg) Hm. eapply call_body; eauto.
  assert (Hl' : w_channels (put_channel p (set_events_ (next_mask c (events_ ch)) ch) w) !! p =
                Some (set_events_ (next_mask c (events_ ch)) ch)) by apply lookup_insert_eq.
  eapply update_wp; try exact Hl'; auto; simpl; rewrite Hev.
  - rewrite Hpool. intros _ Hz Hn. zbool. tauto.
  - intros _ r e k. split; [done|]. split; [done|].
    eexists. split; [apply lookup_insert_eq|]. simpl. split; [done|].
    unfold ctl_pooling, ctl_op. simpl. rewrite Hpool. split.
    + destruct (m =? 0) eqn:?, (next_mask c m =? 0) eqn:?; zbool; simpl; tauto.
    + eapply reg_step_ctl; [exact Hreg|].
      destruct (m =? 0) eqn:?, (next_mask c m =? 0) eqn:?; zbool; simpl; tauto.
Qed.

Fixpoint channel_calls_run (p : ptr) (cs : list channel_call) : M (World K A) unit :=
  match cs with
  | [] => ret tt
  | c :: cs' => channel_call_run p c ;;; channel_calls_run p cs'
  end.

(** No call leaves an unregistered channel without events. *)
Fixpoint calls_ok (m : Z) (cs : list channel_call) : bool :=
  match cs with
  | [] => true
  | c :: cs' => negb ((m =? 0) && (next_mask c m =? 0)) && calls_ok (next_mask c m) cs'
  end.

Lemma calls_synced p cs m w :
  synced p m w -> calls_ok m cs = true ->
  wp (channel_calls_run p cs) no_fault
     (fun _ => synced p (fold_left (fun m c => next_mask c m) cs m)) w.
Proof.
  revert m w. induction cs as [|c cs IH]; intros m w Hs Hok; simpl in *; [by apply wp_ret|].
  apply andb_true_iff in Hok as [Hc Hok]. wp_step. eapply wp_conseq.
  - apply call_synced; eauto. destruct (m =? 0) eqn:?, (next_mask c m =? 0) eqn:?;
      zbool; simpl in Hc; auto; done.
  - simpl. intros _ w' Hs'. by apply IH.
Qed.

(** ** Dispatch *)

(** What dispatch reads of a channel is the same. *)
Definition same_dispatch (a b : Channel) : Prop :=
  revents_ a = revents_ b /\ readCallback_ a = readCallback_ b /\
  writeCallback_ a = writeCallback_ b /\ closeCallback_ a = closeCallback_ b /\
  errorCallback_ a = errorCallback_ b.

#[export] Instance same_dispatch_equiv : Equivalence same_dispatch.
Proof.
  unfold same_dispatch. split; [done|..]; repeat intro; destruct_and!; split_and!; congruence.
Qed.

(** The callbacks an event mask stands for, in the order they are called. *)
Definition dispatch_list (ch : Channel) : list ChannelCallback :=
  let sel (b : bool) (o : option ChannelCallback) := if b then option_list o else [] in
  sel (has EPOLLHUP ch && negb (has EPOLLIN ch)) (closeCallback_ ch) ++
  sel (has EPOLLERR ch) (errorCallback_ ch) ++
  sel (has (Z.lor EPOLLIN (Z.lor EPOLLPRI EPOLLRDHUP)) ch) (readCallback_ ch) ++
  sel (has EPOLLOUT ch) (writeCallback_ ch).

Section dispatch.
Variable run : ChannelCallback -> M (World K A) unit.
(** The callbacks leave what is dispatched on at [p] alone. *)
Definition keeps_dispatch (p : ptr) : Prop :=
  forall cb w ch, w_channels w !! p = Some ch ->
    wp (run cb) any_fault (fun _ w' =>
      exists ch', w_channels w' !! p = Some ch' /\ same_dispatch ch ch') w.

Lemma dispatch_stage p cond f (k1 k2 : M (World K A) unit) w ch0 ch :
  keeps_dispatch p -> p <> nullptr -> w_channels w !! p = Some ch -> same_dispatch ch0 ch ->
  cond ch = cond ch0 -> f ch = f ch0 ->
  (forall w' ch', w_channels w' !! p = Some ch' -> same_dispatch ch0 ch' -> k1 w' = k2 w') ->
  (dispatch_if run p cond f ;;; k1) w =
  (for_each (if cond ch0 then option_list (f ch0) else []) run ;;; k2) w.
Proof.
  intros Hk Hp Hl Hs Hc Hf Hkk.
  unfold dispatch_if, get_channel, deref_at, bind. apply Z.eqb_neq in Hp as ->.
  unfold deref. rewrite Hl, Hc, Hf. unfold when, invoke.
  destruct (cond ch0); [|by eapply Hkk]. destruct (f ch0) as [cb|]; simpl; [|by eapply Hkk].
  unfold bind. specialize (Hk cb w ch Hl). unfold wp in Hk.
  destruct (run cb w) as [[] w'|]; [|done]. destruct Hk as (ch'&Hl'&Hs').
  simpl. eapply Hkk; [done|]. by transitivity ch.
Qed.

Lemma for_each_app_bind {S X} (l1 l2 : list X) (g : X -> M S unit) (k : M S unit) s :
  (for_each (l1 ++ l2) g ;;; k) s = (for_each l1 g ;;; for_each l2 g ;;; k) s.
Proof.
  revert s. induction l1 as [|x l1 IH]; intros s; [done|].
  simpl. unfold bind in *. destruct (g x s); [apply IH|done].
Qed.

Lemma dispatch_all p w ch (k : M (World K A) unit) :
  keeps_dispatch p -> p <> nullptr -> w_channels w !! p = Some ch ->
  (dispatch_if run p (fun ch => has EPOLLHUP ch && negb (has EPOLLIN ch)) closeCallback_ ;;;
   dispatch_if run p (has EPOLLERR) errorCallback_ ;;;
   dispatch_if run p (has (Z.lor EPOLLIN (Z.lor EPOLLPRI EPOLLRDHUP))) readCallback_ ;;;
   dispatch_if run p (has EPOLLOUT) writeCallback_ ;;; k) w =
  (for_each (dispatch_list ch) run ;;; k) w.
Proof.
  intros Hk Hp Hl. unfold dispatch_list. rewrite for_each_app_bind.
  apply (dispatch_stage p (fun ch => has EPOLLHUP ch && negb (has EPOLLIN ch)) closeCallback_
           _ _ w ch ch); auto; [reflexivity|].
  clear w Hl. intros w ch1 Hl1 Hs1. rewrite for_each_app_bind. pose proof Hs1 as (Hr1&?&?&?&?).
  apply (dispatch_stage p (has EPOLLERR) errorCallback_ _ _ w ch ch1); auto;
    [unfold has; by rewrite Hr1|].
  clear w Hl1. intros w ch2 Hl2 Hs2. rewrite for_each_app_bind. pose proof Hs2 as (Hr2&?&?&?&?).
  apply (dispatch_stage p (has (Z.lor EPOLLIN (Z.lor EPOLLPRI EPOLLRDHUP))) readCallback_
           _ _ w ch ch2); auto; [unfold has; by rewrite Hr2|].
  clear w Hl2. intros w ch3 Hl3 Hs3. pose proof Hs3 as (Hr3&?&?&?&?).
  apply (dispatch_stage p (has EPOLLOUT) writeCallback_ k k w ch ch3); auto.
  unfold has. by rewrite Hr3.
Qed.
End dispatch.
End specs.

(** ** Properties *)

Section properties.
Context {K A : Type} `{Kernel K} `{!KernelLaws K} `{Build}.
Implicit Types w : World K A.

(** C10: a channel drives epoll by its protocol. Whatever sequence of
    enable/disable calls is made, as long as none is a no-op on an
    unregistered channel, the epoll_ctl calls issued add the channel only when
    it is absent and modify or delete it only when it is present, and at the
    end it is registered exactly when its mask is not empty, with that mask. *)
Theorem channel_protocol p cs m w :
  synced p m w -> calls_ok m cs = true ->
  exists w', channel_calls_run p cs w = Ok tt w' /\
    synced p (fold_left (fun m c => next_mask c m) cs m) w'.
Proof.
  intros Hs Hc. destruct (wp_total _ _ _ (calls_synced p cs m w Hs Hc)) as ([]&w'&?&?). eauto.
Qed.

(** Removing a channel that is not registered is not a no-op. A debug
    build aborts; a Release build issues an EPOLL_CTL_ADD with an empty mask
    and leaves the channel marked as registered. *)
Theorem remove_unregistered p w :
  synced p 0 w ->
  if ndebug then
    exists w' ch, removeChannel p w = Ok tt w' /\ w_channels w' !! p = Some ch /\
      pooling ch = true /\ events_ ch = 0 /\ registered p (w_trace w') = Reg (Some 0)
  else removeChannel p w = Err (AssertFail "!channel->isNoneEvents()").
Proof.
  intros (Hp&Ht&ch&Hl&Hev&Hpool&Hreg).
  assert (Hw : wp (removeChannel p)
    (fun f => ndebug = false /\ f = AssertFail "!channel->isNoneEvents()")
    (fun _ w' => ndebug = true /\ exists ch', w_channels w' !! p = Some ch' /\
       pooling ch' = true /\ events_ ch' = 0 /\ registered p (w_trace w') = Reg (Some 0)) w).
  { unfold removeChannel. wp_step. apply wp_assertInLoopThread; [done|].
    apply (call_body p DisableAll w ch); auto.
    eapply update_wp; [done|done|apply lookup_insert_eq|auto|].
    simpl. intros Hc r e k. rewrite Hpool in Hc. simpl in Hc.
    split; [destruct Hc as [?|[?|?]]; done|].
    eexists. split; [apply lookup_insert_eq|]. simpl. unfold ctl_pooling, ctl_op. simpl.
    rewrite Hpool. simpl. split_and!; auto. eapply reg_step_ctl; [exact Hreg|done]. }
  unfold wp in Hw. destruct (removeChannel p w) as [[] w'|f].
  - destruct Hw as [-> (ch'&?&?&?&?)]. exists w', ch'. auto.
  - destruct Hw as [-> ->]. done.
Qed.

(** HandleEventWithGuard calls, for the events the kernel reported, the
    installed callbacks in the order close, error, read, write: close on a
    hang-up without input, read on input, urgent data or a peer half-close,
    and nothing for a callback that is not installed. *)
Theorem dispatch_order run p ch w :
  keeps_dispatch run p -> p <> nullptr -> w_channels w !! p = Some ch ->
  handleEventWithGuard run p w =
  (upd_channel p (set_handlingEvents_ true) ;;;
   for_each (dispatch_list ch) run ;;;
   upd_channel p (set_handlingEvents_ false)) w.
Proof.
  intros Hk Hp Hl. unfold handleEventWithGuard.
  assert (Hu : upd_channel p (set_handlingEvents_ true) w =
               Ok tt (put_channel p (set_handlingEvents_ true ch) w)).
  { unfold upd_channel, get_channel, deref_at, bind, deref, modify.
    apply Z.eqb_neq in Hp as ->. by rewrite Hl. }
  unfold bind at 1 6. rewrite Hu.
  rewrite (dispatch_all run p _ (set_handlingEvents_ true ch)); auto.
  apply lookup_insert_eq.
Qed.
End properties.

(** ** Witnesses *)

#[local] Instance debug : Build := {| ndebug := false |}.

(** A channel of descriptor 7 at address 3, with callbacks for all events and
    [revents] reported. *)
Definition example_channel (revents : Z) : Channel :=
  mkChannel false 7 None false 0 revents false (Some (ConnHandleRead 4))
    (Some (ConnHandleWrite 4)) (Some (ConnHandleClose 4)) (Some (ConnHandleError 4)).
Definition example_world (revents : Z) : World Script (list ChannelCallback) :=
  put_channel 3 (example_channel revents) (sample_world_with [] [] []).

Lemma example_synced revents : synced 3 0 (example_world revents).
Proof. split; [done|]. split; [done|]. by eexists. Qed.

Lemma channel_protocol_witness : exists w',
  channel_calls_run 3 [EnableRead; EnableWrite; DisableAll; EnableRead] (example_world 0) = Ok tt w' /\
  synced 3 3 w'.
Proof.
  apply (channel_protocol 3 [EnableRead; EnableWrite; DisableAll; EnableRead] 0);
    [apply example_synced|reflexivity].
Defined.

Lemma remove_unregistered_witness :
  removeChannel 3 (example_world 0) = Err (AssertFail "!channel->isNoneEvents()").
Proof. exact (remove_unregistered 3 (example_world 0) (example_synced 0)). Defined.

(** Log the callbacks. *)
Definition log_run (cb : ChannelCallback) : M (World Script (list ChannelCallback)) unit :=
  modify (fun w => set_w_app (w_app w ++ [cb]) w).

Lemma dispatch_order_witness : exists w',
  handleEventWithGuard log_run 3 (example_world (EPOLLHUP + EPOLLERR + EPOLLOUT + EPOLLPRI)) =
    Ok tt w' /\
  w_app w' = [ConnHandleClose 4; ConnHandleError 4; ConnHandleRead 4; ConnHandleWrite 4].
Proof.
  rewrite (dispatch_order log_run 3 (example_channel (EPOLLHUP + EPOLLERR + EPOLLOUT + EPOLLPRI)));
    [|intros cb w ch Hl; apply wp_modify; exists ch; split; [exact Hl|reflexivity]|discriminate|reflexivity].
  match goal with |- exists w', ?m = Ok tt w' /\ _ =>
    assert (Hv : match m with Ok _ w' => w_app w' = [ConnHandleClose 4; ConnHandleError 4; ConnHandleRead 4; ConnHandleWrite 4]
                 | Err _ => False end) by (vm_compute; reflexivity);
    destruct m as [[] w'|f]; [|destruct Hv]
  end.
  exists w'. split; [reflexivity|exact Hv].
Defined.
End Chan.
