(* ===== verification/TimerQueue.v ===== *)
(** Timer (src/Timer.hpp), the std::set of deadlines and TimerQueue
    (src/TimerQueue.hpp, src/TimerQueue.cc), and the timer methods of EventLoop
    (src/EventLoop.cc).  Timers are heap objects that are created, cancelled
    and deleted as in the source, so a use after free is a fault of the model;
    what a timer callback does is a parameter ([run]). *)

From Stdlib Require Sorted.
From S2P Require Import Prelude Ints Kernel Buffer World Poller Channel.

Module TQ.

(** ** std::set<std::pair<Timestamp, Timer*>> *)

Definition Entry : Type := Z * ptr.

Definition entry_ltb (a b : Entry) : bool :=
  (fst a <? fst b) || ((fst a =? fst b) && (snd a <? snd b)).
Definition entry_lt (a b : Entry) : Prop :=
  fst a < fst b \/ (fst a = fst b /\ snd a < snd b).

(** insert: the set and whether the entry is new. *)
Fixpoint set_insert (e : Entry) (l : list Entry) : list Entry * bool :=
  match l with
  | [] => ([e], true)
  | x :: l' =>
      if entry_ltb e x then (e :: l, true)
      else if entry_ltb x e then let (r, b) := set_insert e l' in (x :: r, b)
      else (l, false)
  end.

(** erase by key. *)
Fixpoint set_erase (e : Entry) (l : list Entry) : list Entry :=
  match l with
  | [] => []
  | x :: l' =>
      if entry_ltb x e then x :: set_erase e l'
      else if entry_ltb e x then l
      else l'
  end.

(** [begin(), lower_bound(e)) and the rest. *)
Fixpoint split_lower_bound (e : Entry) (l : list Entry) : list Entry * list Entry :=
  match l with
  | [] => ([], [])
  | x :: l' =>
      if entry_ltb x e then let (a, b) := split_lower_bound e l' in (x :: a, b)
      else ([], l)
  end.

(** ** Timer *)

Definition Timer_new (cb : option TimerCallback) (when interval : Z) : Timer :=
  mkTimer cb when interval (0 <? interval) false.
Definition expired (now : Z) (t : Timer) : bool := when_ t <=? now.

(** 1ms in nanoseconds, and the nanoseconds of a second. *)
Definition ms : Z := 1000000.
Definition nano_den : Z := 1000000000.

Section ops.
Context {K A : Type} `{Kernel K} `{Build}.
Implicit Types w : World K A.

Definition Timer_run (run : TimerCallback -> M (World K A) unit) (p : ptr) : M (World K A) unit :=
  let! t := get_timer p in
  match t_callback_ t with Some cb => run cb | None => ret tt end.

Definition restart (p : ptr) : M (World K A) unit :=
  let! t := get_timer p in
  assert_ (repeat_ t) "repeat_" ;;;
  let! w' := add_i64 (when_ t) (interval_ t) in
  upd_timer p (set_when_ w').

Definition cancel (p : ptr) : M (World K A) unit :=
  let! t := get_timer p in
  assert_ (negb (canceled_ t)) "!canceled_" ;;;
  upd_timer p (set_canceled_ true).

Definition new_timer (cb : option TimerCallback) (when interval : Z) : M (World K A) ptr :=
  let! p := alloc in
  modify (put_timer p (Timer_new cb when interval)) ;;;
  ret p.

(** delete timer; *)
Definition delete_timer (p : ptr) : M (World K A) unit :=
  if p =? nullptr then ret tt else
  deref DoubleFree (fun w => w_timers w !! p) ;;;
  modify (fun w => set_w_timers (delete p (w_timers w)) w).

(** ** The timer descriptor *)

(** The 64-bit result of read() is not used but for logging. *)
Definition timerfdRead : M (World K A) unit :=
  let! fd := get_loop timerfd_ in
  let! _ := sys (SysRead fd 8) in ret tt.

(** The delay until [when], at least 1ms, as seconds and nanoseconds. *)
Definition durationFromNow (when : Z) : M (World K A) (Z * Z) :=
  let! now := clock_now in
  let! ns := add_i64 when (- now) in
  let ns := if ns <? ms then ms else ns in
  ret (ns / nano_den, ns mod nano_den).

Definition timerfdSet (when : Z) : M (World K A) unit :=
  let! fd := get_loop timerfd_ in
  let! '(s, ns) := durationFromNow when in
  let! _ := sys (SysTimerfdSettime fd s ns) in ret tt.

(** ** TimerQueue *)

(** The lambda of addTimer. *)
Definition addTimerInLoop (when : Z) (timer : ptr) : M (World K A) unit :=
  let! l := get_loop timers_ in
  let (l', inserted) := set_insert (when, timer) l in
  upd_loop (set_timers_ l') ;;;
  assert_ inserted "checkPair.second" ;;;
  match l' with
  | e :: _ => Prelude.when (bool_decide (e = (when, timer))) (timerfdSet when)
  | [] => ret tt
  end.

Definition addTimer (cb : option TimerCallback) (when interval : Z) : M (World K A) ptr :=
  let! timer := new_timer cb when interval in
  Loop.runInLoop (TaskAddTimer when timer) (addTimerInLoop when timer) ;;;
  ret timer.

(** The lambda of cancelTimer. *)
Definition cancelTimerInLoop (timer : ptr) : M (World K A) unit :=
  cancel timer ;;;
  let! t := get_timer timer in
  upd_loop (fun l => set_timers_ (set_erase (when_ t, timer) (timers_ l)) l) ;;;
  delete_timer timer.

Definition cancelTimer (timer : ptr) : M (World K A) unit :=
  Loop.runInLoop (TaskCancelTimer timer) (cancelTimerInLoop timer).

Definition getExpired (now : Z) : M (World K A) (list Entry) :=
  let! end_ := add_i64 now 1 in
  let! l := get_loop timers_ in
  let (ret_, rest) := split_lower_bound (end_, nullptr) l in
  upd_loop (set_timers_ rest) ;;;
  ret ret_.

Section handleRead.
Variable run : TimerCallback -> M (World K A) unit.

(** The body of the loop of handleRead for one entry. *)
Definition fire (now : Z) (e : Entry) : M (World K A) unit :=
  let timer := snd e in
  let! t := get_timer timer in
  assert_ (expired now t) "timer->expired(now)" ;;;
  Prelude.when (negb (canceled_ t)) (Timer_run run timer) ;;;
  let! t := get_timer timer in
  if negb (canceled_ t) && repeat_ t then
    restart timer ;;;
    let! t := get_timer timer in
    upd_loop (fun l => set_timers_ (fst (set_insert (when_ t, timer) (timers_ l))) l)
  else delete_timer timer.

Definition handleRead : M (World K A) unit :=
  Loop.assertInLoopThread ;;;
  timerfdRead ;;;
  let! now := clock_now in
  let! es := getExpired now in
  for_each es (fire now) ;;;
  let! l := get_loop timers_ in
  match l with
  | e :: _ => timerfdSet (fst e)
  | [] => ret tt
  end.
End handleRead.

Definition TimerQueue_dtor : M (World K A) unit :=
  let! l := get_loop timers_ in
  for_each l (fun e => delete_timer (snd e)) ;;;
  let! fd := get_loop timerfd_ in
  let! _ := sys (SysClose fd) in
  let! ch := get_loop timerChannel_ in
  Chan.Channel_dtor ch.

(** ** EventLoop's timer methods *)

Definition runAt (when : Z) (cb : option TimerCallback) : M (World K A) ptr :=
  addTimer cb when 0.
Definition runAfter (interval : Z) (cb : option TimerCallback) : M (World K A) ptr :=
  let! now := clock_now in
  let! when := add_i64 now interval in
  runAt when cb.
Definition runEvery (interval : Z) (cb : option TimerCallback) : M (World K A) ptr :=
  let! now := clock_now in
  let! when := add_i64 now interval in
  addTimer cb when interval.
End ops.

(** ** The set *)

Definition sorted (l : list Entry) : Prop := Sorted.StronglySorted entry_lt l.

Lemma entry_ltb_lt a b : entry_ltb a b = true <-> entry_lt a b.
Proof.
  unfold entry_ltb, entry_lt. rewrite orb_true_iff, andb_true_iff, !Z.ltb_lt, Z.eqb_eq. done.
Qed.
Lemma entry_ltb_ge a b : entry_ltb a b = false <-> ~ entry_lt a b.
Proof. rewrite <- entry_ltb_lt. by destruct (entry_ltb a b). Qed.

Lemma entry_lt_trans a b c : entry_lt a b -> entry_lt b c -> entry_lt a c.
Proof. unfold entry_lt. lia. Qed.
Lemma entry_lt_irrefl a : ~ entry_lt a a.
Proof. unfold entry_lt. lia. Qed.
Lemma entry_lt_total a b : ~ entry_lt a b -> ~ entry_lt b a -> a = b.
Proof. unfold entry_lt. intros. apply injective_projections; lia. Qed.

(** Compare the keys of a set operation. *)
Ltac entry_cases :=
  repeat match goal with
  | |- context [entry_ltb ?a ?b] => destruct (entry_ltb a b) eqn:?
  end;
  repeat match goal with
  | H : entry_ltb _ _ = true |- _ => apply entry_ltb_lt in H
  | H : entry_ltb _ _ = false |- _ => apply entry_ltb_ge in H
  end.

Lemma set_insert_elem e l x : x ∈ fst (set_insert e l) <-> x = e \/ x ∈ l.
Proof.
  induction l as [|y l IH]; simpl; [set_solver|].
  entry_cases; simpl; [set_solver| |].
  - destruct (set_insert e l) as [r b]. simpl in *. set_solver.
  - assert (y = e) as -> by by apply entry_lt_total. set_solver.
Qed.

Lemma set_insert_sorted e l : sorted l -> sorted (fst (set_insert e l)).
Proof.
  induction 1 as [|y l Hs IH Hf]; simpl; [repeat constructor|].
  entry_cases; simpl.
  - constructor; [by constructor|]. constructor; [done|].
    eapply list.Forall_impl; [exact Hf|]. intros z Hz. by eapply entry_lt_trans.
  - pose proof (set_insert_elem e l) as Hi. destruct (set_insert e l) as [r b]. simpl in *.
    constructor; [done|]. rewrite list.Forall_forall in Hf |- *. intros z Hz.
    apply Hi in Hz as [->|Hz]; auto.
  - by constructor.
Qed.

Lemma set_insert_new e l : sorted l -> e ∉ l -> snd (set_insert e l) = true.
Proof.
  induction 1 as [|y l Hs IH Hf]; simpl; intros He; [done|].
  entry_cases; simpl; [done| |].
  - destruct (set_insert e l) as [r b]. simpl in *. set_solver.
  - assert (y = e) as -> by by apply entry_lt_total. set_solver.
Qed.

Lemma set_erase_elem e l x : sorted l -> x ∈ set_erase e l <-> x ∈ l /\ x <> e.
Proof.
  induction 1 as [|y l Hs IH Hf]; simpl; [set_solver|].
  rewrite list.Forall_forall in Hf. entry_cases.
  - rewrite !elem_of_cons, IH. split; [|tauto].
    intros [->|[? ?]]; [|tauto]. split; [tauto|]. intros ->. by eapply entry_lt_irrefl.
  - rewrite elem_of_cons. split; [|tauto]. intros Hx. split; [done|]. intros ->.
    destruct Hx as [->|Hx]; [by eapply entry_lt_irrefl|].
    eapply entry_lt_irrefl, entry_lt_trans; [|by apply Hf]. done.
  - assert (y = e) as -> by by apply entry_lt_total.
    rewrite elem_of_cons. split; [|tauto]. intros Hx. split; [tauto|]. intros ->.
    eapply entry_lt_irrefl. by apply Hf.
Qed.

Lemma set_erase_sorted e l : sorted l -> sorted (set_erase e l).
Proof.
  induction 1 as [|y l Hs IH Hf]; simpl; [constructor|].
  entry_cases; [|by constructor|done]. constructor; [done|].
  rewrite list.Forall_forall in Hf |- *. intros z Hz. apply set_erase_elem in Hz as [? _]; auto.
Qed.

Lemma split_lower_bound_eq e l a b :
  split_lower_bound e l = (a, b) -> l = a ++ b /\ Forall (fun x => entry_lt x e) a.
Proof.
  revert a b. induction l as [|y l IH]; simpl; intros a b; [naive_solver|].
  destruct (entry_ltb y e) eqn:Hy; [|naive_solver].
  destruct (split_lower_bound e l) as [a' b']. intros; simplify_eq/=.
  destruct (IH a' b eq_refl) as [-> ?]. apply entry_ltb_lt in Hy. auto.
Qed.

Lemma split_lower_bound_rest e l a b :
  sorted l -> split_lower_bound e l = (a, b) -> Forall (fun x => ~ entry_lt x e) b /\ sorted b.
Proof.
  intros Hs. revert a b. induction Hs as [|y l Hs IH Hf]; simpl; intros a b Hab.
  - simplify_eq. split; constructor.
  - destruct (entry_ltb y e) eqn:Hy.
    + destruct (split_lower_bound e l) as [a' b']. simplify_eq/=. by apply (IH a').
    + simplify_eq/=. apply entry_ltb_ge in Hy. split; [|by constructor].
      constructor; [done|]. eapply list.Forall_impl; [exact Hf|]. simpl. intros z Hyz Hz.
      apply Hy. by eapply entry_lt_trans.
Qed.

Lemma sorted_app_l a b : sorted (a ++ b) -> sorted a.
Proof.
  induction a as [|x a IH]; simpl; [constructor|].
  intros [Hs Hf]%Sorted.StronglySorted_inv.
  constructor; [by apply IH|]. by apply list.Forall_app in Hf as [? _].
Qed.

Lemma sorted_NoDup l : sorted l -> NoDup l.
Proof.
  induction 1 as [|y l Hs IH Hf]; constructor; [|done].
  rewrite list.Forall_forall in Hf. intros Hy. by eapply entry_lt_irrefl, Hf.
Qed.

(** The deadline test of getExpired: [lower_bound({now + 1ns, nullptr})]. *)
Lemma entry_lt_end (e : Entry) now : 0 <= snd e -> entry_lt e (now + 1, nullptr) <-> fst e <= now.
Proof. unfold entry_lt. simpl. lia. Qed.

(** ** Specifications *)

(** Only the kernel, the log and errno differ. *)
Definition quiet {K A} (w w' : World K A) : Prop :=
  exists k tr e, w' = set_w_errno e (set_w_kern k (set_w_trace (w_trace w ++ tr) w)).

(** The delay programmed for [when] at the instant [now]. *)
Definition delay (now when : Z) : Z * Z :=
  let ns := Z.max ms (when - now) in (ns / nano_den, ns mod nano_den).

Section specs.
Context {K A : Type} `{Kernel K} `{!KernelLaws K} `{Build}.
Implicit Types w : World K A.

Lemma quiet_sys w k e c r :
  quiet w (set_w_errno e (set_w_kern k (set_w_trace (w_trace w ++ [Event c r]) w))).
Proof. by exists k, [Event c r], e. Qed.
Lemma quiet_now w k : quiet w (set_w_kern k w).
Proof. exists k, [], (w_errno w). rewrite app_nil_r. by destruct w. Qed.

#[export] Instance quiet_preorder : PreOrder (@quiet K A).
Proof.
  split.
  - intros w. exists (w_kern w), [], (w_errno w). rewrite app_nil_r. by destruct w.
  - intros w1 w2 w3 (k1&t1&e1&->) (k2&t2&e2&->). exists k2, (t1 ++ t2), e2.
    simpl. by rewrite app_assoc.
Qed.

(** Bounds that keep the 64-bit arithmetic on instants exact. *)
Definition instant_ok (t : Z) : Prop := 0 <= t < 2 ^ 62.

Lemma add_i64_wp {S} a b (E : fault -> Prop) (Q : Z -> S -> Prop) s :
  (- 2 ^ 63 <= a + b < 2 ^ 63 -> Q (a + b) s) ->
  (~ (- 2 ^ 63 <= a + b < 2 ^ 63) -> E SignedOverflow) -> wp (add_i64 a b) E Q s.
Proof.
  intros HQ HE. unfold add_i64, in_range_s. change (64 - 1) with 63.
  destruct (_ && _) eqn:Hr; [apply wp_ret, HQ; zbool; lia|].
  apply wp_throw, HE. intros ?. apply andb_false_iff in Hr as [Hr|Hr]; zbool; lia.
Qed.

(** timerfdSet arms the descriptor with the delay to [when]. *)
Lemma timerfdSet_wp when (E : fault -> Prop) w :
  0 <= when < 2 ^ 63 \/ E SignedOverflow ->
  wp (timerfdSet when) E (fun _ w' => quiet w w' /\
    exists now, instant_ok now /\ armed (w_trace w') = Some (delay now when)) w.
Proof.
  intros HE. unfold timerfdSet, durationFromNow. wp_step. unfold get_loop. wp_step. wp_step.
  wp_step. apply wp_now. intros now k1 Hnow. wp_step.
  apply add_i64_wp; [|unfold instant_ok in *; destruct HE; [lia|auto]].
  intros Hr. wp_step. wp_step. apply wp_sys. intros r k2 _. wp_step. split.
  - etransitivity; [apply quiet_now|]. eapply quiet_sys.
  - exists now. split; [done|]. simpl. rewrite armed_snoc. simpl. unfold delay.
    assert (forall a b : Z, a = b -> Some (a / nano_den, a mod nano_den) =
              Some (b / nano_den, b mod nano_den)) as Hab by congruence.
    apply Hab. unfold ms in *. destruct (_ <? _) eqn:Hc; zbool; lia.
Qed.

(** *** Invariant

    The set is ordered, its entries are live timers under their deadline and
    not cancelled; addresses are those the allocator gave out.  [P] lists
    timers that are being fired: allocated, and not in the set. *)
Record timers_ok (P : list ptr) w : Prop := {
  tk_thread : Chan.in_loop_thread w;
  tk_next : 0 < w_next w;
  tk_sorted : sorted (timers_ (w_loop w));
  tk_live : forall d p, (d, p) ∈ timers_ (w_loop w) ->
    exists t, w_timers w !! p = Some t /\ when_ t = d /\ canceled_ t = false;
  tk_addr : forall p t, w_timers w !! p = Some t ->
    0 < p < w_next w /\ repeat_ t = (0 <? interval_ t);
  tk_firing : forall p, p ∈ P -> 0 < p < w_next w /\ forall d, (d, p) ∉ timers_ (w_loop w)
}.

Lemma timers_ok_quiet P w w' : quiet w w' -> timers_ok P w -> timers_ok P w'.
Proof. intros (k&tr&e&->) []. by split. Qed.

Lemma timers_ok_weaken P P' w : P' ⊆ P -> timers_ok P w -> timers_ok P' w.
Proof. intros HP []. split; auto. Qed.

Lemma entry_addr P w d p : timers_ok P w -> (d, p) ∈ timers_ (w_loop w) -> 0 < p.
Proof. intros Hok Hin. destruct (tk_live _ _ Hok _ _ Hin) as (t&Ht&_). by apply (tk_addr _ _ Hok) in Ht as [[??]?]. Qed.

#[export] Instance timerfdSet_preserves P when : Preserves (timers_ok P) (timerfdSet when).
Proof.
  intros w Hok. eapply wp_conseq; [apply timerfdSet_wp; by right|].
  simpl. intros _ w' [Hq _]. by eapply timers_ok_quiet.
Qed.

#[export] Instance sys_preserves P c : Preserves (timers_ok P) (sys c).
Proof. intros w Hok. apply wp_sys. intros. eapply timers_ok_quiet; [apply quiet_sys|done]. Qed.
#[export] Instance now_preserves P : Preserves (timers_ok P) clock_now.
Proof. intros w Hok. apply wp_now. intros. eapply timers_ok_quiet; [apply quiet_now|done]. Qed.
#[export] Instance add_i64_preserves P a b : Preserves (timers_ok P) (add_i64 a b).
Proof. intros w Hok. by apply add_i64_wp. Qed.
#[export] Instance get_loop_preserves {T} P (f : EventLoop -> T) :
  Preserves (timers_ok P) (get_loop f).
Proof. unfold get_loop. apply _. Qed.

#[export] Instance timerfdRead_preserves P : Preserves (timers_ok P) timerfdRead.
Proof. unfold timerfdRead. apply _. Qed.

(** Inserting a live timer that is not in the set. *)
Lemma insert_ok P w d p t :
  timers_ok P w -> p ∉ P -> w_timers w !! p = Some t -> when_ t = d -> canceled_ t = false ->
  timers_ok P (set_w_loop (set_timers_ (fst (set_insert (d, p) (timers_ (w_loop w)))) (w_loop w)) w).
Proof.
  intros [Hth Hn Hs Hl Ha Hf] Hp Ht Hd Hc. split; simpl; auto.
  - by apply set_insert_sorted.
  - intros d' p' [?|Hin]%set_insert_elem; simplify_eq; eauto.
  - intros q Hq. destruct (Hf q Hq) as [? Hq']. split; [done|].
    intros d' [?|Hin]%set_insert_elem; [by simplify_eq|by eapply Hq'].
Qed.

(** Removing entries. *)
Lemma shrink_ok P P' w l :
  timers_ok P w -> sorted l -> (forall e, e ∈ l -> e ∈ timers_ (w_loop w)) ->
  (forall p, p ∈ P' -> p ∈ P \/ ((exists d, (d, p) ∈ timers_ (w_loop w)) /\ forall d, (d, p) ∉ l)) ->
  timers_ok P' (set_w_loop (set_timers_ l (w_loop w)) w).
Proof.
  intros Hok Hs Hsub HP. pose proof Hok as [Hth Hn Hs' Hl Ha Hf]. split; simpl; auto.
  intros p [Hp|[[d Hd] Hp]]%HP.
  - destruct (Hf p Hp) as [? Hn']. split; [done|]. intros d Hd. exact (Hn' d (Hsub _ Hd)).
  - split; [|done]. destruct (Hl _ _ Hd) as (t&Ht&_). by apply Ha in Ht as [? _].
Qed.

(** Changing or deleting a timer that is not in the set. *)
Lemma put_timer_ok P w p t t0 :
  timers_ok P w -> w_timers w !! p = Some t0 -> (forall d, (d, p) ∉ timers_ (w_loop w)) ->
  repeat_ t = (0 <? interval_ t) -> timers_ok P (put_timer p t w).
Proof.
  intros [Hth Hn Hs Hl Ha Hf] Ht0 Hp Hr. split; simpl; auto.
  - intros d q Hq. destruct (decide (p = q)) as [->|?]; [by destruct (Hp d)|].
    rewrite lookup_insert_ne by done. auto.
  - intros q t'. destruct (decide (p = q)) as [<-|?].
    + rewrite lookup_insert_eq. intros; simplify_eq. split; [|done]. by apply Ha in Ht0 as [? _].
    + rewrite lookup_insert_ne by done. apply Ha.
Qed.
Lemma del_timer_ok P w p :
  timers_ok P w -> (forall d, (d, p) ∉ timers_ (w_loop w)) ->
  timers_ok P (set_w_timers (delete p (w_timers w)) w).
Proof.
  intros [Hth Hn Hs Hl Ha Hf] Hp. split; simpl; auto.
  - intros d q Hq. destruct (decide (p = q)) as [->|?]; [by destruct (Hp d)|].
    rewrite lookup_delete_ne by done. auto.
  - intros q t' [? ?]%lookup_delete_Some. by apply Ha.
Qed.
(** A fresh timer. *)
Lemma new_timer_ok P w t :
  timers_ok P w -> repeat_ t = (0 <? interval_ t) ->
  timers_ok P (put_timer (w_next w) t (set_w_next (w_next w + 1) w)).
Proof.
  intros [Hth Hn Hs Hl Ha Hf] Hr. split; simpl; auto; [lia| | |].
  - intros d q Hq. destruct (Hl d q Hq) as (t'&Ht'&?). exists t'. split; [|done].
    rewrite lookup_insert_ne; [done|]. apply Ha in Ht'. lia.
  - intros q t'. destruct (decide (w_next w = q)) as [<-|?].
    + rewrite lookup_insert_eq. intros; simplify_eq. split; [lia|done].
    + rewrite lookup_insert_ne by done. intros ?%Ha. split; [lia|tauto].
  - intros p Hp. apply Hf in Hp as [? ?]. split; [lia|done].
Qed.

Lemma wp_runInLoop E (Q : unit -> World K A -> Prop) task body w :
  Chan.in_loop_thread w -> wp body E Q w -> wp (Loop.runInLoop task body) E Q w.
Proof.
  intros Ht HQ. unfold Loop.runInLoop, Loop.isInLoopThread. wp_step. wp_step.
  apply Z.eqb_eq in Ht as ->. done.
Qed.

(** A fresh address is not in the set. *)
Lemma fresh_not_in P w d : timers_ok P w -> (d, w_next w) ∉ timers_ (w_loop w).
Proof.
  intros Hok Hin. destruct (tk_live _ _ Hok _ _ Hin) as (t&Ht&_).
  apply (tk_addr _ _ Hok) in Ht as [? _]. lia.
Qed.

#[export] Instance addTimer_preserves P cb when interval :
  Preserves (timers_ok P) (addTimer cb when interval).
Proof.
  intros w Hok. unfold addTimer, new_timer, alloc. wp_step. wp_step. unfold wp at 1.
  wp_step. wp_step. wp_step.
  set (t := Timer_new cb when interval).
  pose proof (new_timer_ok P w t Hok eq_refl) as Hok1.
  set (w1 := put_timer _ _ _) in *. wp_step.
  apply wp_runInLoop; [apply Hok1|]. unfold addTimerInLoop, get_loop. wp_step. wp_step.
  assert (Hp : w_next w ∉ P) by (intros Hp; apply (tk_firing _ _ Hok) in Hp as [? _]; lia).
  pose proof (insert_ok P w1 when (w_next w) t Hok1 Hp (lookup_insert_eq _ _ _) eq_refl eq_refl)
    as Hok2.
  destruct (set_insert (when, w_next w) (timers_ (w_loop w1))) as [l' b]. simpl in Hok2.
  unfold upd_loop. wp_step. wp_step. wp_step. apply wp_assert; [|done]. intros _.
  destruct l' as [|e l']; [by wp_step|].
  assert (Hpr : Preserves (timers_ok P)
      (Prelude.when (bool_decide (e = (when, w_next w))) (timerfdSet when))) by apply _.
  eapply wp_conseq; [by apply Hpr|]. simpl. intros. by wp_step.
Qed.

#[export] Instance cancelTimer_preserves P p : Preserves (timers_ok P) (cancelTimer p).
Proof.
  intros w Hok. unfold cancelTimer. apply wp_runInLoop; [apply Hok|].
  unfold cancelTimerInLoop, cancel, get_timer. wp_step. wp_step.
  apply wp_deref_at; [|done..]. intros t Ht Hp. wp_step. apply wp_assert; [|done]. intros _.
  unfold upd_timer, get_timer. wp_step. wp_lookup. wp_step. wp_step. wp_lookup.
  simpl. unfold upd_loop. wp_step. wp_step.
  unfold delete_timer. apply Z.eqb_neq in Hp as ->. wp_step. wp_step; [|done]. wp_step. simpl.
  rewrite delete_insert_eq.
  assert (Hsub : timers_ok P (set_w_loop (set_timers_ (set_erase (when_ t, p) (timers_ (w_loop w)))
                                   (w_loop w)) w)).
  { eapply shrink_ok; eauto.
    - apply set_erase_sorted, Hok.
    - intros e He. by apply (set_erase_elem _ _ _ (tk_sorted _ _ Hok)) in He as [? _]. }
  apply (del_timer_ok P _ p) in Hsub; [exact Hsub|]. simpl.
  intros d Hd. apply (set_erase_elem _ _ _ (tk_sorted _ _ Hok)) in Hd as [Hd Hne].
  destruct (tk_live _ _ Hok _ _ Hd) as (t'&?&?&_). by simplify_eq.
Qed.

Lemma getExpired_wp P now w (E : fault -> Prop) (Q : list Entry -> World K A -> Prop) :
  timers_ok P w -> (- 2 ^ 63 <= now + 1 < 2 ^ 63) \/ E SignedOverflow ->
  (forall es rest, timers_ (w_loop w) = es ++ rest ->
     (forall e, e ∈ es -> fst e <= now) -> (forall e, e ∈ rest -> now < fst e) ->
     Q es (set_w_loop (set_timers_ rest (w_loop w)) w)) ->
  wp (getExpired now) E Q w.
Proof.
  intros Hok HE HQ. unfold getExpired, get_loop, upd_loop. wp_step.
  apply add_i64_wp; [|destruct HE; [done|auto]]. intros _. wp_step. wp_step.
  destruct (split_lower_bound _ _) as [es rest] eqn:Hs. wp_step. wp_step. wp_step.
  destruct (split_lower_bound_eq _ _ _ _ Hs) as [Hl Hes].
  destruct (split_lower_bound_rest _ _ _ _ (tk_sorted _ _ Hok) Hs) as [Hrest _].
  rewrite list.Forall_forall in Hes, Hrest.
  assert (Hpos : forall e, e ∈ es ++ rest -> 0 <= snd e).
  { intros [d p] He. rewrite <- Hl in He. apply (entry_addr _ _ _ _ Hok) in He. simpl. lia. }
  apply HQ; [done|..]; intros e He.
  - apply entry_lt_end; [apply Hpos; set_solver|]. by apply Hes.
  - assert (~ fst e <= now); [|lia]. rewrite <- entry_lt_end by (apply Hpos; set_solver).
    by apply Hrest.
Qed.
(** ** handleRead *)

(** A timer is in the set under one deadline. *)
Lemma one_deadline P w d d' p :
  timers_ok P w -> (d, p) ∈ timers_ (w_loop w) -> (d', p) ∈ timers_ (w_loop w) -> d = d'.
Proof.
  intros Hok H1 H2. destruct (tk_live _ _ Hok _ _ H1) as (t1&Ht1&<-&_).
  destruct (tk_live _ _ Hok _ _ H2) as (t2&Ht2&<-&_). by simplify_eq.
Qed.

Lemma sorted_app_r a b : sorted (a ++ b) -> sorted b.
Proof.
  induction a as [|x a IH]; [done|]. intros [Hs _]%Sorted.StronglySorted_inv. by apply IH.
Qed.

(** Taking the expired entries out of the set makes them timers being fired. *)
Lemma expired_out P w es rest now :
  timers_ok P w -> timers_ (w_loop w) = es ++ rest ->
  (forall e, e ∈ es -> fst e <= now) -> (forall e, e ∈ rest -> now < fst e) ->
  NoDup (es.*2) /\ (forall p, p ∈ es.*2 -> p ∉ P) /\
  timers_ok (es.*2 ++ P) (set_w_loop (set_timers_ rest (w_loop w)) w).
Proof.
  intros Hok Hl Hes Hrest. pose proof (tk_sorted _ _ Hok) as Hs. rewrite Hl in Hs.
  assert (Hin : forall e, e ∈ es \/ e ∈ rest -> e ∈ timers_ (w_loop w))
    by (intros e He; rewrite Hl; by apply elem_of_app).
  split; [|split].
  - apply NoDup_fmap_2_strong; [|by eapply sorted_NoDup, sorted_app_l].
    intros [d1 p1] [d2 p2] H1 H2 Heq. simpl in Heq. subst p2.
    f_equal. eapply one_deadline; eauto.
  - intros p Hp HP. apply list_elem_of_fmap in Hp as ([d q]&->&Hq).
    apply (tk_firing _ _ Hok) in HP as [_ HP]. apply (HP d). simpl. auto.
  - eapply shrink_ok; eauto using sorted_app_r.
    intros p [Hp|Hp]%elem_of_app; [right|by left].
    apply list_elem_of_fmap in Hp as ([d q]&->&Hq). simpl. split; [eauto|].
    intros d' Hd'. assert (d = d') as <- by (eapply one_deadline; eauto).
    apply Hes in Hq. apply Hrest in Hd'. simpl in *. lia.
Qed.

Section fire.
Variable run : TimerCallback -> M (World K A) unit.

(** Firing an entry that is out of the set keeps the queue well formed, if
    the callbacks do, whatever else they do to the queue. *)
Lemma fire_ok now d p P w :
  (forall cb, Preserves (timers_ok (p :: P)) (run cb)) ->
  timers_ok (p :: P) w -> p ∉ P ->
  wp (fire run now (d, p)) any_fault (fun _ => timers_ok P) w.
Proof.
  intros Hrun Hok Hp. unfold fire, get_timer. simpl.
  wp_step. apply wp_deref_at; [|done..]. intros t Ht Hp0. wp_step. apply wp_assert; [|done].
  intros _. wp_step.
  apply wp_conseq with (fun _ => timers_ok (p :: P)).
  { apply wp_when; [|done]. intros _. unfold Timer_run, get_timer. wp_step. wp_lookup.
    destruct (t_callback_ t) as [cb|]; [by apply Hrun|by wp_step]. }
  clear w t Ht Hok. intros _ w Hok. cbv beta in Hok.
  assert (Hout : forall d, (d, p) ∉ timers_ (w_loop w)) by (apply (tk_firing _ _ Hok); set_solver).
  apply (timers_ok_weaken _ P) in Hok; [|set_solver].
  wp_step. apply wp_deref_at; [|done..]. intros t Ht _.
  destruct (_ && _) eqn:Hc; zbool.
  - unfold restart, upd_timer, get_timer. wp_step. wp_step. wp_lookup. wp_step.
    apply wp_assert; [|done]. intros _. wp_step. apply add_i64_wp; [|done]. intros _.
    wp_step. wp_lookup. wp_step. wp_step. wp_lookup. simpl. unfold upd_loop. wp_step.
    eapply (insert_ok P (put_timer p _ w)); [|done|apply lookup_insert_eq|done|done].
    eapply put_timer_ok; eauto. simpl. by apply (tk_addr _ _ Hok) in Ht as [_ ?].
  - unfold delete_timer. apply Z.eqb_neq in Hp0 as ->. wp_step. wp_step; [|done]. wp_step.
    by apply del_timer_ok.
Qed.

(** The loop of handleRead over the entries taken out of the set. *)
Lemma fire_all_ok now es P w :
  (forall Q cb, Preserves (timers_ok Q) (run cb)) ->
  NoDup (es.*2) -> (forall p, p ∈ es.*2 -> p ∉ P) -> timers_ok (es.*2 ++ P) w ->
  wp (for_each es (fire run now)) any_fault (fun _ => timers_ok P) w.
Proof.
  intros Hrun. revert w. induction es as [|[d p] es IH]; intros w Hnd HP Hok; [by apply wp_ret|].
  simpl in *. apply list.NoDup_cons in Hnd as [Hnin Hnd]. wp_step. eapply wp_conseq.
  - apply (fire_ok now d p (es.*2 ++ P)); auto. rewrite not_elem_of_app. split; [done|].
    apply HP. left.
  - simpl. intros _ w' Hok'. apply IH; auto. intros q Hq. apply HP. by right.
Qed.

Lemma handleRead_ok P w :
  (forall Q cb, Preserves (timers_ok Q) (run cb)) -> timers_ok P w ->
  wp (handleRead run) any_fault (fun _ => timers_ok P) w.
Proof.
  intros Hrun Hok. unfold handleRead. wp_step. apply Chan.wp_assertInLoopThread; [apply Hok|].
  wp_step. eapply wp_conseq.
  { by apply (timerfdRead_preserves P). }
  clear dependent w. simpl. intros _ w Hok.
  wp_step. eapply wp_conseq; [by apply (now_preserves P)|]. clear w Hok.
  simpl. intros now w Hok. wp_step.
  eapply getExpired_wp; [done|by right|]. intros es rest Hl Hes Hrest.
  destruct (expired_out P w es rest now Hok Hl Hes Hrest) as (Hnd&HP&Hok').
  wp_step. eapply wp_conseq; [by eapply fire_all_ok|]. clear w Hok Hl Hok'.
  simpl. intros _ w Hok. unfold get_loop. wp_step. wp_step. destruct (timers_ _) as [|e l]; [by wp_step|].
  by apply (timerfdSet_preserves P).
Qed.
End fire.
(** *** Exact behaviour, for callbacks that leave the queue alone *)

Section exact.
Variable act : TimerCallback -> A -> A.
Definition run_app (cb : TimerCallback) : M (World K A) unit :=
  modify (fun w => set_w_app (act cb (w_app w)) w).

(** The effect of an entry's callback on the application. *)
Definition run_entry (T : gmap Z Timer) (a : A) (e : Entry) : A :=
  match T !! snd e with
  | Some t => match t_callback_ t with Some cb => act cb a | None => a end
  | None => a
  end.
(** What becomes of a timer that fired. *)
Definition next_timer (t : Timer) : option Timer :=
  if repeat_ t then Some (set_when_ (when_ t + interval_ t) t) else None.

(** The state after the entries [l] of the timers [T] have fired, when the
    set was [R], the application was in state [a0] and the log was [tr]. *)
Record fired (T : gmap Z Timer) (R : list Entry) (a0 : A) (tr : trace) (l : list Entry) w : Prop := {
  fd_trace : w_trace w = tr;
  fd_thread : Chan.in_loop_thread w;
  fd_app : w_app w = fold_left (run_entry T) l a0;
  fd_sorted : sorted (timers_ (w_loop w));
  fd_set : forall x, x ∈ timers_ (w_loop w) <->
    x ∈ R \/ exists e t, e ∈ l /\ T !! snd e = Some t /\ repeat_ t = true /\
                        x = (when_ t + interval_ t, snd e);
  fd_heap : forall p, w_timers w !! p = if decide (p ∈ l.*2) then T !! p ≫= next_timer else T !! p
}.

Lemma fire_exact T R a0 tr l now d p t w :
  fired T R a0 tr l w -> p ∉ l.*2 -> p <> nullptr -> T !! p = Some t ->
  when_ t <= now -> canceled_ t = false -> 0 <= when_ t + interval_ t < 2 ^ 63 ->
  wp (fire run_app now (d, p)) no_fault (fun _ => fired T R a0 tr (l ++ [(d, p)])) w.
Proof.
  intros [Htr Hth Happ Hso Hset Hheap] Hp Hp0 Ht Hw Hc Hb.
  assert (Hl : w_timers w !! p = Some t) by (rewrite Hheap, decide_False by done; done).
  unfold fire, get_timer. simpl. wp_step. wp_lookup. wp_step.
  apply wp_assert_true; [by apply Z.leb_le|]. rewrite Hc. simpl. wp_step.
  set (a1 := run_entry T (w_app w) (d, p)).
  apply wp_conseq with (fun _ w' => w' = set_w_app a1 w).
  { unfold Timer_run, get_timer. wp_step. wp_lookup.
    unfold a1, run_entry. simpl. rewrite Ht.
    destruct (t_callback_ t); [by apply wp_modify|]. wp_step. by destruct w. }
  intros _ w' ->. wp_step. wp_lookup. rewrite Hc. simpl.
  assert (Happ' : a1 = fold_left (run_entry T) (l ++ [(d, p)]) a0)
    by (rewrite fold_left_app; simpl; unfold a1; by rewrite Happ).
  assert (Hin : forall q, q <> p -> (q ∈ (l ++ [(d, p)]).*2 <-> q ∈ l.*2))
    by (intros q Hq; rewrite fmap_app; simpl; set_solver).
  assert (Hinp : p ∈ (l ++ [(d, p)]).*2) by (rewrite fmap_app; simpl; set_solver).
  destruct (repeat_ t) eqn:Hr; simpl.
  - unfold restart, upd_timer, get_timer. wp_step. wp_step. wp_lookup. wp_step.
    apply wp_assert_true; [done|]. wp_step. apply add_i64_wp; [|lia]. intros _.
    wp_step. wp_lookup. wp_step. wp_step. wp_lookup. simpl. unfold upd_loop. wp_step.
    split; simpl; auto.
    + by apply set_insert_sorted.
    + intros x. rewrite set_insert_elem, Hset. setoid_rewrite elem_of_app.
      setoid_rewrite list_elem_of_singleton. split.
      * intros [->|[Hx|(e&t'&?&?)]]; [|by left|right; exists e, t'; tauto].
        right. exists (d, p), t. simpl. auto.
      * intros [Hx|(e&t'&[He| ->]&Ht'&?&->)]; [tauto| |].
        -- right. right. eauto 6.
        -- left. simpl in Ht' |- *. rewrite Ht in Ht'. by injection Ht' as ->.
    + intros q. destruct (decide (q = p)) as [->|Hq].
      * rewrite lookup_insert_eq, decide_True, Ht by done. simpl. unfold next_timer. by rewrite Hr.
      * rewrite lookup_insert_ne by done. rewrite (decide_ext _ _ _ _ (Hin q Hq)). apply Hheap.
  - unfold delete_timer. pose proof Hp0 as ->%Z.eqb_neq. wp_step.
    apply wp_deref; [|intros; simpl in *; by simplify_eq]. intros t' _. wp_step.
    split; simpl; auto.
    + intros x. rewrite Hset. setoid_rewrite elem_of_app.
      setoid_rewrite list_elem_of_singleton. split.
      * intros [Hx|(e&t''&?&?)]; [by left|right; exists e, t''; tauto].
      * intros [Hx|(e&t''&[He| ->]&Ht'&?&->)]; [by left|right; eauto 6|].
        simpl in Ht'. rewrite Ht in Ht'. injection Ht' as <-. congruence.
    + intros q. destruct (decide (q = p)) as [->|Hq].
      * rewrite lookup_delete_eq, decide_True, Ht by done. simpl. unfold next_timer. by rewrite Hr.
      * rewrite lookup_delete_ne by done. rewrite (decide_ext _ _ _ _ (Hin q Hq)). apply Hheap.
Qed.

(** The entries of the loop are due timers. *)
Definition due (T : gmap Z Timer) (now : Z) (es : list Entry) : Prop :=
  NoDup (es.*2) /\ forall e, e ∈ es -> snd e <> nullptr /\ exists t, T !! snd e = Some t /\
    when_ t <= now /\ canceled_ t = false /\ 0 <= when_ t + interval_ t < 2 ^ 63.

Lemma fire_all_exact T R a0 tr now l es w :
  fired T R a0 tr l w -> due T now (l ++ es) ->
  wp (for_each es (fire run_app now)) no_fault (fun _ => fired T R a0 tr (l ++ es)) w.
Proof.
  revert l w. induction es as [|[d p] es IH]; intros l w Hf Hd.
  - rewrite app_nil_r. by apply wp_ret.
  - simpl. wp_step. eapply wp_conseq.
    + destruct Hd as [Hnd Hd]. destruct (Hd (d, p)) as (Hp0&t&?&?&?&?); [set_solver|].
      eapply fire_exact; eauto. rewrite fmap_app in Hnd. simpl in Hnd.
      apply list.NoDup_app in Hnd as (_&Hnd&_). intros Hp. apply (Hnd p Hp). by left.
    + simpl. intros _ w' Hf'. eapply wp_conseq; [apply (IH (l ++ [(d, p)])); auto|].
      * by rewrite <- app_assoc.
      * simpl. intros _ w''. by rewrite <- app_assoc.
Qed.
End exact.

(** *** The operations step by step, for the properties *)

(** The world after a new timer. *)
Definition with_new (cb : option TimerCallback) (when interval : Z) w : World K A :=
  put_timer (w_next w) (Timer_new cb when interval) (set_w_next (w_next w + 1) w).

Lemma addTimer_wp P cb when interval w :
  timers_ok P w -> 0 <= when < 2 ^ 63 ->
  wp (addTimer cb when interval) no_fault (fun p w' =>
    p = w_next w /\ timers_ok P w' /\
    w_timers w' = <[p := Timer_new cb when interval]> (w_timers w) /\
    timers_ (w_loop w') = fst (set_insert (when, p) (timers_ (w_loop w))) /\
    (if bool_decide (head (timers_ (w_loop w')) = Some (when, p))
     then exists now, instant_ok now /\ armed (w_trace w') = Some (delay now when)
     else w_trace w' = w_trace w)) w.
Proof.
  intros Hok Hw. pose proof (fresh_not_in P w when Hok) as Hfresh.
  pose proof (addTimer_preserves P cb when interval w Hok) as Hpr.
  revert Hpr. unfold addTimer, new_timer, alloc, Loop.runInLoop, Loop.isInLoopThread.
  assert (Ht : (tid_ (w_loop w) =? w_cur w) = true) by apply Z.eqb_eq, Hok.
  unfold wp, bind, gets, modify, ret. simpl. rewrite Ht.
  unfold addTimerInLoop, get_loop, upd_loop, bind, gets, modify, ret, assert_, throw. simpl.
  pose proof (set_insert_new (when, w_next w) _ (tk_sorted _ _ Hok) Hfresh) as Hnew.
  pose proof (set_insert_elem (when, w_next w) (timers_ (w_loop w))) as Hel.
  destruct (set_insert _ _) as [l' b] eqn:Hsi. simpl in *. subst b. rewrite orb_true_r.
  destruct l' as [|e l']; [by destruct (not_elem_of_nil _ (proj2 (Hel _) (or_introl eq_refl)))|].
  simpl. destruct (decide (e = (when, w_next w))) as [->|He].
  - rewrite !bool_decide_eq_true_2 by done. simpl.
    match goal with |- context [timerfdSet when ?w1] =>
      pose proof (timerfdSet_wp when no_fault w1 (or_introl Hw)) as Hset; unfold wp in Hset;
      destruct (timerfdSet when w1) as [[] w'|f] end; [|done].
    destruct Hset as [(k&tr&e&->) (now&?&?)]. intros Hpr.
    simpl in *. rewrite Hsi, bool_decide_eq_true_2 by done. split_and!; eauto.
  - rewrite !bool_decide_eq_false_2 by congruence. simpl. intros Hpr.
    rewrite Hsi, bool_decide_eq_false_2 by (simpl; congruence). split_and!; auto.
Qed.

Definition without_timer (d : Z) (p : ptr) w : World K A :=
  set_w_timers (delete p (w_timers w))
    (set_w_loop (set_timers_ (set_erase (d, p) (timers_ (w_loop w))) (w_loop w)) w).

Lemma cancelTimer_eq P d p w :
  timers_ok P w -> (d, p) ∈ timers_ (w_loop w) -> cancelTimer p w = Ok tt (without_timer d p w).
Proof.
  intros Hok Hin. pose proof (entry_addr _ _ _ _ Hok Hin) as Hp.
  destruct (tk_live _ _ Hok _ _ Hin) as (t&Ht&<-&Hc).
  unfold cancelTimer, Loop.runInLoop, Loop.isInLoopThread.
  assert (Htid : (tid_ (w_loop w) =? w_cur w) = true) by apply Z.eqb_eq, Hok.
  assert (Hp0 : (p =? nullptr) = false) by (apply Z.eqb_neq; lia).
  unfold bind, gets. rewrite Htid.
  unfold cancelTimerInLoop, cancel, upd_timer, get_timer, deref_at, delete_timer, deref, bind,
    gets, modify, ret, assert_, throw, upd_loop. rewrite Hp0. simpl. rewrite Ht, Hc. simpl.
  rewrite orb_true_r. unfold ret. rewrite Ht. simpl. rewrite !lookup_insert_eq. simpl.
  rewrite ?lookup_insert_eq. unfold without_timer. simpl.
  destruct w; cbv [put_timer set_w_timers set_w_loop]; simpl. by rewrite delete_insert_eq.
Qed.

Lemma cancelTimer_null (E : fault -> Prop) (Q : unit -> World K A -> Prop) w :
  Chan.in_loop_thread w -> E NullDeref -> wp (cancelTimer nullptr) E Q w.
Proof. intros Ht HE. unfold cancelTimer. by apply wp_runInLoop. Qed.

Lemma cancelTimer_wp P d p w :
  timers_ok P w -> (d, p) ∈ timers_ (w_loop w) ->
  wp (cancelTimer p) no_fault (fun _ w' => timers_ok P w' /\ w' = without_timer d p w) w.
Proof.
  intros Hok Hin. pose proof (cancelTimer_preserves P p w Hok) as Hpr. revert Hpr.
  unfold wp. rewrite (cancelTimer_eq P d p w Hok Hin). done.
Qed.

(** The clock reading of handleRead. *)
Definition fire_time w : Z :=
  fst (k_now (snd (k_call (SysRead (timerfd_ (w_loop w)) 8) (w_kern w)))).

(** The head of handleRead, up to the loop over the expired timers. *)
Lemma handleRead_head run (E : fault -> Prop) (Q : unit -> World K A -> Prop) P w :
  timers_ok P w ->
  (forall w1 es rest, quiet w w1 -> armed (w_trace w1) = armed (w_trace w) ->
     instant_ok (fire_time w) -> timers_ (w_loop w) = es ++ rest ->
     (forall e, e ∈ es -> fst e <= fire_time w) -> (forall e, e ∈ rest -> fire_time w < fst e) ->
     wp (for_each es (fire run (fire_time w)) ;;;
         let! l := get_loop timers_ in
         match l with e :: _ => timerfdSet (fst e) | [] => ret tt end) E Q
        (set_w_loop (set_timers_ rest (w_loop w1)) w1)) ->
  wp (handleRead run) E Q w.
Proof.
  intros Hok HQ. unfold handleRead. wp_step. apply Chan.wp_assertInLoopThread; [apply Hok|].
  wp_step. unfold timerfdRead, get_loop, sys, clock_now, fire_time in *. wp_step. wp_step. wp_step.
  unfold wp at 1. destruct (k_call _ _) as [r k]. simpl in HQ. wp_step. wp_step.
  match goal with |- wp _ _ _ ?x => set (w0 := x) end.
  assert (Hk : w_kern w0 = k /\ quiet w w0 /\ armed (w_trace w0) = armed (w_trace w)).
  { unfold w0. destruct r; simpl; (split; [done|]; split; [|by rewrite armed_snoc]).
    - exists k, [Event (SysRead (timerfd_ (w_loop w)) 8) (SysOk a)], (w_errno w). by destruct w.
    - eapply quiet_sys. }
  clearbody w0. destruct Hk as (<-&Hq&Harm). unfold wp at 1. pose proof (k_now_ok (w_kern w0)) as Hnow.
  destruct (k_now (w_kern w0)) as [now k1]. simpl in *. wp_step.
  assert (Hq1 : quiet w (set_w_kern k1 w0)) by (etransitivity; [exact Hq|apply quiet_now]).
  eapply (getExpired_wp P); [by eapply timers_ok_quiet|lia|].
  intros es rest Hl Hes Hrest. apply HQ; auto. by destruct Hq as (?&?&?&->).
Qed.

End specs.

(** ** Properties *)

Section properties.
Context {K A : Type} `{Kernel K} `{!KernelLaws K} `{Build}.
Implicit Types w : World K A.

(** C11: when the timer descriptor fires, handleRead runs exactly the timers
    whose deadline has passed at its clock reading, each once, in the order of
    their deadlines; it re-inserts the repeating ones one interval later,
    deletes the one-shot ones, keeps the others, and arms the descriptor with
    the delay to the earliest deadline left (and leaves it alone when there is
    none). It does not fault. The callbacks here act on the application only. *)
Theorem handleRead_fires (act : TimerCallback -> A -> A) w :
  timers_ok [] w ->
  (forall p t, w_timers w !! p = Some t -> instant_ok (when_ t) /\ instant_ok (interval_ t)) ->
  exists es rest w',
    handleRead (run_app act) w = Ok tt w' /\
    timers_ (w_loop w) = es ++ rest /\
    (forall e, e ∈ es -> fst e <= fire_time w) /\
    (forall e, e ∈ rest -> fire_time w < fst e) /\
    w_app w' = fold_left (run_entry act (w_timers w)) es (w_app w) /\
    sorted (timers_ (w_loop w')) /\
    (forall x, x ∈ timers_ (w_loop w') <->
       x ∈ rest \/ exists e t, e ∈ es /\ w_timers w !! snd e = Some t /\ repeat_ t = true /\
                              x = (when_ t + interval_ t, snd e)) /\
    (forall p, w_timers w' !! p =
       if decide (p ∈ es.*2) then w_timers w !! p ≫= next_timer else w_timers w !! p) /\
    match timers_ (w_loop w') with
    | [] => armed (w_trace w') = armed (w_trace w)
    | e :: _ => exists now, instant_ok now /\ armed (w_trace w') = Some (delay now (fst e))
    end.
Proof.
  intros Hok Hb.
  enough (wp (handleRead (run_app act)) no_fault (fun _ w' => exists es rest,
    timers_ (w_loop w) = es ++ rest /\ (forall e, e ∈ es -> fst e <= fire_time w) /\
    (forall e, e ∈ rest -> fire_time w < fst e) /\
    (exists tr w2, fired act (w_timers w) rest (w_app w) tr es w2 /\ quiet w2 w') /\
    match timers_ (w_loop w') with
    | [] => armed (w_trace w') = armed (w_trace w)
    | e :: _ => exists now, instant_ok now /\ armed (w_trace w') = Some (delay now (fst e))
    end) w) as Hwp.
  { apply wp_total in Hwp as ([]&w'&Hr&es&rest&Hl&He&Hre&(tr&w2&[_ _ Happ Hso Hset Hheap]&(k&t&e&->))&Ha).
    exists es, rest. eexists. split_and!; eauto. }
  apply (handleRead_head _ _ _ [] w Hok). intros w1 es rest (k1&t1&e1&->) Harm Hnow Hl Hes Hrest.
  pose proof (expired_out [] w es rest _ Hok Hl Hes Hrest) as (Hnd&_&_).
  wp_step. eapply wp_conseq.
  - apply (fire_all_exact act (w_timers w) rest (w_app w) (w_trace w ++ t1) _ []).
    + split; simpl; auto; [apply Hok| |].
      * pose proof (tk_sorted _ _ Hok) as Hs. rewrite Hl in Hs. exact (sorted_app_r es rest Hs).
      * intros x. split; [by left|]. intros [?|(?&?&[]%not_elem_of_nil&_)]. done.
    + split; [done|]. intros [d p] He.
      assert (Hin : (d, p) ∈ timers_ (w_loop w)) by (rewrite Hl; apply elem_of_app; by left).
      destruct (tk_live _ _ Hok _ _ Hin) as (t&Ht&<-&Hc). destruct (Hb _ _ Ht) as [[]].
      apply Hes in He. pose proof (entry_addr _ _ _ _ Hok Hin). unfold instant_ok in *. simpl in *.
      split; [lia|]. exists t. split_and!; auto; lia.
  - simpl. intros _ w2 Hf. unfold get_loop. wp_step. wp_step.
    destruct (timers_ (w_loop w2)) as [|e l] eqn:Hl2.
    + wp_step. exists es, rest. split_and!; eauto.
      * exists (w_trace w ++ t1), w2. split; [done|reflexivity].
      * rewrite Hl2, (fd_trace _ _ _ _ _ _ _ Hf). done.
    + eapply wp_conseq; [apply timerfdSet_wp|].
      * left. assert (He : e ∈ timers_ (w_loop w2)) by (rewrite Hl2; left).
        apply (fd_set _ _ _ _ _ _ _ Hf) in He as [He|(e0&t&_&Ht&_&->)].
        -- destruct e as [d p]. assert (Hin : (d, p) ∈ timers_ (w_loop w)) by (rewrite Hl; set_solver).
           destruct (tk_live _ _ Hok _ _ Hin) as (t&Ht&<-&Hc). destruct (Hb _ _ Ht) as [[] _].
           simpl. lia.
        -- destruct (Hb _ _ Ht) as [[] []]. simpl. lia.
      * simpl. intros _ w' [Hq Ha]. exists es, rest. split_and!; eauto.
        destruct Hq as (k&t&e2&->). simpl in *. by rewrite Hl2.
Qed.

(** C31: the queue stays well formed (ordered set, live uncancelled timers under
    their own deadlines, no address reused) through handleRead for every
    callback that keeps it so, whatever timers the callbacks add and cancel. *)
Theorem handleRead_invariant (run : TimerCallback -> M (World K A) unit) w :
  (forall Q cb, Preserves (timers_ok Q) (run cb)) -> timers_ok [] w ->
  wp (handleRead run) any_fault (fun _ => timers_ok []) w.
Proof. apply handleRead_ok. Qed.

(** AddTimer in the loop's thread allocates the timer, inserts it under
    its deadline and, exactly when it has become the earliest one, arms the
    descriptor with the delay to it; the queue stays well formed. *)
Theorem addTimer_correct P cb when interval w :
  timers_ok P w -> 0 <= when < 2 ^ 63 ->
  exists w', addTimer cb when interval w = Ok (w_next w) w' /\ timers_ok P w' /\
    w_timers w' = <[w_next w := Timer_new cb when interval]> (w_timers w) /\
    (forall x, x ∈ timers_ (w_loop w') <-> x = (when, w_next w) \/ x ∈ timers_ (w_loop w)) /\
    (head (timers_ (w_loop w')) = Some (when, w_next w) ->
       exists now, instant_ok now /\ armed (w_trace w') = Some (delay now when)) /\
    (head (timers_ (w_loop w')) <> Some (when, w_next w) -> w_trace w' = w_trace w).
Proof.
  intros Hok Hw. destruct (wp_total _ _ _ (addTimer_wp P cb when interval w Hok Hw))
    as (p&w'&Hr&->&Hok'&Hm&Hl&Ha). exists w'. split_and!; auto.
  - intros x. rewrite Hl. apply set_insert_elem.
  - intros Hh. by rewrite bool_decide_eq_true_2 in Ha.
  - intros Hh. by rewrite bool_decide_eq_false_2 in Ha.
Qed.

(** CancelTimer of a pending timer removes it from the set and deletes it,
    without touching the descriptor (which may fire early, to no effect);
    cancelling it once more is a use after free. *)
Theorem cancelTimer_correct P d p w :
  timers_ok P w -> (d, p) ∈ timers_ (w_loop w) ->
  exists w', cancelTimer p w = Ok tt w' /\ timers_ok P w' /\
    (forall x, x ∈ timers_ (w_loop w') <-> x ∈ timers_ (w_loop w) /\ x <> (d, p)) /\
    w_timers w' = delete p (w_timers w) /\ w_trace w' = w_trace w /\
    cancelTimer p w' = Err UseAfterFree.
Proof.
  intros Hok Hin. destruct (wp_total _ _ _ (cancelTimer_wp P d p w Hok Hin))
    as ([]&w'&Hr&Hok'&Hw'). exists w'. split_and!; auto; try by rewrite Hw'.
  - intros x. rewrite Hw'. apply set_erase_elem, Hok.
  - pose proof (entry_addr _ _ _ _ Hok Hin) as Hp.
    unfold cancelTimer, Loop.runInLoop, Loop.isInLoopThread, bind, gets.
    assert (tid_ (w_loop w') =? w_cur w' = true) as -> by apply Z.eqb_eq, Hok'.
    unfold cancelTimerInLoop, cancel, get_timer, deref_at, deref, bind.
    assert (p =? nullptr = false) as -> by (apply Z.eqb_neq; lia).
    subst w'. simpl. by rewrite lookup_delete_eq.
Qed.

(** C40: a timer cannot be cancelled by its own callback. When the earliest
    timer is due and its callback cancels that timer, handleRead reads the
    timer after cancelTimer has deleted it. *)
Theorem self_cancel_faults (run : TimerCallback -> M (World K A) unit) d p rest t cb w :
  timers_ok [] w -> timers_ (w_loop w) = (d, p) :: rest -> d <= fire_time w ->
  w_timers w !! p = Some t -> t_callback_ t = Some cb ->
  (forall w', run cb w' = cancelTimer p w') ->
  handleRead run w = Err UseAfterFree.
Proof.
  intros Hok Hl Hd Ht Hcb Hrun.
  enough (wp (handleRead run) (eq UseAfterFree) (fun _ _ => False) w) as Hwp.
  { unfold wp in Hwp. destruct (handleRead run w); [done|by subst]. }
  assert (Hin : (d, p) ∈ timers_ (w_loop w)) by (rewrite Hl; left).
  pose proof (entry_addr _ _ _ _ Hok Hin) as Hp.
  destruct (tk_live _ _ Hok _ _ Hin) as (t'&Ht'&<-&Hc). simplify_eq.
  assert (Hth : tid_ (w_loop w) =? w_cur w = true) by apply Z.eqb_eq, Hok.
  apply (handleRead_head _ _ _ [] w Hok). intros w1 es rest' (k1&t1&e1&->) _ _ Hl' _ Hrest.
  rewrite Hl in Hl'. destruct es as [|e es]; simpl in Hl'.
  { assert (Habs : fire_time w < fst (when_ t, p)) by (apply Hrest; subst rest'; left).
    simpl in Habs. lia. }
  injection Hl' as <- _. wp_step. simpl. wp_step. unfold fire. wp_step. simpl.
  assert (Hp0 : p <> nullptr) by lia.
  unfold get_timer. wp_lookup. wp_step. apply wp_assert_true; [by apply Z.leb_le|].
  rewrite Hc. simpl. wp_step. unfold Timer_run, get_timer. wp_step. wp_lookup. rewrite Hcb.
  unfold wp. rewrite Hrun.
  unfold cancelTimer, Loop.runInLoop, Loop.isInLoopThread, bind, gets. simpl. rewrite Hth.
  unfold cancelTimerInLoop, cancel, upd_timer, get_timer, deref_at, delete_timer, upd_loop,
    deref, assert_, bind, gets, modify, ret, throw.
  apply Z.eqb_neq in Hp0. rewrite Hp0. simpl. rewrite Ht, Hc. simpl. rewrite orb_true_r. unfold ret. simpl. rewrite Ht.
  simpl. rewrite !lookup_insert_eq. simpl. rewrite ?lookup_insert_eq. simpl.
  by rewrite lookup_delete_eq.
Qed.
End properties.

(** ** Witnesses *)

#[local] Instance debug : Build := {| ndebug := false |}.

(** A queue of three timers: a repeating one due first, a one-shot one, and
    one that is not due at the instant 200. *)
Definition example_world : World Script (list Z) :=
  let w := sample_world_with [] [RBytes (le_bytes 8 1)] [200] in
  set_w_next 30 (set_w_loop (set_timers_ [(50, 21); (100, 20); (10 ^ 9, 22)] (w_loop w))
    (set_w_timers (<[20 := Timer_new (Some (TimerUser 7)) 100 0]>
      (<[21 := Timer_new (Some (TimerUser 8)) 50 1000]>
      (<[22 := Timer_new (Some (TimerUser 9)) (10 ^ 9) 0]> ∅))) w)).

Definition log_callback (cb : TimerCallback) (l : list Z) : list Z :=
  match cb with TimerUser n => l ++ [n] | TimerRetry c => l end.

Lemma example_live p t : w_timers example_world !! p = Some t ->
  0 < p < 30 /\ repeat_ t = (0 <? interval_ t) /\ instant_ok (when_ t) /\ instant_ok (interval_ t).
Proof.
  unfold instant_ok. simpl. intros Hl. repeat (apply lookup_insert_Some in Hl as [[<- <-]|[_ Hl]];
    [simpl; lia|]). by rewrite lookup_empty in Hl.
Qed.

Lemma example_ok : timers_ok [] example_world.
Proof.
  split; simpl; try done.
  - repeat (constructor; try (unfold entry_lt; simpl; lia)).
  - intros d p Hin. repeat (apply elem_of_cons in Hin as [?|Hin]; [simplify_eq; by eexists|]).
    by apply not_elem_of_nil in Hin.
  - intros p t Hl. by destruct (example_live p t Hl) as (?&?&_).
  - by intros p ?%not_elem_of_nil.
Qed.

(** The callback 7 adds a timer, the others cancel the timer 22. *)
Definition busy_run (cb : TimerCallback) : M (World Script (list Z)) unit :=
  match cb with
  | TimerUser 7 => let! _ := addTimer (Some (TimerUser 1)) 400 0 in ret tt
  | _ => cancelTimer 22
  end.

#[local] Instance busy_preserves Q cb : Preserves (timers_ok Q) (busy_run cb).
Proof. destruct cb as [|n]; simpl; [|destruct n; repeat case_match]; apply _. Qed.

Lemma handleRead_fires_witness : exists w',
  handleRead (run_app log_callback) example_world = Ok tt w' /\ w_app w' = [8; 7] /\
  timers_ (w_loop w') = [(1050, 21); (10 ^ 9, 22)].
Proof.
  destruct (handleRead_fires log_callback example_world example_ok) as (es&rest&w'&Hr&_).
  { intros p t Hl. by destruct (example_live p t Hl) as (_&_&?&?). }
  exists w'. split; [exact Hr|]. vm_compute in Hr. injection Hr as <-. split; reflexivity.
Defined.

Lemma handleRead_invariant_witness :
  wp (handleRead busy_run) any_fault (fun _ => timers_ok []) example_world /\
  exists w', handleRead busy_run example_world = Ok tt w'.
Proof.
  split; [apply handleRead_invariant; [apply _|exact example_ok]|].
  vm_compute. eexists. reflexivity.
Defined.

Lemma addTimer_correct_witness : exists w',
  addTimer None 20 0 example_world = Ok 30 w' /\ timers_ok [] w'.
Proof.
  destruct (addTimer_correct [] None 20 0 example_world example_ok) as (w'&?&?&_); [lia|].
  exists w'. split; assumption.
Defined.

Lemma cancelTimer_correct_witness : exists w',
  cancelTimer 20 example_world = Ok tt w' /\ cancelTimer 20 w' = Err UseAfterFree.
Proof.
  destruct (cancelTimer_correct [] 100 20 example_world example_ok) as (w'&?&_&_&_&_&?).
  - right. left.
  - exists w'. split; assumption.
Defined.

Lemma self_cancel_faults_witness :
  handleRead (fun _ => cancelTimer 21) example_world = Err UseAfterFree.
Proof.
  apply (self_cancel_faults _ 50 21 [(100, 20); (10 ^ 9, 22)]
           (Timer_new (Some (TimerUser 8)) 50 1000) (TimerUser 8));
    [exact example_ok|reflexivity|vm_compute; discriminate|reflexivity|reflexivity|reflexivity].
Defined.
End TQ.
