(* ===== verification/TcpConnection.v ===== *)
(** TcpConnection (src/TcpConnection.hpp, src/TcpConnection.cc): the state
    machine of a connection, its send path with the output buffer, and its
    event handlers.  A connection is an object of the heap [w_conns]; its
    channel is an object of [w_channels].  The message and close callbacks,
    which the handlers run in place, are parameters. *)

From S2P Require Import Prelude Ints Kernel Buffer World Poller Channel.

Module Conn.
Section ops.
Context {K A : Type} `{Kernel K} `{Build}.
Implicit Types w : World K A.

(** Calling a method of a member buffer. *)
Definition on_input {T} (c : ptr) (m : M Buf.Buffer T) : M (World K A) T :=
  let! cn := get_conn c in
  zoom (fun _ => inputBuffer_ cn) (fun b => put_conn c (set_inputBuffer_ b cn)) m.
Definition on_output {T} (c : ptr) (m : M Buf.Buffer T) : M (World K A) T :=
  let! cn := get_conn c in
  zoom (fun _ => outputBuffer_ cn) (fun b => put_conn c (set_outputBuffer_ b cn)) m.

(** The member channel. *)
Definition conn_channel (c : ptr) : M (World K A) Channel :=
  let! cn := get_conn c in get_channel (channel_ cn).

(** ** Construction *)

(** The Buffer members are default constructed. *)
Definition TcpConnection_ctor (sockfd : Z) (local peer : sockaddr_in) : M (World K A) ptr :=
  let! input := Buf.Buffer_ctor Buf.kInitialSize in
  let! output := Buf.Buffer_ctor Buf.kInitialSize in
  let! p := Chan.Channel_ctor sockfd in
  let! c := alloc in
  modify (put_conn c (mkConn sockfd p kConnecting local peer input output
                        0 None None None None None)) ;;;
  Chan.setReadCallback p (ConnHandleRead c) ;;;
  Chan.setWriteCallback p (ConnHandleWrite c) ;;;
  Chan.setCloseCallback p (ConnHandleClose c) ;;;
  Chan.setErrorCallback p (ConnHandleError c) ;;;
  ret c.

Definition TcpConnection_dtor (c : ptr) : M (World K A) unit :=
  let! cn := get_conn c in
  assert_ (bool_decide (state_ cn = kDisconnected)) "state_ == kDisconnected" ;;;
  let! _ := sys (SysClose (sockfd_ cn)) in
  Chan.Channel_dtor (channel_ cn) ;;;
  modify (fun w => set_w_conns (delete c (w_conns w)) w).

(** ** Setters and observers *)

Definition setMessageCallback (c : ptr) (cb : option MessageCallback) : M (World K A) unit :=
  upd_conn c (set_messageCallback_ cb).
Definition setWriteCompleteCallback (c : ptr) (cb : option Z) : M (World K A) unit :=
  upd_conn c (set_writeCompleteCallback_ cb).
Definition setHighWaterMarkCallback (c : ptr) (cb : option Z) (mark : Z) : M (World K A) unit :=
  upd_conn c (fun cn => set_highWaterMarkCallback_ cb (set_highWaterMark_ mark cn)).
Definition setCloseCallback (c : ptr) (cb : option CloseCallback) : M (World K A) unit :=
  upd_conn c (set_connCloseCallback_ cb).
Definition setContext (c : ptr) (x : option Z) : M (World K A) unit :=
  upd_conn c (set_context_ x).
Definition getContext (c : ptr) : M (World K A) (option Z) :=
  let! cn := get_conn c in ret (context_ cn).

Definition connected (c : ptr) : M (World K A) bool :=
  let! cn := get_conn c in ret (bool_decide (state_ cn = kConnected)).
Definition disconnected (c : ptr) : M (World K A) bool :=
  let! cn := get_conn c in ret (bool_decide (state_ cn = kDisconnected)).
Definition isReading (c : ptr) : M (World K A) bool :=
  let! ch := conn_channel c in ret (Chan.isReading ch).

Definition local (c : ptr) : M (World K A) sockaddr_in :=
  let! cn := get_conn c in ret (local_ cn).
Definition peer (c : ptr) : M (World K A) sockaddr_in :=
  let! cn := get_conn c in ret (peer_ cn).
Definition inputBuffer (c : ptr) : M (World K A) Buf.Buffer :=
  let! cn := get_conn c in ret (inputBuffer_ cn).
Definition outputBuffer (c : ptr) : M (World K A) Buf.Buffer :=
  let! cn := get_conn c in ret (outputBuffer_ cn).

Definition set_state (c : ptr) (s : ConnectState) : M (World K A) unit :=
  upd_conn c (set_state_ s).

(** __atomic_exchange_n(&state_, newState) *)
Definition stateAtomicGetAndSet (c : ptr) (newState : ConnectState) : M (World K A) ConnectState :=
  let! cn := get_conn c in
  set_state c newState ;;;
  ret (state_ cn).

Definition connectEstablished (c : ptr) : M (World K A) unit :=
  let! cn := get_conn c in
  assert_ (bool_decide (state_ cn = kConnecting)) "state_ == kConnecting" ;;;
  set_state c kConnected ;;;
  Chan.tie (channel_ cn) c ;;;
  Chan.enableRead (channel_ cn).

(** ** Sending *)

(** write() into an empty output buffer: the bytes written, the bytes that
    remain, and whether the connection is broken. *)
Definition try_write (c : ptr) (data : list byte) : M (World K A) (Z * Z * bool) :=
  let! cn := get_conn c in
  assert_ (Buf.readableBytes (outputBuffer_ cn) =? 0) "outputBuffer_.readableBytes() == 0" ;;;
  let! n := sys (SysWrite (sockfd_ cn) data) in
  match n return M (World K A) (Z * Z * bool) with
  | SysErr _ =>
      let! e := get_errno in
      ret (0, zlen data, negb (e =? EAGAIN) && ((e =? EPIPE) || (e =? ECONNRESET)))
  | SysOk n =>
      let remain := u64 (zlen data - n) in
      match writeCompleteCallback_ cn with
      | Some cb => when (remain =? 0) (Loop.queueInLoop (TaskWriteComplete cb c))
      | None => ret tt
      end ;;;
      ret (n, remain, false)
  end.

(** The rest of the data goes to the output buffer. *)
Definition buffer_rest (c : ptr) (rest : list byte) : M (World K A) unit :=
  let remain := zlen rest in
  let! cn := get_conn c in
  match highWaterMarkCallback_ cn with
  | Some cb =>
      let oldLen := Buf.readableBytes (outputBuffer_ cn) in
      let newLen := u64 (oldLen + remain) in
      when ((oldLen <? highWaterMark_ cn) && (highWaterMark_ cn <=? newLen))
           (Loop.queueInLoop (TaskHighWaterMark cb c newLen))
  | None => ret tt
  end ;;;
  on_output c (Buf.append rest) ;;;
  Chan.enableWrite (channel_ cn).

Definition sendInLoop (c : ptr) (data : list byte) : M (World K A) unit :=
  Loop.assertInLoopThread ;;;
  let! cn := get_conn c in
  if bool_decide (state_ cn = kDisconnected) then ret tt else
  let! ch := get_channel (channel_ cn) in
  let! '(n, remain, faultError) :=
    (if negb (Chan.isWriting ch) then try_write c data else ret (0, zlen data, false)) in
  when (negb faultError && (0 <? remain)) (buffer_rest c (drop (Z.to_nat n) data)).

Definition send (c : ptr) (data : list byte) : M (World K A) unit :=
  let! cn := get_conn c in
  if negb (bool_decide (state_ cn = kConnected)) then ret tt else
  let! b := Loop.isInLoopThread in
  if b then sendInLoop c data
  else Loop.queueInLoop (TaskSendInLoop c data).

(** send(Buffer&) of a buffer that can be read and written through [load] and
    [store]: a connection's input buffer, or one of the application. *)
Record BufRef := mkBufRef {
  br_load : M (World K A) Buf.Buffer;
  br_store : Buf.Buffer -> M (World K A) unit
}.
Definition input_of (c : ptr) : BufRef := {|
  br_load := let! cn := get_conn c in ret (inputBuffer_ cn);
  br_store := fun b => upd_conn c (set_inputBuffer_ b)
|}.
Definition on_buf {T} (r : BufRef) (m : M Buf.Buffer T) : M (World K A) T :=
  let! b := br_load r in
  match m b with
  | Ok x b' => br_store r b' ;;; ret x
  | Err f => throw f
  end.

Definition send_buffer (c : ptr) (buffer : BufRef) : M (World K A) unit :=
  let! cn := get_conn c in
  if negb (bool_decide (state_ cn = kConnected)) then ret tt else
  let! b := Loop.isInLoopThread in
  if b then
    let! data := on_buf buffer
      (let! x := gets id in Buf.load (Buf.peek x) (Buf.readableBytes x)) in
    sendInLoop c data ;;;
    on_buf buffer Buf.retrieveAll
  else
    let! str := on_buf buffer Buf.retrieveAllAsString in
    Loop.queueInLoop (TaskSendInLoop c str).

(** ** Closing *)

Definition shutdownInLoop (c : ptr) : M (World K A) unit :=
  Loop.assertInLoopThread ;;;
  let! cn := get_conn c in
  let! ch := get_channel (channel_ cn) in
  when (negb (bool_decide (state_ cn = kDisconnected)) && negb (Chan.isWriting ch))
       (let! _ := sys (SysShutdownWr (sockfd_ cn)) in ret tt).

Definition shutdown (c : ptr) : M (World K A) unit :=
  let! cn := get_conn c in
  assert_ (negb (bool_decide (state_ cn = kDisconnected))) "state_ != kDisconnected" ;;;
  let! old := stateAtomicGetAndSet c kDisconnecting in
  when (bool_decide (old = kConnected))
    (let! b := Loop.isInLoopThread in
     if b then shutdownInLoop c else Loop.queueInLoop (TaskShutdownInLoop c)).

(** forceClose: the exchange and what follows it are one step, the test
    before it another. *)
Definition forceClose_exchange (c : ptr) : M (World K A) unit :=
  let! old := stateAtomicGetAndSet c kDisconnecting in
  when (negb (bool_decide (old = kDisconnected))) (Loop.queueInLoop (TaskForceCloseInLoop c)).
Definition forceClose (c : ptr) : M (World K A) unit :=
  let! cn := get_conn c in
  when (negb (bool_decide (state_ cn = kDisconnected))) (forceClose_exchange c).

Definition stopReadInLoop (c : ptr) : M (World K A) unit :=
  let! cn := get_conn c in
  let! ch := get_channel (channel_ cn) in
  when (Chan.isReading ch) (Chan.disableRead (channel_ cn)).
Definition startReadInLoop (c : ptr) : M (World K A) unit :=
  let! cn := get_conn c in
  let! ch := get_channel (channel_ cn) in
  when (negb (Chan.isReading ch)) (Chan.enableRead (channel_ cn)).
Definition stopRead (c : ptr) : M (World K A) unit :=
  Loop.runInLoop (TaskStopRead c) (stopReadInLoop c).
Definition startRead (c : ptr) : M (World K A) unit :=
  Loop.runInLoop (TaskStartRead c) (startReadInLoop c).

(** ** Event handlers *)

(** errno is read by the log only. *)
Definition handleError (c : ptr) : M (World K A) unit :=
  let! cn := get_conn c in
  let! r := sys (SysSoError (sockfd_ cn)) in
  match r with
  | SysOk err => put_errno err
  | SysErr _ => ret tt
  end.

Definition handleWrite (c : ptr) : M (World K A) unit :=
  let! cn := get_conn c in
  if bool_decide (state_ cn = kDisconnected) then ret tt else
  let out := outputBuffer_ cn in
  assert_ (0 <? Buf.readableBytes out) "outputBuffer_.readableBytes() > 0" ;;;
  let! ch := get_channel (channel_ cn) in
  assert_ (Chan.isWriting ch) "channel_.isWriting()" ;;;
  let! data := on_output c (Buf.load (Buf.peek out) (Buf.readableBytes out)) in
  let! n := sys (SysWrite (sockfd_ cn) data) in
  match n with
  | SysErr _ => ret tt
  | SysOk n =>
      on_output c (Buf.retrieve n) ;;;
      let! cn := get_conn c in
      when (Buf.readableBytes (outputBuffer_ cn) =? 0)
        (Chan.disableWrite (channel_ cn) ;;;
         when (bool_decide (state_ cn = kDisconnecting)) (shutdownInLoop c) ;;;
         match writeCompleteCallback_ cn with
         | Some cb => Loop.queueInLoop (TaskWriteComplete cb c)
         | None => ret tt
         end)
  end.

Section callbacks.
Variable run_message : MessageCallback -> ptr -> M (World K A) unit.
Variable run_close : CloseCallback -> ptr -> M (World K A) unit.

Definition handleClose (c : ptr) : M (World K A) unit :=
  Loop.assertInLoopThread ;;;
  let! cn := get_conn c in
  assert_ (bool_decide (state_ cn = kConnected) || bool_decide (state_ cn = kDisconnecting))
    "state_ == kConnected || state_ == kDisconnecting" ;;;
  set_state c kDisconnected ;;;
  Chan.removeChannel (channel_ cn) ;;;
  let! cn := get_conn c in
  match connCloseCallback_ cn with
  | Some cb => run_close cb c
  | None => throw BadFunctionCall
  end.

Definition forceCloseInLoop (c : ptr) : M (World K A) unit :=
  Loop.assertInLoopThread ;;;
  let! cn := get_conn c in
  when (negb (bool_decide (state_ cn = kDisconnected))) (handleClose c).

(** readv: the result of the system call goes to the buffer. *)
Definition readFd (c : ptr) : M (World K A) (Z * option Z) :=
  let! cn := get_conn c in
  let! r := sys (SysRead (sockfd_ cn) (Buf.readFd_capacity (inputBuffer_ cn))) in
  on_input c (Buf.readFd match r with SysOk d => inl d | SysErr e => inr e end).

Definition handleRead (c : ptr) : M (World K A) unit :=
  Loop.assertInLoopThread ;;;
  let! cn := get_conn c in
  assert_ (negb (bool_decide (state_ cn = kDisconnected))) "state_ != kDisconnected" ;;;
  let! '(n, savedErrno) := readFd c in
  if n =? -1 then
    match savedErrno with Some e => put_errno e | None => ret tt end ;;;
    handleError c
  else if n =? 0 then handleClose c
  else
    let! cn := get_conn c in
    match messageCallback_ cn with
    | Some cb => run_message cb c
    | None => throw BadFunctionCall
    end.
End callbacks.

(** defaultMessageCallback: the input is dropped. *)
Definition defaultMessageCallback (c : ptr) : M (World K A) unit := on_input c Buf.retrieveAll.
End ops.
Arguments BufRef : clear implicits.

(** ** Event masks bit by bit *)

Lemma land_bit x n : 0 <= n -> (Z.land x (2 ^ n) =? 0) = negb (Z.testbit x n).
Proof.
  intros Hn. destruct (Z.testbit x n) eqn:Hb; simpl.
  - apply Z.eqb_neq. intros Hz. apply (f_equal (fun y => Z.testbit y n)) in Hz.
    rewrite Z.land_spec, Hb, Z.pow2_bits_true, Z.bits_0 in Hz by done. done.
  - apply Z.eqb_eq. apply Z.bits_inj'. intros i Hi. rewrite Z.land_spec, Z.bits_0.
    destruct (decide (i = n)) as [->|]; [by rewrite Hb|].
    rewrite Z.pow2_bits_false by done. apply andb_false_r.
Qed.

Lemma isWriting_bit ch : Chan.isWriting ch = Z.testbit (events_ ch) 2.
Proof. unfold Chan.isWriting. rewrite (land_bit _ 2) by done. apply negb_involutive. Qed.
Lemma isReading_bit ch : Chan.isReading ch = Z.testbit (events_ ch) 0.
Proof. unfold Chan.isReading. rewrite (land_bit _ 0) by done. apply negb_involutive. Qed.

(** The bits a call sets or clears among EPOLLIN (0), EPOLLPRI (1) and
    EPOLLOUT (2). *)
Lemma next_mask_bit call m i : 0 <= i ->
  Z.testbit (Chan.next_mask call m) i =
  match call with
  | Chan.EnableRead => Z.testbit m i || (i =? 0) || (i =? 1)
  | Chan.EnableWrite => Z.testbit m i || (i =? 2)
  | Chan.DisableRead => Z.testbit m i && negb (i =? 0)
  | Chan.DisableWrite => Z.testbit m i && negb (i =? 2)
  | Chan.DisableAll => false
  end.
Proof.
  intros Hi.
  assert (Hb : forall n, 0 <= n -> Z.testbit (2 ^ n) i = (i =? n))
    by (intros n Hn; rewrite Z.pow2_bits_eqb, Z.eqb_sym by lia; done).
  pose proof (Hb 0 ltac:(done)) as H0. pose proof (Hb 1 ltac:(done)) as H1.
  pose proof (Hb 2 ltac:(done)) as H2.
  change (2 ^ 0) with 1 in H0. change (2 ^ 1) with 2 in H1. change (2 ^ 2) with 4 in H2.
  destruct call; simpl; unfold EPOLLIN, EPOLLPRI, EPOLLOUT;
    rewrite ?Z.lor_spec, ?Z.land_spec, ?Z.lnot_spec, ?H0, ?H1, ?H2 by done; auto.
  - by rewrite orb_assoc.
  - apply Z.bits_0.
Qed.

Lemma testbit_nonzero m i : Z.testbit m i = true -> m <> 0.
Proof. intros Hb ->. by rewrite Z.bits_0 in Hb. Qed.

(** ** The state of a connection *)

Section specs.
Context {K A : Type} `{Kernel K} `{!KernelLaws K} `{Build}.
Implicit Types w : World K A.

(** The bytes waiting in the output buffer. *)
Definition pending (cn : TcpConnection) : list byte := Buf.contents (outputBuffer_ cn).

(** Interest mask and output buffer for each state: before the connection is
    established nothing is asked for; while it is up EPOLLPRI is always asked
    for, and EPOLLOUT exactly while there are bytes to write; once it is down
    nothing is. *)
Definition phase (cn : TcpConnection) (m : Z) : Prop :=
  match state_ cn with
  | kConnecting => m = 0 /\ pending cn = []
  | kConnected | kDisconnecting =>
      Z.testbit m 1 = true /\ Z.testbit m 2 = negb (bool_decide (pending cn = []))
  | kDisconnected => m = 0
  end.

Record base_at (c : ptr) (cn : TcpConnection) (ch : Channel) w : Prop := {
  ba_null : c <> nullptr;
  ba_conn : w_conns w !! c = Some cn;
  ba_chan : w_channels w !! channel_ cn = Some ch;
  ba_sync : Chan.synced (channel_ cn) (events_ ch) w;
  ba_fd : fd_ ch = sockfd_ cn;
  ba_in : Buf.wf (inputBuffer_ cn);
  ba_out : Buf.wf (outputBuffer_ cn);
  ba_wake : wakeupfd_ (w_loop w) <> sockfd_ cn
}.

(** The invariant of a connection. *)
Definition conn_at (c : ptr) (cn : TcpConnection) (ch : Channel) w : Prop :=
  base_at c cn ch w /\ phase cn (events_ ch).
Definition conn_ok (c : ptr) w : Prop := exists cn ch, conn_at c cn ch w.

(** What is observed of descriptor [fd]: the bytes the kernel accepted, the
    number of times its write side was shut down, and the queued tasks. *)
Definition obs (fd : Z) w : list byte * nat * list Task :=
  (wire fd (w_trace w), shutdowns fd (w_trace w), pendingTasks_ (w_loop w)).

Lemma base_thread c cn ch w : base_at c cn ch w -> Chan.in_loop_thread w.
Proof. intros Hb. apply (ba_sync _ _ _ _ Hb). Qed.
Lemma base_chan_null c cn ch w : base_at c cn ch w -> channel_ cn <> nullptr.
Proof. intros Hb. apply (ba_sync _ _ _ _ Hb). Qed.

(** Transport of the base facts to a world that differs elsewhere. *)
Lemma base_frame c cn ch w w' :
  base_at c cn ch w ->
  w_conns w' !! c = w_conns w !! c -> w_channels w' !! channel_ cn = w_channels w !! channel_ cn ->
  tid_ (w_loop w') = tid_ (w_loop w) -> wakeupfd_ (w_loop w') = wakeupfd_ (w_loop w) ->
  w_cur w' = w_cur w ->
  registered (channel_ cn) (w_trace w') = registered (channel_ cn) (w_trace w) ->
  base_at c cn ch w'.
Proof.
  intros [Hn Hc Hch (Hp&Ht&ch0&Hl0&He0&Hpo&Hreg) Hfd Hi Ho Hw] E1 E2 E3 E4 E5 E6.
  split; auto; try congruence. split; [done|]. unfold Chan.in_loop_thread in *.
  split; [congruence|]. exists ch0. rewrite E2, E6. auto.
Qed.

(** A new value of the connection that keeps descriptor and channel. *)
Lemma base_put c cn cn' ch w :
  base_at c cn ch w -> channel_ cn' = channel_ cn -> sockfd_ cn' = sockfd_ cn ->
  Buf.wf (inputBuffer_ cn') -> Buf.wf (outputBuffer_ cn') ->
  base_at c cn' ch (put_conn c cn' w).
Proof.
  intros [Hn Hc Hch (Hp&Ht&Hs) Hfd Hi Ho Hw] E1 E2 ? ?. split; auto; rewrite ?E1, ?E2; auto.
  - simpl. apply lookup_insert_eq.
  - split; [done|]. by split.
Qed.

(** *** The primitive steps *)

Lemma wp_get_conn c cn ch (E : fault -> Prop) Q w :
  base_at c cn ch w -> Q cn w -> wp (get_conn c) E Q w.
Proof. intros Hb HQ. eapply wp_deref_some; [apply Hb|apply Hb|done]. Qed.
Lemma wp_get_chan c cn ch (E : fault -> Prop) Q w :
  base_at c cn ch w -> Q ch w -> wp (get_channel (channel_ cn)) E Q w.
Proof.
  intros Hb HQ. eapply wp_deref_some; [apply Hb|by eapply base_chan_null|done].
Qed.
Lemma wp_in_loop c cn ch (E : fault -> Prop) Q w :
  base_at c cn ch w -> Q tt w -> wp Loop.assertInLoopThread E Q w.
Proof. intros Hb. apply Chan.wp_assertInLoopThread. by eapply base_thread. Qed.
Lemma wp_is_loop c cn ch (E : fault -> Prop) Q w :
  base_at c cn ch w -> Q true w -> wp Loop.isInLoopThread E Q w.
Proof.
  intros Hb HQ. unfold Loop.isInLoopThread. wp_step.
  assert (tid_ (w_loop w) =? w_cur w = true) as -> by (apply Z.eqb_eq; by eapply base_thread).
  done.
Qed.

(** A system call that is not one of those observed. *)
Definition plain_call (fd : Z) (e : syscall) : bool :=
  match e with
  | SysWrite fd' _ | SysShutdownWr fd' => negb (fd' =? fd)
  | SysEpollCtl _ _ _ _ => false
  | _ => true
  end.

Lemma plain_obs fd e r tr : plain_call fd e = true ->
  wire fd (tr ++ [Event e r]) = wire fd tr /\ shutdowns fd (tr ++ [Event e r]) = shutdowns fd tr /\
  forall p, registered p (tr ++ [Event e r]) = registered p tr.
Proof.
  intros He. rewrite wire_app, shutdowns_app. simpl.
  destruct e; simpl in *; try destruct r as [x|x]; try (apply negb_true_iff in He; rewrite He);
    rewrite ?app_nil_r, ?Nat.add_0_r; split_and!; auto; try done;
    intros p; rewrite registered_snoc; done.
Qed.

Lemma wp_sys_plain c cn ch e (E : fault -> Prop) (Q : sysret (reply e) -> World K A -> Prop) w :
  base_at c cn ch w -> plain_call (sockfd_ cn) e = true ->
  (forall r w', base_at c cn ch w' -> obs (sockfd_ cn) w' = obs (sockfd_ cn) w ->
     reply_ok e r -> w_loop w' = w_loop w -> Q r w') ->
  wp (sys e) E Q w.
Proof.
  intros Hb He HQ. apply wp_sys. intros r k Hr.
  destruct (plain_obs (sockfd_ cn) e r (w_trace w) He) as (E1&E2&E3).
  apply HQ; auto.
  - eapply base_frame; [exact Hb|done..|]. simpl. apply E3.
  - unfold obs. simpl. by rewrite E1, E2.
Qed.

Lemma wp_queue c cn ch task (E : fault -> Prop) (Q : unit -> World K A -> Prop) w :
  base_at c cn ch w ->
  (forall w', base_at c cn ch w' ->
     obs (sockfd_ cn) w' = (wire (sockfd_ cn) (w_trace w), shutdowns (sockfd_ cn) (w_trace w),
                            pendingTasks_ (w_loop w) ++ [task]) -> Q tt w') ->
  wp (Loop.queueInLoop task) E Q w.
Proof.
  intros Hb HQ. unfold Loop.queueInLoop, upd_loop. wp_step. wp_step. wp_step.
  set (w1 := set_w_loop _ _).
  assert (Hb1 : base_at c cn ch w1) by (eapply base_frame; [exact Hb|done..]).
  eapply wp_is_loop; [exact Hb1|]. unfold get_loop. wp_step. wp_step. simpl.
  wp_step; [|by apply HQ]. unfold Loop.wakeup, get_loop. wp_step. wp_step. wp_step.
  eapply wp_sys_plain; [exact Hb1| |].
  - simpl. apply negb_true_iff, Z.eqb_neq, Hb.
  - intros r w' Hb' Ho _ _. wp_step. apply HQ; [done|]. rewrite Ho. done.
Qed.

(** The objects that own connections and channels are the same. *)
Definition same_owners w w' : Prop :=
  w_conns w' = w_conns w /\ w_singles w' = w_singles w /\ w_clients w' = w_clients w.

(** The channel after a call. *)
Definition called (call : Chan.channel_call) (ch : Channel) : Channel :=
  let m := Chan.next_mask call (events_ ch) in set_pooling (negb (m =? 0)) (set_events_ m ch).

Lemma ctl_obs fd op fd' ev p r tr :
  wire fd (tr ++ [Event (SysEpollCtl op fd' ev p) r]) = wire fd tr /\
  shutdowns fd (tr ++ [Event (SysEpollCtl op fd' ev p) r]) = shutdowns fd tr.
Proof. by rewrite wire_app, shutdowns_app, app_nil_r, Nat.add_0_r. Qed.

Lemma wp_call c cn ch call (E : fault -> Prop) (Q : unit -> World K A -> Prop) w :
  base_at c cn ch w -> events_ ch <> 0 \/ Chan.next_mask call (events_ ch) <> 0 ->
  (forall w', base_at c cn (called call ch) w' -> obs (sockfd_ cn) w' = obs (sockfd_ cn) w ->
     same_owners w w' -> Q tt w') ->
  wp (Chan.channel_call_run (channel_ cn) call) E Q w.
Proof.
  intros Hb Hm HQ. pose proof Hb as [Hn Hc Hch (Hp&Ht&ch0&Hl&Hev&Hpo&Hreg) Hfd Hi Ho Hw].
  assert (ch0 = ch) as -> by congruence. clear Hl Hev.
  apply (Chan.call_body _ call w ch); auto.
  set (m := Chan.next_mask call (events_ ch)) in *.
  eapply Chan.update_wp; [done|done|apply lookup_insert_eq|..]; simpl.
  - rewrite Hpo. intros _ Hz Hn'. zbool. exfalso. destruct Hm; congruence.
  - intros _ r e k.
    assert (Hpool : Chan.ctl_pooling (set_events_ m ch) = negb (m =? 0)).
    { unfold Chan.ctl_pooling. simpl. rewrite Hpo.
      destruct (events_ ch =? 0) eqn:?, (m =? 0) eqn:?; zbool; simpl; try done. destruct Hm; done. }
    rewrite Hpool. fold (called call ch). apply HQ.
    + split; auto; simpl; [apply lookup_insert_eq|]. unfold called; simpl. fold m.
      split; [done|]. split; [done|]. eexists. split; [apply lookup_insert_eq|]. simpl.
      split_and!; auto. eapply Chan.reg_step_ctl; [exact Hreg|].
      unfold Chan.ctl_op. simpl. rewrite Hpo.
      destruct (events_ ch =? 0) eqn:?, (m =? 0) eqn:?; zbool; simpl; try done. destruct Hm; done.
    + unfold obs. simpl. destruct (ctl_obs (sockfd_ cn) (Chan.ctl_op (set_events_ m ch)) (fd_ ch)
        m (channel_ cn) r (w_trace w)) as [-> ->]. done.
    + done.
Qed.

(** A call on the output or the input buffer. *)
Lemma wp_on_output {T} c cn ch (m : M Buf.Buffer T) (E : fault -> Prop)
    (Q : T -> World K A -> Prop) w :
  base_at c cn ch w ->
  wp m E (fun x b => Buf.wf b /\
    (forall w', base_at c (set_outputBuffer_ b cn) ch w' ->
       obs (sockfd_ cn) w' = obs (sockfd_ cn) w -> w_app w' = w_app w -> Q x w')) (outputBuffer_ cn) ->
  wp (on_output c m) E Q w.
Proof.
  intros Hb HQ. unfold on_output. wp_step. eapply wp_get_conn; [exact Hb|]. apply wp_zoom.
  eapply wp_conseq; [exact HQ|]. simpl. intros x b [Hwf Hx]. apply Hx; [|done|done].
  eapply base_put; eauto; simpl; eauto; apply Hb.
Qed.
Lemma wp_on_input {T} c cn ch (m : M Buf.Buffer T) (E : fault -> Prop)
    (Q : T -> World K A -> Prop) w :
  base_at c cn ch w ->
  wp m E (fun x b => Buf.wf b /\
    (forall w', base_at c (set_inputBuffer_ b cn) ch w' ->
       obs (sockfd_ cn) w' = obs (sockfd_ cn) w -> w_app w' = w_app w -> Q x w')) (inputBuffer_ cn) ->
  wp (on_input c m) E Q w.
Proof.
  intros Hb HQ. unfold on_input. wp_step. eapply wp_get_conn; [exact Hb|]. apply wp_zoom.
  eapply wp_conseq; [exact HQ|]. simpl. intros x b [Hwf Hx]. apply Hx; [|done|done].
  eapply base_put; eauto; simpl; eauto; apply Hb.
Qed.

(** Changing the state. *)
Lemma wp_set_state c cn ch s (E : fault -> Prop) (Q : unit -> World K A -> Prop) w :
  base_at c cn ch w ->
  (forall w', base_at c (set_state_ s cn) ch w' -> obs (sockfd_ cn) w' = obs (sockfd_ cn) w ->
     w' = put_conn c (set_state_ s cn) w -> Q tt w') ->
  wp (set_state c s) E Q w.
Proof.
  intros Hb HQ. unfold set_state, upd_conn. wp_step. eapply wp_get_conn; [exact Hb|]. wp_step.
  apply HQ; [|done|done]. eapply base_put; eauto; simpl; eauto; apply Hb.
Qed.

(** write() on the connection's descriptor, whose result the kernel decides. *)
Lemma wp_write c cn ch d (E : fault -> Prop) (Q : sysret Z -> World K A -> Prop) w :
  base_at c cn ch w ->
  (forall r w', r = fst (k_call (SysWrite (sockfd_ cn) d) (w_kern w)) -> base_at c cn ch w' ->
     match r with
     | SysOk n => 0 <= n <= zlen d /\ obs (sockfd_ cn) w' =
         (wire (sockfd_ cn) (w_trace w) ++ take (Z.to_nat n) d,
          shutdowns (sockfd_ cn) (w_trace w), pendingTasks_ (w_loop w))
     | SysErr e => obs (sockfd_ cn) w' = obs (sockfd_ cn) w /\ w_errno w' = e
     end -> Q r w') ->
  wp (sys (SysWrite (sockfd_ cn) d)) E Q w.
Proof.
  intros Hb HQ. unfold wp, sys. pose proof (k_reply_ok (SysWrite (sockfd_ cn) d) (w_kern w)) as Hr.
  destruct (k_call _ _) as [r k]. simpl in Hr. specialize (HQ r).
  apply HQ; [done| |].
  - eapply base_frame; [exact Hb|..]; destruct r; try done; simpl; by rewrite registered_snoc.
  - unfold obs. destruct r as [n|e]; simpl; rewrite wire_app, shutdowns_app; simpl;
      rewrite ?Z.eqb_refl, ?app_nil_r, ?Nat.add_0_r; auto.
Qed.

(** shutdown(SHUT_WR). *)
Lemma wp_shutdown c cn ch (E : fault -> Prop) (Q : sysret unit -> World K A -> Prop) w :
  base_at c cn ch w ->
  (forall r w', base_at c cn ch w' ->
     obs (sockfd_ cn) w' = (wire (sockfd_ cn) (w_trace w), S (shutdowns (sockfd_ cn) (w_trace w)),
                            pendingTasks_ (w_loop w)) -> Q r w') ->
  wp (sys (SysShutdownWr (sockfd_ cn))) E Q w.
Proof.
  intros Hb HQ. apply wp_sys. intros r k _. apply HQ.
  - eapply base_frame; [exact Hb|done..|]. simpl. by rewrite registered_snoc.
  - unfold obs. simpl. rewrite wire_app, shutdowns_app. simpl. rewrite Z.eqb_refl, app_nil_r.
    by rewrite Nat.add_comm.
Qed.

(** *** Sending *)

Definition up (cn : TcpConnection) : Prop := state_ cn = kConnected \/ state_ cn = kDisconnecting.

Lemma up_phase cn m : up cn ->
  phase cn m <-> Z.testbit m 1 = true /\ Z.testbit m 2 = negb (bool_decide (pending cn = [])).
Proof. unfold phase. by intros [-> | ->]. Qed.

(** What sendInLoop learns from the kernel: nothing while it waits for
    EPOLLOUT, else the result of write(). *)
Definition write_result (cn : TcpConnection) (ch : Channel) (data : list byte) w : option (sysret Z) :=
  if Chan.isWriting ch then None else Some (fst (k_call (SysWrite (sockfd_ cn) data) (w_kern w))).
Definition broken (e : Z) : bool := (e =? EPIPE) || (e =? ECONNRESET).

(** The bytes that go to the kernel at once, and those that are pending after. *)
Definition send_effect (r : option (sysret Z)) (p data : list byte) : list byte * list byte :=
  match r with
  | None => ([], p ++ data)
  | Some (SysOk n) => (take (Z.to_nat n) data, drop (Z.to_nat n) data)
  | Some (SysErr e) => ([], if broken e then [] else data)
  end.

(** The tasks queued: the write-complete callback when all was written, the
    high-water callback when the pending bytes reach the mark from below. *)
Definition complete_tasks (c : ptr) (cn : TcpConnection) (r : option (sysret Z)) (data : list byte) : list Task :=
  match r, writeCompleteCallback_ cn with
  | Some (SysOk n), Some cb => if n =? zlen data then [TaskWriteComplete cb c] else []
  | _, _ => []
  end.
Definition high_water_tasks (c : ptr) (cn : TcpConnection) (p p' : list byte) : list Task :=
  match highWaterMarkCallback_ cn with
  | Some cb => if (zlen p <? highWaterMark_ cn) && (highWaterMark_ cn <=? zlen p')
               then [TaskHighWaterMark cb c (zlen p')] else []
  | None => []
  end.

Lemma buffer_rest_wp c cn ch rest w :
  base_at c cn ch w -> up cn -> Z.testbit (events_ ch) 1 = true ->
  0 < zlen rest <= Buf.max_size ->
  wp (buffer_rest c rest) (eq LengthError) (fun _ w' => exists out',
    conn_at c (set_outputBuffer_ out' cn) (called Chan.EnableWrite ch) w' /\
    Buf.contents out' = pending cn ++ rest /\
    obs (sockfd_ cn) w' = (wire (sockfd_ cn) (w_trace w), shutdowns (sockfd_ cn) (w_trace w),
      pendingTasks_ (w_loop w) ++ high_water_tasks c cn (pending cn) (pending cn ++ rest))) w.
Proof.
  intros Hb Hup H1 Hrest. unfold buffer_rest. wp_step. eapply wp_get_conn; [exact Hb|]. wp_step.
  eapply wp_conseq with (Q := fun _ w' => base_at c cn ch w' /\
    obs (sockfd_ cn) w' = (wire (sockfd_ cn) (w_trace w), shutdowns (sockfd_ cn) (w_trace w),
      pendingTasks_ (w_loop w) ++ high_water_tasks c cn (pending cn) (pending cn ++ rest))).
  - unfold high_water_tasks. destruct (highWaterMarkCallback_ cn) as [cb|].
    + pose proof (ba_out _ _ _ _ Hb) as Hwf. pose proof (Buf.zlen_contents _ Hwf) as Hl.
      rewrite Buf.readable_contents by done. fold (pending cn) in *.
      assert (Hsum : u64 (zlen (pending cn) + zlen rest) = zlen (pending cn ++ rest)).
      { rewrite zlen_app. apply wrapu_small. pose proof (zlen_nonneg (pending cn)).
        destruct Hwf as (?&?&?). unfold Buf.max_size in *. lia. }
      rewrite Hsum. apply wp_when.
      * intros ->. eapply wp_queue; [exact Hb|auto].
      * intros ->. split; [done|]. by rewrite app_nil_r.
    + wp_step. split; [done|]. by rewrite app_nil_r.
  - simpl. clear Hb. intros _ w1 [Hb Ho]. wp_step.
    eapply wp_on_output; [exact Hb|].
    eapply wp_conseq; [apply Buf.append_spec; [apply Hb|right; auto with lia]|].
    simpl. intros _ out' (Hwf&Hc&_). split; [done|]. intros w2 Hb2 Ho2 _.
    apply (wp_call c (set_outputBuffer_ out' cn) ch Chan.EnableWrite); [exact Hb2|left; by eapply testbit_nonzero|].
    intros w3 Hb3 Ho3 _. exists out'. split; [|split; [done|]].
    + split; [done|]. apply up_phase; [exact Hup|].
      change (events_ (called Chan.EnableWrite ch)) with (Chan.next_mask Chan.EnableWrite (events_ ch)).
      rewrite !next_mask_bit, H1 by done.
      split; [done|]. unfold pending. simpl. rewrite Hc, bool_decide_eq_false_2.
      * by rewrite orb_true_r.
      * destruct rest; [unfold zlen in *; simpl in *; lia|].
        by intros [_ ?]%app_eq_nil.
    + simpl in Ho3. congruence.
Qed.

Lemma set_output_id cn : set_outputBuffer_ (outputBuffer_ cn) cn = cn.
Proof. by destruct cn. Qed.
Lemma high_water_same c cn p : high_water_tasks c cn p p = [].
Proof.
  unfold high_water_tasks. destruct (highWaterMarkCallback_ cn); [|done].
  destruct (_ && _) eqn:Hc; [zbool; lia|done].
Qed.

(** write() straight from the caller's data. *)
Lemma try_write_wp c cn ch data w :
  base_at c cn ch w -> pending cn = [] -> zlen data <= Buf.max_size ->
  wp (try_write c data) no_fault (fun x w' =>
    let r := fst (k_call (SysWrite (sockfd_ cn) data) (w_kern w)) in
    let '(n, remain, faultError) := x in
    base_at c cn ch w' /\
    (0 <= n <= zlen data /\ (if faultError then snd (send_effect (Some r) [] data) = [] else
       remain = zlen data - n /\ snd (send_effect (Some r) [] data) = drop (Z.to_nat n) data)) /\
    obs (sockfd_ cn) w' = (wire (sockfd_ cn) (w_trace w) ++ fst (send_effect (Some r) [] data),
      shutdowns (sockfd_ cn) (w_trace w),
      pendingTasks_ (w_loop w) ++ complete_tasks c cn (Some r) data)) w.
Proof.
  intros Hb Hp Hlen. unfold try_write. wp_step. eapply wp_get_conn; [exact Hb|]. wp_step.
  apply wp_assert_true.
  { rewrite Buf.readable_contents by apply Hb. fold (pending cn). by rewrite Hp. }
  wp_step. eapply wp_write; [exact Hb|]. intros r w1 -> Hb1 Ho.
  destruct (fst _) as [n|e]; simpl.
  - destruct Ho as [Hn Ho].
    rewrite wrapu_small by (unfold Buf.max_size in *; lia). wp_step.
    assert (Hc : zlen data - n =? 0 = (n =? zlen data)).
    { destruct (n =? zlen data) eqn:E; zbool; [apply Z.eqb_eq|apply Z.eqb_neq]; lia. }
    destruct (writeCompleteCallback_ cn) as [cb|]; simpl.
    + apply wp_when; rewrite Hc; intros ->.
      * eapply wp_queue; [exact Hb1|]. intros w2 Hb2 Ho2. wp_step. split_and!; auto; try lia.
        rewrite Ho2. unfold obs in Ho. simplify_eq. congruence.
      * wp_step. rewrite app_nil_r. split_and!; auto; lia.
    + wp_step. wp_step. rewrite app_nil_r. split_and!; auto; lia.
  - destruct Ho as [Ho He]. unfold get_errno. wp_step. wp_step. wp_step. rewrite He, !app_nil_r.
    unfold broken, EAGAIN, EPIPE, ECONNRESET. pose proof (zlen_nonneg data).
    destruct (e =? 32) eqn:E1, (e =? 104) eqn:E2, (e =? 11) eqn:E3; zbool; try lia; simpl;
      split_and!; auto; lia.
Qed.

Lemma sendInLoop_wp c cn ch data w :
  conn_at c cn ch w -> up cn -> zlen data <= Buf.max_size ->
  wp (sendInLoop c data) (eq LengthError) (fun _ w' =>
    let r := write_result cn ch data w in
    let eff := send_effect r (pending cn) data in
    exists out' ch', conn_at c (set_outputBuffer_ out' cn) ch' w' /\
      Buf.contents out' = snd eff /\
      obs (sockfd_ cn) w' = (wire (sockfd_ cn) (w_trace w) ++ fst eff,
        shutdowns (sockfd_ cn) (w_trace w),
        pendingTasks_ (w_loop w) ++ complete_tasks c cn r data ++
          high_water_tasks c cn (pending cn) (snd eff))) w.
Proof.
  intros [Hb Hph] Hup Hlen. pose proof (proj1 (up_phase _ _ Hup) Hph) as [H1 H2].
  unfold sendInLoop. wp_step. eapply wp_in_loop; [exact Hb|]. wp_step.
  eapply wp_get_conn; [exact Hb|]. rewrite bool_decide_eq_false_2 by (destruct Hup; congruence).
  wp_step. eapply wp_get_chan; [exact Hb|]. unfold write_result. wp_step.
  destruct (Chan.isWriting ch) eqn:Hwr; cbn [negb].
  - wp_step. simpl. wp_step.
    + eapply wp_conseq; [apply (buffer_rest_wp c cn ch data w Hb Hup H1); zbool; lia|].
      simpl. intros _ w' (out'&?&?&Ho). exists out', (called Chan.EnableWrite ch).
      rewrite app_nil_r. split_and!; auto. 
    + assert (data = []) as -> by (destruct data; [done|unfold zlen in *; simpl in *; zbool; lia]).
      exists (outputBuffer_ cn), ch. rewrite set_output_id, !app_nil_r, high_water_same.
      rewrite app_nil_r. split_and!; auto. by split.
  - rewrite isWriting_bit, H2 in Hwr. apply negb_false_iff, bool_decide_eq_true in Hwr.
    eapply wp_weaken; [apply (try_write_wp c cn ch data w Hb Hwr Hlen)|].
    cbv zeta beta. intros [[n remain] fault] w1 (Hb1&(Hn&Hf)&Ho1).
    set (r := fst (k_call (SysWrite (sockfd_ cn) data) (w_kern w))) in *.
    assert (Hdone : snd (send_effect (Some r) (pending cn) data) = [] -> exists out' ch',
      conn_at c (set_outputBuffer_ out' cn) ch' w1 /\
      Buf.contents out' = snd (send_effect (Some r) (pending cn) data) /\
      obs (sockfd_ cn) w1 = (wire (sockfd_ cn) (w_trace w) ++ fst (send_effect (Some r) [] data),
        shutdowns (sockfd_ cn) (w_trace w), pendingTasks_ (w_loop w) ++
        complete_tasks c cn (Some r) data ++
        high_water_tasks c cn (pending cn) (snd (send_effect (Some r) (pending cn) data)))).
    { intros Hs. exists (outputBuffer_ cn), ch. rewrite Hs, set_output_id, Hwr, high_water_same.
      rewrite app_nil_r. split_and!; auto. by split. }
    rewrite Hwr in *. apply wp_when; intros Hc.
    + zbool. subst fault. destruct Hf as [-> Hs].
      assert (Hd : zlen (drop (Z.to_nat n) data) = zlen data - n) by (apply zlen_drop; lia).
      eapply wp_conseq; [apply (buffer_rest_wp c cn ch _ w1 Hb1 Hup H1); lia|].
      cbv beta. rewrite Hwr, Hs. intros _ w' (out'&?&?&Ho). exists out', (called Chan.EnableWrite ch).
      unfold obs in Ho1. injection Ho1 as E1 E2 E3. rewrite Ho, E1, E2, E3, <- app_assoc.
      split_and!; auto.
    + apply Hdone. destruct fault; [done|]. destruct Hf as [-> Hs]. rewrite Hs.
      simpl in Hc. zbool. apply drop_ge. unfold zlen in *. lia.
Qed.

(** *** Draining the output buffer and shutting down *)

Lemma up_decide cn : up cn -> bool_decide (state_ cn = kDisconnected) = false.
Proof. intros Hup. apply bool_decide_eq_false_2. destruct Hup; congruence. Qed.

Lemma pending_writing cn ch : up cn -> phase cn (events_ ch) ->
  Chan.isWriting ch = negb (bool_decide (pending cn = [])).
Proof. intros Hup Hph. apply (up_phase _ _ Hup) in Hph as [_ <-]. apply isWriting_bit. Qed.

(** shutdown(SHUT_WR) once nothing is pending. *)
Lemma shutdownInLoop_wp c cn ch w :
  conn_at c cn ch w -> up cn ->
  wp (shutdownInLoop c) no_fault (fun _ w' => conn_at c cn ch w' /\
    obs (sockfd_ cn) w' = (wire (sockfd_ cn) (w_trace w),
      (shutdowns (sockfd_ cn) (w_trace w) + if bool_decide (pending cn = []) then 1 else 0)%nat,
      pendingTasks_ (w_loop w))) w.
Proof.
  intros [Hb Hph] Hup. unfold shutdownInLoop. wp_step. eapply wp_in_loop; [exact Hb|]. wp_step.
  eapply wp_get_conn; [exact Hb|]. wp_step. eapply wp_get_chan; [exact Hb|].
  rewrite up_decide, (pending_writing cn) by done. simpl. rewrite negb_involutive.
  apply wp_when; intros ->.
  - wp_step. eapply wp_shutdown; [exact Hb|]. intros r w' Hb' Ho. wp_step.
    rewrite Nat.add_1_r. split; [by split|done].
  - rewrite Nat.add_0_r. split; [by split|done].
Qed.

(** The channel and the tasks after handleWrite left [p] pending. *)
Definition write_channel (ch : Channel) (p : list byte) : Channel :=
  if bool_decide (p = []) then called Chan.DisableWrite ch else ch.
Definition write_tasks (c : ptr) (cn : TcpConnection) (p : list byte) : list Task :=
  match writeCompleteCallback_ cn with
  | Some cb => if bool_decide (p = []) then [TaskWriteComplete cb c] else []
  | None => []
  end.
Definition write_shutdowns (cn : TcpConnection) (p : list byte) : nat :=
  if bool_decide (p = []) && bool_decide (state_ cn = kDisconnecting) then 1 else 0.

Lemma handleWrite_done c cn ch w :
  base_at c cn ch w -> up cn -> pending cn = [] -> Z.testbit (events_ ch) 1 = true ->
  wp (Chan.disableWrite (channel_ cn) ;;;
      when (bool_decide (state_ cn = kDisconnecting)) (shutdownInLoop c) ;;;
      match writeCompleteCallback_ cn with
      | Some cb => Loop.queueInLoop (TaskWriteComplete cb c)
      | None => ret tt
      end) no_fault
    (fun _ w' => conn_at c cn (called Chan.DisableWrite ch) w' /\
      obs (sockfd_ cn) w' = (wire (sockfd_ cn) (w_trace w),
        (shutdowns (sockfd_ cn) (w_trace w) + write_shutdowns cn [])%nat,
        pendingTasks_ (w_loop w) ++ write_tasks c cn [])) w.
Proof.
  intros Hb Hup Hp H1. wp_step. apply (wp_call c cn ch Chan.DisableWrite); [done|left; by eapply testbit_nonzero|].
  intros w1 Hb1 Ho1 _. unfold obs in Ho1 at 2. wp_step.
  assert (Hc1 : conn_at c cn (called Chan.DisableWrite ch) w1).
  { split; [done|]. apply up_phase; [done|].
    change (events_ (called Chan.DisableWrite ch)) with (Chan.next_mask Chan.DisableWrite (events_ ch)).
    rewrite !next_mask_bit, H1, Hp, andb_false_r by done. by rewrite bool_decide_eq_true_2. }
  apply wp_conseq with (fun _ w' => conn_at c cn (called Chan.DisableWrite ch) w' /\
    obs (sockfd_ cn) w' = (wire (sockfd_ cn) (w_trace w),
        (shutdowns (sockfd_ cn) (w_trace w) + write_shutdowns cn [])%nat, pendingTasks_ (w_loop w))).
  - unfold write_shutdowns. simpl. apply wp_when; intros ->.
    + eapply wp_conseq; [by apply shutdownInLoop_wp|]. simpl. intros _ w2 [Hc2 Ho2].
      split; [done|]. unfold obs in Ho1. injection Ho1 as E1 E2 E3.
      rewrite Ho2, Hp, E1, E2, E3. done.
    + split; [done|]. by rewrite Nat.add_0_r.
  - simpl. intros _ w2 [[Hb2 Hph2] Ho2]. unfold write_tasks. unfold obs in Ho2.
    injection Ho2 as E1 E2 E3. destruct (writeCompleteCallback_ cn) as [cb|].
    + eapply wp_queue; [exact Hb2|]. intros w3 Hb3 Ho3. rewrite Ho3, E1, E2, E3. split; [by split|done].
    + wp_step. rewrite app_nil_r. unfold obs. rewrite E1, E2, E3. split; [by split|done].
Qed.

Lemma handleWrite_wp c cn ch w :
  conn_at c cn ch w -> up cn -> pending cn <> [] ->
  wp (handleWrite c) no_fault (fun _ w' => exists out',
    match fst (k_call (SysWrite (sockfd_ cn) (pending cn)) (w_kern w)) with
    | SysOk n =>
        let p' := drop (Z.to_nat n) (pending cn) in
        Buf.contents out' = p' /\ conn_at c (set_outputBuffer_ out' cn) (write_channel ch p') w' /\
        obs (sockfd_ cn) w' = (wire (sockfd_ cn) (w_trace w) ++ take (Z.to_nat n) (pending cn),
          (shutdowns (sockfd_ cn) (w_trace w) + write_shutdowns cn p')%nat,
          pendingTasks_ (w_loop w) ++ write_tasks c cn p')
    | SysErr _ =>
        Buf.contents out' = pending cn /\ conn_at c (set_outputBuffer_ out' cn) ch w' /\
        obs (sockfd_ cn) w' = obs (sockfd_ cn) w
    end) w.
Proof.
  intros [Hb Hph] Hup Hp. pose proof (proj1 (up_phase _ _ Hup) Hph) as [H1 H2].
  pose proof (ba_out _ _ _ _ Hb) as Hwf. pose proof (Buf.zlen_contents _ Hwf) as Hl.
  fold (pending cn) in Hl. pose proof (Buf.readable_contents _ Hwf) as Hr. fold (pending cn) in Hr.
  assert (Hpos : 0 < zlen (pending cn)) by (destruct (pending cn); [done|unfold zlen; simpl; lia]).
  unfold handleWrite. wp_step. eapply wp_get_conn; [exact Hb|]. rewrite up_decide by done.
  wp_step. apply wp_assert_true; [rewrite Hr; by apply Z.ltb_lt|].
  wp_step. eapply wp_get_chan; [exact Hb|]. wp_step.
  apply wp_assert_true; [rewrite (pending_writing cn), bool_decide_eq_false_2 by done; done|].
  wp_step. unfold on_output. wp_step. eapply wp_get_conn; [exact Hb|]. apply wp_zoom.
  destruct Hwf as (?&?&?). unfold Buf.peek. rewrite Hr, Hl. apply Buf.wp_load; [lia..|].
  fold (Buf.contents (outputBuffer_ cn)). fold (pending cn).
  rewrite set_output_id. assert (put_conn c cn w = w) as ->.
  { unfold put_conn. rewrite insert_id by apply Hb. by destruct w. }
  wp_step. eapply wp_write; [exact Hb|]. intros r w1 -> Hb1 Ho1.
  destruct (fst _) as [n|e].
  2:{ wp_step. exists (outputBuffer_ cn). rewrite set_output_id. destruct Ho1 as [Ho1 _].
      split; [done|]. split; [by split|done]. }
  destruct Ho1 as [Hn Ho1]. wp_step. eapply wp_on_output; [exact Hb1|].
  eapply wp_conseq; [apply Buf.retrieve_spec; [apply Hb|lia|left; unfold pending in *; lia]|].
  simpl. intros _ out' (Hwf'&Hc&_&_). fold (pending cn) in Hc. split; [done|].
  intros w2 Hb2 Ho2 _. rewrite Ho1 in Ho2. set (cn2 := set_outputBuffer_ out' cn) in *.
  wp_step. eapply wp_get_conn; [exact Hb2|]. subst cn2. simpl.
  rewrite Buf.readable_contents, Hc by done.
  set (p' := drop (Z.to_nat n) (pending cn)) in *.
  assert (Hz : (zlen p' =? 0) = bool_decide (p' = []))
    by (destruct p'; [done|]; apply Z.eqb_neq; unfold zlen; simpl; lia).
  rewrite Hz. unfold obs in Ho2. injection Ho2 as E1 E2 E3.
  apply wp_when; unfold write_channel, write_tasks, write_shutdowns; intros Hd; rewrite Hd.
  - apply bool_decide_eq_true in Hd.
    eapply wp_conseq; [apply (handleWrite_done c _ ch w2 Hb2); [exact Hup|unfold pending; simpl; by rewrite Hc|exact H1]|].
    intros _ w3 [Hc3 Ho3]. exists out'. split; [done|]. split; [done|]. simpl in Ho3.
    rewrite Ho3, E1, E2, E3. done.
  - apply bool_decide_eq_false in Hd. exists out'. split; [done|]. split.
    + split; [done|]. apply up_phase; [done|].
      assert (Hp' : pending (set_outputBuffer_ out' cn) <> []) by (unfold pending; simpl; by rewrite Hc).
      split; [exact H1|]. rewrite H2. by rewrite !bool_decide_eq_false_2.
    + unfold obs. rewrite E1, E2, E3. simpl. rewrite Nat.add_0_r.
      destruct (writeCompleteCallback_ cn); by rewrite app_nil_r.
Qed.

(** *** The other operations *)

(** Changing fields of the channel that the protocol does not look at. *)
Lemma wp_upd_chan c cn ch f (E : fault -> Prop) (Q : unit -> World K A -> Prop) w :
  base_at c cn ch w -> events_ (f ch) = events_ ch -> pooling (f ch) = pooling ch ->
  fd_ (f ch) = fd_ ch ->
  (forall w', base_at c cn (f ch) w' -> obs (sockfd_ cn) w' = obs (sockfd_ cn) w ->
     w' = put_channel (channel_ cn) (f ch) w -> Q tt w') ->
  wp (upd_channel (channel_ cn) f) E Q w.
Proof.
  intros Hb E1 E2 E3 HQ. unfold upd_channel. wp_step. eapply wp_get_chan; [exact Hb|]. wp_step.
  apply HQ; [|done..]. destruct Hb as [Hn Hc Hch (Hp&Ht&ch0&Hl&Hev&Hpo&Hreg) Hfd Hi Ho Hw].
  split; auto; simpl; [apply lookup_insert_eq| |congruence].
  split; [done|]. split; [done|]. exists (f ch). split; [apply lookup_insert_eq|].
  assert (ch0 = ch) as -> by congruence. rewrite E1, E2. auto.
Qed.

Lemma connectEstablished_wp c cn ch w :
  conn_at c cn ch w -> state_ cn = kConnecting ->
  wp (connectEstablished c) no_fault (fun _ w' => exists ch',
    conn_at c (set_state_ kConnected cn) ch' w' /\
    ch' = called Chan.EnableRead (set_tied_ true (set_tie_ (Some c) ch)) /\
    obs (sockfd_ cn) w' = obs (sockfd_ cn) w /\
    w_singles w' = w_singles w /\ w_clients w' = w_clients w) w.
Proof.
  intros [Hb Hph] Hs. unfold phase in Hph. rewrite Hs in Hph. destruct Hph as [Hm Hp].
  unfold connectEstablished. wp_step. eapply wp_get_conn; [exact Hb|]. wp_step.
  apply wp_assert_true; [by apply bool_decide_eq_true|]. wp_step.
  eapply wp_set_state; [exact Hb|]. intros w1 Hb1 Ho1 E1. wp_step.
  eapply (wp_upd_chan c (set_state_ kConnected cn)); [exact Hb1|done..|].
  intros w2 Hb2 Ho2 E2. set (ch2 := set_tied_ _ _) in *.
  apply (wp_call c (set_state_ kConnected cn) ch2 Chan.EnableRead); [done|simpl; rewrite Hm; auto|].
  intros w3 Hb3 Ho3 (_&E3&E4). simpl in Ho2, Ho3. exists (called Chan.EnableRead ch2).
  split; [|split_and!; [done|congruence|rewrite E3, E2, E1; done|rewrite E4, E2, E1; done]].
  split; [done|]. simpl. rewrite Hm. split; [done|]. by rewrite bool_decide_eq_true_2.
Qed.

(** A read-side call on a connection that is up. *)
Lemma read_call_wp c cn ch call w :
  conn_at c cn ch w -> up cn -> call = Chan.EnableRead \/ call = Chan.DisableRead ->
  wp (Chan.channel_call_run (channel_ cn) call) no_fault (fun _ w' =>
    conn_at c cn (called call ch) w' /\ obs (sockfd_ cn) w' = obs (sockfd_ cn) w) w.
Proof.
  intros [Hb Hph] Hup Hcall. pose proof (proj1 (up_phase _ _ Hup) Hph) as [H1 H2].
  apply (wp_call c cn ch call); [done|left; by eapply testbit_nonzero|]. intros w' Hb' Ho _.
  split; [|done]. split; [done|]. apply up_phase; [done|]. rewrite <- H2.
  change (events_ (called call ch)) with (Chan.next_mask call (events_ ch)).
  rewrite !next_mask_bit by done. destruct Hcall as [-> | ->]; rewrite H1; simpl;
    by rewrite ?orb_true_r, ?orb_false_r, ?andb_true_r.
Qed.

Lemma stopRead_wp c cn ch w :
  conn_at c cn ch w -> up cn ->
  wp (stopRead c) no_fault (fun _ w' => exists ch',
    conn_at c cn ch' w' /\ Chan.isReading ch' = false /\ obs (sockfd_ cn) w' = obs (sockfd_ cn) w) w.
Proof.
  intros [Hb Hph] Hup. unfold stopRead, Loop.runInLoop. wp_step. eapply wp_is_loop; [exact Hb|].
  unfold stopReadInLoop. wp_step. eapply wp_get_conn; [exact Hb|]. wp_step.
  eapply wp_get_chan; [exact Hb|]. apply wp_when; intros Hr.
  - eapply wp_conseq; [apply (read_call_wp c cn ch Chan.DisableRead); auto; by split|].
    simpl. intros _ w' [? ?]. exists (called Chan.DisableRead ch). rewrite isReading_bit.
    change (events_ (called ?x ch)) with (Chan.next_mask x (events_ ch)).
    rewrite next_mask_bit, andb_false_r by done. auto.
  - exists ch. by split; [split|].
Qed.
Lemma startRead_wp c cn ch w :
  conn_at c cn ch w -> up cn ->
  wp (startRead c) no_fault (fun _ w' => exists ch',
    conn_at c cn ch' w' /\ Chan.isReading ch' = true /\ obs (sockfd_ cn) w' = obs (sockfd_ cn) w) w.
Proof.
  intros [Hb Hph] Hup. unfold startRead, Loop.runInLoop. wp_step. eapply wp_is_loop; [exact Hb|].
  unfold startReadInLoop. wp_step. eapply wp_get_conn; [exact Hb|]. wp_step.
  eapply wp_get_chan; [exact Hb|]. apply wp_when; intros Hr; zbool.
  - eapply wp_conseq; [apply (read_call_wp c cn ch Chan.EnableRead); auto; by split|].
    simpl. intros _ w' [? ?]. exists (called Chan.EnableRead ch). rewrite isReading_bit.
    change (events_ (called ?x ch)) with (Chan.next_mask x (events_ ch)).
    rewrite next_mask_bit by done. simpl. rewrite orb_true_r. auto.
  - exists ch. by split; [split|].
Qed.

(** The state after an exchange with kDisconnecting. *)
Lemma exchange_wp c cn ch (E : fault -> Prop) (Q : ConnectState -> World K A -> Prop) w :
  base_at c cn ch w ->
  (forall w', base_at c (set_state_ kDisconnecting cn) ch w' ->
     obs (sockfd_ cn) w' = obs (sockfd_ cn) w -> Q (state_ cn) w') ->
  wp (stateAtomicGetAndSet c kDisconnecting) E Q w.
Proof.
  intros Hb HQ. unfold stateAtomicGetAndSet. wp_step. eapply wp_get_conn; [exact Hb|]. wp_step.
  eapply wp_set_state; [exact Hb|]. intros w' Hb' Ho _. wp_step. by apply HQ.
Qed.

Lemma disconnecting_phase cn m : up cn -> phase cn m -> phase (set_state_ kDisconnecting cn) m.
Proof. intros Hup Hph. by apply (up_phase _ _ Hup) in Hph. Qed.

Lemma shutdown_wp c cn ch w :
  conn_at c cn ch w -> up cn ->
  wp (shutdown c) no_fault (fun _ w' => conn_at c (set_state_ kDisconnecting cn) ch w' /\
    obs (sockfd_ cn) w' = (wire (sockfd_ cn) (w_trace w),
      (shutdowns (sockfd_ cn) (w_trace w) +
         if bool_decide (state_ cn = kConnected) && bool_decide (pending cn = []) then 1 else 0)%nat,
      pendingTasks_ (w_loop w))) w.
Proof.
  intros [Hb Hph] Hup. unfold shutdown. wp_step. eapply wp_get_conn; [exact Hb|]. wp_step.
  rewrite up_decide by done. apply wp_assert_true; [done|]. wp_step.
  eapply exchange_wp; [exact Hb|]. intros w1 Hb1 Ho1. unfold obs in Ho1. injection Ho1 as E1 E2 E3.
  pose proof (disconnecting_phase _ _ Hup Hph) as Hph1. apply wp_when; intros ->; simpl.
  - wp_step. eapply wp_is_loop; [exact Hb1|].
    eapply wp_conseq; [eapply shutdownInLoop_wp; [by split|by right]|].
    simpl. intros _ w2 [Hc2 Ho2]. split; [done|]. rewrite Ho2, E1, E2, E3. done.
  - unfold obs. rewrite E1, E2, E3, Nat.add_0_r. by split; [split|].
Qed.

Lemma forceClose_wp c cn ch w :
  conn_at c cn ch w -> up cn ->
  wp (forceClose c) no_fault (fun _ w' => conn_at c (set_state_ kDisconnecting cn) ch w' /\
    obs (sockfd_ cn) w' = (wire (sockfd_ cn) (w_trace w), shutdowns (sockfd_ cn) (w_trace w),
      pendingTasks_ (w_loop w) ++ [TaskForceCloseInLoop c])) w.
Proof.
  intros [Hb Hph] Hup. unfold forceClose. wp_step. eapply wp_get_conn; [exact Hb|].
  rewrite up_decide by done. simpl. unfold forceClose_exchange. wp_step.
  eapply exchange_wp; [exact Hb|]. intros w1 Hb1 Ho1. unfold obs in Ho1. injection Ho1 as E1 E2 E3.
  rewrite up_decide by done. simpl. eapply wp_queue; [exact Hb1|]. intros w2 Hb2 Ho2.
  simpl in Ho2. rewrite Ho2, E1, E2, E3. split; [|done]. split; [done|].
  by apply disconnecting_phase.
Qed.

Lemma handleError_wp c cn ch w :
  conn_at c cn ch w ->
  wp (handleError c) no_fault (fun _ w' => conn_at c cn ch w' /\
    obs (sockfd_ cn) w' = obs (sockfd_ cn) w) w.
Proof.
  intros [Hb Hph]. unfold handleError. wp_step. eapply wp_get_conn; [exact Hb|]. wp_step.
  eapply wp_sys_plain; [exact Hb|done|]. intros [e|e] w' Hb' Ho _ _.
  - unfold put_errno. wp_step. split; [|done]. split; [|done].
    eapply base_frame; [exact Hb'|done..].
  - wp_step. by split; [split|].
Qed.

(** readv appends what it delivers to the input buffer. *)
Lemma readFd_wp c cn ch (E : fault -> Prop) (Q : Z * option Z -> World K A -> Prop) w :
  conn_at c cn ch w -> E LengthError ->
  (forall e w', conn_at c cn ch w' -> obs (sockfd_ cn) w' = obs (sockfd_ cn) w ->
     Q (-1, Some e) w') ->
  (forall d b w', conn_at c (set_inputBuffer_ b cn) ch w' ->
     obs (sockfd_ cn) w' = obs (sockfd_ cn) w ->
     Buf.contents b = Buf.contents (inputBuffer_ cn) ++ d -> Q (zlen d, None) w') ->
  wp (readFd c) E Q w.
Proof.
  intros [Hb Hph] HE Herr Hok. unfold readFd. wp_step. eapply wp_get_conn; [exact Hb|]. wp_step.
  eapply wp_sys_plain; [exact Hb|done|]. intros r w1 Hb1 Ho1 Hr _.
  eapply wp_on_input; [exact Hb1|]. destruct r as [d|e].
  - simpl in Hr. eapply wp_conseq; [apply Buf.readFd_spec; [apply Hb| |by right]|].
    + assert (0 <= Buf.readFd_capacity (inputBuffer_ cn)); [|lia].
      pose proof (ba_in _ _ _ _ Hb) as Hwf. pose proof Hwf as (?&?&?).
      unfold Buf.readFd_capacity. rewrite Buf.writable_wf by done. unfold Buf.sizeof_extrabuf.
      destruct (_ <? _); simpl; lia.
    + simpl. intros _ b (->&Hwf&Hc). split; [done|]. intros w2 Hb2 Ho2 _. apply (Hok d b); auto.
      * by split.
      * congruence.
  - apply wp_ret. split; [apply Hb|]. intros w2 Hb2 Ho2 _.
    assert (set_inputBuffer_ (inputBuffer_ cn) cn = cn) as E1 by by destruct cn.
    rewrite E1 in Hb2. apply Herr; [by split|congruence].
Qed.

Section handlers.
Variable run_message : MessageCallback -> ptr -> M (World K A) unit.
Variable run_close : CloseCallback -> ptr -> M (World K A) unit.

(** handleClose takes the connection down, unregisters it and hands it to the
    close callback. *)
Lemma handleClose_wp c cn ch (E : fault -> Prop) (Q : unit -> World K A -> Prop) w :
  conn_at c cn ch w -> up cn ->
  (forall w', conn_at c (set_state_ kDisconnected cn) (called Chan.DisableAll ch) w' ->
     obs (sockfd_ cn) w' = obs (sockfd_ cn) w ->
     match connCloseCallback_ cn with
     | Some cb => wp (run_close cb c) E Q w'
     | None => E BadFunctionCall
     end) ->
  wp (handleClose run_close c) E Q w.
Proof.
  intros [Hb Hph] Hup HQ. unfold handleClose. wp_step. eapply wp_in_loop; [exact Hb|]. wp_step.
  eapply wp_get_conn; [exact Hb|]. wp_step.
  apply wp_assert_true; [destruct Hup as [-> | ->]; done|]. wp_step.
  eapply wp_set_state; [exact Hb|]. intros w1 Hb1 Ho1 _. wp_step. unfold Chan.removeChannel.
  wp_step. eapply wp_in_loop; [exact Hb1|].
  pose proof (proj1 (up_phase _ _ Hup) Hph) as [H1 H2].
  apply (wp_call c (set_state_ kDisconnected cn) ch Chan.DisableAll); [done|left; by eapply testbit_nonzero|].
  intros w2 Hb2 Ho2 _. simpl in Ho2. wp_step. eapply wp_get_conn; [exact Hb2|]. simpl.
  specialize (HQ w2). destruct (connCloseCallback_ cn) as [cb|].
  - apply HQ; [by split|congruence].
  - wp_step. apply HQ; [by split|congruence].
Qed.

(** *** Every operation in one place *)

Inductive conn_call :=
  | CallConnectEstablished
  | CallSend (data : list byte) | CallSendInLoop (data : list byte)
  | CallShutdown | CallShutdownInLoop | CallForceClose | CallForceCloseInLoop
  | CallStopRead | CallStartRead
  | CallHandleRead | CallHandleWrite | CallHandleClose | CallHandleError.

#[export] Instance conn_call_eq_dec : EqDecision conn_call.
Proof. solve_decision. Defined.

Definition conn_call_run (c : ptr) (x : conn_call) : M (World K A) unit :=
  match x with
  | CallConnectEstablished => connectEstablished c
  | CallSend d => send c d
  | CallSendInLoop d => sendInLoop c d
  | CallShutdown => shutdown c
  | CallShutdownInLoop => shutdownInLoop c
  | CallForceClose => forceClose c
  | CallForceCloseInLoop => forceCloseInLoop run_close c
  | CallStopRead => stopRead c
  | CallStartRead => startRead c
  | CallHandleRead => handleRead run_message run_close c
  | CallHandleWrite => handleWrite c
  | CallHandleClose => handleClose run_close c
  | CallHandleError => handleError c
  end.

(** When a call may be made: connectEstablished once, at the start; the
    public methods and the events of an established connection; the tasks and
    the write event also after it is down. *)
Definition call_pre (x : conn_call) (cn : TcpConnection) : Prop :=
  match x with
  | CallConnectEstablished => state_ cn = kConnecting
  | CallSend d => zlen d <= Buf.max_size
  | CallSendInLoop d => state_ cn <> kConnecting /\ zlen d <= Buf.max_size
  | CallShutdownInLoop | CallForceClose | CallForceCloseInLoop | CallStopRead =>
      state_ cn <> kConnecting
  | CallHandleWrite => state_ cn = kDisconnected \/ (up cn /\ pending cn <> [])
  | CallShutdown | CallStartRead | CallHandleRead | CallHandleClose => up cn
  | CallHandleError => True
  end.

Definition rank (s : ConnectState) : nat :=
  match s with kConnecting => 0 | kConnected => 1 | kDisconnecting => 2 | kDisconnected => 3 end.

(** The invariant, in a state no earlier than [s]. *)
Definition conn_from (s : ConnectState) (c : ptr) w : Prop :=
  exists cn ch, conn_at c cn ch w /\ (rank s <= rank (state_ cn))%nat.

(** Running out of memory and calling an empty std::function. *)
Definition benign (f : fault) : Prop := f = LengthError \/ f = BadFunctionCall.

Lemma not_connecting cn : state_ cn <> kConnecting -> up cn \/ state_ cn = kDisconnected.
Proof. unfold up. destruct (state_ cn); auto. by intros []. Qed.

Lemma keeps_from c cn cn' ch' w : conn_at c cn' ch' w ->
  (rank (state_ cn) <= rank (state_ cn'))%nat -> conn_from (state_ cn) c w.
Proof. intros. by exists cn', ch'. Qed.

Section run.
Hypothesis message_keeps : forall cb s c w, conn_from s c w ->
  wp (run_message cb c) benign (fun _ => conn_from s c) w.
Hypothesis close_keeps : forall cb s c w, conn_from s c w ->
  wp (run_close cb c) benign (fun _ => conn_from s c) w.

Lemma handleClose_keeps c cn ch w :
  conn_at c cn ch w -> up cn ->
  wp (handleClose run_close c) benign (fun _ => conn_from (state_ cn) c) w.
Proof.
  intros Hc Hup. eapply handleClose_wp; [exact Hc|done|]. intros w' Hc' _.
  destruct (connCloseCallback_ cn) as [cb|]; [|by right].
  apply close_keeps. eapply keeps_from; [exact Hc'|]. simpl. destruct (state_ cn); simpl; lia.
Qed.

Lemma handleRead_keeps c cn ch w :
  conn_at c cn ch w -> up cn ->
  wp (handleRead run_message run_close c) benign (fun _ => conn_from (state_ cn) c) w.
Proof.
  intros Hc Hup. pose proof (proj1 Hc) as Hb. unfold handleRead. wp_step.
  eapply wp_in_loop; [exact Hb|]. wp_step. eapply wp_get_conn; [exact Hb|].
  rewrite up_decide by done. wp_step. apply wp_assert_true; [done|]. wp_step.
  eapply readFd_wp; [exact Hc|by left|..].
  - intros e w1 [Hb1 Hph1] _. simpl. wp_step. unfold put_errno. wp_step.
    eapply wp_weaken; [apply (handleError_wp c cn ch)|].
    + split; [|done]. eapply base_frame; [exact Hb1|done..].
    + intros _ w2 [Hc2 _]. by eapply keeps_from.
  - intros d b w1 Hc1 _ _. simpl. pose proof (zlen_nonneg d).
    destruct (zlen d =? -1) eqn:E1; [zbool; lia|]. destruct (zlen d =? 0).
    + apply (handleClose_keeps c _ ch w1 Hc1). done.
    + wp_step. eapply wp_get_conn; [apply Hc1|]. simpl.
      destruct (messageCallback_ cn) as [cb|]; [|by wp_step; right].
      apply message_keeps. by eapply keeps_from.
Qed.

Lemma sendInLoop_keeps c cn ch d w :
  conn_at c cn ch w -> up cn -> zlen d <= Buf.max_size ->
  wp (sendInLoop c d) benign (fun _ => conn_from (state_ cn) c) w.
Proof.
  intros Hc Hup Hd. eapply wp_mono; [by apply sendInLoop_wp|intros f <-; by left|].
  intros _ w' (out'&ch'&Hc'&_). by eapply keeps_from.
Qed.

(** Once the connection is down, the tasks and the write event do nothing. *)
Lemma down_noop c cn ch x w :
  conn_at c cn ch w -> state_ cn = kDisconnected -> call_pre x cn -> x <> CallHandleError ->
  conn_call_run c x w = Ok tt w.
Proof.
  intros [Hb Hph] Hs Hpre Hx.
  enough (wp (conn_call_run c x) no_fault (fun _ w' => w' = w) w) as Hwp.
  { destruct (wp_total _ _ _ Hwp) as ([]&w'&Hr&->). done. }
  unfold phase in Hph. rewrite Hs in Hph.
  assert (Hd : bool_decide (state_ cn = kDisconnected) = true) by by apply bool_decide_eq_true.
  destruct x; simpl in *; try (unfold up in Hpre; destruct Hpre; congruence); try congruence.
  - unfold send. wp_step. eapply wp_get_conn; [exact Hb|]. rewrite Hs. by wp_step.
  - unfold sendInLoop. wp_step. eapply wp_in_loop; [exact Hb|]. wp_step.
    eapply wp_get_conn; [exact Hb|]. rewrite Hd. by wp_step.
  - unfold shutdownInLoop. wp_step. eapply wp_in_loop; [exact Hb|]. wp_step.
    eapply wp_get_conn; [exact Hb|]. wp_step. eapply wp_get_chan; [exact Hb|]. rewrite Hd. by wp_step.
  - unfold forceClose. wp_step. eapply wp_get_conn; [exact Hb|]. rewrite Hd. by wp_step.
  - unfold forceCloseInLoop. wp_step. eapply wp_in_loop; [exact Hb|]. wp_step.
    eapply wp_get_conn; [exact Hb|]. rewrite Hd. by wp_step.
  - unfold stopRead, Loop.runInLoop. wp_step. eapply wp_is_loop; [exact Hb|].
    unfold stopReadInLoop. wp_step. eapply wp_get_conn; [exact Hb|]. wp_step.
    eapply wp_get_chan; [exact Hb|]. rewrite isReading_bit, Hph. by wp_step.
  - unfold handleWrite. wp_step. eapply wp_get_conn; [exact Hb|]. rewrite Hd. by wp_step.
Qed.

Lemma conn_call_keeps c cn ch x w :
  conn_at c cn ch w -> call_pre x cn ->
  wp (conn_call_run c x) benign (fun _ => conn_from (state_ cn) c) w.
Proof.
  intros Hc Hpre. pose proof Hc as [Hb Hph].
  assert (Hstay : conn_from (state_ cn) c w) by (by eapply keeps_from).
  destruct (decide (x = CallHandleError)) as [->|Hx].
  { eapply wp_weaken; [by apply (handleError_wp c cn ch)|]. intros _ w' [Hc' _].
    by eapply keeps_from. }
  destruct (decide (state_ cn = kDisconnected)) as [Hs|Hs].
  { unfold wp. by rewrite (down_noop c cn ch). }
  assert (Hup : state_ cn <> kConnecting -> up cn) by (intros [|]%not_connecting; done).
  destruct x; simpl in *.
  - eapply wp_weaken; [by apply (connectEstablished_wp c cn ch)|].
    intros _ w' (ch'&Hc'&_). eapply keeps_from; [exact Hc'|]. rewrite Hpre. simpl. lia.
  - unfold send. wp_step. eapply wp_get_conn; [exact Hb|].
    destruct (bool_decide _) eqn:Hcon; simpl; [|by wp_step]. apply bool_decide_eq_true in Hcon.
    wp_step. eapply wp_is_loop; [exact Hb|]. eapply sendInLoop_keeps; [exact Hc|by left|done].
  - destruct Hpre. by apply (sendInLoop_keeps c cn ch); auto.
  - eapply wp_weaken; [by apply (shutdown_wp c cn ch)|]. intros _ w' [Hc' _].
    eapply keeps_from; [exact Hc'|]. destruct Hpre as [-> | ->]; simpl; lia.
  - eapply wp_weaken; [apply (shutdownInLoop_wp c cn ch); auto|]. intros _ w' [Hc' _].
    by eapply keeps_from.
  - eapply wp_weaken; [apply (forceClose_wp c cn ch); auto|]. intros _ w' [Hc' _].
    eapply keeps_from; [exact Hc'|]. destruct (Hup Hpre) as [-> | ->]; simpl; lia.
  - unfold forceCloseInLoop. wp_step. eapply wp_in_loop; [exact Hb|]. wp_step.
    eapply wp_get_conn; [exact Hb|]. apply wp_when; [|done]. intros _.
    eapply handleClose_keeps; eauto.
  - eapply wp_weaken; [apply (stopRead_wp c cn ch); auto|]. intros _ w' (ch'&Hc'&_).
    by eapply keeps_from.
  - eapply wp_weaken; [by apply (startRead_wp c cn ch)|]. intros _ w' (ch'&Hc'&_).
    by eapply keeps_from.
  - by eapply handleRead_keeps.
  - destruct Hpre as [|[Hu Hp]]; [done|].
    eapply wp_weaken; [by apply (handleWrite_wp c cn ch)|]. intros _ w' (out'&Hr).
    destruct (fst _); destruct Hr as (_&Hc'&_); by eapply keeps_from.
  - by eapply handleClose_keeps.
  - done.
Qed.
End run.
End handlers.

(** *** The output stream *)

(** Callbacks that do nothing: the handlers run the callbacks last, so what the
    user's callbacks do to the connection is a further sequence of calls. *)
Definition no_message (_ : MessageCallback) (_ : ptr) : M (World K A) unit := ret tt.
Definition no_close (_ : CloseCallback) (_ : ptr) : M (World K A) unit := ret tt.
Definition quiet_run (c : ptr) (x : conn_call) : M (World K A) unit :=
  conn_call_run no_message no_close c x.

(** The data a call commits the connection to transmit: all of it, unless the
    connection does not accept data in its state or write() reports that the
    peer is gone. *)
Definition taken (cn : TcpConnection) (ch : Channel) (d : list byte) w : list byte :=
  match write_result cn ch d w with
  | Some (SysErr e) => if broken e then [] else d
  | _ => d
  end.
Definition accepted (x : conn_call) (cn : TcpConnection) (ch : Channel) w : list byte :=
  match x with
  | CallSend d => if bool_decide (state_ cn = kConnected) then taken cn ch d w else []
  | CallSendInLoop d => if bool_decide (state_ cn = kDisconnected) then [] else taken cn ch d w
  | _ => []
  end.

(** The connection [cn'] continues [cn], having accepted [d]: no byte is lost,
    duplicated or reordered, and a shutdown is issued only with nothing pending. *)
Definition continues (cn cn' : TcpConnection) (d : list byte) w w' : Prop :=
  sockfd_ cn' = sockfd_ cn /\ channel_ cn' = channel_ cn /\
  wire (sockfd_ cn) (w_trace w') ++ pending cn' = wire (sockfd_ cn) (w_trace w) ++ pending cn ++ d /\
  (shutdowns (sockfd_ cn) (w_trace w') = shutdowns (sockfd_ cn) (w_trace w) \/ pending cn' = []).

Lemma continues_obs cn cn' w w' :
  sockfd_ cn' = sockfd_ cn -> channel_ cn' = channel_ cn -> pending cn' = pending cn ->
  obs (sockfd_ cn) w' = obs (sockfd_ cn) w -> continues cn cn' [] w w'.
Proof.
  intros ? ? Hp Ho. unfold obs in Ho. injection Ho as E1 E2 _. unfold continues.
  rewrite Hp, E1, E2, app_nil_r. auto.
Qed.

Lemma sendInLoop_stream c cn ch d w :
  conn_at c cn ch w -> up cn -> zlen d <= Buf.max_size ->
  wp (sendInLoop c d) benign (fun _ w' => exists cn' ch', conn_at c cn' ch' w' /\
    state_ cn' = state_ cn /\ continues cn cn' (taken cn ch d w) w w') w.
Proof.
  intros Hc Hup Hd. eapply wp_mono; [by apply sendInLoop_wp|intros f <-; by left|].
  cbv zeta beta. intros _ w' (out'&ch'&Hc'&Hout&Ho). unfold obs in Ho. injection Ho as E1 E2 _.
  exists (set_outputBuffer_ out' cn), ch'. split; [done|]. split; [done|]. unfold continues.
  split; [done|]. split; [done|]. split; [|by left].
  unfold pending at 1. simpl outputBuffer_. rewrite Hout, E1, <- app_assoc. f_equal.
  destruct Hc as [_ Hph]. pose proof (pending_writing _ _ Hup Hph) as Hw.
  unfold taken, write_result in *. destruct (Chan.isWriting ch); simpl; [done|].
  symmetry in Hw. apply negb_false_iff, bool_decide_eq_true in Hw. rewrite Hw.
  destruct (fst _); simpl; [apply take_drop|done].
Qed.

Lemma handleClose_stream c cn ch w :
  conn_at c cn ch w -> up cn ->
  wp (handleClose no_close c) benign (fun _ w' => exists cn' ch', conn_at c cn' ch' w' /\
    continues cn cn' [] w w') w.
Proof.
  intros Hc Hup. eapply handleClose_wp; [exact Hc|done|]. intros w' Hc' Ho.
  destruct (connCloseCallback_ cn); [|by right]. apply wp_ret.
  eexists _, _. split; [exact Hc'|]. by apply continues_obs.
Qed.

Lemma handleRead_stream c cn ch w :
  conn_at c cn ch w -> up cn ->
  wp (handleRead no_message no_close c) benign (fun _ w' => exists cn' ch',
    conn_at c cn' ch' w' /\ continues cn cn' [] w w') w.
Proof.
  intros Hc Hup. pose proof (proj1 Hc) as Hb. unfold handleRead. wp_step.
  eapply wp_in_loop; [exact Hb|]. wp_step. eapply wp_get_conn; [exact Hb|].
  rewrite up_decide by done. wp_step. apply wp_assert_true; [done|]. wp_step.
  eapply readFd_wp; [exact Hc|by left|..].
  - intros e w1 [Hb1 Hph1] Ho1. simpl. wp_step. unfold put_errno. wp_step.
    eapply wp_weaken; [apply (handleError_wp c cn ch)|].
    + split; [|done]. eapply base_frame; [exact Hb1|done..].
    + intros _ w2 [Hc2 Ho2]. exists cn, ch. split; [done|]. apply continues_obs; auto.
      rewrite Ho2. exact Ho1.
  - intros d b w1 Hc1 Ho1 _. simpl. pose proof (zlen_nonneg d).
    destruct (zlen d =? -1) eqn:E1; [zbool; lia|]. destruct (zlen d =? 0).
    + eapply wp_conseq; [by apply (handleClose_stream c _ ch w1 Hc1)|].
      intros _ w2 (cn'&ch'&Hc'&(?&?&E2&E3)). exists cn', ch'. split; [done|].
      simpl in *. unfold obs in Ho1. injection Ho1 as F1 F2 _. rewrite F1, F2 in *. done.
    + wp_step. eapply wp_get_conn; [apply Hc1|]. simpl.
      destruct (messageCallback_ cn); [|by wp_step; right]. apply wp_ret.
      eexists _, _. split; [exact Hc1|]. by apply continues_obs.
Qed.

Lemma handleWrite_stream c cn ch w :
  conn_at c cn ch w -> up cn -> pending cn <> [] ->
  wp (handleWrite c) benign (fun _ w' => exists cn' ch', conn_at c cn' ch' w' /\
    continues cn cn' [] w w') w.
Proof.
  intros Hc Hup Hp. eapply wp_weaken; [by apply (handleWrite_wp c cn ch)|].
  intros _ w' (out'&Hr). destruct (fst _) as [n|e]; cbv zeta in Hr; destruct Hr as (Hout&Hc'&Ho).
  - eexists _, _. split; [exact Hc'|]. unfold obs in Ho. injection Ho as E1 E2 _.
    unfold continues. split; [done|]. split; [done|]. unfold pending at 1 3. simpl outputBuffer_.
    rewrite Hout, E1, E2, app_nil_r, <- app_assoc, take_drop. split; [done|].
    unfold write_shutdowns. destruct (bool_decide (_ = [])) eqn:Hd; simpl.
    + right. by apply bool_decide_eq_true in Hd.
    + left. lia.
  - eexists _, _. split; [exact Hc'|]. by apply continues_obs.
Qed.

(** Only a call that finds nothing pending sends FIN. *)
Lemma continues_fin cn cn' (b : bool) ts w w' :
  sockfd_ cn' = sockfd_ cn -> channel_ cn' = channel_ cn -> pending cn' = pending cn ->
  obs (sockfd_ cn) w' = (wire (sockfd_ cn) (w_trace w),
    (shutdowns (sockfd_ cn) (w_trace w) + if b && bool_decide (pending cn = []) then 1 else 0)%nat, ts) ->
  continues cn cn' [] w w'.
Proof.
  intros ? ? Hp Ho. unfold obs in Ho. injection Ho as E1 E2 _. unfold continues. rewrite Hp, E1, E2, app_nil_r.
  split_and!; auto. destruct (bool_decide (pending cn = [])) eqn:E; rewrite ?andb_false_r; [|left; lia].
  right. by apply bool_decide_eq_true in E.
Qed.

Lemma conn_call_stream c cn ch x w :
  conn_at c cn ch w -> call_pre x cn ->
  wp (quiet_run c x) benign (fun _ w' => exists cn' ch', conn_at c cn' ch' w' /\
    continues cn cn' (accepted x cn ch w) w w') w.
Proof.
  intros Hc Hpre. pose proof Hc as [Hb Hph].
  assert (Hstay : exists cn' ch', conn_at c cn' ch' w /\ continues cn cn' [] w w)
    by (exists cn, ch; split; [done|]; by apply continues_obs).
  destruct (decide (x = CallHandleError)) as [->|Hx].
  { eapply wp_weaken; [by apply (handleError_wp c cn ch)|]. intros _ w' [Hc' Ho].
    exists cn, ch. split; [done|]. by apply continues_obs. }
  destruct (decide (state_ cn = kDisconnected)) as [Hs|Hs].
  { unfold wp, quiet_run. rewrite (down_noop no_message no_close c cn ch) by done.
    assert (accepted x cn ch w = []) as ->; [|done].
    destruct x; simpl; auto; rewrite Hs; done. }
  assert (Hup : state_ cn <> kConnecting -> up cn) by (intros [|]%not_connecting; done).
  destruct x; simpl accepted; unfold quiet_run; simpl conn_call_run; simpl in Hpre.
  - eapply wp_weaken; [by apply (connectEstablished_wp c cn ch)|].
    intros _ w' (ch'&Hc'&_&Ho&_). eexists _, _. split; [exact Hc'|]. by apply continues_obs.
  - unfold send. wp_step. eapply wp_get_conn; [exact Hb|].
    destruct (bool_decide _) eqn:Hcon; simpl; [|by wp_step]. apply bool_decide_eq_true in Hcon.
    wp_step. eapply wp_is_loop; [exact Hb|]. eapply wp_conseq.
    + eapply sendInLoop_stream; [exact Hc|by left|done].
    + intros _ w' (cn'&ch'&?&_&?). eauto.
  - rewrite bool_decide_eq_false_2 by done. destruct Hpre as [Hn Hd]. eapply wp_conseq.
    + apply (sendInLoop_stream c cn ch); auto.
    + intros _ w' (cn'&ch'&?&_&?). eauto.
  - eapply wp_weaken; [by apply (shutdown_wp c cn ch)|]. intros _ w' [Hc' Ho].
    eexists _, _. split; [exact Hc'|]. by eapply continues_fin.
  - eapply wp_weaken; [apply (shutdownInLoop_wp c cn ch); auto|]. intros _ w' [Hc' Ho].
    eexists _, _. split; [exact Hc'|]. by eapply (continues_fin _ _ true).
  - eapply wp_weaken; [apply (forceClose_wp c cn ch); auto|]. intros _ w' [Hc' Ho].
    eexists _, _. split; [exact Hc'|]. eapply (continues_fin _ _ false); [done..|]. simpl. by rewrite Nat.add_0_r.
  - unfold forceCloseInLoop. wp_step. eapply wp_in_loop; [exact Hb|]. wp_step.
    eapply wp_get_conn; [exact Hb|]. apply wp_when; [|done]. intros _.
    apply (handleClose_stream c cn ch); auto.
  - eapply wp_weaken; [apply (stopRead_wp c cn ch); auto|]. intros _ w' (ch'&Hc'&_&Ho).
    exists cn, ch'. split; [done|]. by apply continues_obs.
  - eapply wp_weaken; [by apply (startRead_wp c cn ch)|]. intros _ w' (ch'&Hc'&_&Ho).
    exists cn, ch'. split; [done|]. by apply continues_obs.
  - by apply (handleRead_stream c cn ch).
  - destruct Hpre as [|[Hu Hp]]; [done|]. by apply (handleWrite_stream c cn ch).
  - by apply (handleClose_stream c cn ch).
  - done.
Qed.

(** Whatever happens elsewhere in the process leaves the connection, its
    channel, its registration and its descriptor alone. *)
Definition elsewhere (c : ptr) w w' : Prop := forall cn, w_conns w !! c = Some cn ->
  w_conns w' !! c = Some cn /\ w_channels w' !! channel_ cn = w_channels w !! channel_ cn /\
  tid_ (w_loop w') = tid_ (w_loop w) /\ wakeupfd_ (w_loop w') = wakeupfd_ (w_loop w) /\
  w_cur w' = w_cur w /\
  registered (channel_ cn) (w_trace w') = registered (channel_ cn) (w_trace w) /\
  wire (sockfd_ cn) (w_trace w') = wire (sockfd_ cn) (w_trace w).

(** The life of a connection in its loop's thread: the calls made to it, with
    the data each accepts, and what happens elsewhere in between. *)
Inductive conn_steps (c : ptr) : World K A -> list byte -> World K A -> Prop :=
  | steps_nil w : conn_steps c w [] w
  | steps_call x cn ch w w1 d w' :
      w_conns w !! c = Some cn -> w_channels w !! channel_ cn = Some ch -> call_pre x cn ->
      quiet_run c x w = Ok tt w1 -> conn_steps c w1 d w' ->
      conn_steps c w (accepted x cn ch w ++ d) w'
  | steps_elsewhere w w1 d w' :
      elsewhere c w w1 -> conn_steps c w1 d w' -> conn_steps c w d w'.

Lemma steps_call_eq c x cn ch a w w1 d w' :
  w_conns w !! c = Some cn -> w_channels w !! channel_ cn = Some ch -> call_pre x cn ->
  quiet_run c x w = Ok tt w1 -> accepted x cn ch w = a -> conn_steps c w1 d w' ->
  conn_steps c w (a ++ d) w'.
Proof. intros ? ? ? ? <- ?. by eapply steps_call. Qed.

Lemma steps_stream c w d w' :
  conn_steps c w d w' -> forall cn ch, conn_at c cn ch w ->
  exists cn' ch', conn_at c cn' ch' w' /\ sockfd_ cn' = sockfd_ cn /\
    wire (sockfd_ cn) (w_trace w') ++ pending cn' = wire (sockfd_ cn) (w_trace w) ++ pending cn ++ d.
Proof.
  induction 1 as [w|x cn0 ch0 w w1 d w' Hcn Hch Hpre Hrun Hs IH|w w1 d w' He Hs IH]; intros cn ch Hc.
  - exists cn, ch. by rewrite app_nil_r.
  - pose proof Hc as [Hb _]. assert (cn0 = cn) as -> by (pose proof (ba_conn _ _ _ _ Hb); congruence).
    assert (ch0 = ch) as -> by (pose proof (ba_chan _ _ _ _ Hb); congruence).
    destruct (wp_ok _ _ _ _ _ _ Hrun (conn_call_stream c cn ch x w Hc Hpre))
      as (cn1&ch1&Hc1&(Hfd1&_&Hw1&_)).
    destruct (IH cn1 ch1 Hc1) as (cn'&ch'&Hc'&Hfd'&Hw'). rewrite Hfd1 in *.
    exists cn', ch'. split; [done|]. split; [done|]. rewrite Hw', !app_assoc, Hw1.
    by rewrite !app_assoc.
  - pose proof Hc as [Hb Hph].
    destruct (He cn (ba_conn _ _ _ _ Hb)) as (E1&E2&E3&E4&E5&E6&E7).
    destruct (IH cn ch) as (cn'&ch'&Hc'&Hfd'&Hw').
    + split; [|done]. eapply base_frame; eauto. rewrite E1. symmetry. apply Hb.
    + exists cn', ch'. by rewrite E7 in Hw'.
Qed.
End specs.

(** ** Properties *)

Section properties.
Context {K A : Type} `{Kernel K} `{!KernelLaws K} `{Build}.
Implicit Types w : World K A.


(** C7: a call made in its state keeps the connection's invariant, never moves
    its state backwards, and faults in no build but for an exhausted memory or
    an unset callback; the user's callbacks need only do the same. *)
Theorem calls_keep_invariant (run_message : MessageCallback -> ptr -> M (World K A) unit)
    (run_close : CloseCallback -> ptr -> M (World K A) unit) c cn ch x w :
  (forall cb s c w, conn_from s c w -> wp (run_message cb c) benign (fun _ => conn_from s c) w) ->
  (forall cb s c w, conn_from s c w -> wp (run_close cb c) benign (fun _ => conn_from s c) w) ->
  conn_at c cn ch w -> call_pre x cn ->
  wp (conn_call_run run_message run_close c x) benign (fun _ => conn_from (state_ cn) c) w.
Proof. intros. by eapply conn_call_keeps. Qed.

(** C19: sendInLoop sends at once what the kernel takes when nothing is
    pending, appends the rest to the output buffer and then asks for EPOLLOUT;
    it drops the data only when write() reports EPIPE or ECONNRESET. The
    write-complete task is queued exactly when all was written at once, the
    high-water task exactly when the pending bytes reach the mark from below. *)
Theorem sendInLoop_exact c cn ch data w w' :
  conn_at c cn ch w -> up cn -> zlen data <= Buf.max_size ->
  sendInLoop c data w = Ok tt w' ->
  let r := write_result cn ch data w in
  let eff := send_effect r (pending cn) data in
  exists out' ch', conn_at c (set_outputBuffer_ out' cn) ch' w' /\
    Buf.contents out' = snd eff /\ Chan.isWriting ch' = negb (bool_decide (snd eff = [])) /\
    wire (sockfd_ cn) (w_trace w') = wire (sockfd_ cn) (w_trace w) ++ fst eff /\
    pendingTasks_ (w_loop w') = pendingTasks_ (w_loop w) ++ complete_tasks c cn r data ++
      high_water_tasks c cn (pending cn) (snd eff).
Proof.
  intros Hc Hup Hd Hr. destruct (wp_ok _ _ _ _ _ _ Hr (sendInLoop_wp c cn ch data w Hc Hup Hd))
    as (out'&ch'&Hc'&Hout&Ho). unfold obs in Ho. injection Ho as E1 _ E3.
  exists out', ch'. split; [done|]. split; [done|]. split; [|done].
  rewrite <- Hout. apply (pending_writing (set_outputBuffer_ out' cn)); [done|apply Hc'].
Qed.

(** C20: FIN follows the data. A call that shuts the write side down leaves
    nothing pending, so all data accepted so far is before it on the wire. *)
Theorem fin_after_data c cn ch x w w' :
  conn_at c cn ch w -> call_pre x cn -> quiet_run c x w = Ok tt w' ->
  shutdowns (sockfd_ cn) (w_trace w') <> shutdowns (sockfd_ cn) (w_trace w) ->
  wire (sockfd_ cn) (w_trace w') =
  wire (sockfd_ cn) (w_trace w) ++ pending cn ++ accepted x cn ch w.
Proof.
  intros Hc Hpre Hrun Hs. destruct (wp_ok _ _ _ _ _ _ Hrun (conn_call_stream c cn ch x w Hc Hpre))
    as (cn1&ch1&_&(_&_&Hw1&[?|Hp])); [done|]. by rewrite Hp, app_nil_r in Hw1.
Qed.

(** Shutdown flushes first. On a connected connection it refuses further
    sends at once; FIN is sent immediately when nothing is pending, and
    otherwise by the write event that drains the output buffer. *)
Theorem shutdown_flushes c cn ch w :
  conn_at c cn ch w -> state_ cn = kConnected ->
  exists w1, shutdown c w = Ok tt w1 /\
    conn_at c (set_state_ kDisconnecting cn) ch w1 /\
    (forall d, send c d w1 = Ok tt w1) /\
    shutdowns (sockfd_ cn) (w_trace w1) =
      (shutdowns (sockfd_ cn) (w_trace w) + if bool_decide (pending cn = []) then 1 else 0)%nat /\
    (pending cn <> [] -> exists w2, handleWrite c w1 = Ok tt w2 /\
       shutdowns (sockfd_ cn) (w_trace w2) =
         (shutdowns (sockfd_ cn) (w_trace w) +
          match fst (k_call (SysWrite (sockfd_ cn) (pending cn)) (w_kern w1)) with
          | SysOk n => if bool_decide (drop (Z.to_nat n) (pending cn) = []) then 1 else 0
          | SysErr _ => 0
          end)%nat).
Proof.
  intros Hc Hs. destruct (wp_total _ _ _ (shutdown_wp c cn ch w Hc (or_introl Hs)))
    as ([]&w1&Hr&Hc1&Ho). unfold obs in Ho. injection Ho as E1 E2 _. rewrite Hs in E2. simpl in E2.
  exists w1. split; [done|]. split; [done|]. split; [|split; [done|]].
  - intros d. pose proof Hc1 as [[Hn Hcn _ _ _ _ _ _] _]. apply Z.eqb_neq in Hn.
    unfold send, get_conn, deref_at, deref, bind. by rewrite Hn, Hcn.
  - intros Hp. rewrite bool_decide_eq_false_2, Nat.add_0_r in E2 by done.
    destruct (wp_total _ _ _ (handleWrite_wp c _ ch w1 Hc1 (or_intror eq_refl) Hp))
      as ([]&w2&Hr2&out'&Hw). exists w2. split; [done|]. simpl in Hw.
    change (pending (set_state_ kDisconnecting cn)) with (pending cn) in Hw.
    destruct (fst _) as [n|e]; destruct Hw as (_&_&Ho2); unfold obs in Ho2; injection Ho2 as _ F2 _.
    + rewrite F2, E2. unfold write_shutdowns. simpl. by rewrite andb_true_r.
    + by rewrite F2, E2, Nat.add_0_r.
Qed.

(** Send from another thread does not touch the connection: it queues
    sendInLoop of a copy of the data behind the tasks already there and wakes
    the loop up. *)
Theorem send_other_thread c cn data w :
  w_conns w !! c = Some cn -> c <> nullptr -> state_ cn = kConnected ->
  tid_ (w_loop w) <> w_cur w ->
  exists r w', send c data w = Ok tt w' /\
    pendingTasks_ (w_loop w') = pendingTasks_ (w_loop w) ++ [TaskSendInLoop c data] /\
    w_conns w' = w_conns w /\ w_channels w' = w_channels w /\
    w_trace w' = w_trace w ++ [Event (SysWrite (wakeupfd_ (w_loop w)) (le_bytes 8 1)) r].
Proof.
  intros Hcn Hc Hs Ht.
  enough (wp (send c data) no_fault (fun _ w' => exists r,
    pendingTasks_ (w_loop w') = pendingTasks_ (w_loop w) ++ [TaskSendInLoop c data] /\
    w_conns w' = w_conns w /\ w_channels w' = w_channels w /\
    w_trace w' = w_trace w ++ [Event (SysWrite (wakeupfd_ (w_loop w)) (le_bytes 8 1)) r]) w) as Hwp.
  { destruct (wp_total _ _ _ Hwp) as ([]&w'&Hr&r&?). by exists r, w'. }
  apply Z.eqb_neq in Ht. unfold send, get_conn, Loop.isInLoopThread, Loop.queueInLoop, upd_loop.
  wp_step. wp_lookup. rewrite Hs. simpl. wp_step. wp_step. rewrite Ht.
  wp_step. wp_step. wp_step. unfold Loop.isInLoopThread. wp_step. simpl. rewrite Ht.
  unfold get_loop. wp_step. wp_step. simpl. unfold Loop.wakeup, get_loop. wp_step. wp_step. wp_step.
  apply wp_sys. intros r k _. wp_step. by exists r.
Qed.


(** StartRead does not look at the state: on a connection that is closed
    it registers the channel again, for input, and the next event that is
    delivered fails the assertion of handleRead. *)
Theorem startRead_after_close run_message run_close c cn ch w :
  conn_at c cn ch w -> state_ cn = kDisconnected ->
  exists w', startRead c w = Ok tt w' /\ w_conns w' !! c = Some cn /\
    registered (channel_ cn) (w_trace w') = Reg (Some (Z.lor EPOLLIN EPOLLPRI)) /\
    (ndebug = false ->
     handleRead run_message run_close c w' = Err (AssertFail "state_ != kDisconnected")).
Proof.
  intros [Hb Hph] Hs. unfold phase in Hph. rewrite Hs in Hph.
  enough (wp (startRead c) no_fault (fun _ w' => base_at c cn (called Chan.EnableRead ch) w') w) as Hwp.
  { destruct (wp_total _ _ _ Hwp) as ([]&w'&Hr&Hb'). exists w'. split; [done|].
    split; [apply Hb'|]. split.
    - destruct (ba_sync _ _ _ _ Hb') as (_&_&ch0&_&_&_&Hreg). simpl in Hreg. by rewrite Hph in Hreg.
    - intros Hd. unfold handleRead. pose proof (base_thread _ _ _ _ Hb') as Ht. apply Z.eqb_eq in Ht.
      pose proof (ba_null _ _ _ _ Hb') as Hn. apply Z.eqb_neq in Hn.
      unfold Loop.assertInLoopThread, Loop.isInLoopThread, get_conn, deref_at, deref, assert_, bind,
        gets, throw, ret.
      rewrite Ht, orb_true_r, Hn, (ba_conn _ _ _ _ Hb'), Hs, Hd. done. }
  unfold startRead, Loop.runInLoop. wp_step. eapply wp_is_loop; [exact Hb|].
  unfold startReadInLoop. wp_step. eapply wp_get_conn; [exact Hb|]. wp_step.
  eapply wp_get_chan; [exact Hb|]. rewrite isReading_bit, Hph. simpl.
  apply (wp_call c cn ch Chan.EnableRead); [done|right; rewrite Hph; done|]. auto.
Qed.
End properties.

(** ** Witnesses *)

#[local] Instance debug : Build := {| ndebug := false |}.

Definition example_buffer (d : list byte) : Buf.Buffer :=
  Buf.mkBuffer (replicate 8 x00 ++ d ++ replicate 24 x00) 8 (8 + zlen d).
(** A connection on descriptor 7, with write-complete callback 31 and
    high-water callback 32 at two bytes. *)
Definition example_conn (s : ConnectState) (out : list byte) : TcpConnection :=
  mkConn 7 3 s null_sockaddr null_sockaddr (example_buffer []) (example_buffer out)
    2 None (Some (UserMessage 30)) (Some 31) (Some 32) (Some (ServerCloseConnection 9)).
Definition example_channel (mask : Z) : Channel :=
  mkChannel (negb (mask =? 0)) 7 (Some 4) true mask 0 false (Some (ConnHandleRead 4))
    (Some (ConnHandleWrite 4)) (Some (ConnHandleClose 4)) (Some (ConnHandleError 4)).
Definition example_mask (s : ConnectState) (out : list byte) : Z :=
  match s with kConnecting | kDisconnected => 0 | _ => if bool_decide (out = []) then 3 else 7 end.
Definition example_world (s : ConnectState) (out : list byte) (replies : list raw) : World Script unit :=
  let m := example_mask s out in
  set_w_trace (if m =? 0 then [] else [Event (SysEpollCtl EPOLL_CTL_ADD 7 m 3) (SysOk tt)])
    (put_conn 4 (example_conn s out) (put_channel 3 (example_channel m) (sample_world replies []))).

Lemma example_wf d : zlen d <= 100 -> Buf.wf (example_buffer d).
Proof.
  intros Hd. pose proof (zlen_nonneg d). unfold Buf.wf, Buf.size, Buf.kCheapPrepend, Buf.max_size. simpl.
  assert (zlen (replicate 8 x00 ++ d ++ replicate 24 x00) = 32 + zlen d)
    by (unfold zlen; rewrite !length_app, !length_replicate; lia).
  simpl in *. lia.
Qed.
Lemma example_pending s d : zlen d <= 100 -> pending (example_conn s d) = d.
Proof.
  intros Hd. unfold pending, Buf.contents. simpl. replace (8 + zlen d - 8) with (zlen d) by lia.
  unfold slice. simpl. unfold zlen. rewrite Nat2Z.id. by rewrite drop_0, take_app_length.
Qed.

Lemma example_at s d replies : zlen d <= 100 -> (s = kConnecting -> d = []) ->
  conn_at 4 (example_conn s d) (example_channel (example_mask s d)) (example_world s d replies).
Proof.
  intros Hd Hs. split.
  - split; try done; try by apply example_wf.
    split; [done|]. split; [done|]. eexists. split; [reflexivity|]. split; [reflexivity|].
    split; [reflexivity|]. unfold example_world.
    destruct s; simpl; try reflexivity; by case_bool_decide.
  - unfold phase. rewrite example_pending by done.
    destruct s; simpl; auto; case_bool_decide; done.
Qed.

(** Send "ab" of which the kernel takes one byte, send "c", then the write
    event drains the buffer. *)
Definition after {S X} (m : M S X) (s : S) : S := match m s with Ok _ s' => s' | Err _ => s end.
Definition example_start : World Script unit := example_world kConnected [] [RNum 1; RNum 2].
Definition example_mid1 := after (quiet_run 4 (CallSend [x61; x62])) example_start.
Definition example_mid2 := after (quiet_run 4 (CallSend [x63])) example_mid1.
Definition example_end := after (quiet_run 4 CallHandleWrite) example_mid2.


Lemma calls_keep_invariant_witness : exists w',
  conn_call_run no_message no_close 4 CallShutdown (example_world kConnected [] []) = Ok tt w' /\
  conn_from kConnected 4 w'.
Proof.
  pose proof (calls_keep_invariant no_message no_close 4 (example_conn kConnected [])
    (example_channel 3) CallShutdown (example_world kConnected [] [])
    (fun _ _ _ _ Hw => Hw) (fun _ _ _ _ Hw => Hw)
    (example_at kConnected [] [] ltac:(done) ltac:(done)) ltac:(by left)) as Hwp.
  eexists. split; [reflexivity|exact Hwp].
Defined.

Definition example_sent := after (sendInLoop 4 [x61; x62; x63]) (example_world kConnected [] [RNum 1]).
Lemma sendInLoop_exact_witness :
  sendInLoop 4 [x61; x62; x63] (example_world kConnected [] [RNum 1]) = Ok tt example_sent /\
  wire 7 (w_trace example_sent) = [x61] /\
  pendingTasks_ (w_loop example_sent) = [TaskHighWaterMark 32 4 2].
Proof.
  assert (Hr : sendInLoop 4 [x61; x62; x63] (example_world kConnected [] [RNum 1]) = Ok tt example_sent)
    by (vm_compute; reflexivity).
  destruct (sendInLoop_exact 4 (example_conn kConnected []) (example_channel 3) [x61; x62; x63]
    (example_world kConnected [] [RNum 1]) example_sent
    (example_at kConnected [] [RNum 1] ltac:(vm_compute; discriminate) ltac:(done))
    ltac:(by left) ltac:(vm_compute; discriminate) Hr) as (out'&ch'&_&_&_&Hw&Ht).
  split; [exact Hr|]. split.
  - etransitivity; [exact Hw|]. vm_compute. reflexivity.
  - etransitivity; [exact Ht|]. vm_compute. reflexivity.
Defined.

Definition example_drained := after (quiet_run 4 CallHandleWrite) (example_world kDisconnecting [x61; x62] []).
Lemma fin_after_data_witness :
  quiet_run 4 CallHandleWrite (example_world kDisconnecting [x61; x62] []) = Ok tt example_drained /\
  wire 7 (w_trace example_drained) = [x61; x62].
Proof.
  assert (Hr : quiet_run 4 CallHandleWrite (example_world kDisconnecting [x61; x62] []) =
    Ok tt example_drained) by (vm_compute; reflexivity).
  split; [exact Hr|]. etransitivity.
  - apply (fin_after_data 4 (example_conn kDisconnecting [x61; x62]) (example_channel 7) CallHandleWrite
      (example_world kDisconnecting [x61; x62] []) example_drained
      (example_at kDisconnecting [x61; x62] [] ltac:(vm_compute; discriminate) ltac:(done))).
    + right. split; [by right|vm_compute; discriminate].
    + exact Hr.
    + vm_compute. discriminate.
  - vm_compute. reflexivity.
Defined.

Lemma shutdown_flushes_witness : exists w1,
  shutdown 4 (example_world kConnected [x61] []) = Ok tt w1 /\ shutdowns 7 (w_trace w1) = 0%nat.
Proof.
  destruct (shutdown_flushes 4 (example_conn kConnected [x61]) (example_channel 7)
    (example_world kConnected [x61] []) (example_at kConnected [x61] _ ltac:(done) ltac:(done))
    eq_refl) as (w1&Hr&_&_&Hs&_).
  exists w1. split; [exact Hr|]. exact Hs.
Defined.

Lemma send_other_thread_witness : exists w',
  send 4 [x61] (set_w_cur 2 (example_world kConnected [] [])) = Ok tt w' /\
  pendingTasks_ (w_loop w') = [TaskSendInLoop 4 [x61]].
Proof.
  destruct (send_other_thread 4 (example_conn kConnected []) [x61]
    (set_w_cur 2 (example_world kConnected [] []))) as (r&w'&Hr&Ht&_);
    [reflexivity|discriminate|reflexivity|discriminate|].
  exists w'. split; [exact Hr|exact Ht].
Defined.


Lemma startRead_after_close_witness : exists w',
  startRead 4 (example_world kDisconnected [] []) = Ok tt w' /\
  handleRead no_message no_close 4 w' = Err (AssertFail "state_ != kDisconnected").
Proof.
  destruct (startRead_after_close no_message no_close 4 (example_conn kDisconnected []) (example_channel 0)
    (example_world kDisconnected [] []) (example_at kDisconnected [] _ ltac:(done) ltac:(done))
    eq_refl) as (w'&Hr&_&_&Hh). exists w'. split; [exact Hr|]. apply Hh. reflexivity.
Defined.
End Conn.
