(* ===== verification/EventLoop.v ===== *)
(** EventLoop (src/EventLoop.hpp, src/EventLoop.cc) in its own thread:
    construction, the poll / dispatch / tasks iteration, doPendingTasks and the
    wakeup handler.  The meaning of the installed callbacks and queued tasks is
    a parameter ([run_channel], [run_task]).  [loop] runs with fuel, one unit
    per iteration, and says whether it returned. *)

From S2P Require Import Prelude Ints Kernel Buffer World Poller Channel TimerQueue.

Module Ev.
Section ops.
Context {K A : Type} `{Kernel K} `{Build}.
Implicit Types w : World K A.

(** ** Construction *)

Definition set_wakeup (fd : Z) (ch : ptr) (l : EventLoop) : EventLoop :=
  mkLoop (tid_ l) (quit_ l) (doingPendingTasks_ l) (poller_events_size l) (activeChannels_ l)
    fd ch (pendingTasks_ l) (timerfd_ l) (timerChannel_ l) (timers_ l) (epollfd_ l).
Definition set_timerQueue (fd : Z) (ch : ptr) (l : EventLoop) : EventLoop :=
  mkLoop (tid_ l) (quit_ l) (doingPendingTasks_ l) (poller_events_size l) (activeChannels_ l)
    (wakeupfd_ l) (wakeupChannel_ l) (pendingTasks_ l) fd ch (timers_ l) (epollfd_ l).
Definition set_epollfd (fd : Z) (l : EventLoop) : EventLoop :=
  mkLoop (tid_ l) (quit_ l) (doingPendingTasks_ l) (poller_events_size l) (activeChannels_ l)
    (wakeupfd_ l) (wakeupChannel_ l) (pendingTasks_ l) (timerfd_ l) (timerChannel_ l) (timers_ l) fd.

Definition EPollPoller_ctor : M (World K A) unit :=
  upd_loop (set_poller_events_size 128) ;;;
  let! epollfd := sys SysEpollCreate1 in
  match epollfd with
  | SysErr _ => throw (Fatal "Epoller::epoll_create1")
  | SysOk fd => upd_loop (set_epollfd fd)
  end.
Definition EPollPoller_dtor : M (World K A) unit :=
  let! fd := get_loop epollfd_ in
  let! _ := sys (SysClose fd) in ret tt.

Definition timerfdCreate : M (World K A) Z :=
  let! fd := sys SysTimerfdCreate in
  match fd with
  | SysErr _ => throw (Fatal "timerfd_create")
  | SysOk fd => ret fd
  end.

Definition TimerQueue_ctor : M (World K A) unit :=
  let! fd := timerfdCreate in
  let! ch := Chan.Channel_ctor fd in
  upd_loop (set_timerQueue fd ch) ;;;
  Loop.assertInLoopThread ;;;
  Chan.setReadCallback ch TimerQueueHandleRead ;;;
  Chan.enableRead ch.

(** [t_Eventloop] is the thread-local pointer to the loop of the thread; the
    result is its new value. *)
Definition EventLoop_ctor (this t_Eventloop : ptr) : M (World K A) ptr :=
  modify (fun w => set_w_loop
    (mkLoop (w_cur w) false false 0 [] (-1) nullptr [] (-1) nullptr [] (-1)) w) ;;;
  EPollPoller_ctor ;;;
  let! r := sys SysEventfd in
  let fd := match r with SysOk fd => fd | SysErr _ => -1 end in
  let! ch := Chan.Channel_ctor fd in
  upd_loop (set_wakeup fd ch) ;;;
  TimerQueue_ctor ;;;
  when (fd =? -1) (throw (Fatal "EventLoop::eventfd")) ;;;
  Chan.setReadCallback ch EventLoopHandleRead ;;;
  Chan.enableRead ch ;;;
  assert_ (t_Eventloop =? nullptr) "t_Eventloop == nullptr" ;;;
  ret this.

(** [destroy_tasks] destroys the vector of pending tasks. *)
Definition EventLoop_dtor (destroy_tasks : M (World K A) unit) (this t_Eventloop : ptr) : M (World K A) ptr :=
  let! ch := get_loop wakeupChannel_ in
  Chan.disableAll ch ;;;
  let! fd := get_loop wakeupfd_ in
  let! _ := sys (SysClose fd) in
  assert_ (t_Eventloop =? this) "t_Eventloop == this" ;;;
  TQ.TimerQueue_dtor ;;;
  destroy_tasks ;;;
  Chan.Channel_dtor ch ;;;
  EPollPoller_dtor ;;;
  ret nullptr.

(** The counter of the eventfd is read, and so reset. *)
Definition handleRead : M (World K A) unit :=
  let! fd := get_loop wakeupfd_ in
  let! _ := sys (SysRead fd 8) in
  ret tt.

(** ** The loop *)

Section loop.
Variable run_channel : ChannelCallback -> M (World K A) unit.
Variable run_task : Task -> M (World K A) unit.

Definition doPendingTasks : M (World K A) unit :=
  Loop.assertInLoopThread ;;;
  let! tasks := get_loop pendingTasks_ in
  upd_loop (set_pendingTasks_ []) ;;;
  upd_loop (set_doingPendingTasks_ true) ;;;
  for_each tasks run_task ;;;
  upd_loop (set_doingPendingTasks_ false).

(** The body of the while loop. *)
Definition iteration : M (World K A) unit :=
  upd_loop (set_activeChannels_ []) ;;;
  let! active := Poller.poll [] in
  upd_loop (set_activeChannels_ active) ;;;
  for_each active (Chan.handleEvents run_channel) ;;;
  doPendingTasks.

Fixpoint while_not_quit (fuel : nat) : M (World K A) bool :=
  let! q := get_loop quit_ in
  if q then ret true else
  match fuel with
  | O => ret false
  | S n => iteration ;;; while_not_quit n
  end.

Definition loop (fuel : nat) : M (World K A) bool :=
  Loop.assertInLoopThread ;;;
  upd_loop (set_quit_ false) ;;;
  while_not_quit fuel.
End loop.
End ops.

(** ** Wakeups *)

(** Whether a write to the eventfd [fd] has not been read yet. *)
Definition signal_step (fd : Z) (b : bool) (e : event) : bool :=
  match ev_call e with
  | SysWrite fd' _ => (fd' =? fd) || b
  | SysRead fd' _ => negb (fd' =? fd) && b
  | _ => b
  end.
Definition signalled (fd : Z) (tr : trace) : bool := fold_left (signal_step fd) tr false.

Lemma signalled_snoc fd tr e : signalled fd (tr ++ [e]) = signal_step fd (signalled fd tr) e.
Proof. unfold signalled. by rewrite fold_left_app. Qed.

Section specs.
Context {K A : Type} `{Kernel K} `{!KernelLaws K} `{Build}.
Implicit Types w : World K A.

(** While tasks are run, each new task comes with an unread wakeup. *)
Definition woken w : Prop :=
  Chan.in_loop_thread w /\ doingPendingTasks_ (w_loop w) = true /\
  (pendingTasks_ (w_loop w) <> [] -> signalled (wakeupfd_ (w_loop w)) (w_trace w) = true).

Definition not_read (c : syscall) : bool := match c with SysRead _ _ => false | _ => true end.

Lemma signal_keeps fd b c r : not_read c = true -> b = true -> signal_step fd b (Event c r) = true.
Proof. intros Hc ->. destruct c; simpl in *; try done. unfold signal_step. simpl. by destruct (_ =? _). Qed.

Lemma sys_woken c : not_read c = true -> Preserves woken (sys c).
Proof.
  intros Hc w (Ht&Hd&Hp). apply wp_sys. intros r k _. split; [done|]. split; [done|].
  simpl. intros Hne. rewrite signalled_snoc. apply signal_keeps; auto.
Qed.

(** Queueing a task in the loop's thread while tasks are run. *)
#[export] Instance queueInLoop_woken t : Preserves woken (Loop.queueInLoop t).
Proof.
  intros w (Ht&Hd&Hp). unfold Loop.queueInLoop, upd_loop, Loop.isInLoopThread, get_loop.
  wp_step. wp_step. wp_step. wp_step. wp_step. wp_step. simpl. rewrite Hd, orb_true_r. simpl.
  unfold Loop.wakeup, get_loop. wp_step. wp_step. wp_step. apply wp_sys. intros r k _. wp_step.
  split; [done|]. split; [done|]. simpl. intros _. rewrite signalled_snoc.
  unfold signal_step. cbn. by rewrite Z.eqb_refl.
Qed.

(** Steps that do not touch what [woken] reads. *)
Lemma modify_woken (f : World K A -> World K A) :
  (forall w, w_cur (f w) = w_cur w /\ w_trace (f w) = w_trace w /\
     tid_ (w_loop (f w)) = tid_ (w_loop w) /\
     doingPendingTasks_ (w_loop (f w)) = doingPendingTasks_ (w_loop w) /\
     pendingTasks_ (w_loop (f w)) = pendingTasks_ (w_loop w) /\
     wakeupfd_ (w_loop (f w)) = wakeupfd_ (w_loop w)) ->
  Preserves woken (modify f).
Proof.
  intros Hf w (Ht&Hd&Hp). apply wp_modify. destruct (Hf w) as (E1&E2&E3&E4&E5&E6).
  unfold woken, Chan.in_loop_thread in *. rewrite E1, E2, E3, E4, E5, E6. auto.
Qed.

Section loop.
Variable run_channel : ChannelCallback -> M (World K A) unit.
Variable run_task : Task -> M (World K A) unit.

Lemma doPendingTasks_woken w :
  (forall t, Preserves woken (run_task t)) -> Chan.in_loop_thread w ->
  wp (doPendingTasks run_task) any_fault (fun _ w' =>
    Chan.in_loop_thread w' /\ doingPendingTasks_ (w_loop w') = false /\
    (pendingTasks_ (w_loop w') <> [] -> signalled (wakeupfd_ (w_loop w')) (w_trace w') = true)) w.
Proof.
  intros Hrun Ht. unfold doPendingTasks, get_loop, upd_loop. wp_step.
  apply Chan.wp_assertInLoopThread; [done|]. wp_step. wp_step. wp_step. wp_step. wp_step. wp_step.
  wp_step. eapply wp_conseq.
  - apply (for_each_preserves woken (pendingTasks_ (w_loop w)) run_task Hrun). by repeat split.
  - simpl. intros _ w' (?&?&?). wp_step. by repeat split.
Qed.

(** More fuel does not change what a loop that returned did. *)
Lemma while_more n k w w' :
  while_not_quit run_channel run_task n w = Ok true w' ->
  while_not_quit run_channel run_task (n + k) w = Ok true w'.
Proof.
  revert w. induction n as [|n IH]; intros w; simpl.
  - unfold bind, get_loop, gets. destruct k; simpl; unfold bind, get_loop, gets;
      destruct (quit_ (w_loop w)); done.
  - unfold bind, get_loop, gets. destruct (quit_ (w_loop w)); [done|].
    destruct (iteration _ _ _); [|done]. apply IH.
Qed.

Lemma while_returns n w w' b :
  while_not_quit run_channel run_task n w = Ok b w' -> b = quit_ (w_loop w').
Proof.
  revert w. induction n as [|n IH]; intros w; simpl;
    unfold bind, get_loop, gets, ret; destruct (quit_ (w_loop w)) eqn:Hq; try (by intros [= <- <-]).
  destruct (iteration _ _ _); [apply IH|done].
Qed.
End loop.
End specs.

(** ** Properties *)

Section properties.
Context {K A : Type} `{Kernel K} `{!KernelLaws K} `{Build}.
Implicit Types w : World K A.
Variable run_channel : ChannelCallback -> M (World K A) unit.
Variable run_task : Task -> M (World K A) unit.

(** No task queued while tasks are run is left waiting behind a blocked
    poll. After doPendingTasks, if a task is pending then the wakeup descriptor
    has an unread signal, so the next epoll_wait returns at once. The tasks
    themselves need only keep [woken]. *)
Theorem tasks_not_stranded w w' :
  (forall t, Preserves woken (run_task t)) -> Chan.in_loop_thread w ->
  doPendingTasks run_task w = Ok tt w' ->
  doingPendingTasks_ (w_loop w') = false /\
  (pendingTasks_ (w_loop w') <> [] -> signalled (wakeupfd_ (w_loop w')) (w_trace w') = true).
Proof. intros Hrun Ht Hr. apply (wp_ok _ _ _ _ _ _ Hr (doPendingTasks_woken run_task w Hrun Ht)). Qed.

(** Loop returns when it sees quit_ set between two iterations and for no
    other reason, and fuel beyond what it used changes nothing. *)
Theorem loop_returns_on_quit n w w' b :
  loop run_channel run_task n w = Ok b w' ->
  b = quit_ (w_loop w') /\
  (b = true -> forall k, loop run_channel run_task (n + k) w = Ok true w').
Proof.
  unfold loop, bind. destruct (Loop.assertInLoopThread w) as [[] w1|f]; [|done].
  unfold upd_loop at 1, modify at 1. intros Hr. split; [by eapply while_returns|].
  intros -> k. unfold upd_loop, modify. by apply while_more.
Qed.

(** A quit that comes before loop is lost: loop resets the flag, so it
    runs exactly as if quit had not been called. *)
Theorem quit_before_loop_lost n q w :
  loop run_channel run_task n (set_w_loop (set_quit_ q (w_loop w)) w) =
  loop run_channel run_task n w.
Proof.
  unfold loop, bind, Loop.assertInLoopThread, Loop.isInLoopThread, bind, gets. simpl.
  unfold assert_. destruct (_ || _); [|done]. by destruct w as [? ? ? ? [] ? ? ? ? ? ? ? ? ?].
Qed.
End properties.

(** ** Witnesses *)

#[local] Instance debug : Build := {| ndebug := false |}.

Definition example_world (tasks : list Task) : World Script (list Task) :=
  let w := sample_world_with [] [] [] in
  set_w_loop (set_pendingTasks_ tasks (w_loop w)) w.
(** Task 1 queues task 2; task 2 quits. *)
Definition example_task (t : Task) : M (World Script (list Task)) unit :=
  match t with
  | TaskUser 1 => Loop.queueInLoop (TaskUser 2)
  | _ => upd_loop (set_quit_ true)
  end.
#[local] Instance example_task_woken t : Preserves woken (example_task t).
Proof. destruct t; simpl; repeat case_match; try apply _; by apply modify_woken. Qed.

Definition example_after : World Script (list Task) :=
  match doPendingTasks example_task (example_world [TaskUser 1]) with
  | Ok _ w => w | Err _ => example_world [] end.

Lemma tasks_not_stranded_witness :
  pendingTasks_ (w_loop example_after) = [TaskUser 2] /\
  signalled (wakeupfd_ (w_loop example_after)) (w_trace example_after) = true.
Proof.
  destruct (@tasks_not_stranded _ _ debug example_task (example_world [TaskUser 1]) example_after
    example_task_woken eq_refl ltac:(vm_compute; reflexivity)) as [_ Hs].
  split; [reflexivity|]. apply Hs. discriminate.
Defined.

Definition example_looped : World Script (list Task) :=
  match loop (fun _ => ret tt) example_task 2 (example_world [TaskUser 1]) with
  | Ok _ w => w | Err _ => example_world [] end.
Lemma loop_returns_on_quit_witness :
  loop (fun _ => ret tt) example_task (2 + 5) (example_world [TaskUser 1]) = Ok true example_looped.
Proof.
  assert (Hr : loop (fun _ => ret tt) example_task 2 (example_world [TaskUser 1]) =
               Ok true example_looped) by (vm_compute; reflexivity).
  exact (proj2 (loop_returns_on_quit _ _ _ _ _ _ Hr) eq_refl 5%nat).
Defined.
End Ev.
