(* ===== verification/Wakeup.v ===== *)
(** The event loop and the threads that queue tasks in it or stop it, as a
    transition system at the granularity of the atomic steps of
    src/EventLoop.cc: the push under the mutex and the write to the eventfd
    that follows it are different steps, as are the swap of the task vector,
    the setting of doingPendingTasks_ and the run of each task.  The theorems
    hold for every interleaving of any number of threads. *)

From S2P Require Import Prelude Ints Kernel Buffer World Poller Channel TimerQueue EventLoop.

Module Wake.

(** Where the loop's thread is. *)
Inductive pc :=
  | AtStart                          (* loop() not entered *)
  | AtTest                           (* while (!quit_) *)
  | AtPoll                           (* in epoll_wait *)
  | Handling (wake : bool)           (* dispatching; [wake]: the eventfd is among the events *)
  | Swapped (batch : list Task)      (* tasks.swap(pendingTasks_) done *)
  | Running (batch : list Task)      (* doingPendingTasks_ set *)
  | Returned.

Record state := mkState {
  at_ : pc;
  pending : list Task;               (* pendingTasks_ *)
  doing : bool;                      (* doingPendingTasks_ *)
  quit : bool;                       (* quit_ *)
  count : nat;                       (* the eventfd *)
  writers : nat;                     (* threads between push_back and wakeup *)
  quitters : nat;                    (* threads between quit_ = true and wakeup *)
  pushed : list Task;                (* all tasks queued so far, in order *)
  run : list Task                    (* the tasks run so far, in order *)
}.

Definition init : state := mkState AtStart [] false false 0 0 0 [] [].

(** The tasks taken out of the queue and not run yet. *)
Definition batch (s : state) : list Task :=
  match at_ s with Swapped l | Running l => l | _ => [] end.

Definition go (p : pc) (s : state) : state :=
  mkState p (pending s) (doing s) (quit s) (count s) (writers s) (quitters s) (pushed s) (run s).
Definition push (t : Task) (s : state) : state :=
  mkState (at_ s) (pending s ++ [t]) (doing s) (quit s) (count s) (writers s) (quitters s)
    (pushed s ++ [t]) (run s).
Definition set_doing (b : bool) (s : state) : state :=
  mkState (at_ s) (pending s) b (quit s) (count s) (writers s) (quitters s) (pushed s) (run s).
Definition set_quit (b : bool) (s : state) : state :=
  mkState (at_ s) (pending s) (doing s) b (count s) (writers s) (quitters s) (pushed s) (run s).
Definition set_count (n : nat) (s : state) : state :=
  mkState (at_ s) (pending s) (doing s) (quit s) n (writers s) (quitters s) (pushed s) (run s).
Definition set_writers (n : nat) (s : state) : state :=
  mkState (at_ s) (pending s) (doing s) (quit s) (count s) n (quitters s) (pushed s) (run s).
Definition set_quitters (n : nat) (s : state) : state :=
  mkState (at_ s) (pending s) (doing s) (quit s) (count s) (writers s) n (pushed s) (run s).
Definition wakeup (s : state) : state := set_count (S (count s)) s.

(** The loop's thread is running user code: handlers or tasks. *)
Definition in_handler (p : pc) : bool :=
  match p with Handling _ | Running _ => true | _ => false end.

Inductive step : state -> state -> Prop :=
  (* queueInLoop from another thread *)
  | other_push t s : step s (set_writers (S (writers s)) (push t s))
  | other_wake n s : writers s = S n -> step s (wakeup (set_writers n s))
  (* quit from another thread; assert(!quit_) *)
  | other_quit s : quit s = false -> step s (set_quitters (S (quitters s)) (set_quit true s))
  | other_quit_wake n s : quitters s = S n -> step s (wakeup (set_quitters n s))
  (* loop() *)
  | enter s : at_ s = AtStart -> step s (go AtTest (set_quit false s))
  | test_quit s : at_ s = AtTest -> quit s = true -> step s (go Returned s)
  | test_poll s : at_ s = AtTest -> quit s = false -> step s (go AtPoll s)
  (* epoll_wait returns for the eventfd if it is readable, or for other
     descriptors (or a signal) at any time *)
  | poll s b : at_ s = AtPoll -> b = bool_decide (0 < count s)%nat -> step s (go (Handling b) s)
  (* EventLoop::handleRead *)
  | handle_wake s : at_ s = Handling true -> step s (go (Handling false) (set_count 0 s))
  (* queueInLoop and quit in the loop's thread *)
  | own_push t s : in_handler (at_ s) = true ->
      step s (let s' := push t s in if doing s' then wakeup s' else s')
  | own_quit s : in_handler (at_ s) = true -> quit s = false -> step s (set_quit true s)
  (* doPendingTasks *)
  | swap s : at_ s = Handling false ->
      step s (go (Swapped (pending s)) (mkState (at_ s) [] (doing s) (quit s) (count s) (writers s)
                (quitters s) (pushed s) (run s)))
  | set_doing_step l s : at_ s = Swapped l -> step s (go (Running l) (set_doing true s))
  | run_task t l s : at_ s = Running (t :: l) ->
      step s (go (Running l) (mkState (at_ s) (pending s) (doing s) (quit s) (count s) (writers s)
                (quitters s) (pushed s) (run s ++ [t])))
  | tasks_done s : at_ s = Running [] -> step s (go AtTest (set_doing false s)).

Definition reachable (s : state) : Prop := rtc step init s.

(** ** Invariant *)

Record inv (s : state) : Prop := {
  (* every task queued is run, in a batch or pending, in the order of queueing *)
  inv_fifo : pushed s = run s ++ batch s ++ pending s;
  (* doingPendingTasks_ is set exactly while tasks are run *)
  inv_doing : doing s = match at_ s with Running _ => true | _ => false end;
  (* a pending task has a wakeup, written or about to be, unless the loop is
     before its next swap *)
  inv_wake : pending s <> [] ->
    (0 < count s)%nat \/ (0 < writers s)%nat \/
    match at_ s with Handling _ => True | _ => False end;
  (* a quit seen by nobody yet has one too *)
  inv_quit : at_ s = AtPoll -> quit s = true -> (0 < count s)%nat \/ (0 < quitters s)%nat
}.

(** At the start of the loop no task may be queued by the loop's own thread
    outside its handlers, so the invariant holds before the loop too. *)
Lemma wake_init : inv init.
Proof. by split. Qed.

Lemma wake_step_inv s s' : step s s' -> inv s -> inv s'.
Proof.
  intros Hstep [Hf Hd Hw Hq].
  destruct Hstep; destruct s as [at0 pending0 doing0 quit0 count0 writers0 quitters0 pushed0 run0];
    simpl in *; subst; unfold batch in *; simpl in *; try (by split; simpl; auto with lia).
  - split; simpl; auto with lia. unfold batch. simpl. rewrite Hf. by rewrite !app_assoc.
  - destruct at0; simpl in *; try done; split; simpl; unfold batch; simpl; auto with lia;
      try (rewrite Hf; by rewrite <- !app_assoc); done.
  - destruct at0; simpl in *; try done; split; simpl; auto; done.
  - split; simpl; unfold batch; simpl; auto with lia; [rewrite Hf; by rewrite app_nil_r|done].
  - split; simpl; unfold batch; simpl; auto with lia; [rewrite Hf; by rewrite <- !app_assoc|done].
Qed.

Lemma wake_reachable s : reachable s -> inv s.
Proof.
  intros Hr. refine (rtc_ind_r (R := step) inv init wake_init _ s Hr).
  intros s1 s2 _ Hs. by apply wake_step_inv.
Qed.

(** ** The functional model takes these steps *)

(** The eventfd's counter: unread writes. *)
Definition count_step (fd : Z) (n : nat) (e : event) : nat :=
  match ev_call e with
  | SysWrite fd' _ => if fd' =? fd then S n else n
  | SysRead fd' _ => if fd' =? fd then O else n
  | _ => n
  end.
Definition counter (fd : Z) (tr : trace) : nat := fold_left (count_step fd) tr O.

Section refinement.
Context {K A : Type} `{Kernel K} `{!KernelLaws K} `{Build}.
Implicit Types w : World K A.

(** The state of a world, with the loop's thread at [p] and no call in flight. *)
Definition abs (p : pc) (ps rs : list Task) w : state :=
  mkState p (pendingTasks_ (w_loop w)) (doingPendingTasks_ (w_loop w)) (quit_ (w_loop w))
    (counter (wakeupfd_ (w_loop w)) (w_trace w)) 0 0 ps rs.

Lemma counter_write fd tr d r : counter fd (tr ++ [Event (SysWrite fd d) r]) = S (counter fd tr).
Proof. unfold counter. rewrite fold_left_app. unfold count_step at 1. cbn. by rewrite Z.eqb_refl. Qed.

(** One unread write more, nothing else. *)
Lemma wakeup_wp w (Q : unit -> World K A -> Prop) :
  (forall w', w_loop w' = w_loop w ->
     counter (wakeupfd_ (w_loop w)) (w_trace w') = S (counter (wakeupfd_ (w_loop w)) (w_trace w)) ->
     Q tt w') ->
  wp Loop.wakeup no_fault Q w.
Proof.
  intros HQ. unfold Loop.wakeup, get_loop. wp_step. wp_step. wp_step. apply wp_sys. intros r k _.
  wp_step. apply HQ; [done|]. apply counter_write.
Qed.

Lemma queue_other_steps p ps rs t w :
  tid_ (w_loop w) <> w_cur w ->
  wp (Loop.queueInLoop t) no_fault (fun _ w' => rtc step (abs p ps rs w) (abs p (ps ++ [t]) rs w')) w.
Proof.
  intros Ht. apply Z.eqb_neq in Ht. unfold Loop.queueInLoop, upd_loop, Loop.isInLoopThread, get_loop.
  wp_step. wp_step. wp_step. wp_step. wp_step. wp_step. simpl. rewrite Ht. simpl.
  apply wakeup_wp. simpl. intros w' Hl Hc.
  eapply rtc_l; [apply (other_push t)|]. eapply rtc_l; [by apply (other_wake 0)|].
  unfold abs, Wake.wakeup, push, set_writers, set_count. simpl. rewrite Hl; simpl; rewrite Hc. simpl. reflexivity.
Qed.

Lemma queue_own_steps p ps rs t w :
  tid_ (w_loop w) = w_cur w -> in_handler p = true ->
  wp (Loop.queueInLoop t) no_fault (fun _ w' => rtc step (abs p ps rs w) (abs p (ps ++ [t]) rs w')) w.
Proof.
  intros Ht Hp. apply Z.eqb_eq in Ht. unfold Loop.queueInLoop, upd_loop, Loop.isInLoopThread, get_loop.
  wp_step. wp_step. wp_step. wp_step. wp_step. wp_step. simpl. rewrite Ht. simpl.
  apply wp_when; intros Hd.
  - apply wakeup_wp. simpl. intros w' Hl Hc. apply rtc_once.
    assert (abs p (ps ++ [t]) rs w' = let s' := push t (abs p ps rs w) in
              if doing s' then Wake.wakeup s' else s') as ->; [|by apply own_push].
    simpl. rewrite Hd. unfold abs, Wake.wakeup, push, set_count. simpl. by rewrite Hl; simpl; rewrite Hc.
  - apply rtc_once.
    match goal with |- step _ ?s => assert (s = let s' := push t (abs p ps rs w) in
      if doing s' then Wake.wakeup s' else s') as ->; [|by apply own_push] end.
    simpl. by rewrite Hd.
Qed.

Lemma quit_other_steps p ps rs w :
  tid_ (w_loop w) <> w_cur w -> quit_ (w_loop w) = false ->
  wp Loop.quit no_fault (fun _ w' => rtc step (abs p ps rs w) (abs p ps rs w') /\
    quit_ (w_loop w') = true) w.
Proof.
  intros Ht Hq. apply Z.eqb_neq in Ht. unfold Loop.quit, upd_loop, Loop.isInLoopThread, get_loop.
  wp_step. wp_step. rewrite Hq. wp_step. apply wp_assert_true; [done|].
  wp_step. wp_step. wp_step. wp_step. simpl. rewrite Ht. simpl.
  apply wakeup_wp. simpl. intros w' Hl Hc. split; [|by rewrite Hl].
  eapply rtc_l; [by apply other_quit|]. eapply rtc_l; [by apply (other_quit_wake 0)|].
  unfold abs, Wake.wakeup, set_quitters, set_quit, set_count. simpl. rewrite Hl; simpl; rewrite Hc. simpl. reflexivity.
Qed.
End refinement.

(** ** Properties *)

(** C6: no lost wakeup. In every interleaving of the loop with any number of
    threads that queue tasks and quit, whenever the loop's thread is in
    epoll_wait with a task pending or a quit requested, the eventfd is readable
    or a thread is about to write it, so epoll_wait returns. *)
Theorem no_lost_wakeup s :
  reachable s -> at_ s = AtPoll -> pending s <> [] \/ quit s = true ->
  (0 < count s)%nat \/ (0 < writers s)%nat \/ (0 < quitters s)%nat.
Proof.
  intros [_ _ Hw Hq]%wake_reachable Hp [Hne|Ht].
  - rewrite Hp in Hw. destruct (Hw Hne) as [?|[?|[]]]; auto.
  - destruct (Hq Hp Ht); auto.
Qed.

(** C22: tasks are run once each, in the order they were queued, whichever
    threads queued them: what was queued is what was run, followed by the batch
    being run and by what is pending. *)
Theorem tasks_fifo_once s :
  reachable s -> pushed s = run s ++ batch s ++ pending s.
Proof. intros Hr. apply (inv_fifo _ (wake_reachable s Hr)). Qed.


(** A quit can be lost. There is an interleaving in which another thread's
    quit has completed, wakeup included, and yet the loop's thread ends up in
    epoll_wait with quit_ false and nothing to wake it: the quit came between
    the construction of the loop and loop(), which resets the flag. *)
Theorem quit_can_be_lost : exists s1 s,
  reachable s1 /\ quit s1 = true /\ quitters s1 = O /\ rtc step s1 s /\
  at_ s = AtPoll /\ quit s = false /\ count s = O /\ writers s = O /\ quitters s = O /\ pending s = [].
Proof.
  exists (mkState AtStart [] false true 1 0 0 [] []), (mkState AtPoll [] false false 0 0 0 [] []).
  split_and!; try done.
  - eapply rtc_l; [by apply other_quit|]. apply rtc_once. by apply (other_quit_wake 0).
  - eapply rtc_l; [by apply enter|]. eapply rtc_l; [by apply test_poll|].
    eapply rtc_l; [by apply (poll _ true)|]. eapply rtc_l; [by apply handle_wake|].
    eapply rtc_l; [by apply swap|]. eapply rtc_l; [by apply set_doing_step|].
    eapply rtc_l; [by apply tasks_done|]. apply rtc_once. by apply test_poll.
Qed.

(** ** Witnesses *)

(** Another thread queues a task while the loop is in epoll_wait. *)
Lemma no_lost_wakeup_witness :
  let s := mkState AtPoll [TaskUser 1] false false 0 1 0 [TaskUser 1] [] in
  reachable s /\ ((0 < count s)%nat \/ (0 < writers s)%nat \/ (0 < quitters s)%nat).
Proof.
  intros s. assert (Hr : reachable s).
  { eapply rtc_l; [by apply enter|]. eapply rtc_l; [by apply test_poll|].
    apply rtc_once. apply (other_push (TaskUser 1) (mkState AtPoll [] false false 0 0 0 [] [])). }
  split; [exact Hr|]. apply (no_lost_wakeup s Hr eq_refl). left. discriminate.
Defined.

Lemma tasks_fifo_once_witness :
  let s := mkState AtPoll [TaskUser 1] false false 0 1 0 [TaskUser 1] [] in
  pushed s = run s ++ batch s ++ pending s.
Proof.
  intros s. apply (tasks_fifo_once s).
  eapply rtc_l; [by apply enter|]. eapply rtc_l; [by apply test_poll|].
  apply rtc_once. apply (other_push (TaskUser 1) (mkState AtPoll [] false false 0 0 0 [] [])).
Defined.

#[local] Instance debug : Build := {| ndebug := false |}.
End Wake.
