(* ===== verification/ThreadPool.v ===== *)
(** ThreadPool (src/ThreadPool.hpp, src/ThreadPool.cc): a bounded queue of
    tasks between any number of producers that call runTask and the worker
    threads.  The critical sections are functions; a transition system
    interleaves them, with the condition variables' waits, notifications and
    spurious wakeups.  Tasks are known by a type [T]; running one is one step. *)

From S2P Require Import Prelude.

Module Pool.

Section pool.
Context {T : Type}.
Implicit Types (q : list T) (t : T).

(** ** The critical sections *)

(** runTask with the mutex held: [None] waits on notFull_; otherwise the task
    is pushed and notEmpty_ notified. *)
Definition runTask_section (maxQueueSize : nat) t q : option (list T) :=
  if bool_decide (maxQueueSize <= length q)%nat then None else Some (q ++ [t]).

(** take with the mutex held: wait on notEmpty_, or return a task (notifying
    notFull_) or the empty task. *)
Inductive take_result := TakeWait | TakeTask (t : T) (q : list T) | TakeEmpty.
Definition take_section q (running : bool) : take_result :=
  match q with
  | [] => if running then TakeWait else TakeEmpty
  | t :: q' => TakeTask t q'
  end.

(** ** Threads *)

(** A producer: outside runTask, about to enter its section (the first time or
    woken up), or waiting on notFull_. *)
Inductive producer := PIdle | PTry (t : T) | PWait (t : T).
(** A worker: at the test of its loop, about to enter take's section, waiting
    on notEmpty_, running a task, or finished. *)
Inductive worker := WTest | WTake | WWait | WRun (t : T) | WDone.
(** stop: not called, running_ cleared, workers notified, all joined. *)
Inductive stopping := Running | Cleared | Notified | Joined.

Record state := mkState {
  maxQueueSize_ : nat;
  taskQueue_ : list T;
  running_ : bool;
  producers : list producer;
  threads_ : list worker;
  stop_ : stopping;
  accepted : list T;                 (* pushed, in order *)
  taken : list T;                    (* popped, in order *)
  completed : list T                 (* run to the end, in order *)
}.

Definition init (max np nw : nat) : state :=
  mkState max [] true (replicate np PIdle) (replicate nw WTest) Running [] [] [].

Definition set_producers (l : list producer) (s : state) : state :=
  mkState (maxQueueSize_ s) (taskQueue_ s) (running_ s) l (threads_ s) (stop_ s)
    (accepted s) (taken s) (completed s).
Definition set_threads (l : list worker) (s : state) : state :=
  mkState (maxQueueSize_ s) (taskQueue_ s) (running_ s) (producers s) l (stop_ s)
    (accepted s) (taken s) (completed s).
Definition set_stop (b : bool) (p : stopping) (s : state) : state :=
  mkState (maxQueueSize_ s) (taskQueue_ s) b (producers s) (threads_ s) p
    (accepted s) (taken s) (completed s).
Definition complete t (s : state) : state :=
  mkState (maxQueueSize_ s) (taskQueue_ s) (running_ s) (producers s) (threads_ s) (stop_ s)
    (accepted s) (taken s) (completed s ++ [t]).

(** The section of runTask that pushed [t]: the queue is [q] now. *)
Definition pushed_queue t q (s : state) : state :=
  mkState (maxQueueSize_ s) q (running_ s) (producers s) (threads_ s) (stop_ s)
    (accepted s ++ [t]) (taken s) (completed s).
Definition popped_queue t q (s : state) : state :=
  mkState (maxQueueSize_ s) q (running_ s) (producers s) (threads_ s) (stop_ s)
    (accepted s) (taken s ++ [t]) (completed s).

(** notify_one: one waiting thread goes on, if there is one. *)
Definition waits_p (p : producer) : bool := match p with PWait _ => true | _ => false end.
Definition waits_w (x : worker) : bool := match x with WWait => true | _ => false end.
Definition wake_p (p : producer) : producer := match p with PWait t => PTry t | _ => p end.
Definition wake_w (x : worker) : worker := match x with WWait => WTake | _ => x end.

Inductive notify_one {X} (waits : X -> bool) (wake : X -> X) (l : list X) : list X -> Prop :=
  | notify_none : (forall x, x ∈ l -> waits x = false) -> notify_one waits wake l l
  | notify_some i x : l !! i = Some x -> waits x = true ->
      notify_one waits wake l (<[i := wake x]> l).

Inductive step : state -> state -> Prop :=
  (* runTask, called while assert(running_) holds *)
  | call i t s : producers s !! i = Some PIdle -> running_ s = true -> threads_ s <> [] ->
      step s (set_producers (<[i := PTry t]> (producers s)) s)
  | call_inline i t s : producers s !! i = Some PIdle -> running_ s = true -> threads_ s = [] ->
      step s (complete t s)
  | push i t q ws s : producers s !! i = Some (PTry t) ->
      runTask_section (maxQueueSize_ s) t (taskQueue_ s) = Some q ->
      notify_one waits_w wake_w (threads_ s) ws ->
      step s (pushed_queue t q (set_producers (<[i := PIdle]> (producers s)) (set_threads ws s)))
  | wait_full i t s : producers s !! i = Some (PTry t) ->
      runTask_section (maxQueueSize_ s) t (taskQueue_ s) = None ->
      step s (set_producers (<[i := PWait t]> (producers s)) s)
  | spurious_p i t s : producers s !! i = Some (PWait t) ->
      step s (set_producers (<[i := PTry t]> (producers s)) s)
  (* runInThread *)
  | test i s : threads_ s !! i = Some WTest ->
      step s (set_threads (<[i := if running_ s then WTake else WDone]> (threads_ s)) s)
  | take_wait i s : threads_ s !! i = Some WTake ->
      take_section (taskQueue_ s) (running_ s) = TakeWait ->
      step s (set_threads (<[i := WWait]> (threads_ s)) s)
  | take_task i t q ps s : threads_ s !! i = Some WTake ->
      take_section (taskQueue_ s) (running_ s) = TakeTask t q ->
      notify_one waits_p wake_p (producers s) ps ->
      step s (popped_queue t q (set_producers ps (set_threads (<[i := WRun t]> (threads_ s)) s)))
  | take_empty i s : threads_ s !! i = Some WTake ->
      take_section (taskQueue_ s) (running_ s) = TakeEmpty ->
      step s (set_threads (<[i := WTest]> (threads_ s)) s)
  | spurious_w i s : threads_ s !! i = Some WWait ->
      step s (set_threads (<[i := WTake]> (threads_ s)) s)
  | run_task i t s : threads_ s !! i = Some (WRun t) ->
      step s (complete t (set_threads (<[i := WTest]> (threads_ s)) s))
  (* stop *)
  | stop_clear s : stop_ s = Running -> step s (set_stop false Cleared s)
  | stop_notify s : stop_ s = Cleared ->
      step s (set_threads (wake_w <$> threads_ s) (set_stop (running_ s) Notified s))
  | stop_join s : stop_ s = Notified -> (forall x, x ∈ threads_ s -> x = WDone) ->
      step s (set_stop (running_ s) Joined s).

Definition reachable max np nw (s : state) : Prop := rtc step (init max np nw) s.

(** ** Counting *)

Definition count {X} (f : X -> bool) (l : list X) : nat :=
  foldr (fun x n => (if f x then 1 else 0) + n)%nat O l.

Lemma count_app {X} (f : X -> bool) l1 l2 : count f (l1 ++ l2) = (count f l1 + count f l2)%nat.
Proof. induction l1 as [|x l1 IH]; simpl; [done|]. rewrite IH. lia. Qed.
Lemma count_cons {X} (f : X -> bool) x l :
  count f (x :: l) = ((if f x then 1 else 0) + count f l)%nat.
Proof. done. Qed.

Lemma count_insert {X} (f : X -> bool) l i x y :
  l !! i = Some y ->
  (count f (<[i := x]> l) + (if f y then 1 else 0) = count f l + (if f x then 1 else 0))%nat.
Proof.
  intros Hi. rewrite <- (take_drop_middle l i y Hi) at 2.
  rewrite insert_take_drop by by eapply lookup_lt_Some.
  rewrite !count_app, !count_cons. lia.
Qed.

Lemma count_0 {X} (f : X -> bool) l : count f l = O <-> forall x, x ∈ l -> f x = false.
Proof.
  induction l as [|x l IH]; [split; [by intros _ x ?%not_elem_of_nil|done]|].
  rewrite count_cons. split.
  - intros Hc y [->|Hy]%elem_of_cons; [by destruct (f x)|]. apply IH; [lia|done].
  - intros Hf. rewrite (Hf x) by left. apply IH. intros y Hy. apply Hf. by right.
Qed.

(** ** Invariant *)

Definition is_try (p : producer) : bool := match p with PTry _ => true | _ => false end.
(** A worker that will look at the queue again, or is running a task. *)
Definition active (x : worker) : bool := match x with WWait | WDone => false | _ => true end.
Definition is_done (x : worker) : bool := match x with WDone => true | _ => false end.
Definition running_tasks (l : list worker) : list T :=
  flat_map (fun x => match x with WRun t => [t] | _ => [] end) l.

Record inv (s : state) : Prop := {
  inv_bound : (length (taskQueue_ s) <= maxQueueSize_ s)%nat;
  (* tasks leave the queue in the order they entered it *)
  inv_fifo : accepted s = taken s ++ taskQueue_ s;
  (* a task that left the queue is run once *)
  inv_once : threads_ s <> [] -> taken s ≡ₚ completed s ++ running_tasks (threads_ s);
  (* queued tasks have a worker to take them *)
  inv_notEmpty : running_ s = true -> taskQueue_ s <> [] -> (0 < count active (threads_ s))%nat;
  (* free places have a producer that is about to use them *)
  inv_notFull : (0 < count waits_p (producers s))%nat ->
    (maxQueueSize_ s <= length (taskQueue_ s) + count is_try (producers s))%nat;
  (* without workers the tasks are run in place *)
  inv_inline : threads_ s = [] ->
    count is_try (producers s) = O /\ count waits_p (producers s) = O;
  inv_running : running_ s = match stop_ s with Running => true | _ => false end;
  inv_done : running_ s = true -> count is_done (threads_ s) = O;
  inv_notified : match stop_ s with Notified | Joined => count waits_w (threads_ s) = O | _ => True end
}.

Lemma notify_count {X} (waits : X -> bool) wake l l' (f : X -> bool) (b : bool) :
  notify_one waits wake l l' ->
  (forall x, waits x = true -> f x = negb b) -> (forall x, waits x = true -> f (wake x) = b) ->
  count f l' = count f l \/
  ((if b then count f l' = S (count f l) else S (count f l') = count f l)%nat).
Proof.
  intros [Hn|i x Hi Hw] H1 H2; [by left|]. right.
  pose proof (count_insert f l i (wake x) x Hi) as Hc. rewrite H1, H2 in Hc by done.
  destruct b; simpl in Hc; lia.
Qed.

(** A thread waited and was notified, or none did. *)
Lemma notify_wakes {X} (waits : X -> bool) wake l l' (f : X -> bool) :
  notify_one waits wake l l' ->
  (forall x, waits x = true -> f x = false) -> (forall x, waits x = true -> f (wake x) = true) ->
  (count waits l = O /\ l' = l) \/ count f l' = S (count f l).
Proof.
  intros [Hn|i x Hi Hw] H1 H2; [left; by rewrite count_0|]. right.
  pose proof (count_insert f l i (wake x) x Hi) as Hc. rewrite H1, H2 in Hc by done. lia.
Qed.

Lemma running_insert l i x y :
  l !! i = Some y -> (forall t, y <> WRun t) ->
  running_tasks (<[i := x]> l) ≡ₚ running_tasks [x] ++ running_tasks l.
Proof.
  intros Hi Hy. rewrite <- (take_drop_middle l i y Hi) at 2.
  rewrite insert_take_drop by by eapply lookup_lt_Some. unfold running_tasks.
  rewrite !flat_map_app. simpl. assert (match y with WRun t => [t] | _ => [] end = []) as ->
    by (destruct y; try done; by destruct (Hy t)).
  simpl. rewrite app_nil_r. solve_Permutation.
Qed.

Lemma running_done l i x t :
  l !! i = Some (WRun t) -> (forall t, x <> WRun t) ->
  running_tasks l ≡ₚ t :: running_tasks (<[i := x]> l).
Proof.
  intros Hi Hx. rewrite <- (take_drop_middle l i _ Hi) at 1.
  rewrite insert_take_drop by by eapply lookup_lt_Some. unfold running_tasks.
  rewrite !flat_map_app. simpl. assert (match x with WRun t => [t] | _ => [] end = []) as ->
    by (destruct x; try done; by destruct (Hx t0)).
  simpl. solve_Permutation.
Qed.

Lemma insert_nil {X} (l : list X) i x : <[i := x]> l = [] -> l = [].
Proof. by destruct l, i. Qed.
Lemma notify_nil {X} (waits : X -> bool) wake l l' : notify_one waits wake l l' -> l' = [] -> l = [].
Proof. intros Hn E. destruct Hn; [done|by eapply insert_nil]. Qed.

Lemma running_notify l l' : notify_one waits_w wake_w l l' -> running_tasks l' ≡ₚ running_tasks l.
Proof.
  intros [|i x Hi Hw]; [done|]. destruct x; try done. by rewrite (running_insert l i WTake WWait).
Qed.
Lemma running_wake_all l : running_tasks (wake_w <$> l) = running_tasks l.
Proof.
  unfold running_tasks. induction l as [|x l IH]; [done|]. rewrite fmap_cons. simpl. rewrite IH.
  by destruct x.
Qed.

Lemma count_wake_all f l : (forall x, f (wake_w x) = f x) -> count f (wake_w <$> l) = count f l.
Proof. intros Hf. induction l as [|x l IH]; [done|]. rewrite fmap_cons, !count_cons, Hf, IH. done. Qed.

Lemma pool_init max np nw : inv (init max np nw).
Proof.
  assert (Hc : forall X (f : X -> bool) n x, f x = false -> count f (replicate n x) = O).
  { intros X f n x Hf. apply count_0. intros y Hy. apply elem_of_replicate in Hy as [-> _]. done. }
  split; simpl; auto with lia.
  - intros _. induction nw; simpl; auto.
  - done.
  - rewrite Hc by done. lia.
Qed.

(** Steps of a worker that do not touch the queue. *)
Lemma inv_threads s i x y :
  inv s -> threads_ s !! i = Some y -> (forall t, y <> WRun t) -> (forall t, x <> WRun t) ->
  (active x = true \/ taskQueue_ s = [] \/ running_ s = false) ->
  (is_done x = true -> running_ s = false) ->
  (x = WWait -> running_ s = true) ->
  inv (set_threads (<[i := x]> (threads_ s)) s).
Proof.
  intros [Hb Hf Ho He Hfull Hin Hr Hd Hn] Hi Hy Hx Hact Hdone Hwait. split; simpl; auto.
  - intros _. rewrite running_insert by done. assert (threads_ s <> []) by (by intros E; rewrite E in Hi).
    rewrite Ho by done. simpl. destruct x; simpl; try done. by destruct (Hx t).
  - intros Hrun Hq. specialize (He Hrun Hq). pose proof (count_insert active _ _ x _ Hi) as Hc.
    destruct Hact as [Ha|[?|?]]; [|done|congruence]. rewrite Ha in Hc. destruct (active y); lia.
  - intros E%insert_nil. auto.
  - intros Hrun. specialize (Hd Hrun). pose proof (count_insert is_done _ _ x _ Hi) as Hc.
    destruct (is_done x) eqn:E; [rewrite Hdone in Hrun by done; done|]. lia.
  - destruct (stop_ s) eqn:Es; auto; pose proof (count_insert waits_w _ _ x _ Hi) as Hc;
      (destruct (waits_w x) eqn:E; [destruct x; try done; rewrite (Hwait eq_refl) in Hr; done|lia]).
Qed.

(** Steps of a producer that do not touch the queue. *)
Lemma inv_producers s l :
  inv s ->
  ((0 < count waits_p l)%nat -> (maxQueueSize_ s <= length (taskQueue_ s) + count is_try l)%nat) ->
  (threads_ s = [] -> count is_try l = O /\ count waits_p l = O) ->
  inv (set_producers l s).
Proof. intros [Hb Hf Ho He Hfull Hin Hr Hd Hn] Hl. by split. Qed.

Lemma inv_push s i t q ws :
  inv s -> producers s !! i = Some (PTry t) ->
  runTask_section (maxQueueSize_ s) t (taskQueue_ s) = Some q ->
  notify_one waits_w wake_w (threads_ s) ws -> threads_ s <> [] ->
  inv (pushed_queue t q (set_producers (<[i := PIdle]> (producers s)) (set_threads ws s))).
Proof.
  intros [Hb Hf Ho He Hfull Hin Hr Hd Hn] Hi Hq Hws Hne. unfold runTask_section in Hq.
  case_bool_decide; [done|]. injection Hq as <-.
  pose proof (count_insert waits_p _ _ PIdle _ Hi) as Hcw.
  pose proof (count_insert is_try _ _ PIdle _ Hi) as Hct. simpl in Hcw, Hct.
  pose proof (notify_count _ _ _ _ is_done false Hws) as Hnd.
  split; simpl; rewrite ?length_app; simpl; auto with lia.
  - rewrite Hf. by rewrite app_assoc.
  - intros _. by rewrite (running_notify _ _ Hws), Ho.
  - intros Hrun _. destruct (notify_wakes _ _ _ _ active Hws) as [[Hz ->]|?]; [by intros []|by intros []| |lia].
    specialize (Hd Hrun). destruct (threads_ s) as [|x l]; [done|]. rewrite !count_cons in *.
    destruct x; simpl in *; lia.
  - intros E%(notify_nil _ _ _ _ Hws). done.
  - intros Hrun. rewrite <- Hd by done. destruct Hws as [|j x Hj Hx]; [done|].
    pose proof (count_insert is_done _ _ (wake_w x) _ Hj) as Hc. destruct x; try done.
    simpl in *. lia.
  - destruct (stop_ s); auto; destruct Hws as [|j x Hj Hx]; auto;
      pose proof (count_insert waits_w _ _ (wake_w x) _ Hj) as Hc; rewrite Hx in Hc;
      destruct x; try done; simpl in *; lia.
Qed.

Lemma inv_take s i t q ps :
  inv s -> threads_ s !! i = Some WTake ->
  take_section (taskQueue_ s) (running_ s) = TakeTask t q ->
  notify_one waits_p wake_p (producers s) ps ->
  inv (popped_queue t q (set_producers ps (set_threads (<[i := WRun t]> (threads_ s)) s))).
Proof.
  intros [Hb Hf Ho He Hfull Hin Hr Hd Hn] Hi Hq Hps. unfold take_section in Hq.
  destruct (taskQueue_ s) as [|t' q'] eqn:Hque; [by destruct (running_ s)|]. injection Hq as <- <-.
  assert (Hne : threads_ s <> []) by (by intros E; rewrite E in Hi).
  pose proof (count_insert active _ _ (WRun t') _ Hi) as Hca.
  pose proof (count_insert is_done _ _ (WRun t') _ Hi) as Hcd.
  pose proof (count_insert waits_w _ _ (WRun t') _ Hi) as Hcw. simpl in *.
  split; simpl; auto with lia.
  - rewrite Hf. by rewrite <- app_assoc.
  - intros _. rewrite running_insert by done. rewrite Ho by done. simpl. solve_Permutation.
  - intros Hrun _. specialize (He Hrun ltac:(done)). lia.
  - destruct (notify_wakes _ _ _ _ is_try Hps) as [[Hz ->]|Ht]; [by intros []|by intros []|lia|].
    intros _. destruct Hps as [Hz|j x Hj Hx]; [lia|].
    assert (0 < count waits_p (producers s))%nat as Hpos.
    { destruct (count waits_p (producers s)) eqn:E; [|lia]. rewrite count_0 in E.
      rewrite (E x) in Hx; [done|by eapply list_elem_of_lookup_2]. }
    specialize (Hfull Hpos). lia.
  - by intros E%insert_nil.
  - intros Hrun. specialize (Hd Hrun). lia.
  - destruct (stop_ s); auto; lia.
Qed.

Lemma inv_finish s i t :
  inv s -> threads_ s !! i = Some (WRun t) ->
  inv (complete t (set_threads (<[i := WTest]> (threads_ s)) s)).
Proof.
  intros [Hb Hf Ho He Hfull Hin Hr Hd Hn] Hi.
  assert (Hne : threads_ s <> []) by (by intros E; rewrite E in Hi).
  pose proof (count_insert active _ _ WTest _ Hi) as Hca.
  pose proof (count_insert is_done _ _ WTest _ Hi) as Hcd.
  pose proof (count_insert waits_w _ _ WTest _ Hi) as Hcw. simpl in *.
  split; simpl; auto with lia.
  - intros _. rewrite Ho by done. rewrite (running_done _ i WTest t) by done. solve_Permutation.
  - intros Hrun Hq. specialize (He Hrun Hq). lia.
  - by intros E%insert_nil.
  - intros Hrun. specialize (Hd Hrun). lia.
  - destruct (stop_ s); auto; lia.
Qed.

Lemma inv_notify s : inv s -> stop_ s = Cleared ->
  inv (set_threads (wake_w <$> threads_ s) (set_stop (running_ s) Notified s)).
Proof.
  intros [Hb Hf Ho He Hfull Hin Hr Hd Hn] Hs. rewrite Hs in Hr.
  assert (Hnil : wake_w <$> threads_ s = [] -> threads_ s = []) by apply fmap_nil_inv.
  split; simpl; auto; try congruence.
  - intros Hne. rewrite running_wake_all. apply Ho. intros E. apply Hne. by rewrite E.
  - apply count_0. intros x (y&->&_)%list_elem_of_fmap. by destruct y.
Qed.

Lemma pool_step_inv s s' : step s s' -> inv s -> inv s'.
Proof.
  intros Hstep Hinv. pose proof Hinv as [Hb Hf Ho He Hfull Hin Hr Hd Hn].
  destruct Hstep as [i t s Hi Hrun Hne|i t s Hi Hrun Hne|i t q ws s Hi Hq Hws|i t s Hi Hq|i t s Hi|
    i s Hi|i s Hi Hq|i t q ps s Hi Hq Hps|i s Hi Hq|i s Hi|i t s Hi|s Hs|s Hs|s Hs Hall].
  - pose proof (count_insert waits_p _ _ (PTry t) _ Hi) as H1.
    pose proof (count_insert is_try _ _ (PTry t) _ Hi) as H2. simpl in *.
    apply inv_producers; [done|lia|done].
  - split; simpl; auto. by intros [].
  - pose proof (count_insert is_try _ _ PIdle _ Hi) as H2. simpl in H2.
    apply inv_push; auto. intros E. destruct (Hin E). lia.
  - pose proof (count_insert waits_p _ _ (PWait t) _ Hi) as H1.
    pose proof (count_insert is_try _ _ (PWait t) _ Hi) as H2. simpl in *.
    unfold runTask_section in Hq. case_bool_decide; [|done].
    apply inv_producers; [done|lia|]. intros E. destruct (Hin E). lia.
  - pose proof (count_insert waits_p _ _ (PTry t) _ Hi) as H1.
    pose proof (count_insert is_try _ _ (PTry t) _ Hi) as H2. simpl in *.
    apply inv_producers; [done| |].
    + intros Hw. assert (0 < count waits_p (producers s))%nat as Hw' by lia. specialize (Hfull Hw'). lia.
    + intros E. destruct (Hin E). lia.
  - eapply inv_threads; eauto; destruct (running_ s); auto; done.
  - unfold take_section in Hq. destruct (taskQueue_ s) eqn:Hq'; [|done].
    destruct (running_ s) eqn:Hrun; [|done]. eapply inv_threads; eauto; done.
  - by apply inv_take.
  - eapply inv_threads; eauto; done.
  - eapply inv_threads; eauto; done.
  - by apply inv_finish.
  - split; simpl; auto; done.
  - by apply inv_notify.
  - rewrite Hs in Hr, Hn. split; simpl; auto.
Qed.

Lemma pool_reachable max np nw s : reachable max np nw s -> inv s.
Proof.
  intros Hr. refine (rtc_ind_r (R := step) inv _ (pool_init max np nw) _ s Hr).
  intros s1 s2 _ Hs. by apply pool_step_inv.
Qed.

Lemma step_size s s' : step s s' ->
  length (threads_ s') = length (threads_ s) /\ maxQueueSize_ s' = maxQueueSize_ s.
Proof.
  assert (Hn : forall X (waits : X -> bool) wake l l', notify_one waits wake l l' -> length l' = length l)
    by (intros X waits wake l l' []; by rewrite ?length_insert).
  intros []; simpl; rewrite ?length_insert, ?length_fmap; split; eauto.
Qed.
Lemma reachable_size max np nw s : reachable max np nw s ->
  length (threads_ s) = nw /\ maxQueueSize_ s = max.
Proof.
  intros Hr. refine (rtc_ind_r (R := step)
    (fun s => length (threads_ s) = nw /\ maxQueueSize_ s = max) _ _ _ s Hr).
  - simpl. by rewrite length_replicate.
  - intros s1 s2 _ [-> ->]%step_size. done.
Qed.

Lemma notify_exists {X} (waits : X -> bool) wake (l : list X) : exists l', notify_one waits wake l l'.
Proof.
  destruct (decide (count waits l = O)) as [Hz|Hz].
  - exists l. constructor. by apply count_0.
  - assert (exists i x, l !! i = Some x /\ waits x = true) as (i&x&Hi&Hx).
    { induction l as [|x l IH]; [done|]. rewrite count_cons in Hz. destruct (waits x) eqn:E.
      - by exists O, x.
      - destruct IH as (i&y&?&?); [done|]. by exists (S i), y. }
    eexists. by eapply notify_some.
Qed.

(** The steps a worker is from its end once running_ is cleared. *)
Definition weight (x : worker) : nat :=
  match x with WDone => 0 | WTest => 1 | WRun _ => 2 | WTake | WWait => 3 end.
Definition weights (l : list worker) : nat := total weight l.

Lemma weights_insert l i x y : l !! i = Some y ->
  (weights (<[i := x]> l) + weight y = weights l + weight x)%nat.
Proof. apply total_insert. Qed.

(** Once the workers are notified, one that is not finished has a step that
    brings it closer to its end. *)
Lemma worker_step s : inv s -> stop_ s = Notified -> weights (threads_ s) <> O ->
  exists s', step s s' /\ stop_ s' = Notified /\ (weights (threads_ s') < weights (threads_ s))%nat.
Proof.
  intros [_ _ _ _ _ _ Hr _ Hn] Hs Hw. rewrite Hs in Hr, Hn.
  assert (exists i x, threads_ s !! i = Some x /\ weight x <> O) as (i&x&Hi&Hx).
  { clear -Hw. induction (threads_ s) as [|x l IH]; simpl in *; [done|].
    destruct (decide (weight x = O)); [|by exists O, x].
    destruct IH as (i&y&?&?); [lia|]. by exists (S i), y. }
  pose proof (weights_insert _ i WTest x Hi) as W1. pose proof (weights_insert _ i WDone x Hi) as W0.
  destruct x as [| | |t|]; try done; simpl in *.
  - eexists. split; [by apply (test i)|]. rewrite Hr. simpl. split; [done|]. lia.
  - destruct (take_section (taskQueue_ s) (running_ s)) as [|t q|] eqn:Hq.
    + unfold take_section in Hq. rewrite Hr in Hq. by destruct (taskQueue_ s).
    + destruct (notify_exists waits_p wake_p (producers s)) as [ps Hps].
      eexists. split; [by eapply (take_task i)|]. simpl. split; [done|].
      pose proof (weights_insert _ i (WRun t) WTake Hi). simpl in *. lia.
    + eexists. split; [by apply (take_empty i)|]. simpl. split; [done|]. lia.
  - exfalso. rewrite count_0 in Hn. apply list_elem_of_lookup_2 in Hi. by apply Hn in Hi.
  - eexists. split; [by apply (run_task i t)|]. simpl. split; [done|]. lia.
Qed.

Lemma weights_0 l : weights l = O -> forall x, x ∈ l -> x = WDone.
Proof.
  induction l as [|y l IH]; simpl; intros Hw x Hx; [by apply not_elem_of_nil in Hx|].
  apply elem_of_cons in Hx as [->|Hx]; [destruct y; simpl in *; try done; lia|]. apply IH; [lia|done].
Qed.

Lemma workers_end n s : (weights (threads_ s) <= n)%nat -> inv s -> stop_ s = Notified ->
  exists s', rtc step s s' /\ stop_ s' = Joined.
Proof.
  revert s. induction n as [|n IH]; intros s Hn Hinv Hs.
  - eexists. split; [|shelve]. apply rtc_once, stop_join; [done|]. apply weights_0. lia.
    Unshelve. done.
  - destruct (decide (weights (threads_ s) = O)) as [Hz|Hz].
    + eexists. split; [|shelve]. apply rtc_once, stop_join; [done|]. by apply weights_0.
      Unshelve. done.
    + destruct (worker_step s Hinv Hs Hz) as (s1&Hst&Hs1&Hw).
      destruct (IH s1) as (s'&?&?); [lia|by eapply pool_step_inv|done|].
      exists s'. split; [|done]. by eapply rtc_l.
Qed.

(** ** Properties *)

(** C12: the queue is bounded and FIFO, and no task is lost or run twice: the
    tasks accepted are the tasks taken out, in order, followed by those queued;
    the tasks taken out are those completed and those being run. *)
Theorem pool_conserves_tasks max np nw s :
  reachable max np nw s ->
  (length (taskQueue_ s) <= max)%nat /\ accepted s = taken s ++ taskQueue_ s /\
  (nw <> O -> taken s ≡ₚ completed s ++ running_tasks (threads_ s)).
Proof.
  intros Hr. destruct (reachable_size _ _ _ _ Hr) as [Hl Hm].
  destruct (pool_reachable _ _ _ _ Hr) as [Hb Hf Ho _ _ _ _ _ _]. rewrite <- Hm.
  split; [done|]. split; [done|]. intros Hnw. apply Ho. intros E. rewrite E in Hl. simpl in Hl. lia.
Qed.


(** Stop ends the workers. Once it has notified them none is waiting, and
    each comes to its end in a bounded number of its own steps whatever is
    queued, so that stop returns. *)
Theorem stop_joins_workers max np nw s :
  reachable max np nw s -> stop_ s = Notified ->
  (forall x, x ∈ threads_ s -> x <> WWait) /\ exists s', rtc step s s' /\ stop_ s' = Joined.
Proof.
  intros Hr Hs. pose proof (pool_reachable _ _ _ _ Hr) as Hinv. split.
  - intros x Hx ->. pose proof (inv_notified _ Hinv) as Hn. rewrite Hs, count_0 in Hn.
    by apply Hn in Hx.
  - by apply (workers_end (weights (threads_ s))).
Qed.

(** The first producer is inside runTask, the queue is full and no worker is
    left. *)
Definition stranded (s : state) : Prop :=
  (exists p l, producers s = p :: l /\ (is_try p || waits_p p) = true) /\
  (maxQueueSize_ s <= length (taskQueue_ s))%nat /\ running_ s = false /\
  stop_ s = Joined /\ forall x, x ∈ threads_ s -> x = WDone.

Lemma stranded_step s s' : stranded s -> step s s' -> stranded s'.
Proof.
  intros ((p&l&Hp&Hin)&Hfull&Hrun&Hs&Hd) Hstep.
  assert (Hno : forall i x, threads_ s !! i = Some x -> x = WDone)
    by (intros i x Hi; apply list_elem_of_lookup_2 in Hi; auto).
  destruct Hstep; try congruence;
    try (match goal with Hi : threads_ _ !! _ = Some _ |- _ => apply Hno in Hi; congruence end).
  - unfold runTask_section in *. case_bool_decide; [done|lia].
  - split; [|auto]. simpl. rewrite Hp in *. destruct i as [|i]; simpl in *.
    + simplify_eq. by eexists _, _.
    + by eexists _, _.
  - split; [|auto]. simpl. rewrite Hp in *. destruct i as [|i]; simpl in *.
    + simplify_eq. by eexists _, _.
    + by eexists _, _.
Qed.

(** Stop can strand a producer. It notifies only notEmpty_: with the queue
    full, a producer that waits on notFull_ when the pool is stopped never
    returns from runTask, and the tasks still queued are never run. *)
Theorem stop_strands_producer (t : T) : exists s,
  reachable 1 1 1 s /\ stop_ s = Joined /\ producers s = [PWait t] /\ taskQueue_ s = [t] /\
  completed s = [] /\
  forall s', rtc step s s' -> exists p l, producers s' = p :: l /\ p <> PIdle.
Proof.
  exists (mkState 1 [t] false [PWait t] [WDone] Joined [t] [] []). split_and!; try done.
  - eapply rtc_l; [by apply (call 0 t)|]. eapply rtc_l.
    { apply (push 0 t [t] [WTest]); [done|done|]. constructor.
      intros x Hx. apply list_elem_of_singleton in Hx as ->. done. }
    eapply rtc_l; [by apply (call 0 t)|]. eapply rtc_l; [by apply (wait_full 0 t)|].
    eapply rtc_l; [by apply stop_clear|]. eapply rtc_l; [by apply (test 0)|].
    eapply rtc_l; [by apply stop_notify|]. apply rtc_once.
    apply stop_join; [done|]. simpl. intros x Hx. by apply list_elem_of_singleton in Hx as ->.
  - intros s' Hr.
    assert (stranded s') as ((p&l&Hp&Hin)&_).
    { refine (rtc_ind_r (R := step) stranded _ _ _ s' Hr).
      - split; [by eexists _, _|]. split_and!; auto. intros x Hx.
        by apply list_elem_of_singleton in Hx as ->.
      - intros s1 s2 _ Hst Hs1. by eapply stranded_step. }
    exists p, l. split; [done|]. by intros ->.
Qed.
End pool.

(** ** Witnesses *)

(** One producer has queued the task 5 and waits with the task 6; the worker is
    at the test of its loop. *)
Definition example : state (T := nat) :=
  mkState 1 [5%nat] true [PWait 6%nat] [WTest] Running [5%nat] [] [].

Lemma example_reachable : reachable 1 1 1 example.
Proof.
  eapply rtc_l; [by apply (call 0 5%nat)|]. eapply rtc_l.
  { apply (push 0 5%nat [5%nat] [WTest]); [done|done|]. constructor.
    intros x Hx. apply list_elem_of_singleton in Hx as ->. done. }
  eapply rtc_l; [by apply (call 0 6%nat)|]. apply rtc_once. by apply (wait_full 0 6%nat).
Qed.

Lemma pool_conserves_tasks_witness :
  (length (taskQueue_ example) <= 1)%nat /\ accepted example = taken example ++ taskQueue_ example.
Proof.
  destruct (pool_conserves_tasks 1 1 1 example example_reachable) as (Hl&Hf&_). split; assumption.
Defined.


Lemma stop_joins_workers_witness : exists s',
  rtc step (mkState 1 [5%nat] false [PWait 6%nat] [WTest] Notified [5%nat] [] []) s' /\ stop_ s' = Joined.
Proof.
  refine (proj2 (stop_joins_workers 1 1 1
    (mkState 1 [5%nat] false [PWait 6%nat] [WTest] Notified [5%nat] [] []) _ eq_refl)).
  unfold reachable. etrans; [exact example_reachable|].
  eapply rtc_l; [by apply stop_clear|]. apply rtc_once. by apply (stop_notify (set_stop false Cleared example)).
Defined.
End Pool.
