(* ===== verification/LoopThread.v ===== *)
(** CountDownLatch (src/CountDownLatch.hpp) and EventLoopThread
    (src/EventLoopThread.hpp, src/EventLoopThread.cc): a thread that owns an
    event loop, handed to its creator through a latch and stopped by the
    destructor.  The critical sections of the latch are functions; the two
    threads are interleaved by a transition system.  Of the event loop only
    quit_ is kept (src/EventLoop.cc: loop resets it, then runs until it is set). *)

From S2P Require Import Prelude.

(** ** CountDownLatch *)

Module Latch.
(** count with the mutex held: the new count, and whether all are notified. *)
Definition count_section (count : Z) : Z * bool := (count - 1, count - 1 <=? 0).
(** wait with the mutex held: whether to wait. *)
Definition wait_section (count : Z) : bool := 0 <? count.
End Latch.

Module LThread.

(** The creator: before startLoop; inside latch_.wait(), about to look at the
    count or waiting; past it, about to check and return loop_; holding the
    loop; in the destructor, about to quit the loop, to join, and done. *)
Inductive creator := CIdle | CLook | CWaiting | CCheck | CHolds | CQuitting | CJoining | CGone.
(** runInThread: not started, constructing the loop, loop_ set, latch counted
    down, in loop(), loop() returned, ended. *)
Inductive thread := TNone | TConstruct | TSet | TCounted | TLooping | TExited | TEnded.

Record state := mkState {
  started_ : bool;
  loop_ : bool;                      (* loop_ != nullptr *)
  latch_ : Z;
  creator_ : creator;
  thread_ : thread;
  quit_ : bool;                      (* of the loop object *)
  dangling : bool                    (* quit was called on a destroyed loop *)
}.

Definition init : state := mkState false false 1 CIdle TNone false false.

Definition set_creator (c : creator) (s : state) : state :=
  mkState (started_ s) (loop_ s) (latch_ s) c (thread_ s) (quit_ s) (dangling s).
Definition set_thread (t : thread) (s : state) : state :=
  mkState (started_ s) (loop_ s) (latch_ s) (creator_ s) t (quit_ s) (dangling s).
Definition set_loop (b : bool) (s : state) : state :=
  mkState (started_ s) b (latch_ s) (creator_ s) (thread_ s) (quit_ s) (dangling s).
Definition set_quit (b : bool) (s : state) : state :=
  mkState (started_ s) (loop_ s) (latch_ s) (creator_ s) (thread_ s) b (dangling s).
Definition set_latch (n : Z) (s : state) : state :=
  mkState (started_ s) (loop_ s) n (creator_ s) (thread_ s) (quit_ s) (dangling s).
Definition set_started (s : state) : state :=
  mkState true (loop_ s) (latch_ s) (creator_ s) (thread_ s) (quit_ s) (dangling s).
Definition set_dangling (s : state) : state :=
  mkState (started_ s) (loop_ s) (latch_ s) (creator_ s) (thread_ s) (quit_ s) true.

(** notify_all reaches the creator if it waits. *)
Definition notify (b : bool) (s : state) : state :=
  match b, creator_ s with true, CWaiting => set_creator CLook s | _, _ => s end.

Inductive step : state -> state -> Prop :=
  (* startLoop: assert(!started_); assert(loop_ == nullptr) *)
  | start s : creator_ s = CIdle -> started_ s = false -> loop_ s = false ->
      step s (set_creator CLook (set_thread TConstruct (set_started s)))
  | look s : creator_ s = CLook ->
      step s (set_creator (if Latch.wait_section (latch_ s) then CWaiting else CCheck) s)
  | spurious s : creator_ s = CWaiting -> step s (set_creator CLook s)
  | check s : creator_ s = CCheck -> step s (set_creator CHolds s)
  (* runInThread *)
  | set_loop_step s : thread_ s = TConstruct -> step s (set_thread TSet (set_loop true s))
  | count_down s n b : thread_ s = TSet -> Latch.count_section (latch_ s) = (n, b) ->
      step s (notify b (set_thread TCounted (set_latch n s)))
  | enter_loop s : thread_ s = TCounted -> step s (set_thread TLooping (set_quit false s))
  | leave_loop s : thread_ s = TLooping -> quit_ s = true -> step s (set_thread TExited s)
  | clear_loop s : thread_ s = TExited -> step s (set_thread TEnded (set_loop false s))
  (* the destructor *)
  | destroy s : creator_ s = CIdle \/ creator_ s = CHolds ->
      step s (set_creator (if started_ s then if loop_ s then CQuitting else CJoining else CGone) s)
  | quit_loop s : creator_ s = CQuitting ->
      step s (set_creator CJoining
        (match thread_ s with TEnded => set_dangling s | _ => set_quit true s end))
  | join s : creator_ s = CJoining -> thread_ s = TEnded -> step s (set_creator CGone s).

(** Code the loop runs for its user quits it; the loop has been handed out. *)
Inductive user_step : state -> state -> Prop :=
  | user_quit s : thread_ s = TLooping -> creator_ s = CHolds \/ creator_ s = CQuitting \/ creator_ s = CJoining ->
      user_step s (set_quit true s).

Definition any_step (s s' : state) : Prop := step s s' \/ user_step s s'.
Definition reachable (s : state) : Prop := rtc any_step init s.

(** ** Invariant *)

(** The loop exists from the time loop_ is set until the thread leaves loop(). *)
Definition alive (t : thread) : bool :=
  match t with TSet | TCounted | TLooping | TExited => true | _ => false end.
Definition spawned (t : thread) : bool := match t with TNone => false | _ => true end.
Definition counted (t : thread) : bool :=
  match t with TNone | TConstruct | TSet => false | _ => true end.
Definition handed_out (c : creator) : bool :=
  match c with CIdle | CLook | CWaiting | CCheck => false | _ => true end.

Record inv (s : state) : Prop := {
  inv_loop : loop_ s = alive (thread_ s);
  inv_latch : latch_ s = if counted (thread_ s) then 0 else 1;
  inv_wait : creator_ s = CWaiting -> counted (thread_ s) = false /\ thread_ s <> TNone;
  inv_look : creator_ s = CLook -> thread_ s <> TNone;
  inv_check : creator_ s = CCheck -> counted (thread_ s) = true;
  inv_before : handed_out (creator_ s) = false ->
    quit_ s = false /\ thread_ s <> TExited /\ thread_ s <> TEnded;
  inv_started : started_ s = spawned (thread_ s)
}.

Lemma thread_step_inv s s' : any_step s s' -> inv s -> inv s'.
Proof.
  intros Hstep [Hl Hla Hw Hk Hc Hb Hst].
  destruct s as [st lp la cr th qu da]; simpl in *.
  destruct th, cr; simpl in *; subst; try (by destruct (Hc eq_refl)); try (by destruct (Hw eq_refl)); try (by destruct (Hk eq_refl));
    try (destruct (Hb eq_refl) as (->&?&?); try done);
    (destruct Hstep as [Hs|Hs]; inversion Hs; subst; simpl in *; try done; clear Hs);
    repeat match goal with
    | H : _ \/ _ |- _ => destruct H; try done
    | H : Latch.count_section _ = _ |- _ => unfold Latch.count_section in H; simplify_eq/=
    end; by split.
Qed.

Lemma thread_reachable s : reachable s -> inv s.
Proof.
  intros Hr. refine (rtc_ind_r (R := any_step) inv init _ _ s Hr); [by split|].
  intros s1 s2 _ Hs. by apply thread_step_inv.
Qed.

(** ** Properties *)

(** StartLoop hands out a live loop: when it is past the latch, loop_ is
    set, the loop exists and has not been left. While it waits on the latch the
    thread has still to count it down, so it is never left waiting. *)
Theorem startLoop_returns_loop s :
  reachable s ->
  (creator_ s = CCheck -> loop_ s = true /\ (thread_ s = TCounted \/ thread_ s = TLooping)) /\
  (creator_ s = CWaiting -> thread_ s = TConstruct \/ thread_ s = TSet).
Proof.
  intros [Hl Hla Hw Hk Hc Hb Hst]%thread_reachable. split; intros Hcr; rewrite Hcr in *; simpl in *.
  - specialize (Hc eq_refl). destruct (Hb eq_refl) as (_&?&?). rewrite Hl.
    destruct (thread_ s); simpl in *; try done; auto.
  - destruct (Hw eq_refl). destruct (thread_ s); simpl in *; try done; auto.
Qed.

(** The destructor can hang. Destroying the EventLoopThread right after
    startLoop can set quit_ before the thread enters loop(), which resets it:
    the creator then joins a thread whose loop runs on, and no step of the
    library is left to end it. *)
Theorem destructor_can_hang : exists s,
  reachable s /\ creator_ s = CJoining /\ thread_ s = TLooping /\ quit_ s = false /\
  forall s', ~ step s s'.
Proof.
  exists (mkState true true 0 CJoining TLooping false false). split_and!; try done.
  - eapply rtc_l; [left; by apply start|]. eapply rtc_l; [left; by apply set_loop_step|].
    eapply rtc_l; [left; by eapply count_down|]. eapply rtc_l; [left; by apply look|].
    eapply rtc_l; [left; by apply check|]. eapply rtc_l; [left; apply destroy; by right|].
    eapply rtc_l; [left; by apply quit_loop|]. apply rtc_once. left. by apply enter_loop.
  - intros s' Hs. inversion Hs; subst; simpl in *; try done.
    by match goal with H : _ \/ _ |- _ => destruct H end.
Qed.

(** The destructor can use a dead loop. If the loop is quit by other code
    while the destructor runs, the thread can end, and destroy the loop, between
    the destructor's test of loop_ and its call of quit. *)
Theorem destructor_can_dangle : exists s, reachable s /\ dangling s = true.
Proof.
  exists (mkState true false 0 CJoining TEnded true true). split; [|done].
  eapply rtc_l; [left; by apply start|]. eapply rtc_l; [left; by apply set_loop_step|].
  eapply rtc_l; [left; by eapply count_down|]. eapply rtc_l; [left; by apply enter_loop|].
  eapply rtc_l; [left; by apply look|]. eapply rtc_l; [left; by apply check|].
  eapply rtc_l; [left; apply destroy; by right|].
  eapply rtc_l; [right; apply user_quit; [done|by right; left]|].
  eapply rtc_l; [left; by apply leave_loop|]. eapply rtc_l; [left; by apply clear_loop|].
  apply rtc_once. left. apply (quit_loop (mkState true false 0 CQuitting TEnded true false)). done.
Qed.

(** ** Witness *)

Lemma startLoop_returns_loop_witness :
  loop_ (mkState true true 0 CCheck TCounted false false) = true.
Proof.
  refine (proj1 (proj1 (startLoop_returns_loop (mkState true true 0 CCheck TCounted false false) _) eq_refl)).
  eapply rtc_l; [left; by apply start|]. eapply rtc_l; [left; by apply set_loop_step|].
  eapply rtc_l; [left; by eapply count_down|]. apply rtc_once. left. by apply (look (mkState true true 0 CLook TCounted false false)).
Defined.
End LThread.
