(* ===== verification/Endpoints.v ===== *)
(** Acceptor, Connector, TcpServerSingle and TcpClient (the files of these names
    under src/): how connections come to be, and what owns them.  The user's
    callbacks are parameters.  Reading a sockaddr_in the kernel has not filled
    in gives the parameter [uninit].  When a connection is destroyed is the
    matter of Lifetime.v: here it stays on the heap once it was made. *)

From S2P Require Import Prelude Ints Kernel Buffer World Poller Channel TimerQueue TcpConnection.

Module Ends.
Section ops.
Context {K A : Type} `{Kernel K} `{Build}.
Implicit Types w : World K A.

(** The indeterminate contents of an uninitialised sockaddr_in. *)
Variable uninit : sockaddr_in.
Variable run_connection : ConnectionCallback -> ptr -> M (World K A) unit.
Variable run_error : Z -> M (World K A) unit.

Definition createSocket (what : String.string) : M (World K A) Z :=
  let! r := sys SysSocket in
  match r with SysErr _ => throw (Fatal what) | SysOk fd => ret fd end.

(** SYSFATAL when a call that returns nothing fails. *)
Definition or_fatal (what : String.string) (r : sysret unit) : M (World K A) unit :=
  match r with SysErr _ => throw (Fatal what) | SysOk _ => ret tt end.

(** ** Acceptor *)

Definition Acceptor_ctor (local : sockaddr_in) : M (World K A) ptr :=
  let! fd := createSocket "Acceptor createSocket" in
  let! ch := Chan.Channel_ctor fd in
  let! a := alloc in
  modify (put_acceptor a (mkAcceptor false fd ch local None)) ;;;
  let! r := sys (SysReuse fd) in
  or_fatal "Acceptor setsockopt SO_REUSEADDR" r ;;;
  let! r := sys (SysReuse fd) in
  or_fatal "Acceptor setsockopt SO_REUSEPORT" r ;;;
  let! r := sys (SysBind fd local) in
  or_fatal "Acceptor bind" r ;;;
  ret a.

Definition Acceptor_dtor (a : ptr) : M (World K A) unit :=
  let! ac := get_acceptor a in
  let! _ := sys (SysClose (acceptfd_ ac)) in
  Chan.Channel_dtor (acceptChannel_ ac) ;;;
  modify (fun w => set_w_acceptors (delete a (w_acceptors w)) w).

Definition listening (a : ptr) : M (World K A) bool :=
  let! ac := get_acceptor a in ret (listening_ ac).

Definition listen (a : ptr) : M (World K A) unit :=
  Loop.assertInLoopThread ;;;
  let! ac := get_acceptor a in
  let! r := sys (SysListen (acceptfd_ ac)) in
  or_fatal "Acceptor listen fatal" r ;;;
  Chan.setReadCallback (acceptChannel_ ac) (AcceptorHandleRead a) ;;;
  Chan.enableRead (acceptChannel_ ac).

Definition Acceptor_setNewConnectionCallback (a : ptr) (cb : option NewConnectionCallback) : M (World K A) unit :=
  upd_acceptor a (set_a_newConnectionCallback_ cb).

(** ** Connector: construction and destruction *)

Definition Connector_ctor (peer : sockaddr_in) : M (World K A) ptr :=
  let! fd := createSocket "Connector createSocket" in
  let! ch := Chan.Channel_ctor fd in
  let! x := alloc in
  modify (put_connector x (mkConnector peer fd false false ch None None)) ;;;
  Chan.setWriteCallback ch (ConnectorHandleWrite x) ;;;
  ret x.

Definition Connector_dtor (x : ptr) : M (World K A) unit :=
  let! cr := get_connector x in
  (if negb (connected_ cr) then let! _ := sys (SysClose (x_sockfd_ cr)) in ret tt else ret tt) ;;;
  Chan.Channel_dtor (x_channel_ cr) ;;;
  modify (fun w => set_w_connectors (delete x (w_connectors w)) w).

Definition Connector_setNewConnectionCallback (x : ptr) (cb : option NewConnectionCallback) : M (World K A) unit :=
  upd_connector x (set_x_newConnectionCallback_ cb).
Definition Connector_setErrorCallback (x : ptr) (cb : option Z) : M (World K A) unit :=
  upd_connector x (set_x_errorCallback_ cb).

(** Calling an optional user callback that must be set. *)
Definition call_connection (cb : option ConnectionCallback) (c : ptr) : M (World K A) unit :=
  match cb with Some cb => run_connection cb c | None => throw BadFunctionCall end.

(** ** TcpServerSingle *)

Definition TcpServerSingle_ctor (local : sockaddr_in) : M (World K A) ptr :=
  let! a := Acceptor_ctor local in
  let! s := alloc in
  modify (put_single s (mkSingle a ∅ None None None)) ;;;
  Acceptor_setNewConnectionCallback a (Some (ServerNewConnection s)) ;;;
  ret s.

Definition Single_setConnectionCallback (s : ptr) (cb : option ConnectionCallback) : M (World K A) unit :=
  upd_single s (set_s_connectionCallback_ cb).
Definition Single_setMessageCallback (s : ptr) (cb : option MessageCallback) : M (World K A) unit :=
  upd_single s (set_s_messageCallback_ cb).
Definition Single_setWriteCompleteCallback (s : ptr) (cb : option Z) : M (World K A) unit :=
  upd_single s (set_s_writeCompleteCallback_ cb).

Definition Single_start (s : ptr) : M (World K A) unit :=
  let! sv := get_single s in listen (acceptor_ sv).

Definition Single_newConnection (s : ptr) (connfd : Z) (local peer : sockaddr_in) : M (World K A) unit :=
  Loop.assertInLoopThread ;;;
  let! conn := Conn.TcpConnection_ctor connfd local peer in
  upd_single s (fun sv => set_connections_ ({[conn]} ∪ connections_ sv) sv) ;;;
  let! sv := get_single s in
  Conn.setMessageCallback conn (s_messageCallback_ sv) ;;;
  Conn.setWriteCompleteCallback conn (s_writeCompleteCallback_ sv) ;;;
  Conn.setCloseCallback conn (Some (ServerCloseConnection s)) ;;;
  Conn.connectEstablished conn ;;;
  let! sv := get_single s in
  call_connection (s_connectionCallback_ sv) conn.

Definition Single_closeConnection (s conn : ptr) : M (World K A) unit :=
  Loop.assertInLoopThread ;;;
  let! sv := get_single s in
  let found := bool_decide (conn ∈ connections_ sv) in
  upd_single s (fun sv => set_connections_ (connections_ sv ∖ {[conn]}) sv) ;;;
  when (negb found) (throw (Fatal "TcpServerSingle::closeConnection connection set erase fatal")) ;;;
  let! sv := get_single s in
  call_connection (s_connectionCallback_ sv) conn.

(** ** TcpClient *)

Definition TcpClient_ctor (peer : sockaddr_in) : M (World K A) ptr :=
  let! x := Connector_ctor peer in
  let! c := alloc in
  modify (put_client c (mkClient false peer nullptr x None
                          (Some DefaultConnection) (Some DefaultMessage) None)) ;;;
  Connector_setNewConnectionCallback x (Some (ClientNewConnection c)) ;;;
  ret c.

Definition TcpClient_dtor (c : ptr) : M (World K A) unit :=
  let! cl := get_client c in
  match connection_ cl with
  | Some conn =>
      let! d := Conn.disconnected conn in
      when (negb d) (Conn.forceClose conn)
  | None => ret tt
  end ;;;
  when (negb (retryTimer_ cl =? nullptr)) (TQ.cancelTimer (retryTimer_ cl)) ;;;
  Connector_dtor (connector_ cl) ;;;
  modify (fun w => set_w_clients (delete c (w_clients w)) w).

Definition Client_setConnectionCallback (c : ptr) (cb : option ConnectionCallback) : M (World K A) unit :=
  upd_client c (set_c_connectionCallback_ cb).
Definition Client_setMessageCallback (c : ptr) (cb : option MessageCallback) : M (World K A) unit :=
  upd_client c (set_c_messageCallback_ cb).
Definition Client_setWriteCompleteCallback (c : ptr) (cb : option Z) : M (World K A) unit :=
  upd_client c (set_c_writeCompleteCallback_ cb).
Definition Client_setErrorCallback (c : ptr) (cb : option Z) : M (World K A) unit :=
  let! cl := get_client c in Connector_setErrorCallback (connector_ cl) cb.

Definition Client_newConnection (c : ptr) (connfd : Z) (local peer : sockaddr_in) : M (World K A) unit :=
  Loop.assertInLoopThread ;;;
  let! cl := get_client c in
  TQ.cancelTimer (retryTimer_ cl) ;;;
  upd_client c (set_retryTimer_ nullptr) ;;;
  upd_client c (set_c_connected_ true) ;;;
  let! conn := Conn.TcpConnection_ctor connfd local peer in
  upd_client c (set_connection_ (Some conn)) ;;;
  let! cl := get_client c in
  Conn.setMessageCallback conn (c_messageCallback_ cl) ;;;
  Conn.setWriteCompleteCallback conn (c_writeCompleteCallback_ cl) ;;;
  Conn.setCloseCallback conn (Some (ClientCloseConnection c)) ;;;
  Conn.connectEstablished conn ;;;
  let! cl := get_client c in
  call_connection (c_connectionCallback_ cl) conn.

Definition Client_closeConnection (c conn : ptr) : M (World K A) unit :=
  Loop.assertInLoopThread ;;;
  let! cl := get_client c in
  assert_ (bool_decide (is_Some (connection_ cl))) "connection_ != nullptr" ;;;
  upd_client c (set_connection_ None) ;;;
  let! cl := get_client c in
  call_connection (c_connectionCallback_ cl) conn.

(** ** The callbacks between them *)

Definition run_newConnection (cb : NewConnectionCallback) (fd : Z) (local peer : sockaddr_in) : M (World K A) unit :=
  match cb with
  | ServerNewConnection s => Single_newConnection s fd local peer
  | ClientNewConnection c => Client_newConnection c fd local peer
  end.

Definition run_close (cb : CloseCallback) (conn : ptr) : M (World K A) unit :=
  match cb with
  | ServerCloseConnection s => Single_closeConnection s conn
  | ClientCloseConnection c => Client_closeConnection c conn
  end.

(** ** Event handlers of Acceptor and Connector *)

Definition Acceptor_handleRead (a : ptr) : M (World K A) unit :=
  Loop.assertInLoopThread ;;;
  let! ac := get_acceptor a in
  let! r := sys (SysAccept4 (acceptfd_ ac)) in
  let! '(sockfd, addr) :=
    match r return M (World K A) (Z * sockaddr_in) with
    | SysErr savedErrno =>
        if (savedErrno =? ECONNABORTED) || (savedErrno =? EMFILE) then ret (-1, uninit)
        else throw (Fatal "unexpected accept4() error")
    | SysOk x => ret x
    end in
  match a_newConnectionCallback_ ac with
  | Some cb => run_newConnection cb sockfd (a_local_ ac) addr
  | None => let! _ := sys (SysClose sockfd) in ret tt
  end.

Definition Connector_handleWrite (x : ptr) : M (World K A) unit :=
  Loop.assertInLoopThread ;;;
  let! cr := get_connector x in
  assert_ (started_ cr) "started_" ;;;
  Chan.removeChannel (x_channel_ cr) ;;;
  let! r := sys (SysSoError (x_sockfd_ cr)) in
  match r with SysOk err => put_errno err | SysErr _ => ret tt end ;;;
  let! e := get_errno in
  if negb (e =? 0) then
    match x_errorCallback_ cr with Some cb => run_error cb | None => ret tt end
  else
    match x_newConnectionCallback_ cr with
    | Some cb =>
        let! r := sys (SysGetsockname (x_sockfd_ cr)) in
        let addr := match r with SysOk a => a | SysErr _ => uninit end in
        upd_connector x (set_connected_ true) ;;;
        run_newConnection cb (x_sockfd_ cr) addr (x_peer_ cr)
    | None => ret tt
    end.

Definition Connector_start (x : ptr) : M (World K A) unit :=
  Loop.assertInLoopThread ;;;
  let! cr := get_connector x in
  assert_ (negb (started_ cr)) "!started_" ;;;
  upd_connector x (set_started_ true) ;;;
  let! r := sys (SysConnect (x_sockfd_ cr) (x_peer_ cr)) in
  match r with
  | SysErr e =>
      if negb (e =? EINPROGRESS) then Connector_handleWrite x
      else Chan.enableWrite (x_channel_ cr)
  | SysOk _ => Connector_handleWrite x
  end.

(** ** TcpClient: start and retry *)

(** 3s in nanoseconds. *)
Definition retry_interval : Z := 3000000000.

Definition Client_start (c : ptr) : M (World K A) unit :=
  Loop.assertInLoopThread ;;;
  let! cl := get_client c in
  Connector_start (connector_ cl) ;;;
  let! t := TQ.runEvery retry_interval (Some (TimerRetry c)) in
  upd_client c (set_retryTimer_ t).

Definition Client_retry (c : ptr) : M (World K A) unit :=
  Loop.assertInLoopThread ;;;
  let! cl := get_client c in
  if c_connected_ cl then ret tt else
  let! x := Connector_ctor (c_peer_ cl) in
  upd_client c (set_connector_ x) ;;;
  Connector_dtor (connector_ cl) ;;;
  Connector_setNewConnectionCallback x (Some (ClientNewConnection c)) ;;;
  Connector_start x.
End ops.

(** ** Specifications *)

Section specs.
Context {K A : Type} `{Kernel K} `{!KernelLaws K} `{Build}.
Implicit Types w : World K A.

(** The next address has not been used for a channel. *)
Definition fresh w : Prop :=
  0 < w_next w /\ registered (w_next w) (w_trace w) = Reg None.

(** The four callbacks of a connection's channel. *)
Definition wired (c : ptr) (ch : Channel) : Prop :=
  readCallback_ ch = Some (ConnHandleRead c) /\ writeCallback_ ch = Some (ConnHandleWrite c) /\
  closeCallback_ ch = Some (ConnHandleClose c) /\ errorCallback_ ch = Some (ConnHandleError c).

(** A new connection, not established yet. *)
Definition new_conn (fd : Z) (p : ptr) (local peer : sockaddr_in) (i o : Buf.Buffer) : TcpConnection :=
  mkConn fd p kConnecting local peer i o 0 None None None None None.

(** The world after a connection [c] with the channel [p] was made. *)
Record born (p c : ptr) w w' : Prop := {
  bo_conns : forall q, q <> c -> w_conns w' !! q = w_conns w !! q;
  bo_chans : forall q, q <> p -> w_channels w' !! q = w_channels w !! q;
  bo_trace : w_trace w' = w_trace w;
  bo_kern : w_kern w' = w_kern w;
  bo_loop : w_loop w' = w_loop w;
  bo_cur : w_cur w' = w_cur w;
  bo_timers : w_timers w' = w_timers w;
  bo_acceptors : w_acceptors w' = w_acceptors w;
  bo_next : w_next w' = w_next w + 1 + 1;
  bo_app : w_app w' = w_app w;
  bo_idle : forall ch, w_channels w' !! p = Some ch -> handlingEvents_ ch = false
}.

Lemma ctor_wp fd local peer (E : fault -> Prop) (Q : ptr -> World K A -> Prop) w :
  fresh w -> Chan.in_loop_thread w -> wakeupfd_ (w_loop w) <> fd ->
  (forall i o ch w', let c := w_next w + 1 in
     Conn.conn_at c (new_conn fd (w_next w) local peer i o) ch w' -> wired c ch ->
     Buf.contents i = [] -> w_singles w' = w_singles w -> w_clients w' = w_clients w ->
     born (w_next w) c w w' -> Q c w') ->
  wp (Conn.TcpConnection_ctor fd local peer) E Q w.
Proof.
  intros [Hn Hreg] Ht Hfd HQ. unfold Conn.TcpConnection_ctor.
  wp_step. apply Buf.wp_ctor; [vm_compute; split; discriminate|]. intros i Hwi Hci.
  wp_step. apply Buf.wp_ctor; [vm_compute; split; discriminate|]. intros o Hwo Hco.
  wp_step. unfold Chan.Channel_ctor, alloc. wp_step. unfold wp at 1. wp_step. wp_step. wp_step.
  wp_step. unfold wp at 1. wp_step. wp_step. simpl.
  unfold Chan.setReadCallback, Chan.setWriteCallback, Chan.setCloseCallback, Chan.setErrorCallback,
    upd_channel, get_channel.
  assert (Hn0 : w_next w <> nullptr) by lia.
  do 4 (wp_step; wp_step; wp_lookup; wp_step). wp_step. simpl.
  apply (HQ i o (mkChannel false fd None false 0 0 false (Some (ConnHandleRead (w_next w + 1)))
    (Some (ConnHandleWrite (w_next w + 1))) (Some (ConnHandleClose (w_next w + 1)))
    (Some (ConnHandleError (w_next w + 1))))); try done.
  2: { split; simpl; try done; intros q Hq; rewrite ?lookup_insert_ne; try done.
       rewrite lookup_insert_eq in Hq. by injection Hq as <-. }
  split; [|done]. split; simpl; auto; try apply lookup_insert_eq; [lia|].
  split; [done|]. split; [done|]. eexists. split; [apply lookup_insert_eq|]. simpl. auto.
Qed.


(** Setting callbacks of a connection. *)
Lemma wp_upd_conn c cn ch f (E : fault -> Prop) (Q : unit -> World K A -> Prop) w :
  Conn.conn_at c cn ch w -> channel_ (f cn) = channel_ cn -> sockfd_ (f cn) = sockfd_ cn ->
  state_ (f cn) = state_ cn -> inputBuffer_ (f cn) = inputBuffer_ cn ->
  outputBuffer_ (f cn) = outputBuffer_ cn ->
  (forall w', Conn.conn_at c (f cn) ch w' -> w_singles w' = w_singles w ->
     w_clients w' = w_clients w -> w_loop w' = w_loop w -> Q tt w') ->
  wp (upd_conn c f) E Q w.
Proof.
  intros [Hb Hph] E1 E2 E3 E4 E5 HQ. unfold upd_conn. wp_step.
  eapply Conn.wp_get_conn; [exact Hb|]. wp_step. apply HQ; [|done..]. split.
  - eapply Conn.base_put; eauto; rewrite ?E4, ?E5; apply Hb.
  - unfold Conn.phase, Conn.pending in *. rewrite E3, E5. exact Hph.
Qed.

(** The world differs in the servers and clients only. *)
Lemma conn_at_owners c cn ch w f g :
  Conn.conn_at c cn ch w -> Conn.conn_at c cn ch (set_w_singles f (set_w_clients g w)).
Proof. intros [Hb Hph]. split; [|done]. eapply Conn.base_frame; [exact Hb|done..]. Qed.

(** An established connection as newConnection leaves it: connected, empty in
    both directions, with its owner's callbacks, its channel tied to it, wired
    to its handlers and registered for input. *)
Definition set_up (c : ptr) (fd : Z) (peer : sockaddr_in) (msg : option MessageCallback)
    (done : option Z) (closed : CloseCallback) w : Prop :=
  exists cn ch, Conn.conn_at c cn ch w /\ wired c ch /\
    state_ cn = kConnected /\ sockfd_ cn = fd /\ peer_ cn = peer /\
    messageCallback_ cn = msg /\ writeCompleteCallback_ cn = done /\
    connCloseCallback_ cn = Some closed /\
    Conn.pending cn = [] /\ Buf.contents (inputBuffer_ cn) = [] /\
    tied_ ch = true /\ tie_ ch = Some c /\ events_ ch = Z.lor EPOLLIN EPOLLPRI.

(** The calls both newConnection handlers make on a new connection. *)
Definition wire_up (c : ptr) (msg : option MessageCallback) (done : option Z) (closed : CloseCallback) : M (World K A) unit :=
  Conn.setMessageCallback c msg ;;; Conn.setWriteCompleteCallback c done ;;;
  Conn.setCloseCallback c (Some closed) ;;; Conn.connectEstablished c.

Lemma wire_up_wp c fd p local peer i o ch msg done closed w :
  Conn.conn_at c (new_conn fd p local peer i o) ch w -> wired c ch -> Buf.contents i = [] ->
  wp (wire_up c msg done closed) no_fault (fun _ w' => set_up c fd peer msg done closed w' /\
     w_singles w' = w_singles w /\ w_clients w' = w_clients w /\
     pendingTasks_ (w_loop w') = pendingTasks_ (w_loop w)) w.
Proof.
  intros Hc Hwire Hi.
  unfold wire_up, Conn.setMessageCallback, Conn.setWriteCompleteCallback, Conn.setCloseCallback.
  wp_step. eapply wp_upd_conn; [exact Hc|done..|]. intros w3 Hc3 F3 G3 L3.
  wp_step. eapply wp_upd_conn; [exact Hc3|done..|]. intros w4 Hc4 F4 G4 L4.
  wp_step. eapply wp_upd_conn; [exact Hc4|done..|]. intros w5 Hc5 F5 G5 L5.
  eapply wp_weaken; [by eapply Conn.connectEstablished_wp|].
  intros _ w6 (ch'&Hc6&->&Ho&F6&G6). unfold Conn.obs in Ho. injection Ho as _ _ Ho.
  split; [|split_and!; congruence].
  eexists _, _. split; [exact Hc6|]. destruct Hwire as (?&?&?&?). destruct Hc5 as [_ [Hm Hp]].
  simpl. split_and!; auto; [by repeat split|by rewrite Hm].
Qed.

Lemma wp_wire_up c msg done closed (k : M (World K A) unit) (E : fault -> Prop) (Q : unit -> World K A -> Prop) w :
  wp (wire_up c msg done closed) E (fun _ => wp k E Q) w ->
  wp (Conn.setMessageCallback c msg ;;; Conn.setWriteCompleteCallback c done ;;;
      Conn.setCloseCallback c (Some closed) ;;; Conn.connectEstablished c ;;; k) E Q w.
Proof.
  unfold wire_up. intros Hw. apply wp_bind_inv in Hw. wp_step. eapply wp_conseq; [exact Hw|].
  clear Hw. intros [] w1 Hw. apply wp_bind_inv in Hw. wp_step. eapply wp_conseq; [exact Hw|].
  clear Hw. intros [] w2 Hw. apply wp_bind_inv in Hw. wp_step. eapply wp_conseq; [exact Hw|].
  clear Hw. intros [] w3 Hw. by wp_step.
Qed.

Definition set_up_server (s c : ptr) (sv : TcpServerSingle) (fd : Z) (peer : sockaddr_in) w : Prop :=
  set_up c fd peer (s_messageCallback_ sv) (s_writeCompleteCallback_ sv) (ServerCloseConnection s) w /\
  w_singles w !! s = Some (set_connections_ ({[c]} ∪ connections_ sv) sv).

Lemma server_newConnection_wp run_connection s sv fd local peer (E : fault -> Prop)
    (Q : unit -> World K A -> Prop) w :
  fresh w -> Chan.in_loop_thread w -> wakeupfd_ (w_loop w) <> fd ->
  s <> nullptr -> w_singles w !! s = Some sv ->
  (forall c w1, set_up_server s c sv fd peer w1 ->
     wp (call_connection run_connection (s_connectionCallback_ sv) c) E Q w1) ->
  wp (Single_newConnection run_connection s fd local peer) E Q w.
Proof.
  intros Hfr Ht Hfd Hs Hsv HQ. unfold Single_newConnection. wp_step.
  apply Chan.wp_assertInLoopThread; [done|]. wp_step. eapply ctor_wp; [done..|].
  intros i o ch w1. set (c := w_next w + 1). cbv zeta. intros Hc Hwire Hi E1 _ _.
  unfold upd_single, get_single. wp_step. wp_step. rewrite <- E1 in Hsv. wp_lookup. wp_step. wp_step.
  set (sv' := set_connections_ _ sv). set (w2 := put_single s sv' w1).
  assert (Hc2 : Conn.conn_at c (new_conn fd (w_next w) local peer i o) ch w2).
  { destruct Hc as [Hb Hph]. split; [|done]. eapply Conn.base_frame; [exact Hb|done..]. }
  assert (Hs2 : w_singles w2 !! s = Some sv') by (simpl; apply lookup_insert_eq).
  clearbody w2. wp_lookup. apply wp_wire_up. eapply wp_weaken; [by eapply wire_up_wp|].
  intros _ w6 (Hup&F6&_).
  assert (Hs6 : w_singles w6 !! s = Some sv') by (by rewrite F6).
  wp_step. eapply wp_deref_some; [exact Hs6|done|]. apply HQ. split; [exact Hup|exact Hs6].
Qed.

(** A client with an established connection. *)
Definition set_up_client (x c : ptr) (cl : TcpClient) (fd : Z) (peer : sockaddr_in) w : Prop :=
  set_up c fd peer (c_messageCallback_ cl) (c_writeCompleteCallback_ cl) (ClientCloseConnection x) w /\
  w_clients w !! x = Some (set_connection_ (Some c) (set_c_connected_ true (set_retryTimer_ nullptr cl))).

Lemma client_newConnection_wp run_connection x cl d fd local peer (E : fault -> Prop)
    (Q : unit -> World K A -> Prop) w :
  fresh w -> TQ.timers_ok [] w -> wakeupfd_ (w_loop w) <> fd ->
  x <> nullptr -> w_clients w !! x = Some cl -> (d, retryTimer_ cl) ∈ timers_ (w_loop w) ->
  (forall c w1, set_up_client x c cl fd peer w1 ->
     wp (call_connection run_connection (c_connectionCallback_ cl) c) E Q w1) ->
  wp (Client_newConnection run_connection x fd local peer) E Q w.
Proof.
  intros Hfr Hok Hfd Hx Hcl Hin HQ. unfold Client_newConnection, get_client, upd_client. wp_step.
  assert (Ht : Chan.in_loop_thread w) by apply Hok.
  apply Chan.wp_assertInLoopThread; [done|]. wp_step. wp_lookup. wp_step.
  eapply wp_weaken; [by eapply TQ.cancelTimer_wp|]. intros _ w0 [_ ->].
  unfold get_client. do 2 (wp_step; wp_step; wp_lookup; wp_step). simpl.
  set (cl1 := set_c_connected_ _ _). set (w1 := put_client x cl1 _).
  wp_step. eapply ctor_wp; [done..|].
  intros i o ch w2. set (c := w_next w1 + 1). cbv zeta. intros Hc Hwire Hi _ E2 _.
  assert (Hcl1 : w_clients w2 !! x = Some cl1) by (rewrite E2; apply lookup_insert_eq).
  clearbody w1. wp_step. wp_step. wp_lookup. wp_step. wp_step.
  set (cl2 := set_connection_ _ cl1). set (w3 := put_client x cl2 w2).
  assert (Hc2 : Conn.conn_at c (new_conn fd (w_next w1) local peer i o) ch w3).
  { destruct Hc as [Hb Hph]. split; [|done]. eapply Conn.base_frame; [exact Hb|done..]. }
  assert (Hs2 : w_clients w3 !! x = Some cl2) by (simpl; apply lookup_insert_eq).
  clearbody w3. wp_lookup. apply wp_wire_up. eapply wp_weaken; [by eapply wire_up_wp|].
  intros _ w6 (Hup&_&F6&_).
  assert (Hs6 : w_clients w6 !! x = Some cl2) by (by rewrite F6).
  wp_step. eapply wp_deref_some; [exact Hs6|done|]. apply HQ. split; [exact Hup|exact Hs6].
Qed.

(** ** Connector *)

(** The last answer of getsockopt(SO_ERROR) on [fd]: the error it reported, or
    the one it failed with. *)
Definition so_error_step (fd : Z) (a : option Z) (e : event) : option Z :=
  match e with
  | Event (SysSoError fd') r => if fd' =? fd then Some match r with SysOk n => n | SysErr n => n end else a
  | _ => a
  end.
Definition so_error (fd : Z) (tr : trace) : option Z := fold_left (so_error_step fd) tr None.

(** What removing a connector's channel and reading SO_ERROR leave alone. *)
Definition same_objects w w' : Prop :=
  w_loop w' = w_loop w /\ w_cur w' = w_cur w /\ w_connectors w' = w_connectors w /\
  w_clients w' = w_clients w /\ w_singles w' = w_singles w.

Definition unregistered_removal (ch : Channel) : Prop := ndebug = false /\ pooling ch = false.

Lemma removeChannel_wp p m ch (E : fault -> Prop) (Q : unit -> World K A -> Prop) w :
  Chan.synced p m w -> w_channels w !! p = Some ch ->
  (unregistered_removal ch -> E (AssertFail "!channel->isNoneEvents()")) ->
  (forall w', ~ unregistered_removal ch -> same_objects w w' ->
     (m <> 0 -> Chan.synced p 0 w') -> Q tt w') ->
  wp (Chan.removeChannel p) E Q w.
Proof.
  intros (Hp&Ht&ch0&Hl&Hev&Hpool&Hreg) Hch HE HQ. assert (ch0 = ch) as -> by congruence.
  unfold Chan.removeChannel. wp_step. apply Chan.wp_assertInLoopThread; [done|].
  apply (Chan.call_body p Chan.DisableAll w ch); auto.
  eapply Chan.update_wp; [done|done|apply lookup_insert_eq|..]; simpl.
  - intros Hn Hpo _. by apply HE.
  - intros Hno r e k. apply HQ; [intros []; destruct Hno as [?|[?|?]]; congruence|by repeat split|].
    intros Hm. apply Z.eqb_neq in Hm.
    split; [done|]. split; [done|]. eexists. split; [apply lookup_insert_eq|]. simpl.
    unfold Chan.ctl_pooling, Chan.ctl_op. simpl. rewrite Hm in Hreg. rewrite Hpool, Hm. simpl.
    split_and!; [done..|]. eapply Chan.reg_step_ctl; [exact Hreg|done].
Qed.

Lemma synced_event p m w c r e k :
  match c with SysEpollCtl _ _ _ _ => False | _ => True end ->
  Chan.synced p m w ->
  Chan.synced p m (set_w_errno e (set_w_kern k (set_w_trace (w_trace w ++ [Event c r]) w))).
Proof.
  intros Hc (Hp&Ht&ch&?&?&?&Hreg). split; [done|]. split; [done|]. exists ch. split_and!; auto.
  simpl. rewrite registered_snoc, Hreg. by destruct c.
Qed.

(** Connector::handleWrite up to the test of errno. *)
Lemma connector_handleWrite_wp uninit run_connection run_error x cr m ch (E : fault -> Prop)
    (Q : unit -> World K A -> Prop) w :
  x <> nullptr -> w_connectors w !! x = Some cr -> started_ cr = true ->
  Chan.synced (x_channel_ cr) m w -> w_channels w !! x_channel_ cr = Some ch ->
  (unregistered_removal ch -> E (AssertFail "!channel->isNoneEvents()")) ->
  (forall w1 e, ~ unregistered_removal ch -> same_objects w w1 -> (m <> 0 -> Chan.synced (x_channel_ cr) 0 w1) ->
     so_error (x_sockfd_ cr) (w_trace w1) = Some e ->
     if negb (e =? 0)
     then wp (match x_errorCallback_ cr with Some cb => run_error cb | None => ret tt end) E Q w1
     else match x_newConnectionCallback_ cr with
          | Some cb => forall addr w2, same_objects (put_connector x (set_connected_ true cr) w1) w2 ->
              w_channels w2 = w_channels w1 -> so_error (x_sockfd_ cr) (w_trace w2) = Some e ->
              (m <> 0 -> Chan.synced (x_channel_ cr) 0 w2) ->
              wp (run_newConnection run_connection cb (x_sockfd_ cr) addr (x_peer_ cr)) E Q w2
          | None => Q tt w1
          end) ->
  wp (Connector_handleWrite uninit run_connection run_error x) E Q w.
Proof.
  intros Hx Hcr Hst Hs Hch HE HQ. pose proof Hs as (Hp&Ht&_).
  unfold Connector_handleWrite, get_connector. wp_step. apply Chan.wp_assertInLoopThread; [done|].
  wp_step. wp_lookup. wp_step. apply wp_assert_true; [done|]. wp_step.
  eapply removeChannel_wp; [done..|]. intros w1 Hno (L1&L2&L3&L4&L5) Hoff.
  wp_step. apply wp_sys. intros r k Hr. simpl in Hr. unfold put_errno, get_errno.
  set (e := match r with SysOk n => n | SysErr n => n end).
  set (w2 := set_w_errno e (set_w_kern k
    (set_w_trace (w_trace w1 ++ [Event (SysSoError (x_sockfd_ cr)) r]) w1))).
  assert (Ho2 : same_objects w w2) by (repeat split; simpl; congruence).
  assert (Hoff2 : m <> 0 -> Chan.synced (x_channel_ cr) 0 w2).
  { intros Hm. apply synced_event; [done|by apply Hoff]. }
  assert (He2 : so_error (x_sockfd_ cr) (w_trace w2) = Some e).
  { unfold w2, so_error; simpl. rewrite fold_left_app. simpl. by rewrite Z.eqb_refl. }
  specialize (HQ w2 e Hno Ho2 Hoff2 He2).
  assert (Hcr2 : w_connectors w2 !! x = Some cr) by (destruct Ho2 as (_&_&->&_); exact Hcr).
  wp_step.
  enough (Hk : wp (let! e0 := gets w_errno in if negb (e0 =? 0)
      then match x_errorCallback_ cr with Some cb => run_error cb | None => ret tt end
      else match x_newConnectionCallback_ cr with
           | Some cb =>
               let! r0 := sys (SysGetsockname (x_sockfd_ cr)) in
               let addr := match r0 with SysOk a => a | SysErr _ => uninit end in
               upd_connector x (set_connected_ true) ;;;
               run_newConnection run_connection cb (x_sockfd_ cr) addr (x_peer_ cr)
           | None => ret tt
           end) E Q w2).
  { destruct r as [n|n]; [wp_step|wp_step]; exact Hk. }
  assert (Hw2 : w_errno w2 = e) by done. clearbody w2. wp_step. wp_step. rewrite Hw2.
  destruct (negb (e =? 0)); [exact HQ|].
  destruct (x_newConnectionCallback_ cr) as [cb|]; [|exact HQ].
  wp_step. apply wp_sys. intros r1 k1 _. cbv zeta. unfold upd_connector, get_connector.
  wp_step. wp_step. wp_lookup. wp_step.
  match goal with |- wp _ _ _ (put_connector _ _ (set_w_errno ?n _)) => set (n1 := n) end.
  apply HQ; [by repeat split|done| |].
  - unfold so_error. simpl. rewrite fold_left_app. exact He2.
  - intros Hm. exact (synced_event _ _ w2 (SysGetsockname _) r1 n1 k1 I (Hoff2 Hm)).
Qed.

Lemma wp_sys_reply c r (E : fault -> Prop) (Q : sysret (reply c) -> World K A -> Prop) w :
  fst (k_call c (w_kern w)) = r ->
  (forall e k, Q r (set_w_errno e (set_w_kern k (set_w_trace (w_trace w ++ [Event c r]) w)))) ->
  wp (sys c) E Q w.
Proof.
  intros <- HQ. unfold wp, sys. destruct (k_call c (w_kern w)) as [r k]. simpl in *.
  destruct r as [a|n]; [|apply HQ]. apply (HQ (w_errno w)).
Qed.

Lemma connector_start_wp uninit run_connection run_error x cr ch (E : fault -> Prop)
    (Q : unit -> World K A -> Prop) w :
  x <> nullptr -> w_connectors w !! x = Some cr -> started_ cr = false ->
  Chan.synced (x_channel_ cr) 0 w -> w_channels w !! x_channel_ cr = Some ch ->
  (forall e k, let r := fst (k_call (SysConnect (x_sockfd_ cr) (x_peer_ cr)) (w_kern w)) in
     let w1 := put_connector x (set_started_ true cr) w in
     wp (match r with
         | SysErr e =>
             if negb (e =? EINPROGRESS)
             then Connector_handleWrite uninit run_connection run_error x
             else Chan.enableWrite (x_channel_ cr)
         | SysOk _ => Connector_handleWrite uninit run_connection run_error x
         end) E Q
       (set_w_errno e (set_w_kern k (set_w_trace
         (w_trace w ++ [Event (SysConnect (x_sockfd_ cr) (x_peer_ cr)) r]) w1)))) ->
  wp (Connector_start uninit run_connection run_error x) E Q w.
Proof.
  intros Hx Hcr Hst Hs Hch HQ. pose proof Hs as (Hp&Ht&_).
  unfold Connector_start, upd_connector, get_connector. wp_step.
  apply Chan.wp_assertInLoopThread; [done|]. wp_step. wp_lookup. wp_step.
  apply wp_assert_true; [by rewrite Hst|]. wp_step. wp_step. wp_lookup. wp_step.
  wp_step. eapply wp_sys_reply; [done|]. intros e k. apply HQ.
Qed.

(** A computation that ends by running [k x] in a world that satisfies [P x]. *)
Lemma wp_tail {X} (m : M (World K A) unit) (k : X -> M (World K A) unit) (P : X -> World K A -> Prop) w :
  (forall E Q, (forall x w1, P x w1 -> wp (k x) E Q w1) -> wp m E Q w) ->
  exists x w1, P x w1 /\ m w = k x w1.
Proof.
  intros Hm.
  assert (Hwp : wp m (fun f => exists x w1, P x w1 /\ Err f = k x w1)
    (fun _ w' => exists x w1, P x w1 /\ Ok tt w' = k x w1) w).
  { apply Hm. intros x w1 HP. unfold wp. destruct (k x w1) as [[] w'|f] eqn:Hr; by exists x, w1. }
  unfold wp in Hwp. destruct (m w) as [[] w'|f]; exact Hwp.
Qed.
End specs.

(** ** Properties *)

Section properties.
Context {K A : Type} `{Kernel K} `{!KernelLaws K} `{Build}.
Implicit Types w : World K A.
Variable uninit : sockaddr_in.
Variable run_connection : ConnectionCallback -> ptr -> M (World K A) unit.
Variable run_error : Z -> M (World K A) unit.

(** C21: a server turns an accepted descriptor into an established connection.
    Before the user's connection callback is called, the connection is a member
    of connections_, kConnected, empty in both directions, carries the server's
    callbacks, and its channel is tied to it, wired to its handlers and
    registered for input with epoll. *)
Theorem newConnection_establishes s sv fd local peer w :
  fresh w -> Chan.in_loop_thread w -> wakeupfd_ (w_loop w) <> fd ->
  s <> nullptr -> w_singles w !! s = Some sv ->
  exists c w1, set_up_server s c sv fd peer w1 /\
    Single_newConnection run_connection s fd local peer w =
    call_connection run_connection (s_connectionCallback_ sv) c w1.
Proof.
  intros Hfr Ht Hfd Hs Hsv.
  apply (wp_tail _ (call_connection run_connection (s_connectionCallback_ sv))
    (fun c => set_up_server s c sv fd peer)).
  intros E Q HQ. by eapply server_newConnection_wp.
Qed.

(** The same for a client whose connect succeeded while its retry timer is
    pending: the timer is cancelled and forgotten, the client holds the new
    connection, and it is established when the user's callback is called. *)
Theorem client_establishes x cl d fd local peer w :
  fresh w -> TQ.timers_ok [] w -> wakeupfd_ (w_loop w) <> fd ->
  x <> nullptr -> w_clients w !! x = Some cl -> (d, retryTimer_ cl) ∈ timers_ (w_loop w) ->
  exists c w1, set_up_client x c cl fd peer w1 /\
    Client_newConnection run_connection x fd local peer w =
    call_connection run_connection (c_connectionCallback_ cl) c w1.
Proof.
  intros Hfr Hok Hfd Hx Hcl Hin.
  apply (wp_tail _ (call_connection run_connection (c_connectionCallback_ cl))
    (fun c => set_up_client x c cl fd peer)).
  intros E Q HQ. by eapply client_newConnection_wp.
Qed.

(** Closing a connection of a server takes it out of connections_ and then
    calls the user's callback; closing one that is not a member aborts. *)
Theorem closeConnection_exact s sv c w :
  Chan.in_loop_thread w -> s <> nullptr -> w_singles w !! s = Some sv ->
  Single_closeConnection run_connection s c w =
  if bool_decide (c ∈ connections_ sv)
  then call_connection run_connection (s_connectionCallback_ sv) c
         (put_single s (set_connections_ (connections_ sv ∖ {[c]}) sv) w)
  else Err (Fatal "TcpServerSingle::closeConnection connection set erase fatal").
Proof.
  intros Ht Hs Hsv. apply Z.eqb_eq in Ht. apply Z.eqb_neq in Hs.
  unfold Single_closeConnection, Loop.assertInLoopThread, Loop.isInLoopThread, upd_single, get_single,
    deref_at, deref, assert_, bind, gets, modify, throw.
  rewrite Ht, orb_true_r, Hs. unfold ret. rewrite Hsv.
  destruct (bool_decide _); simpl; rewrite Hsv; [|done]. simpl. by rewrite lookup_insert_eq.
Qed.

(** A failing accept4. When the process is out of descriptors (EMFILE) or
    the connection was aborted, Acceptor::handleRead logs and goes on, handing
    the descriptor -1 and an address it has not read to the new-connection
    callback; every other error, a transient EAGAIN included, aborts. *)
Theorem accept_failure a ac e cb w :
  Chan.in_loop_thread w -> a <> nullptr -> w_acceptors w !! a = Some ac ->
  fst (k_call (SysAccept4 (acceptfd_ ac)) (w_kern w)) = SysErr e ->
  a_newConnectionCallback_ ac = Some cb ->
  if (e =? ECONNABORTED) || (e =? EMFILE)
  then exists w1, Conn.same_owners w w1 /\ w_channels w1 = w_channels w /\ w_loop w1 = w_loop w /\
    Acceptor_handleRead uninit run_connection a w =
    run_newConnection run_connection cb (-1) (a_local_ ac) uninit w1
  else Acceptor_handleRead uninit run_connection a w = Err (Fatal "unexpected accept4() error").
Proof.
  intros Ht Ha Hac Hr Hcb. apply Z.eqb_eq in Ht. apply Z.eqb_neq in Ha.
  unfold Acceptor_handleRead, Loop.assertInLoopThread, Loop.isInLoopThread, get_acceptor,
    deref_at, deref, assert_, bind, gets, throw, sys.
  rewrite Ht, orb_true_r, Ha.
  destruct ((e =? ECONNABORTED) || (e =? EMFILE)) eqn:He; unfold ret at 1; rewrite Hac;
    destruct (k_call _ _) as [r k]; simpl in Hr; subst r; simpl; rewrite He; [|done].
  rewrite Hcb. eexists. split_and!; [..|reflexivity]; done.
Qed.

(** The end of a connection attempt. When the connector's descriptor
    becomes writable its channel leaves epoll, and SO_ERROR alone decides what
    happens: on 0 the connector is marked connected (so that it no longer owns
    the descriptor) and the new-connection callback gets the descriptor; on
    any other value the error callback, if there is one, is called. *)
Theorem connector_outcome x cr ch m cb w :
  x <> nullptr -> w_connectors w !! x = Some cr -> started_ cr = true ->
  Chan.synced (x_channel_ cr) m w -> w_channels w !! x_channel_ cr = Some ch -> m <> 0 ->
  x_newConnectionCallback_ cr = Some cb ->
  exists (r : Z * sockaddr_in) w1,
    (so_error (x_sockfd_ cr) (w_trace w1) = Some (fst r) /\ Chan.synced (x_channel_ cr) 0 w1 /\
     w_clients w1 = w_clients w /\ w_loop w1 = w_loop w /\
     w_connectors w1 !! x = Some (if fst r =? 0 then set_connected_ true cr else cr)) /\
    Connector_handleWrite uninit run_connection run_error x w =
    (if fst r =? 0 then run_newConnection run_connection cb (x_sockfd_ cr) (snd r) (x_peer_ cr)
     else match x_errorCallback_ cr with Some cb => run_error cb | None => ret tt end) w1.
Proof.
  intros Hx Hcr Hst Hs Hch Hm Hcb.
  apply (wp_tail _ (fun r : Z * sockaddr_in => if fst r =? 0
    then run_newConnection run_connection cb (x_sockfd_ cr) (snd r) (x_peer_ cr)
    else match x_errorCallback_ cr with Some cb => run_error cb | None => ret tt end) _).
  intros E Q HQ. eapply connector_handleWrite_wp; [done..| |].
  - intros [_ Hp]. destruct Hs as (_&_&c0&?&_&Hp0&_). apply Z.eqb_neq in Hm.
    rewrite Hm in Hp0. simplify_eq/=. congruence.
  - intros w1 e _ (L1&L2&L3&L4&L5) Hoff He. destruct (e =? 0) eqn:He0; simpl.
    + rewrite Hcb. intros addr w2 (M1&M2&M3&M4&M5) _ He2 Hoff2. specialize (HQ (e, addr) w2).
      simpl in HQ. rewrite He0 in HQ. simpl in *. apply HQ.
      split_and!; [done|by apply Hoff2|congruence..|by rewrite M3, lookup_insert_eq].
    + specialize (HQ (e, uninit) w1). simpl in HQ. rewrite He0 in HQ. apply HQ.
      split_and!; [done|by apply Hoff|congruence..].
Qed.

(** A connect that does not end in EINPROGRESS is not handled. start calls
    handleWrite at once, which removes a channel that was never registered: a
    debug build aborts; in a Release build a client whose connection succeeds
    this way dereferences the retry timer that start has not created yet. *)
Theorem immediate_connect_faults x cr ch c cl r w :
  x <> nullptr -> w_connectors w !! x = Some cr -> started_ cr = false ->
  Chan.synced (x_channel_ cr) 0 w -> w_channels w !! x_channel_ cr = Some ch ->
  x_newConnectionCallback_ cr = Some (ClientNewConnection c) -> x_errorCallback_ cr = None ->
  c <> nullptr -> w_clients w !! c = Some cl -> retryTimer_ cl = nullptr ->
  fst (k_call (SysConnect (x_sockfd_ cr) (x_peer_ cr)) (w_kern w)) = r -> r <> SysErr EINPROGRESS ->
  match Connector_start uninit run_connection run_error x w with
  | Ok _ w' => ndebug = true /\ so_error (x_sockfd_ cr) (w_trace w') <> Some 0
  | Err f => f = if ndebug then NullDeref else AssertFail "!channel->isNoneEvents()"
  end.
Proof.
  intros Hx Hcr Hst Hs Hch Hcb Herr Hc Hcl Htm Hr Hni. pose proof Hs as (Hp&Ht&_).
  set (E := fun f => f = if ndebug then NullDeref else AssertFail "!channel->isNoneEvents()").
  set (Q := fun (_ : unit) w' => ndebug = true /\ so_error (x_sockfd_ cr) (w_trace w') <> Some 0).
  change (wp (Connector_start uninit run_connection run_error x) E Q w).
  assert (Hmain : forall w0, Chan.synced (x_channel_ cr) 0 w0 -> w_channels w0 = w_channels w ->
    w_clients w0 = w_clients w -> w_connectors w0 = <[x := set_started_ true cr]> (w_connectors w) ->
    wp (Connector_handleWrite uninit run_connection run_error x) E Q w0).
  { intros w0 Hs0 F1 F2 F3. rewrite <- F1 in Hch. pose proof Hs0 as (_&Ht0&ch0&Hc0&_&Hpool&_).
    eapply (connector_handleWrite_wp _ _ _ x (set_started_ true cr)); try done.
    - by rewrite F3, lookup_insert_eq.
    - intros [Hn _]. unfold E. by rewrite Hn.
    - simpl. intros w1 e Hno (L1&L2&L3&L4&L5) _ He. rewrite Herr, Hcb.
      assert (Hnd : ndebug = true).
      { destruct ndebug eqn:Hn; [done|]. exfalso. apply Hno. split; [done|].
        assert (ch0 = ch) as -> by congruence. exact Hpool. }
      destruct (e =? 0) eqn:He0; simpl; zbool.
      + intros addr w2 (M1&M2&M3&M4&M5) _ _ _. simpl in *.
        unfold Client_newConnection, get_client. wp_step.
        apply Chan.wp_assertInLoopThread; [unfold Chan.in_loop_thread in *; congruence|].
        wp_step. eapply wp_deref_some; [by rewrite M4, L4, F2|done|]. rewrite Htm. wp_step.
        apply TQ.cancelTimer_null; [unfold Chan.in_loop_thread in *; congruence|].
        unfold E. by rewrite Hnd.
      + wp_step. split; [done|]. rewrite He. congruence. }
  apply connector_start_wp with (cr := cr) (ch := ch); try done. intros e k. cbv zeta. rewrite Hr.
  set (w1 := set_w_errno _ _). assert (Hs1 : Chan.synced (x_channel_ cr) 0 w1).
  { exact (synced_event _ _ w (SysConnect _ _) r e k I Hs). }
  assert (Hw1 : wp (Connector_handleWrite uninit run_connection run_error x) E Q w1) by (by apply Hmain).
  destruct r as [u|n]; [exact Hw1|].
  destruct (n =? EINPROGRESS) eqn:Hn; simpl; zbool; [congruence|exact Hw1].
Qed.
End properties.

(** ** Witnesses *)

#[local] Instance debug : Build := {| ndebug := false |}.
Definition release : Build := {| ndebug := true |}.

Definition no_callback (cb : ConnectionCallback) (c : ptr) : M (World Script unit) unit := ret tt.
Definition no_error (cb : Z) : M (World Script unit) unit := ret tt.

(** A server at address 9, listening on descriptor 20 with the acceptor at
    address 8; a client at address 7 with the connector at address 6, whose
    channel is at address 3 and whose descriptor is 21. *)
Definition example_server : TcpServerSingle :=
  mkSingle 8 ∅ (Some (UserConnection 1)) (Some (UserMessage 2)) None.
Definition example_acceptor : Acceptor :=
  mkAcceptor false 20 2 null_sockaddr (Some (ServerNewConnection 9)).
Definition example_client (timer : ptr) : TcpClient :=
  mkClient false null_sockaddr timer 6 None (Some (UserConnection 1)) (Some (UserMessage 2)) None.
Definition example_connector (started : bool) : Connector :=
  mkConnector null_sockaddr 21 false started 3 (Some (ClientNewConnection 7)) None.
Definition example_channel (mask : Z) : Channel :=
  mkChannel (negb (mask =? 0)) 21 None false mask 0 false None (Some (ConnectorHandleWrite 6)) None None.
Definition example_world (timer : ptr) (started : bool) (replies : list raw) : World Script unit :=
  let m := if started then EPOLLOUT else 0 in
  let w := sample_world replies [] in
  set_w_trace (if started then [Event (SysEpollCtl EPOLL_CTL_ADD 21 m 3) (SysOk tt)] else [])
    (put_single 9 example_server (put_acceptor 8 example_acceptor
    (put_client 7 (example_client timer) (put_connector 6 (example_connector started)
    (put_channel 3 (example_channel m)
    (if timer =? nullptr then w else
     put_timer timer (TQ.Timer_new (Some (TimerRetry 7)) 500 retry_interval)
       (set_w_loop (set_timers_ [(500, timer)] (w_loop w)) w))))))).

Lemma newConnection_establishes_witness : exists c w1,
  set_up_server 9 c example_server 30 null_sockaddr w1 /\
  Single_newConnection no_callback 9 30 null_sockaddr null_sockaddr (example_world 0 false []) = Ok tt w1.
Proof.
  destruct (newConnection_establishes no_callback 9 example_server 30 null_sockaddr null_sockaddr
    (example_world 0 false [])) as (c&w1&Hup&Hr);
    [split; reflexivity|reflexivity|discriminate|discriminate|reflexivity|].
  exists c, w1. split; [exact Hup|exact Hr].
Defined.

Lemma example_timers_ok : TQ.timers_ok [] (example_world 4 true []).
Proof.
  split; try done.
  - repeat constructor.
  - intros d p Hin. apply list_elem_of_singleton in Hin. simplify_eq. eexists.
    split; [reflexivity|]. by split.
  - intros p t Hl. simpl in Hl. apply lookup_insert_Some in Hl as [[<- <-]|[? Hl]]; [by split|].
    by rewrite lookup_empty in Hl.
  - intros p Hp. by apply not_elem_of_nil in Hp.
Qed.

Lemma client_establishes_witness : exists c w1,
  set_up_client 7 c (example_client 4) 21 null_sockaddr w1 /\
  Client_newConnection no_callback 7 21 null_sockaddr null_sockaddr (example_world 4 true []) = Ok tt w1.
Proof.
  destruct (client_establishes no_callback 7 (example_client 4) 500 21 null_sockaddr null_sockaddr
    (example_world 4 true [])) as (c&w1&Hup&Hr);
    [split; reflexivity|exact example_timers_ok|discriminate|discriminate|reflexivity| |].
  - by apply list_elem_of_singleton.
  - exists c, w1. split; [exact Hup|exact Hr].
Defined.

Lemma closeConnection_exact_witness :
  Single_closeConnection no_callback 9 4 (example_world 0 false []) =
  Err (Fatal "TcpServerSingle::closeConnection connection set erase fatal").
Proof.
  etransitivity; [apply (closeConnection_exact no_callback 9 example_server 4 (example_world 0 false []));
    [reflexivity|discriminate|reflexivity]|].
  vm_compute. reflexivity.
Defined.

(** Out of descriptors: the callback gets descriptor -1. *)
Lemma accept_failure_witness : exists w1,
  Acceptor_handleRead null_sockaddr no_callback 8 (example_world 0 false [RErr EMFILE]) =
  run_newConnection no_callback (ServerNewConnection 9) (-1) null_sockaddr null_sockaddr w1.
Proof.
  destruct (accept_failure null_sockaddr no_callback 8 example_acceptor EMFILE (ServerNewConnection 9)
    (example_world 0 false [RErr EMFILE])) as (w1&_&_&_&Hr);
    [reflexivity|discriminate|reflexivity|reflexivity|reflexivity|].
  exists w1. exact Hr.
Defined.

(** A refused connection: the connector stays as it was. *)
Lemma connector_outcome_witness : exists w1,
  Connector_handleWrite null_sockaddr no_callback no_error 6
    (example_world 4 true [RNum ECONNREFUSED]) = Ok tt w1 /\
  so_error 21 (w_trace w1) = Some ECONNREFUSED.
Proof.
  destruct (connector_outcome null_sockaddr no_callback no_error 6 (example_connector true)
    (example_channel EPOLLOUT) EPOLLOUT (ClientNewConnection 7)
    (example_world 4 true [RNum ECONNREFUSED])) as ([e a]&w1&(He&_)&Hr);
    [discriminate|reflexivity|reflexivity| |reflexivity|discriminate|reflexivity|].
  - split; [discriminate|]. split; [reflexivity|]. eexists. by repeat split.
  - assert (Hv : match Connector_handleWrite null_sockaddr no_callback no_error 6
      (example_world 4 true [RNum ECONNREFUSED]) with
      | Ok _ w => so_error 21 (w_trace w) = Some ECONNREFUSED | Err _ => False end)
      by (vm_compute; reflexivity).
    destruct (Connector_handleWrite _ _ _ _ _) as [[] w'|f]; [|destruct Hv].
    exists w'. split; [reflexivity|exact Hv].
Defined.

(** connect succeeds at once, in both builds. *)
Lemma immediate_connect_faults_witness :
  @Connector_start _ _ _ debug null_sockaddr no_callback no_error 6 (example_world 0 false []) =
    Err (AssertFail "!channel->isNoneEvents()") /\
  @Connector_start _ _ _ release null_sockaddr no_callback no_error 6 (example_world 0 false []) =
    Err NullDeref.
Proof.
  assert (Hs : Chan.synced 3 0 (example_world 0 false [])).
  { split; [discriminate|]. split; [reflexivity|]. eexists. by repeat split. }
  pose proof (fun B => @immediate_connect_faults _ _ _ _ B null_sockaddr no_callback no_error 6
    (example_connector false) (example_channel 0) 7 (example_client 0) (SysOk tt)
    (example_world 0 false []) ltac:(done) eq_refl eq_refl Hs eq_refl eq_refl eq_refl
    ltac:(done) eq_refl eq_refl eq_refl ltac:(done)) as Hf.
  split.
  - specialize (Hf debug). destruct (@Connector_start _ _ _ debug _ _ _ _ _) as [[] w'|f].
    + by destruct Hf as [? _].
    + by rewrite Hf.
  - vm_compute. reflexivity.
Defined.
End Ends.
