(* ===== verification/InetAddress.v ===== *)
(** InetAddress (src/InetAddress.hpp, src/InetAddress.cc) and the name of a
    connection (TcpConnection::name): IPv4 endpoints kept in network byte order
    and their textual form.  inet_pton and inet_ntop are parameters. *)

From stdpp Require Import pretty.
From Stdlib Require Ascii.
Import Ascii.AsciiSyntax.
#[local] Delimit Scope char_scope with char.
From S2P Require Import Prelude Ints Buffer Kernel.

Module Inet.

Abbreviation string := String.string (only parsing).
#[local] Infix "+++" := String.append (at level 60, right associativity).

Definition AF_INET : Z := 2.
Definition INADDR_ANY : Z := 0.
Definition INADDR_LOOPBACK : Z := 2130706433.      (* 0x7f000001 *)

(** htonl, htons and ntohs on the little-endian host: the bytes are swapped. *)
Definition htonl (x : Z) : Z := Buf.bswap 4 x.
Definition htons (x : Z) : Z := Buf.bswap 2 x.
Definition ntohs (x : Z) : Z := Buf.bswap 2 x.

Section ops.
(** The address (in network order) of a dotted string, and back. *)
Variable inet_pton : string -> option Z.
Variable inet_ntop : Z -> option string.

(** InetAddress(uint16_t port, bool loopback) *)
Definition InetAddress_port (port : Z) (loopback : bool) : sockaddr_in :=
  let ip := if loopback then INADDR_LOOPBACK else INADDR_ANY in
  mkSockaddr AF_INET (htonl ip) (htons port).

(** InetAddress(const std::string& ip, uint16_t port) *)
Definition InetAddress_ip (ip : string) (port : Z) : fault + sockaddr_in :=
  match inet_pton ip with
  | Some a => inr (mkSockaddr AF_INET a (htons port))
  | None => inl (Fatal "InetAddress::inet_pton")
  end.

Definition toIp (a : sockaddr_in) : string :=
  match inet_ntop (sin_addr a) with Some s => s | None => "" end.
Definition toPort (a : sockaddr_in) : Z := ntohs (sin_port a).

(** std::to_string of an unsigned value. *)
Definition to_string (n : Z) : string := pretty (Z.to_N n).

Definition toIpPort (a : sockaddr_in) : string := toIp a +++ ":" +++ to_string (toPort a).

(** TcpConnection::name *)
Definition name (peer local : sockaddr_in) : string := toIpPort peer +++ " -> " +++ toIpPort local.
End ops.

(** ** Strings *)

Fixpoint has (c : Ascii.ascii) (s : string) : bool :=
  match s with
  | String.EmptyString => false
  | String.String d s' => Ascii.eqb d c || has c s'
  end.

Lemma has_append c s t : has c (s +++ t) = has c s || has c t.
Proof. induction s as [|d s IH]; simpl; [done|]. by rewrite IH, orb_assoc. Qed.

(** A string that does not contain the first character of the separator ends
    where the separator starts. *)
Lemma split_at c s1 s2 t1 t2 :
  has c s1 = false -> has c s2 = false ->
  s1 +++ String.String c t1 = s2 +++ String.String c t2 -> s1 = s2 /\ t1 = t2.
Proof.
  revert s2. induction s1 as [|d s1 IH]; intros [|e s2]; simpl; intros H1 H2 Heq.
  - by simplify_eq.
  - injection Heq as -> _. by rewrite Ascii.eqb_refl in H2.
  - injection Heq as -> _. by rewrite Ascii.eqb_refl in H1.
  - injection Heq as -> Heq. zbool. destruct (IH s2) as [-> ->]; auto.
Qed.

Definition is_digit (c : Ascii.ascii) : bool :=
  let n := Ascii.nat_of_ascii c in (48 <=? n)%nat && (n <=? 57)%nat.

Lemma pretty_digit x : is_digit (pretty_N_char x) = true.
Proof. unfold pretty_N_char. by repeat case_match. Qed.

Lemma has_pretty c (n : N) : is_digit c = false -> has c (pretty n) = false.
Proof.
  intros Hc.
  assert (Hch : forall x, Ascii.eqb (pretty_N_char x) c = false).
  { intros x. apply Ascii.eqb_neq. intros <-. by rewrite pretty_digit in Hc. }
  assert (Hgo : forall x s, has c s = false -> has c (pretty_N_go x s) = false).
  { intros x. induction (N.lt_wf_0 x) as [x _ IH]; intros s Hs.
    destruct (decide (x = 0)%N) as [->|]; [by rewrite pretty_N_go_0|].
    rewrite pretty_N_go_step by lia. apply IH; [apply N.div_lt; lia|]. simpl. by rewrite Hch. }
  unfold pretty, pretty_N. case_decide; [|by apply Hgo]. pose proof (Hch 0%N) as H0. simpl in *. by rewrite H0.
Qed.

(** ** Byte order *)

Lemma bswap_range n x : 0 <= Buf.bswap n x < 2 ^ (8 * Z.of_nat n).
Proof.
  unfold Buf.bswap. pose proof (le_value_range (rev (le_bytes n x))) as Hr.
  by rewrite length_rev, length_le_bytes in Hr.
Qed.

Lemma bswap_involutive n x : 0 <= x < 2 ^ (8 * Z.of_nat n) -> Buf.bswap n (Buf.bswap n x) = x.
Proof.
  intros Hx. unfold Buf.bswap at 1 2. fold (Buf.be_bytes n x).
  rewrite Buf.le_bytes_be_bytes. unfold Buf.be_bytes. rewrite rev_involutive, le_value_le_bytes.
  by apply wrapu_small.
Qed.

Lemma bswap_inj n x y :
  0 <= x < 2 ^ (8 * Z.of_nat n) -> 0 <= y < 2 ^ (8 * Z.of_nat n) ->
  Buf.bswap n x = Buf.bswap n y -> x = y.
Proof. intros Hx Hy Heq. rewrite <- (bswap_involutive n x Hx), Heq. by apply bswap_involutive. Qed.

(** ** Textual form *)

Section text.
Variable inet_pton : string -> option Z.
Variable inet_ntop : Z -> option string.

(** An endpoint as the sources build them: IPv4, 32-bit address, 16-bit port. *)
Definition endpoint (a : sockaddr_in) : Prop :=
  sin_family a = AF_INET /\ 0 <= sin_addr a < 2 ^ 32 /\ 0 <= sin_port a < 2 ^ 16.

(** inet_ntop on IPv4 addresses: it succeeds, distinguishes addresses, and
    writes neither colons nor spaces. *)
Hypothesis ntop_text : forall a, 0 <= a < 2 ^ 32 ->
  exists s, inet_ntop a = Some s /\ has ":"%char s = false /\ has " "%char s = false.
Hypothesis ntop_inj : forall a b, 0 <= a < 2 ^ 32 -> 0 <= b < 2 ^ 32 ->
  inet_ntop a = inet_ntop b -> a = b.

Lemma toIp_text a : endpoint a -> has ":"%char (toIp inet_ntop a) = false /\ has " "%char (toIp inet_ntop a) = false.
Proof. intros (_&Ha&_). unfold toIp. destruct (ntop_text _ Ha) as (s&->&?&?). auto. Qed.

Lemma toIpPort_space a : endpoint a -> has " "%char (toIpPort inet_ntop a) = false.
Proof.
  intros Ha. unfold toIpPort. rewrite !has_append. destruct (toIp_text a Ha) as [_ ->].
  unfold to_string. by rewrite has_pretty.
Qed.

Lemma toIpPort_eq a b :
  endpoint a -> endpoint b -> toIpPort inet_ntop a = toIpPort inet_ntop b -> a = b.
Proof.
  intros Ha Hb Heq. apply split_at in Heq as [Hip Hport]; try by apply toIp_text.
  destruct a as [fa aa pa], b as [fb ab pb], Ha as (?&Ha&Hpa), Hb as (?&Hb&Hpb); simpl in *.
  subst. f_equal.
  - unfold toIp in Hip. simpl in Hip. apply ntop_inj; auto.
    destruct (ntop_text _ Ha) as (sa&Hsa&_), (ntop_text _ Hb) as (sb&Hsb&_).
    rewrite Hsa, Hsb in *. congruence.
  - unfold to_string, toPort, ntohs in Hport. simpl in Hport.
    apply (inj pretty) in Hport. pose proof (bswap_range 2 pa). pose proof (bswap_range 2 pb).
    apply (bswap_inj 2); [exact Hpa|exact Hpb|lia].
Qed.

(** The name of a connection identifies it. Two connections with the same
    name (the text "peer -> local" that logs use) have the same endpoints. *)
Theorem name_identifies p1 l1 p2 l2 :
  endpoint p1 -> endpoint l1 -> endpoint p2 -> endpoint l2 ->
  name inet_ntop p1 l1 = name inet_ntop p2 l2 -> p1 = p2 /\ l1 = l2.
Proof.
  intros Hp1 Hl1 Hp2 Hl2 Heq. unfold name in Heq. simpl in Heq.
  apply split_at in Heq as [Hp Hl]; try by apply toIpPort_space.
  injection Hl as Hl. split; by apply toIpPort_eq.
Qed.

(** Constructing an address from a string and a port and printing it gives
    them back, and the port survives the two changes of byte order; a string
    inet_pton rejects aborts. *)
Theorem toIpPort_of_ctor ip port :
  (forall a, inet_pton ip = Some a -> 0 <= a < 2 ^ 32 /\ inet_ntop a = Some ip) -> 0 <= port < 2 ^ 16 ->
  match InetAddress_ip inet_pton ip port with
  | inr a => endpoint a /\ toPort a = port /\ toIp inet_ntop a = ip /\
      toIpPort inet_ntop a = ip +++ ":" +++ pretty (Z.to_N port)
  | inl f => inet_pton ip = None /\ f = Fatal "InetAddress::inet_pton"
  end.
Proof.
  intros Hip Hport. unfold InetAddress_ip. destruct (inet_pton ip) as [a|] eqn:Ha; [|done].
  destruct (Hip a eq_refl) as [Hr Hs].
  assert (Hp : toPort (mkSockaddr AF_INET a (htons port)) = port) by (by apply (bswap_involutive 2)).
  unfold toIpPort, to_string. rewrite Hp. unfold toIp. simpl. rewrite Hs.
  split_and!; try done. split; [done|]. split; [done|]. apply (bswap_range 2).
Qed.
End text.

(** ** Witnesses *)

(** A numeric notation for addresses. *)
Definition example_ntop (a : Z) : option string := Some (pretty (Z.to_N a)).
Definition example_pton (s : string) : option Z :=
  if bool_decide (s = "16777343"%string) then Some 16777343 else None.

Lemma example_endpoint port lb : 0 <= port < 2 ^ 16 -> endpoint (InetAddress_port port lb).
Proof.
  intros Hp. split; [done|]. split; [apply (bswap_range 4)|apply (bswap_range 2)].
Qed.
Lemma example_text a : exists s, example_ntop a = Some s /\ has ":"%char s = false /\ has " "%char s = false.
Proof. eexists. split; [done|]. by rewrite !has_pretty. Qed.
Lemma example_inj a b : 0 <= a < 2 ^ 32 -> 0 <= b < 2 ^ 32 -> example_ntop a = example_ntop b -> a = b.
Proof. intros Ha Hb [= Heq]. apply (inj pretty) in Heq. lia. Qed.

Lemma name_identifies_witness :
  name example_ntop (InetAddress_port 80 true) (InetAddress_port 81 true) <>
  name example_ntop (InetAddress_port 81 true) (InetAddress_port 80 true).
Proof.
  intros Heq.
  destruct (name_identifies example_ntop (fun a _ => example_text a) example_inj _ _ _ _
    (example_endpoint 80 true ltac:(lia)) (example_endpoint 81 true ltac:(lia))
    (example_endpoint 81 true ltac:(lia)) (example_endpoint 80 true ltac:(lia)) Heq) as [Hp _].
  apply (f_equal sin_port) in Hp. vm_compute in Hp. discriminate.
Defined.

Lemma toIpPort_of_ctor_witness :
  match InetAddress_ip example_pton "16777343" 9877 with
  | inr a => toIpPort example_ntop a = "16777343:9877"%string
  | inl f => False
  end.
Proof.
  assert (Hip : forall a, example_pton "16777343" = Some a ->
    0 <= a < 2 ^ 32 /\ example_ntop a = Some "16777343"%string).
  { intros a [= <-]. split; [lia|vm_compute; reflexivity]. }
  pose proof (toIpPort_of_ctor example_pton example_ntop "16777343" 9877 Hip ltac:(lia)) as Hc.
  destruct (InetAddress_ip _ _ _) as [f|a].
  - destruct Hc as [Hc _]. vm_compute in Hc. discriminate.
  - destruct Hc as (_&_&_&->). vm_compute. reflexivity.
Defined.
End Inet.
