(* ===== verification/Frame.v ===== *)
(** What a call on one connection leaves alone.  [frame C P w w'] says that the
    worlds differ, outside the kernel, the log and the queue of tasks, at most
    in the connections in [C] and the channels in [P]; [framed] is the
    invariant from which the calls of TcpConnection are shown to stay within
    their own connection and channel.  This is what lets the invariants of the
    connections of a server be combined. *)

From S2P Require Import Prelude Ints Kernel Buffer World Poller Channel TimerQueue TcpConnection Endpoints.

Module Frame.

(** ** The relation *)

Section relation.
Context {K A : Type}.
Implicit Types w : World K A.

Record frame (C P : ptr -> Prop) w w' : Prop := {
  fr_conns : forall c, ~ C c -> w_conns w' !! c = w_conns w !! c;
  fr_chans : forall p, ~ P p -> w_channels w' !! p = w_channels w !! p;
  fr_reg : forall p, ~ P p -> keeps_reg p (w_trace w) (w_trace w');
  fr_loop : w_loop w' = set_pendingTasks_ (pendingTasks_ (w_loop w')) (w_loop w);
  fr_cur : w_cur w' = w_cur w;
  fr_timers : w_timers w' = w_timers w;
  fr_acceptors : w_acceptors w' = w_acceptors w;
  fr_connectors : w_connectors w' = w_connectors w;
  fr_singles : w_singles w' = w_singles w;
  fr_clients : w_clients w' = w_clients w;
  fr_next : w_next w' = w_next w;
  fr_app : w_app w' = w_app w
}.

Lemma set_pending_id (l : EventLoop) : set_pendingTasks_ (pendingTasks_ l) l = l.
Proof. by destruct l. Qed.

#[export] Instance frame_preorder C P : PreOrder (frame C P).
Proof.
  split.
  - intros w. split; try done. by rewrite set_pending_id.
  - intros w1 w2 w3 [a1 a2 a3 a4 a5 a6 a7 a8 a9 a10 a11 a12] [b1 b2 b3 b4 b5 b6 b7 b8 b9 b10 b11 b12].
    split; try congruence.
    + intros c Hc. by rewrite b1, a1.
    + intros p Hp. by rewrite b2, a2.
    + intros p Hp. etransitivity; [by apply a3|by apply b3].
    + rewrite b4, a4. simpl. done.
Qed.

Lemma frame_mono (C P C' P' : ptr -> Prop) w w' :
  frame C P w w' -> (forall c, C c -> C' c) -> (forall p, P p -> P' p) -> frame C' P' w w'.
Proof. intros [] HC HP. split; eauto. Qed.
End relation.

(** ** One connection and its channel *)

Section framed.
Context {K A : Type} `{Kernel K} `{!KernelLaws K} `{Build}.
Implicit Types w : World K A.

(** The channel [ch] is [ch0] but for its registration. *)
Definition rewired (ch0 ch : Channel) : Prop :=
  ch = set_pooling (pooling ch) (set_events_ (events_ ch) ch0).

(** What is said of the channel may not depend on its registration. *)
Class Loose (V : Channel -> Prop) := {
  loose_pooling b ch : V ch -> V (set_pooling b ch);
  loose_events m ch : V ch -> V (set_events_ m ch)
}.
#[export] Instance rewired_loose ch0 : Loose (rewired ch0).
Proof. unfold rewired. by split; intros ?? ->. Qed.
#[export] Instance idle_loose : Loose (fun ch => handlingEvents_ ch = false).
Proof. by split. Qed.
Lemma rewired_refl ch0 : rewired ch0 ch0.
Proof. unfold rewired. by destruct ch0. Qed.

Variables (c p : ptr) (V : Channel -> Prop) (w0 : World K A).
Context `{!Loose V}.

Record framed w : Prop := {
  fd_frame : frame (eq c) (eq p) w0 w;
  fd_conn : exists cn, w_conns w !! c = Some cn /\ channel_ cn = p;
  fd_chan : exists ch, w_channels w !! p = Some ch /\ V ch
}.

(** A change of the log, the kernel, errno and the tasks. *)
Lemma framed_quiet w w' :
  framed w -> w_conns w' = w_conns w -> w_channels w' = w_channels w ->
  (forall q, q <> p -> keeps_reg q (w_trace w) (w_trace w')) ->
  w_loop w' = set_pendingTasks_ (pendingTasks_ (w_loop w')) (w_loop w) ->
  w_cur w' = w_cur w -> w_timers w' = w_timers w -> w_acceptors w' = w_acceptors w ->
  w_connectors w' = w_connectors w -> w_singles w' = w_singles w -> w_clients w' = w_clients w ->
  w_next w' = w_next w -> w_app w' = w_app w -> framed w'.
Proof.
  intros [Hf Hc Hch] E1 E2 E3 ?????????. split; rewrite ?E1, ?E2; [|done..].
  etransitivity; [exact Hf|]. split; auto; intros; by rewrite ?E1, ?E2.
Qed.

Definition silent (e : syscall) : bool :=
  match e with SysEpollCtl _ _ _ q => q =? p | _ => true end.

Lemma sys_framed e : silent e = true -> Preserves framed (sys e).
Proof.
  intros He w Hw. apply wp_sys. intros r k _. eapply framed_quiet; try done; simpl.
  - intros q Hq. apply keeps_reg_snoc. simpl. destruct e; try done. simpl in *. zbool. congruence.
  - by rewrite set_pending_id.
Qed.

Lemma errno_framed e : Preserves framed (put_errno e).
Proof.
  intros w Hw. apply wp_modify. eapply framed_quiet; try done. simpl. by rewrite set_pending_id.
Qed.

Lemma queue_framed t : Preserves framed (Loop.queueInLoop t).
Proof.
  unfold Loop.queueInLoop. apply bind_preserves; [|intros _].
  - intros w Hw. apply wp_modify. by eapply framed_quiet.
  - unfold Loop.isInLoopThread, get_loop, Loop.wakeup. apply bind_preserves; [apply _|intros b].
    apply bind_preserves; [apply _|intros d]. apply when_preserves. unfold get_loop.
    apply bind_preserves; [apply _|intros fd]. apply bind_preserves; [by apply sys_framed|apply _].
Qed.

Lemma get_conn_framed {T} (k : TcpConnection -> M (World K A) T) :
  (forall cn, channel_ cn = p -> Preserves framed (k cn)) -> Preserves framed (bind (get_conn c) k).
Proof.
  intros Hk w Hw. pose proof Hw as [_ (cn&Hc&Hp) _]. wp_step. apply wp_deref_at; [|done..].
  intros cn' Hc' _. assert (cn' = cn) as -> by congruence. by apply Hk.
Qed.

Lemma put_conn_framed cn w : framed w -> channel_ cn = p -> framed (put_conn c cn w).
Proof.
  intros [Hf Hc Hch] Hp. split; [|exists cn; split; [apply lookup_insert_eq|done]|done].
  etransitivity; [exact Hf|]. split; try done; simpl; [|by rewrite set_pending_id].
  intros c' Hc'. apply lookup_insert_ne. congruence.
Qed.

Lemma upd_conn_framed f : (forall cn, channel_ (f cn) = channel_ cn) -> Preserves framed (upd_conn c f).
Proof.
  intros Hf. unfold upd_conn. apply get_conn_framed. intros cn Hcn w Hw. apply wp_modify.
  apply put_conn_framed; [done|]. by rewrite Hf.
Qed.

Lemma on_output_framed {T} (m : M Buf.Buffer T) : Preserves framed (Conn.on_output c m).
Proof.
  unfold Conn.on_output. apply get_conn_framed. intros cn Hcn w Hw. wp_step.
  unfold wp. destruct (m _); [|done]. by apply put_conn_framed.
Qed.
Lemma on_input_framed {T} (m : M Buf.Buffer T) : Preserves framed (Conn.on_input c m).
Proof.
  unfold Conn.on_input. apply get_conn_framed. intros cn Hcn w Hw. wp_step.
  unfold wp. destruct (m _); [|done]. by apply put_conn_framed.
Qed.

Lemma get_channel_framed q : Preserves framed (get_channel q).
Proof. intros w Hw. apply wp_deref_at; done. Qed.

Lemma upd_channel_framed f : (forall ch, V ch -> V (f ch)) -> Preserves framed (upd_channel p f).
Proof.
  intros Hf w Hw. unfold upd_channel, get_channel. wp_step. apply wp_deref_at; [|done..].
  intros ch Hl Hp. wp_step. destruct Hw as [Hfr Hc (ch1&Hl1&Hw1)].
  assert (ch1 = ch) as -> by congruence.
  split; [|done|eexists; split; [apply lookup_insert_eq|by apply Hf]].
  etransitivity; [exact Hfr|]. split; try done; simpl; [|by rewrite set_pending_id].
  intros q Hq. apply lookup_insert_ne. congruence.
Qed.

Lemma update_framed : Preserves framed (Chan.update p).
Proof.
  unfold Chan.update, Chan.loop_updateChannel, Poller.updateChannel, Poller.updateChannel_op,
    Loop.assertInLoopThread, Loop.isInLoopThread.
  repeat first
    [ apply get_channel_framed
    | apply upd_channel_framed; intros; by apply loose_pooling
    | apply sys_framed; simpl; apply Z.eqb_refl
    | apply bind_preserves; [|intros] | apply if_preserves | apply _ ].
Qed.

Lemma channel_call_framed x : Preserves framed (Chan.channel_call_run p x).
Proof.
  destruct x; simpl; unfold Chan.enableRead, Chan.enableWrite, Chan.disableRead, Chan.disableWrite,
    Chan.disableAll; (apply bind_preserves; [|intros _; apply update_framed]);
    apply upd_channel_framed; intros; by apply loose_events.
Qed.
Lemma enableRead_framed : Preserves framed (Chan.enableRead p).
Proof. apply (channel_call_framed Chan.EnableRead). Qed.
Lemma enableWrite_framed : Preserves framed (Chan.enableWrite p).
Proof. apply (channel_call_framed Chan.EnableWrite). Qed.
Lemma disableRead_framed : Preserves framed (Chan.disableRead p).
Proof. apply (channel_call_framed Chan.DisableRead). Qed.
Lemma disableWrite_framed : Preserves framed (Chan.disableWrite p).
Proof. apply (channel_call_framed Chan.DisableWrite). Qed.
Lemma disableAll_framed : Preserves framed (Chan.disableAll p).
Proof. apply (channel_call_framed Chan.DisableAll). Qed.
Lemma removeChannel_framed : Preserves framed (Chan.removeChannel p).
Proof. unfold Chan.removeChannel, Loop.assertInLoopThread, Loop.isInLoopThread. pose proof disableAll_framed. apply _. Qed.
End framed.

(** ** The calls of TcpConnection *)

(** Work through a computation: a read of the connection tells its channel,
    the other steps are covered by the lemmas above. *)
#[local] Ltac framed_step :=
  first
  [ assumption
  | apply upd_conn_framed; intros; reflexivity
  | apply on_output_framed | apply on_input_framed | apply get_channel_framed
  | apply get_conn_framed; let cn := fresh "cn" in let H := fresh "Hcn" in
    intros cn H; cbv beta; rewrite ?H
  | apply enableRead_framed | apply enableWrite_framed | apply disableRead_framed
  | apply disableWrite_framed | apply removeChannel_framed
  | apply queue_framed | apply errno_framed | apply sys_framed; reflexivity
  | apply if_preserves | apply when_preserves
  | apply gets_preserves | apply ret_preserves | apply throw_preserves | apply assert_preserves | apply deref_preserves
  | apply bind_preserves; [|let x := fresh "x" in intros x; cbv beta]
  | case_match ].
#[local] Ltac framed := repeat framed_step.

Section calls.
Context {K A : Type} `{Kernel K} `{!KernelLaws K} `{Build}.
Implicit Types w : World K A.
Variables (c p : ptr) (V : Channel -> Prop) (w0 : World K A).
Context `{!Loose V}.
Abbreviation Fr := (framed c p V w0).

Lemma setState_framed s : Preserves Fr (Conn.set_state c s).
Proof. unfold Conn.set_state. framed. Qed.

Lemma handleError_framed : Preserves Fr (Conn.handleError c).
Proof. unfold Conn.handleError. framed. Qed.

Lemma readFd_framed : Preserves Fr (Conn.readFd c).
Proof. unfold Conn.readFd. framed. Qed.

(** The calls that stay within the connection: all but connectEstablished,
    which ties the channel, and those that run a callback of the user. *)
Definition local_call (x : Conn.conn_call) : bool :=
  match x with
  | Conn.CallSend _ | Conn.CallSendInLoop _ | Conn.CallShutdown | Conn.CallShutdownInLoop
  | Conn.CallForceClose | Conn.CallStopRead | Conn.CallStartRead
  | Conn.CallHandleWrite | Conn.CallHandleError => true
  | _ => false
  end.

Lemma local_call_framed x rm rc : local_call x = true -> Preserves Fr (Conn.conn_call_run rm rc c x).
Proof.
  destruct x; try done; intros _; simpl;
    unfold Conn.send, Conn.sendInLoop, Conn.try_write, Conn.buffer_rest, Conn.shutdown,
      Conn.shutdownInLoop, Conn.forceClose, Conn.forceClose_exchange, Conn.stopRead, Conn.startRead,
      Conn.stopReadInLoop, Conn.startReadInLoop, Conn.handleWrite, Conn.handleError,
      Conn.stateAtomicGetAndSet, Conn.set_state, Loop.runInLoop,
      Loop.assertInLoopThread, Loop.isInLoopThread, get_errno; framed.
Qed.

(** What a new connection goes through. *)
Lemma tie_framed o : (forall ch, V ch -> V (set_tied_ true (set_tie_ (Some o) ch))) -> Preserves Fr (Chan.tie p o).
Proof. intros. by apply upd_channel_framed. Qed.
Lemma connectEstablished_framed :
  (forall ch, V ch -> V (set_tied_ true (set_tie_ (Some c) ch))) -> Preserves Fr (Conn.connectEstablished c).
Proof.
  intros HV. unfold Conn.connectEstablished, Conn.set_state. pose proof (tie_framed c HV). framed.
Qed.

Lemma wire_up_framed msg d cl :
  (forall ch, V ch -> V (set_tied_ true (set_tie_ (Some c) ch))) -> Preserves Fr (Ends.wire_up c msg d cl).
Proof.
  intros HV. pose proof (connectEstablished_framed HV).
  unfold Ends.wire_up, Conn.setMessageCallback, Conn.setWriteCompleteCallback, Conn.setCloseCallback. framed.
Qed.

(** handleClose up to the call of the close callback. *)
Definition close_prefix : M (World K A) TcpConnection :=
  Loop.assertInLoopThread ;;;
  let! cn := get_conn c in
  assert_ (bool_decide (state_ cn = kConnected) || bool_decide (state_ cn = kDisconnecting))
    "state_ == kConnected || state_ == kDisconnecting" ;;;
  Conn.set_state c kDisconnected ;;;
  Chan.removeChannel (channel_ cn) ;;;
  get_conn c.

Lemma close_prefix_framed : Preserves Fr close_prefix.
Proof.
  unfold close_prefix, Conn.set_state, Loop.assertInLoopThread, Loop.isInLoopThread.
  framed.
Qed.

Lemma handleClose_split rc w :
  Conn.handleClose rc c w =
  bind close_prefix (fun cn => match connCloseCallback_ cn with
    | Some cb => rc cb c | None => throw BadFunctionCall end) w.
Proof.
  unfold Conn.handleClose, close_prefix, bind.
  destruct (Loop.assertInLoopThread w) as [[] w1|f]; [|done].
  destruct (get_conn c w1) as [cn w2|f]; [|done].
  destruct (assert_ _ _ w2) as [[] w3|f]; [|done].
  destruct (Conn.set_state c kDisconnected w3) as [[] w4|f]; [|done].
  by destruct (Chan.removeChannel (channel_ cn) w4) as [[] w5|f].
Qed.
End calls.

(** ** What a call does to its connection *)

Section evolves.
Context {K A : Type} `{Kernel K} `{!KernelLaws K} `{Build}.
Implicit Types w : World K A.

(** The tasks a call on [c] queues. *)
Definition own_task (c : ptr) (t : Task) : Prop :=
  match t with
  | TaskWriteComplete _ c' | TaskHighWaterMark _ c' _ | TaskForceCloseInLoop c' => c' = c
  | _ => False
  end.

(** The connection [c] goes from [cn] to [cn'], nothing else changes, and only
    tasks of its own are queued. *)
Record evolves (c : ptr) (cn cn' : TcpConnection) (ch ch' : Channel) w w' : Prop := {
  ev_frame : frame (eq c) (eq (channel_ cn)) w w';
  ev_conn : Conn.conn_at c cn' ch' w';
  ev_rewired : rewired ch ch';
  ev_channel : channel_ cn' = channel_ cn;
  ev_message : messageCallback_ cn' = messageCallback_ cn;
  ev_close : connCloseCallback_ cn' = connCloseCallback_ cn;
  ev_up : Conn.up cn' <-> Conn.up cn;
  ev_state : state_ cn <> kConnecting -> state_ cn' <> kConnecting;
  ev_tasks : exists ts, pendingTasks_ (w_loop w') = pendingTasks_ (w_loop w) ++ ts /\
    Forall (own_task c) ts
}.

(** A write event aside, data that is waiting keeps waiting. *)
Definition waits (x : Conn.conn_call) (cn cn' : TcpConnection) : Prop :=
  x <> Conn.CallHandleWrite -> Conn.pending cn <> [] -> Conn.pending cn' <> [].

Lemma frame_of c cn ch x rm rc w (Q : World K A -> Prop) (E : fault -> Prop) :
  Conn.conn_at c cn ch w -> local_call x = true ->
  wp (Conn.conn_call_run rm rc c x) E (fun _ => Q) w ->
  wp (Conn.conn_call_run rm rc c x) E (fun _ w' => Q w' /\
    frame (eq c) (eq (channel_ cn)) w w' /\
    exists ch', w_channels w' !! channel_ cn = Some ch' /\ rewired ch ch') w.
Proof.
  intros [Hb _] Hx Hwp. eapply wp_conseq.
  - eapply wp_and; [exact Hwp|]. apply (local_call_framed c (channel_ cn) (rewired ch) w x rm rc Hx w).
    split; [reflexivity|exists cn; split; [apply Hb|done]|].
    exists ch. split; [apply Hb|apply rewired_refl].
  - intros _ w' [HQ [Hf _ Hc]]. done.
Qed.

(** The part of [evolves] that the specifications of TcpConnection give. *)
Definition goes (x : Conn.conn_call) (c : ptr) (cn : TcpConnection) w w' : Prop :=
  exists cn' ch', Conn.conn_at c cn' ch' w' /\ channel_ cn' = channel_ cn /\
    messageCallback_ cn' = messageCallback_ cn /\ connCloseCallback_ cn' = connCloseCallback_ cn /\
    (Conn.up cn' <-> Conn.up cn) /\ (state_ cn <> kConnecting -> state_ cn' <> kConnecting) /\ waits x cn cn' /\
    exists ts, pendingTasks_ (w_loop w') = pendingTasks_ (w_loop w) ++ ts /\ Forall (own_task c) ts.

Lemma goes_same x c cn ch' w w' :
  Conn.conn_at c cn ch' w' -> pendingTasks_ (w_loop w') = pendingTasks_ (w_loop w) -> goes x c cn w w'.
Proof.
  intros Hc Ht. exists cn, ch'. split_and!; try done.
  - by intros _ ?.
  - exists []. by rewrite app_nil_r.
Qed.

Lemma sendInLoop_goes x c cn ch d w :
  Conn.conn_at c cn ch w -> Conn.up cn -> zlen d <= Buf.max_size ->
  wp (Conn.sendInLoop c d) (eq LengthError) (fun _ => goes x c cn w) w.
Proof.
  intros Hc Hup Hd. eapply wp_conseq; [by apply Conn.sendInLoop_wp|].
  intros _ w' (out'&ch'&Hc'&Hout&Ho). unfold Conn.obs in Ho. injection Ho as _ _ Ht.
  exists (set_outputBuffer_ out' cn), ch'. split_and!; try done.
  - intros _ Hp. unfold Conn.pending at 1. simpl. rewrite Hout. unfold Conn.write_result.
    destruct Hc as [_ Hph]. rewrite (Conn.pending_writing _ _ Hup Hph).
    rewrite bool_decide_eq_false_2 by done. simpl. by intros [? _]%app_eq_nil.
  - eexists. split; [exact Ht|]. apply Forall_app_2.
    + unfold Conn.complete_tasks. repeat case_match; by repeat constructor.
    + unfold Conn.high_water_tasks. repeat case_match; by repeat constructor.
Qed.

Lemma handleWrite_goes c cn ch w :
  Conn.conn_at c cn ch w -> Conn.up cn -> Conn.pending cn <> [] ->
  wp (Conn.handleWrite c) (eq LengthError) (fun _ => goes Conn.CallHandleWrite c cn w) w.
Proof.
  intros Hc Hup Hp. eapply wp_weaken; [by apply Conn.handleWrite_wp|].
  intros _ w' (out'&Hr). destruct (fst _) as [n|e]; destruct Hr as (_&Hc'&Ho);
    unfold Conn.obs in Ho; injection Ho as _ _ Ht.
  - exists (set_outputBuffer_ out' cn). eexists. split; [exact Hc'|]. split_and!; try done.
    { by intros []. }
    eexists. split; [exact Ht|]. unfold Conn.write_tasks. repeat case_match; by repeat constructor.
  - exists (set_outputBuffer_ out' cn), ch. split_and!; try done.
    { by intros []. }
    exists []. by rewrite app_nil_r.
Qed.

Lemma up_goes x rm rc c cn ch w :
  Conn.conn_at c cn ch w -> Conn.up cn -> Conn.call_pre x cn -> local_call x = true ->
  wp (Conn.conn_call_run rm rc c x) (eq LengthError) (fun _ => goes x c cn w) w.
Proof.
  intros Hc Hup Hpre Hx. pose proof (proj1 Hc) as Hb.
  assert (Hdis : forall w' ts, Conn.conn_at c (set_state_ kDisconnecting cn) ch w' ->
    pendingTasks_ (w_loop w') = pendingTasks_ (w_loop w) ++ ts -> Forall (own_task c) ts ->
    goes x c cn w w').
  { intros w' ts Hc' Ht Hts. exists (set_state_ kDisconnecting cn), ch. split_and!; try done.
    - split; intros _; [done|by right].
    - by intros _ ?.
    - by exists ts. }
  destruct x; try done; simpl in *.
  - unfold Conn.send. wp_step. eapply Conn.wp_get_conn; [exact Hb|].
    destruct (negb _); [wp_step; by eapply goes_same|]. wp_step.
    eapply Conn.wp_is_loop; [exact Hb|]. by eapply sendInLoop_goes.
  - destruct Hpre. by eapply sendInLoop_goes.
  - eapply wp_weaken; [by apply (Conn.shutdown_wp c cn ch)|]. intros _ w' [Hc' Ho].
    unfold Conn.obs in Ho; injection Ho as _ _ Ht. apply (Hdis w' []); rewrite ?app_nil_r; auto.
  - eapply wp_weaken; [by apply (Conn.shutdownInLoop_wp c cn ch)|]. intros _ w' [Hc' Ho].
    unfold Conn.obs in Ho; injection Ho as _ _ Ht. by eapply goes_same.
  - eapply wp_weaken; [by apply (Conn.forceClose_wp c cn ch)|]. intros _ w' [Hc' Ho].
    unfold Conn.obs in Ho; injection Ho as _ _ Ht. eapply Hdis; [done|exact Ht|by repeat constructor].
  - eapply wp_weaken; [by apply (Conn.stopRead_wp c cn ch)|]. intros _ w' (ch'&Hc'&_&Ho).
    unfold Conn.obs in Ho; injection Ho as _ _ Ht. by eapply goes_same.
  - eapply wp_weaken; [by apply (Conn.startRead_wp c cn ch)|]. intros _ w' (ch'&Hc'&_&Ho).
    unfold Conn.obs in Ho; injection Ho as _ _ Ht. by eapply goes_same.
  - destruct Hpre as [Hs|[_ Hp]]; [by destruct Hup; congruence|]. by eapply handleWrite_goes.
  - eapply wp_weaken; [by apply (Conn.handleError_wp c cn ch)|]. intros _ w' [Hc' Ho].
    unfold Conn.obs in Ho; injection Ho as _ _ Ht. by eapply goes_same.
Qed.

(** A call on an established or closed connection, seen from the whole world. *)
Lemma local_call_evolves x rm rc c cn ch w :
  Conn.conn_at c cn ch w -> state_ cn <> kConnecting -> Conn.call_pre x cn -> local_call x = true ->
  wp (Conn.conn_call_run rm rc c x) (eq LengthError) (fun _ w' => exists cn' ch',
    evolves c cn cn' ch ch' w w' /\ waits x cn cn') w.
Proof.
  intros Hc Hst Hpre Hx.
  assert (Hg : wp (Conn.conn_call_run rm rc c x) (eq LengthError) (fun _ => goes x c cn w) w).
  { destruct (Conn.not_connecting _ Hst) as [Hup|Hd]; [by eapply up_goes|].
    destruct (Conn.conn_call_eq_dec x Conn.CallHandleError) as [->|Hne].
    - eapply wp_weaken; [by apply (Conn.handleError_wp c cn ch)|]. intros _ w' [Hc' Ho].
      unfold Conn.obs in Ho; injection Ho as _ _ Ht. by eapply goes_same.
    - unfold wp. rewrite (Conn.down_noop rm rc c cn ch) by done. by eapply goes_same. }
  eapply wp_conseq; [by eapply frame_of|].
  intros _ w' ((cn'&ch'&Hc'&Hch&Hm&Hcl&Hup&Hstate&Hw&Ht)&Hf&ch''&Hl&Hrw).
  exists cn', ch'. split; [|done].
  assert (ch'' = ch') as -> by (pose proof (Conn.ba_chan _ _ _ _ (proj1 Hc')); congruence).
  by split.
Qed.

(** The connection [c] after it was closed. *)
Definition closes (c : ptr) (cn : TcpConnection) (ch ch' : Channel) w w' : Prop :=
  frame (eq c) (eq (channel_ cn)) w w' /\ Conn.conn_at c (set_state_ kDisconnected cn) ch' w' /\
  rewired ch ch' /\ pendingTasks_ (w_loop w') = pendingTasks_ (w_loop w).

Lemma handleClose_closes rc c cn ch cb (I : World K A -> Prop) (E : fault -> Prop)
    (Q : unit -> World K A -> Prop) w :
  Preserves I (close_prefix c) -> I w -> Conn.conn_at c cn ch w -> Conn.up cn -> connCloseCallback_ cn = Some cb ->
  (forall ch' w', I w' -> closes c cn ch ch' w w' -> wp (rc cb c) E Q w') ->
  wp (Conn.handleClose rc c) E Q w.
Proof.
  intros HI HIw Hc Hup Hcb HQ. unfold wp. rewrite handleClose_split.
  change (wp (bind (close_prefix c) (fun cn => match connCloseCallback_ cn with
    | Some cb => rc cb c | None => throw BadFunctionCall end)) E Q w).
  wp_step. pose proof Hc as [Hb Hph].
  set (Q1 := fun cn' w' => cn' = set_state_ kDisconnected cn /\ exists ch',
    Conn.conn_at c (set_state_ kDisconnected cn) ch' w' /\
    pendingTasks_ (w_loop w') = pendingTasks_ (w_loop w)).
  assert (H1 : wp (close_prefix c) no_fault Q1 w).
  { unfold close_prefix. wp_step. eapply Conn.wp_in_loop; [exact Hb|]. wp_step.
    eapply Conn.wp_get_conn; [exact Hb|]. wp_step.
    apply wp_assert_true; [by destruct Hup as [-> | ->]|]. wp_step.
    eapply Conn.wp_set_state; [exact Hb|]. intros w1 Hb1 Ho1 _. wp_step. unfold Chan.removeChannel.
    wp_step. eapply Conn.wp_in_loop; [exact Hb1|].
    pose proof (proj1 (Conn.up_phase _ _ Hup) Hph) as [Hbit _].
    apply (Conn.wp_call c (set_state_ kDisconnected cn) ch Chan.DisableAll);
      [done|left; by eapply Conn.testbit_nonzero|].
    intros w2 Hb2 Ho2 _. eapply Conn.wp_get_conn; [exact Hb2|]. split; [done|]. eexists.
    split; [split; [exact Hb2|done]|]. unfold Conn.obs in *. simpl in *. congruence. }
  eapply wp_mono with (E := no_fault); [|done|].
  - eapply wp_and; [exact H1|]. eapply wp_and; [|exact (HI w HIw)].
    apply (close_prefix_framed c (channel_ cn) (rewired ch) w w).
    split; [reflexivity|exists cn; split; [apply Hb|done]|].
    exists ch. split; [apply Hb|apply rewired_refl].
  - simpl. intros cn' w' [(->&ch'&Hc'&Ht) [[Hf _ (ch''&Hl&Hrw)] HIw']]. simpl. rewrite Hcb.
    apply (HQ ch'); [exact HIw'|]. split; [done|]. split; [done|]. split; [|done].
    assert (ch'' = ch') as -> by (pose proof (Conn.ba_chan _ _ _ _ (proj1 Hc')); simpl in *; congruence).
    done.
Qed.

(** A read into the input buffer. *)
Lemma readFd_evolves c cn ch (E : fault -> Prop) (Q : Z * option Z -> World K A -> Prop) w :
  Conn.conn_at c cn ch w -> E LengthError ->
  (forall e w', evolves c cn cn ch ch w w' -> Q (-1, Some e) w') ->
  (forall (d : list byte) b w', evolves c cn (set_inputBuffer_ b cn) ch ch w w' -> Q (zlen d, None) w') ->
  wp (Conn.readFd c) E Q w.
Proof.
  intros Hc HE H1 H2.
  set (Q1 := fun (r : Z * option Z) w' => pendingTasks_ (w_loop w') = pendingTasks_ (w_loop w) /\
    ((exists e, r = (-1, Some e) /\ Conn.conn_at c cn ch w') \/
     (exists (d : list byte) b, r = (zlen d, None) /\ Conn.conn_at c (set_inputBuffer_ b cn) ch w'))).
  assert (Hwp : wp (Conn.readFd c) E Q1 w).
  { eapply Conn.readFd_wp; [exact Hc|done|..].
    - intros e w' Hc' Ho. unfold Conn.obs in Ho. injection Ho as _ _ Ht. split; [done|]. left. by exists e.
    - intros d b w' Hc' Ho _. unfold Conn.obs in Ho. injection Ho as _ _ Ht. split; [done|]. right. by exists d, b. }
  eapply wp_conseq.
  - eapply wp_and; [exact Hwp|]. apply (readFd_framed c (channel_ cn) (rewired ch) w w).
    split; [reflexivity|exists cn; split; [apply Hc|done]|].
    exists ch. split; [apply Hc|apply rewired_refl].
  - intros r w' [[Ht Hcase] [Hf _ (ch'&Hl&Hrw)]].
    assert (Hts : exists ts, pendingTasks_ (w_loop w') = pendingTasks_ (w_loop w) ++ ts /\
      Forall (own_task c) ts) by (exists []; by rewrite app_nil_r).
    destruct Hcase as [(e&->&Hc')|(d&b&->&Hc')]; [apply H1|apply (H2 d b)];
      (assert (ch' = ch) as -> by (pose proof (Conn.ba_chan _ _ _ _ (proj1 Hc')); simpl in *; congruence));
      by split.
Qed.
End evolves.
End Frame.
