(* ===== verification/Reports.v ===== *)
(** What the loop relies on the kernel for, beyond the bounds of Kernel.v: that
    epoll_wait reports channels that are registered and whose descriptor was not
    closed, with events they asked for, and that accept4 and socket do not
    return the descriptor of the eventfd.  [Epoll] is the interface: it couples
    the kernel's own state with the log of the calls made, so that the promise
    can speak of registrations.  Every operation of the library keeps
    the coupling ([linked]). *)

From S2P Require Import Prelude Ints Kernel Buffer World Poller Channel TimerQueue TcpConnection Endpoints Frame.

Module Rep.

(** ** The promise *)

(** EPOLLOUT is reported only when asked for; a hang-up without input comes
    without urgent data.  (EPOLLRDHUP is never asked for.) *)
Definition report_ok (ev m : Z) : Prop :=
  (Z.land m EPOLLOUT <> 0 -> Z.land ev EPOLLOUT <> 0) /\
  (Z.land m EPOLLHUP <> 0 -> Z.land m EPOLLIN = 0 -> Z.land m (Z.lor EPOLLPRI EPOLLRDHUP) = 0).

(** [wfd] is the descriptor eventfd gives the loop. *)
Definition truthful (wfd : Z) (tr : trace) (c : syscall) : sysret (reply c) -> Prop :=
  match c as c return sysret (reply c) -> Prop with
  | SysEpollWait _ => fun r =>
      match r with
      | SysOk l => NoDup (map snd l) /\ forall m p, (m, p) ∈ l ->
          descriptor p tr <> None /\ exists ev, registered p tr = Reg (Some ev) /\ report_ok ev m
      | SysErr _ => True
      end
  | SysAccept4 _ => fun r => match r with SysOk (fd, _) => fd <> wfd | SysErr _ => True end
  | SysSocket => fun r => match r with SysOk fd => fd <> wfd | SysErr _ => True end
  | SysEventfd => fun r => match r with SysOk fd => fd = wfd | SysErr _ => True end
  | _ => fun _ => True
  end.

Class Epoll (K : Type) `{Kernel K} (wfd : Z) := {
  coupled : K -> trace -> Prop;
  coupled_call : forall c k tr, coupled k tr ->
    let (r, k') := k_call c k in truthful wfd tr c r /\ coupled k' (tr ++ [Event c r]);
  coupled_now : forall k tr, coupled k tr -> coupled (snd (k_now k)) tr
}.

(** ** Every operation keeps the coupling *)

Section linked.
Context {K A : Type} `{Kernel K} `{!KernelLaws K} `{Build} {wfd : Z} `{!Epoll K wfd}.
Implicit Types w : World K A.

Definition linked w : Prop := coupled (w_kern w) (w_trace w).

Lemma wp_sys_truth c (E : fault -> Prop) (Q : sysret (reply c) -> World K A -> Prop) w :
  linked w ->
  (let (r, k) := k_call c (w_kern w) in reply_ok c r -> truthful wfd (w_trace w) c r ->
     let w' := set_w_errno match r with SysErr e => e | SysOk _ => w_errno w end
           (set_w_kern k (set_w_trace (w_trace w ++ [Event c r]) w)) in linked w' -> Q r w') ->
  wp (sys c) E Q w.
Proof.
  intros Hl HQ. apply wp_sys_run. pose proof (coupled_call c _ _ Hl) as Hc.
  destruct (k_call c (w_kern w)) as [r k]. intros Hr. destruct Hc as [Ht Hc]. by apply HQ.
Qed.

Lemma sys_linked c : Preserves linked (sys c).
Proof. intros w Hl. apply wp_sys_truth; [done|]. by destruct (k_call c (w_kern w)) as [r k]. Qed.
Lemma now_linked : Preserves linked clock_now.
Proof.
  intros w Hl. apply wp_now_run. pose proof (coupled_now _ _ Hl) as Hc.
  by destruct (k_now (w_kern w)).
Qed.
Lemma modify_linked f : (forall w, w_kern (f w) = w_kern w) -> (forall w, w_trace (f w) = w_trace w) ->
  Preserves linked (modify f).
Proof. intros E1 E2 w Hl. apply wp_modify. unfold linked. by rewrite E1, E2. Qed.
Lemma zoom_linked {T X} (get : World K A -> T) put (m : M T X) :
  (forall t w, w_kern (put t w) = w_kern w) -> (forall t w, w_trace (put t w) = w_trace w) ->
  Preserves linked (zoom get put m).
Proof.
  intros E1 E2 w Hl. wp_step. unfold wp. destruct (m _); [|done]. unfold linked. by rewrite E1, E2.
Qed.
End linked.

(** Work through a computation. *)
#[local] Ltac linked_step :=
  first
  [ assumption
  | apply sys_linked | apply now_linked
  | apply modify_linked; intros; reflexivity
  | apply zoom_linked; intros; reflexivity
  | apply if_preserves | apply when_preserves
  | apply gets_preserves | apply ret_preserves | apply throw_preserves | apply assert_preserves
  | apply deref_preserves
  | apply for_each_preserves; let x := fresh "x" in intros x; cbv beta
  | apply bind_preserves; [|let x := fresh "x" in intros x; cbv beta]
  | case_match ].
Ltac linked := repeat linked_step.

Section calls.
Context {K A : Type} `{Kernel K} `{!KernelLaws K} `{Build} {wfd : Z} `{!Epoll K wfd}.
Implicit Types w : World K A.
Abbreviation Lk := (@linked K A _ wfd _).

Lemma update_linked p : Preserves Lk (Chan.update p).
Proof.
  unfold Chan.update, Chan.loop_updateChannel, Poller.updateChannel, Poller.updateChannel_op,
    Loop.assertInLoopThread, Loop.isInLoopThread, upd_channel, get_channel, deref_at. linked.
Qed.
Lemma channel_call_linked p x : Preserves Lk (Chan.channel_call_run p x).
Proof.
  pose proof (update_linked p).
  destruct x; simpl; unfold Chan.enableRead, Chan.enableWrite, Chan.disableRead, Chan.disableWrite,
    Chan.disableAll, upd_channel, get_channel, deref_at; linked.
Qed.
Lemma queueInLoop_linked t : Preserves Lk (Loop.queueInLoop t).
Proof. unfold Loop.queueInLoop, Loop.wakeup, Loop.isInLoopThread, get_loop, upd_loop. linked. Qed.
Lemma upd_conn_linked c f : Preserves Lk (upd_conn c f).
Proof. unfold upd_conn, get_conn, deref_at. linked. Qed.
Lemma on_output_linked {T} c (m : M Buf.Buffer T) : Preserves Lk (Conn.on_output c m).
Proof. unfold Conn.on_output, get_conn, deref_at. linked. Qed.
Lemma on_input_linked {T} c (m : M Buf.Buffer T) : Preserves Lk (Conn.on_input c m).
Proof. unfold Conn.on_input, get_conn, deref_at. linked. Qed.

(** The same with the calls above as steps. *)
#[local] Ltac calls :=
  repeat first
  [ assumption
  | apply upd_conn_linked | apply on_output_linked | apply on_input_linked | apply queueInLoop_linked
  | apply (channel_call_linked _ Chan.EnableRead) | apply (channel_call_linked _ Chan.EnableWrite)
  | apply (channel_call_linked _ Chan.DisableRead) | apply (channel_call_linked _ Chan.DisableWrite)
  | apply (channel_call_linked _ Chan.DisableAll)
  | linked_step ].

Lemma readFd_linked c : Preserves Lk (Conn.readFd c).
Proof. unfold Conn.readFd, get_conn, deref_at. calls. Qed.

Lemma local_call_linked x rm rc c : Frame.local_call x = true -> Preserves Lk (Conn.conn_call_run rm rc c x).
Proof.
  destruct x; try done; intros _; simpl;
    unfold Conn.send, Conn.sendInLoop, Conn.try_write, Conn.buffer_rest, Conn.shutdown,
      Conn.shutdownInLoop, Conn.forceClose, Conn.forceClose_exchange, Conn.stopRead, Conn.startRead,
      Conn.stopReadInLoop, Conn.startReadInLoop, Conn.handleWrite, Conn.handleError,
      Conn.stateAtomicGetAndSet, Conn.set_state, Loop.runInLoop, Loop.assertInLoopThread,
      Loop.isInLoopThread, get_errno, put_errno, get_conn, get_channel, deref_at; calls.
Qed.

Lemma close_prefix_linked c : Preserves Lk (Frame.close_prefix c).
Proof.
  unfold Frame.close_prefix, Conn.set_state, Chan.removeChannel, Loop.assertInLoopThread,
    Loop.isInLoopThread, get_conn, deref_at. calls.
Qed.

Lemma connectEstablished_linked c : Preserves Lk (Conn.connectEstablished c).
Proof.
  unfold Conn.connectEstablished, Conn.set_state, Chan.tie, get_conn, upd_channel, get_channel, deref_at.
  calls.
Qed.

Lemma wire_up_linked c msg d cl : Preserves Lk (Ends.wire_up c msg d cl).
Proof.
  pose proof (connectEstablished_linked c).
  unfold Ends.wire_up, Conn.setMessageCallback, Conn.setWriteCompleteCallback, Conn.setCloseCallback. calls.
Qed.

Lemma errno_linked e : Preserves Lk (put_errno e).
Proof. unfold put_errno. linked. Qed.
End calls.
End Rep.
