(* ===== verification/TimerRun.v ===== *)
(** Firing timers next to other state.  TimerQueue.v shows that the timer queue
    keeps its own invariant; here handleRead is shown to be free of faults and
    to keep any invariant [R] of the rest of the world that the callbacks keep,
    provided a callback leaves the timers that are being fired alone. *)

From S2P Require Import Prelude Ints Kernel Buffer World Poller Channel TimerQueue.

Module TRun.

Section run.
Context {K A : Type} `{Kernel K} `{!KernelLaws K} `{Build}.
Implicit Types w : World K A.

(** Instants and periods that keep the 64-bit arithmetic exact, and a callback
    of the application (the other kind of timer is a client's retry). *)
Definition users (t : Timer) : Prop :=
  match t_callback_ t with Some (TimerRetry _) => False | _ => True end.
Definition sane (t : Timer) : Prop :=
  0 <= when_ t < 2 ^ 63 /\ 0 <= interval_ t <= 2 ^ 62 /\ users t.

(** The timer queue while the entries [es] are being fired: they are alive,
    not cancelled, and out of the set. *)
Record firing (es : list TQ.Entry) w : Prop := {
  fi_ok : TQ.timers_ok (es.*2) w;
  fi_live : forall d p, (d, p) ∈ es ->
    exists t, w_timers w !! p = Some t /\ when_ t = d /\ canceled_ t = false;
  fi_sane : forall p t, w_timers w !! p = Some t -> sane t
}.

Lemma firing_none es w : firing es w -> firing [] w.
Proof.
  intros [Hok Hl Hs]. split; [|by intros ??[]%not_elem_of_nil|done].
  eapply TQ.timers_ok_weaken; [|exact Hok]. set_solver.
Qed.

Variable run : TimerCallback -> M (World K A) unit.
Variable E : fault -> Prop.
Variable R : World K A -> Prop.

Hypothesis R_sys : forall w c e,
  match c with SysEpollCtl _ _ _ _ => False | _ => True end -> R w ->
  let (r, k) := k_call c (w_kern w) in
  R (set_w_errno e (set_w_kern k (set_w_trace (w_trace w ++ [Event c r]) w))).
Hypothesis R_now : forall w, R w -> R (set_w_kern (snd (k_now (w_kern w))) w).
Hypothesis R_timers : forall w m l,
  R w -> R (set_w_timers m (set_w_loop (set_timers_ l (w_loop w)) w)).

Definition J (es : list TQ.Entry) w : Prop := firing es w /\ R w.

Hypothesis run_keeps : forall k es w, J es w -> wp (run (TimerUser k)) E (fun _ => J es) w.

Lemma R_put w m : R w -> R (set_w_timers m w).
Proof.
  intros HR. apply (R_timers w m (timers_ (w_loop w))) in HR.
  destruct w as [? ? ? ? []]; exact HR.
Qed.
Lemma R_set w l : R w -> R (set_w_loop (set_timers_ l (w_loop w)) w).
Proof. intros HR. apply (R_timers w (w_timers w) l) in HR. destruct w; exact HR. Qed.

Lemma firing_sys es w c r e k : firing es w ->
  firing es (set_w_errno e (set_w_kern k (set_w_trace (w_trace w ++ [Event c r]) w))).
Proof. intros [Hok Hl Hs]. split; auto. eapply TQ.timers_ok_quiet; [apply TQ.quiet_sys|done]. Qed.
Lemma firing_kern es w k : firing es w -> firing es (set_w_kern k w).
Proof. intros [Hok Hl Hs]. split; auto. eapply TQ.timers_ok_quiet; [apply TQ.quiet_now|done]. Qed.

Lemma J_sys c es (Q : sysret (reply c) -> World K A -> Prop) w :
  match c with SysEpollCtl _ _ _ _ => False | _ => True end -> J es w ->
  (forall r w', J es w' -> Q r w') -> wp (sys c) E Q w.
Proof.
  intros Hc [Hf HR] HQ. apply wp_sys_run.
  pose proof (fun e => R_sys w c e Hc HR) as Hk. destruct (k_call c (w_kern w)) as [r k].
  intros _. apply HQ. split; [by apply firing_sys|apply Hk].
Qed.

Lemma J_now es (Q : Z -> World K A -> Prop) w :
  J es w -> (forall now w', 0 <= now < 2 ^ 62 -> J es w' -> w_loop w' = w_loop w -> Q now w') ->
  wp clock_now E Q w.
Proof.
  intros [Hf HR] HQ. apply wp_now_run. pose proof (R_now w HR) as Hk.
  destruct (k_now (w_kern w)) as [now k]. intros Hnow. apply HQ; [done| |done].
  split; [by apply firing_kern|exact Hk].
Qed.

Lemma J_timerfdSet when es (Q : unit -> World K A -> Prop) w :
  0 <= when < 2 ^ 63 -> J es w -> (forall w', J es w' -> Q tt w') -> wp (TQ.timerfdSet when) E Q w.
Proof.
  intros Hw HJ HQ. unfold TQ.timerfdSet, TQ.durationFromNow, get_loop. wp_step. wp_step. wp_step.
  wp_step. eapply J_now; [exact HJ|]. intros now w1 Hnow HJ1 _. wp_step.
  apply TQ.add_i64_wp; [|intros Hb; lia]. intros _. wp_step. wp_step.
  eapply J_sys; [done|exact HJ1|]. intros r w' HJ'. wp_step. by apply HQ.
Qed.

(** What remains when the timer [p] is no longer being fired: it was changed in
    place and put back into the set, or deleted. *)
Lemma firing_restart es d p t w :
  firing ((d, p) :: es) w -> p ∉ es.*2 -> w_timers w !! p = Some t -> canceled_ t = false ->
  repeat_ t = true -> 0 <= when_ t + interval_ t < 2 ^ 63 ->
  let t' := set_when_ (when_ t + interval_ t) t in
  firing es (set_w_timers (<[p := t']> (w_timers w))
    (set_w_loop (set_timers_ (fst (TQ.set_insert (when_ t', p) (timers_ (w_loop w)))) (w_loop w)) w)).
Proof.
  intros [Hok Hl Hs] Hp Ht Hc Hr Hb t'.
  assert (Hout : forall d, (d, p) ∉ timers_ (w_loop w)) by (apply (TQ.tk_firing _ _ Hok); set_solver).
  apply (TQ.timers_ok_weaken _ (es.*2)) in Hok; [|set_solver]. split; simpl.
  - eapply (TQ.insert_ok (es.*2) (put_timer p t' w)); [|done|apply lookup_insert_eq|done|done].
    eapply TQ.put_timer_ok; eauto. simpl. by apply (TQ.tk_addr _ _ Hok) in Ht as [_ ?].
  - intros d' q Hq. assert (q <> p).
    { intros ->. apply Hp. apply list_elem_of_fmap. by exists (d', p). }
    rewrite lookup_insert_ne by done. apply Hl. by right.
  - intros q u [[<- <-]|[_ Hu]]%lookup_insert_Some; [|by eapply Hs].
    destruct (Hs _ _ Ht) as (?&?&?). split; [exact Hb|by split].
Qed.

Lemma firing_delete es d p t w :
  firing ((d, p) :: es) w -> p ∉ es.*2 -> w_timers w !! p = Some t ->
  firing es (set_w_timers (delete p (w_timers w)) w).
Proof.
  intros [Hok Hl Hs] Hp Ht.
  assert (Hout : forall d, (d, p) ∉ timers_ (w_loop w)) by (apply (TQ.tk_firing _ _ Hok); set_solver).
  apply (TQ.timers_ok_weaken _ (es.*2)) in Hok; [|set_solver]. split; simpl.
  - by apply TQ.del_timer_ok.
  - intros d' q Hq. assert (q <> p).
    { intros ->. apply Hp. apply list_elem_of_fmap. by exists (d', p). }
    rewrite lookup_delete_ne by done. apply Hl. by right.
  - intros q u [_ Hu]%lookup_delete_Some. by eapply Hs.
Qed.

Lemma fire_safe now d p es w :
  J ((d, p) :: es) w -> d <= now < 2 ^ 62 -> p ∉ es.*2 ->
  wp (TQ.fire run now (d, p)) E (fun _ => J es) w.
Proof.
  intros HJ Hd Hp. unfold TQ.fire, get_timer. simpl.
  pose proof HJ as [Hf _]. destruct (fi_live _ _ Hf d p) as (t&Ht&Hwt&Hct); [by left|].
  assert (Hp0 : p <> nullptr) by (apply (TQ.tk_addr _ _ (fi_ok _ _ Hf)) in Ht as [? _]; lia).
  wp_step. wp_lookup. wp_step. apply wp_assert_true; [unfold TQ.expired; apply Z.leb_le; lia|].
  wp_step. apply wp_conseq with (fun _ => J ((d, p) :: es)).
  { apply wp_when; [|done]. intros _. unfold TQ.Timer_run, get_timer. wp_step. wp_lookup.
    destruct (fi_sane _ _ Hf _ _ Ht) as (_&_&Hu). unfold users in Hu.
    destruct (t_callback_ t) as [[|k]|]; [done|by apply run_keeps|by wp_step]. }
  clear t Ht Hwt Hct HJ Hf. clear w. intros _ w [Hf HR]. cbv beta.
  destruct (fi_live _ _ Hf d p) as (t&Ht&Hwt&Hct); [by left|]. wp_step. wp_lookup. rewrite Hct. simpl.
  destruct (fi_sane _ _ Hf _ _ Ht) as (Hw1&Hw2&_). destruct (repeat_ t) eqn:Hr.
  - unfold TQ.restart, upd_timer, get_timer. wp_step. wp_step. wp_lookup. wp_step.
    apply wp_assert_true; [done|]. wp_step. apply TQ.add_i64_wp; [|lia]. intros _.
    wp_step. wp_lookup. wp_step. wp_step. wp_lookup. unfold upd_loop. wp_step.
    split; [|by apply (R_timers w)].
    apply (firing_restart es d p t w); auto. lia.
  - unfold TQ.delete_timer. apply Z.eqb_neq in Hp0 as ->. wp_step. wp_step; [|congruence]. wp_step.
    split; [by eapply firing_delete|by apply R_put].
Qed.

Lemma fire_all_safe now es w :
  J es w -> now < 2 ^ 62 -> (forall e, e ∈ es -> fst e <= now) -> NoDup (es.*2) ->
  wp (for_each es (TQ.fire run now)) E (fun _ => J []) w.
Proof.
  intros HJ Hnow. revert w HJ. induction es as [|[d p] es IH]; intros w HJ Hes Hnd; [by apply wp_ret|].
  simpl in *. apply list.NoDup_cons in Hnd as [Hnin Hnd]. wp_step. eapply wp_conseq.
  - apply fire_safe; [done| |done]. split; [|done]. apply (Hes (d, p)). by left.
  - simpl. intros _ w' HJ'. apply IH; auto. intros e He. apply Hes. by right.
Qed.

(** TimerQueue::handleRead never faults and keeps the invariant. *)
Lemma handleRead_safe w : J [] w -> wp (TQ.handleRead run) E (fun _ => J []) w.
Proof.
  intros HJ. unfold TQ.handleRead. wp_step.
  apply Chan.wp_assertInLoopThread; [apply (fi_ok _ _ (proj1 HJ))|].
  unfold TQ.timerfdRead, get_loop. wp_step. wp_step. wp_step. wp_step. eapply J_sys; [done|exact HJ|].
  intros _ w0 HJ0. clear HJ. wp_step. wp_step. eapply J_now; [exact HJ0|].
  intros now w1 Hnow [Hf HR] _. clear HJ0 w0. wp_step. pose proof Hf as [Hok _ Hs].
  eapply TQ.getExpired_wp; [exact Hok|left; lia|]. intros es rest Hl Hes Hrest.
  destruct (TQ.expired_out [] _ es rest now Hok Hl Hes Hrest) as (Hnd&_&Hok').
  rewrite app_nil_r in Hok'. wp_step. eapply wp_conseq.
  - apply (fire_all_safe now es); [|lia|done|done]. split; [|by apply R_set]. split.
    + exact Hok'.
    + intros d p Hin. apply (TQ.tk_live _ _ Hok). rewrite Hl. apply elem_of_app. by left.
    + exact Hs.
  - clear Hf HR Hok Hs Hl Hok'. simpl. intros _ w2 HJ. unfold get_loop. wp_step. wp_step.
    destruct (timers_ (w_loop w2)) as [|e l] eqn:Ht; [by wp_step|].
    apply (J_timerfdSet (fst e) []); [|done|done].
    destruct e as [d p]. destruct HJ as [[Hok _ Hs] _].
    destruct (TQ.tk_live _ _ Hok d p) as (t&Hlt&<-&_); [rewrite Ht; by left|]. by apply Hs in Hlt as [? _].
Qed.
End run.
End TRun.
