(* ===== verification/Reactor.v ===== *)
(** The reactor put together: what the closures installed in channels, timers
    and the task queue do when they are called, so that the loop of EventLoop.v
    runs the handlers of the other components.  An application is a record of
    the callbacks it passes to the library. *)

From S2P Require Import Prelude Ints Kernel Buffer World Poller Channel.
From S2P Require Import TimerQueue TcpConnection EventLoop Endpoints.

Module React.

(** The callbacks of an application, by the number it gave each of them. *)
Record App (K A : Type) := mkApp {
  on_connection : Z -> ptr -> M (World K A) unit;
  on_message : Z -> ptr -> M (World K A) unit;
  on_writeComplete : Z -> ptr -> M (World K A) unit;
  on_highWaterMark : Z -> ptr -> Z -> M (World K A) unit;
  on_error : Z -> M (World K A) unit;
  on_timer : Z -> M (World K A) unit;
  on_task : Z -> M (World K A) unit;
  (* the contents of a sockaddr_in that was not initialised *)
  uninit : sockaddr_in
}.
Arguments mkApp {K A}.
Arguments on_connection {K A}. Arguments on_message {K A}. Arguments on_writeComplete {K A}.
Arguments on_highWaterMark {K A}. Arguments on_error {K A}. Arguments on_timer {K A}.
Arguments on_task {K A}. Arguments uninit {K A}.

Section run.
Context {K A : Type} `{Kernel K} `{Build}.
Variable app : App K A.

(** defaultConnectionCallback only logs. *)
Definition run_connection (cb : ConnectionCallback) (c : ptr) : M (World K A) unit :=
  match cb with DefaultConnection => ret tt | UserConnection k => on_connection app k c end.
Definition run_message (cb : MessageCallback) (c : ptr) : M (World K A) unit :=
  match cb with
  | DefaultMessage => Conn.defaultMessageCallback c
  | UserMessage k => on_message app k c
  end.
Definition run_close (cb : CloseCallback) (c : ptr) : M (World K A) unit :=
  Ends.run_close run_connection cb c.
Definition run_timer (cb : TimerCallback) : M (World K A) unit :=
  match cb with
  | TimerRetry x => Ends.Client_retry (uninit app) run_connection (on_error app) x
  | TimerUser k => on_timer app k
  end.

Definition run_channel (cb : ChannelCallback) : M (World K A) unit :=
  match cb with
  | ConnHandleRead c => Conn.handleRead run_message run_close c
  | ConnHandleWrite c => Conn.handleWrite c
  | ConnHandleClose c => Conn.handleClose run_close c
  | ConnHandleError c => Conn.handleError c
  | AcceptorHandleRead a => Ends.Acceptor_handleRead (uninit app) run_connection a
  | ConnectorHandleWrite x => Ends.Connector_handleWrite (uninit app) run_connection (on_error app) x
  | TimerQueueHandleRead => TQ.handleRead run_timer
  | EventLoopHandleRead => Ev.handleRead
  end.

Definition run_task (t : Task) : M (World K A) unit :=
  match t with
  | TaskSendInLoop c d => Conn.sendInLoop c d
  | TaskShutdownInLoop c => Conn.shutdownInLoop c
  | TaskForceCloseInLoop c => Conn.forceCloseInLoop run_close c
  | TaskStopRead c => Conn.stopReadInLoop c
  | TaskStartRead c => Conn.startReadInLoop c
  | TaskWriteComplete cb c => on_writeComplete app cb c
  | TaskHighWaterMark cb c mark => on_highWaterMark app cb c mark
  | TaskAddTimer when timer => TQ.addTimerInLoop when timer
  | TaskCancelTimer timer => TQ.cancelTimerInLoop timer
  | TaskUser cb => on_task app cb
  end.

Definition doPendingTasks : M (World K A) unit := Ev.doPendingTasks run_task.
Definition iteration : M (World K A) unit := Ev.iteration run_channel run_task.
Definition loop (fuel : nat) : M (World K A) bool := Ev.loop run_channel run_task fuel.
End run.
End React.
