(* ===== verification/Os.v ===== *)
(** A concrete kernel that keeps its promises: it answers from a script like
    the kernel of Kernel.v, but keeps the log of the calls it was asked and
    corrects the script's answers by it, so that the laws of Reports.v hold.
    The examples run on it. *)

From S2P Require Import Prelude Ints Kernel Reports.

Module OsK.

(** The eventfd of the loop. *)
Definition os_wfd : Z := 5.

Record Os := mkOs { os_log : trace; os_script : Script }.

Definition report_okb (ev m : Z) : bool :=
  ((Z.land m EPOLLOUT =? 0) || negb (Z.land ev EPOLLOUT =? 0)) &&
  ((Z.land m EPOLLHUP =? 0) || negb (Z.land m EPOLLIN =? 0) ||
   (Z.land m (Z.lor EPOLLPRI EPOLLRDHUP) =? 0)).

(** The part of a report that may be made after [tr], each channel once. *)
Fixpoint honest (tr : trace) (seen : list ptr) (l : list (Z * ptr)) : list (Z * ptr) :=
  match l with
  | [] => []
  | (m, p) :: l' =>
      match registered p tr with
      | Reg (Some ev) =>
          if report_okb ev m && bool_decide (p ∉ seen) && bool_decide (is_Some (descriptor p tr)) then (m, p) :: honest tr (p :: seen) l'
          else honest tr seen l'
      | _ => honest tr seen l'
      end
  end.

Definition correct (tr : trace) (c : syscall) : sysret (reply c) -> sysret (reply c) :=
  match c as c return sysret (reply c) -> sysret (reply c) with
  | SysEpollWait _ => fun r => match r with SysOk l => SysOk (honest tr [] l) | SysErr e => SysErr e end
  | SysAccept4 _ => fun r =>
      match r with
      | SysOk (fd, a) => if fd =? os_wfd then SysErr EAGAIN else SysOk (fd, a)
      | SysErr e => SysErr e
      end
  | SysSocket => fun r =>
      match r with
      | SysOk fd => if fd =? os_wfd then SysErr EMFILE else SysOk fd
      | SysErr e => SysErr e
      end
  | SysEventfd => fun r => match r with SysOk _ => SysOk os_wfd | SysErr e => SysErr e end
  | _ => fun r => r
  end.

#[export] Instance os_kernel : Kernel Os := {
  k_call := fun c k =>
    let (r, s) := k_call c (os_script k) in
    let r := correct (os_log k) c r in
    (r, mkOs (os_log k ++ [Event c r]) s);
  k_now := fun k => let (t, s) := k_now (os_script k) in (t, mkOs (os_log k) s)
}.

Lemma honest_length tr seen l : zlen (honest tr seen l) <= zlen l.
Proof.
  revert seen. unfold zlen. induction l as [|[m p] l IH]; intros seen; simpl; [done|].
  assert (Hs : forall seen, Z.of_nat (length (honest tr seen l)) <= Z.of_nat (S (length l))).
  { intros s. specialize (IH s). lia. }
  destruct (registered p tr) as [[ev|]|]; try apply Hs. destruct (_ && _); [|apply Hs].
  simpl. specialize (IH (p :: seen)). lia.
Qed.

Lemma report_okb_ok ev m : report_okb ev m = true -> Rep.report_ok ev m.
Proof.
  unfold report_okb, Rep.report_ok. rewrite andb_true_iff, !orb_true_iff, !negb_true_iff, !Z.eqb_eq, !Z.eqb_neq.
  tauto.
Qed.

Lemma honest_ok tr seen l :
  NoDup (map snd (honest tr seen l)) /\ (forall p, p ∈ map snd (honest tr seen l) -> p ∉ seen) /\
  forall m p, (m, p) ∈ honest tr seen l -> descriptor p tr <> None /\ exists ev, registered p tr = Reg (Some ev) /\ Rep.report_ok ev m.
Proof.
  revert seen. induction l as [|[m p] l IH]; intros seen; simpl.
  { split_and!; [constructor|by intros p ?%not_elem_of_nil|by intros m p ?%not_elem_of_nil]. }
  destruct (registered p tr) as [[ev|]|] eqn:Hr; try apply IH.
  destruct (report_okb ev m) eqn:Hok; simpl; [|apply IH]. case_bool_decide as Hp; [|apply IH].
  case_bool_decide as Hfd; [|apply IH].
  destruct (IH (p :: seen)) as (Hnd&Hns&Hin). split_and!; simpl.
  - apply list.NoDup_cons. split; [|done]. intros Hx%Hns. apply Hx. by left.
  - intros q [->|Hq]%elem_of_cons; [done|]. intros Hx. apply (Hns q Hq). by right.
  - intros m' q [Heq|Hq]%elem_of_cons; [|by apply Hin]. injection Heq as -> ->. split; [by apply not_eq_None_Some|]. exists ev.
    split; [done|by apply report_okb_ok].
Qed.

Lemma correct_ok tr c r : reply_ok c r -> reply_ok c (correct tr c r).
Proof.
  destruct c; simpl; try done.
  - destruct r as [x|e]; [|done]. by destruct (_ =? _).
  - destruct r as [[x a]|e]; [|done]. by destruct (_ =? _).
  - destruct r as [l|e]; [|done]. pose proof (honest_length tr [] l). intros. simpl. lia.
  - by destruct r.
Qed.

Lemma correct_true tr c r : Rep.truthful os_wfd tr c (correct tr c r).
Proof.
  destruct c; simpl; try done.
  - destruct r as [x|e]; [|done]. destruct (x =? os_wfd) eqn:Hfd; zbool; done.
  - destruct r as [[x a]|e]; [|done]. destruct (x =? os_wfd) eqn:Hfd; zbool; done.
  - destruct r as [l|e]; [|done]. destruct (honest_ok tr [] l) as (?&_&?). done.
  - by destruct r.
Qed.

#[export] Instance os_laws : KernelLaws Os.
Proof.
  split.
  - intros c k. pose proof (k_reply_ok c (os_script k)) as Hr. cbn [k_call os_kernel].
    destruct (k_call c (os_script k)) as [r s]. by apply correct_ok.
  - intros k. pose proof (k_now_ok (os_script k)) as Ht. cbn [k_now os_kernel].
    by destruct (k_now (os_script k)).
Qed.

#[export] Program Instance os_epoll : Rep.Epoll Os os_wfd := { coupled := fun k tr => os_log k = tr }.
Next Obligation.
  intros c k tr <-. cbn [k_call os_kernel]. destruct (k_call c (os_script k)) as [r s].
  split; [apply correct_true|done].
Qed.
Next Obligation.
  intros k tr <-. cbn [k_now os_kernel]. by destruct (k_now (os_script k)).
Qed.

End OsK.
