(* ===== verification/ServerInv.v ===== *)
(** A server running in one loop: the invariant of its whole world (acceptor,
    server, connections, timers, channels, epoll registrations, pending tasks),
    what a step of the application may change of it, and the calls an
    application can make that keep it. *)

From S2P Require Import Prelude Ints Kernel Buffer World Poller Channel TimerQueue.
From S2P Require Import TcpConnection Endpoints Frame Reports TimerRun.

Module Srv.
#[local] Existing Instances Frame.frame_preorder Frame.rewired_loose Frame.idle_loose.

(** What makes the connections of a loop and owns them. *)
Inductive Owner :=
  | OServer (server acceptor achan : ptr)    (* a TcpServerSingle, with the acceptor's channel *)
  | OClient (client : ptr).                  (* a TcpClient that has connected *)

(** The fixed objects of a loop with one server or client. *)
Record Site := mkSite {
  st_owner : Owner;
  st_wchan : ptr;          (* the loop's wakeup channel *)
  st_tchan : ptr;          (* the timer queue's channel *)
  st_wfd : Z               (* the loop's eventfd *)
}.

(** A loop with a server. *)
Definition st_server (site : Site) : ptr :=
  match st_owner site with OServer s _ _ => s | OClient _ => nullptr end.
Definition st_acceptor (site : Site) : ptr :=
  match st_owner site with OServer _ a _ => a | OClient _ => nullptr end.
Definition st_achan (site : Site) : ptr :=
  match st_owner site with OServer _ _ p => p | OClient _ => nullptr end.
Class IsServer (site : Site) : Prop :=
  is_server : st_owner site = OServer (st_server site) (st_acceptor site) (st_achan site).

(** What an application maintains about its own state, which may speak of the
    connections it was given. *)
Class AppInv (A : Type) := {
  app_inv : A -> (ptr -> Prop) -> Prop;
  app_inv_mono : forall a (P Q : ptr -> Prop), app_inv a P -> (forall c, P c -> Q c) -> app_inv a Q
}.

Section server.
Context {K A : Type} `{Kernel K} `{!KernelLaws K} `{Build}.
Context {site : Site} `{!Rep.Epoll K (st_wfd site)} `{!AppInv A}.
Implicit Types w : World K A.
Abbreviation Lk := (@Rep.linked K A _ (st_wfd site) _).

(** ** The invariant *)

(** The channel on which the owner waits for connections. *)
Definition owner_chan (p : ptr) : Prop :=
  match st_owner site with OServer _ _ q => p = q | OClient _ => False end.
Definition special (p : ptr) : Prop := owner_chan p \/ p = st_wchan site \/ p = st_tchan site.

(** The close callback of its connections. *)
Definition owner_close : CloseCallback :=
  match st_owner site with
  | OServer s _ _ => ServerCloseConnection s
  | OClient x => ClientCloseConnection x
  end.

Definition live (c : ptr) w : Prop := is_Some (w_conns w !! c).

(** A connection of the server, established and perhaps closed since. *)
Record entry (c : ptr) (cn : TcpConnection) (ch : Channel) w : Prop := {
  en_conn : Conn.conn_at c cn ch w;
  en_wired : Ends.wired c ch;
  en_tied : tied_ ch = true /\ tie_ ch = Some c;
  en_state : state_ cn <> kConnecting;
  en_close : connCloseCallback_ cn = Some owner_close;
  en_message : messageCallback_ cn <> None
}.

(** What of a loop does not change after its construction. *)
Definition fixed (l : EventLoop) : Z * ptr * ptr := (wakeupfd_ l, wakeupChannel_ l, timerChannel_ l).
Lemma fixed_wake l l' : fixed l = fixed l' -> wakeupfd_ l = wakeupfd_ l'.
Proof. by intros [=]. Qed.

(** A channel that only has a read callback, known to epoll. *)
Definition reads (p : ptr) (cb : ChannelCallback) w : Prop :=
  p <> nullptr /\ exists ch, w_channels w !! p = Some ch /\ tied_ ch = false /\
    readCallback_ ch = Some cb /\ writeCallback_ ch = None /\
    closeCallback_ ch = None /\ errorCallback_ ch = None /\ pooling ch = true.

(** What a queued task needs.  stopRead and startRead from another thread are
    not among them, whose tasks do not hold the connection (see Lifetime.v and
    [startRead_after_close]), nor are timers added or cancelled by other threads. *)
Definition task_ok w (t : Task) : Prop :=
  match t with
  | TaskSendInLoop c d => live c w /\ zlen d <= Buf.max_size
  | TaskShutdownInLoop c | TaskForceCloseInLoop c
  | TaskWriteComplete _ c | TaskHighWaterMark _ c _ => live c w
  | TaskUser _ => True
  | _ => False
  end.

(** The acceptor of a server waits for connections. *)
Definition accepts_ok w : Prop :=
  match st_owner site with
  | OServer s a p => reads p (AcceptorHandleRead a) w /\ a <> nullptr /\
      exists ac, w_acceptors w !! a = Some ac /\
        a_newConnectionCallback_ ac = Some (ServerNewConnection s) /\ acceptChannel_ ac = p
  | OClient _ => True
  end.

Record objects_ok w : Prop := {
  ob_thread : Chan.in_loop_thread w;
  ob_wake : fixed (w_loop w) = (st_wfd site, st_wchan site, st_tchan site) /\ st_wfd site <> -1;
  ob_conns : forall c cn, w_conns w !! c = Some cn -> exists ch, entry c cn ch w;
  ob_distinct : forall c1 c2 cn1 cn2, w_conns w !! c1 = Some cn1 -> w_conns w !! c2 = Some cn2 ->
    channel_ cn1 = channel_ cn2 -> c1 = c2;
  ob_apart : forall c cn, w_conns w !! c = Some cn -> ~ special (channel_ cn);
  ob_accepts : accepts_ok w;
  ob_wakeup : reads (st_wchan site) EventLoopHandleRead w;
  ob_timer : reads (st_tchan site) TimerQueueHandleRead w;
  ob_next : 0 < w_next w /\ (forall p, special p -> p < w_next w) /\
    forall c cn, w_conns w !! c = Some cn -> c < w_next w /\ channel_ cn < w_next w;
  ob_chans : forall q ch, w_channels w !! q = Some ch -> q < w_next w;
  ob_unused : forall q, w_next w <= q -> registered q (w_trace w) = Reg None;
  ob_known : forall q, watched q (w_trace w) ->
    special q \/ exists c cn, w_conns w !! c = Some cn /\ channel_ cn = q;
  ob_tasks : Forall (task_ok w) (pendingTasks_ (w_loop w));
  ob_linked : Lk w;
  ob_app : app_inv (w_app w) (fun c => live c w)
}.

(** The server's set, or the member of the client, holds the connections that
    are not closed. *)
Definition open_conn (c : ptr) w : Prop := exists cn, w_conns w !! c = Some cn /\ Conn.up cn.
Definition members_ok w : Prop :=
  match st_owner site with
  | OServer s a _ => s <> nullptr /\ exists sv, w_singles w !! s = Some sv /\
      (s_connectionCallback_ sv <> None /\ acceptor_ sv = a) /\ s_messageCallback_ sv <> None /\
      forall c, c ∈ connections_ sv <-> open_conn c w
  | OClient x => x <> nullptr /\ exists cl, w_clients w !! x = Some cl /\
      c_connectionCallback_ cl <> None /\ forall c, connection_ cl = Some c <-> open_conn c w
  end.

Definition base_ok w : Prop := objects_ok w /\ members_ok w.
Definition server_ok w : Prop := base_ok w /\ TRun.firing [] w.

(** What a step leaves: objects stay, closed connections stay closed; and but
    for the connections in [X] open ones stay open, and those with data to write
    keep having some.  Of a channel only the registration changes; a new one is
    not being handled. *)
Record stays (X : ptr -> Prop) w w' : Prop := {
  sy_conns : forall c cn, w_conns w !! c = Some cn ->
    exists cn', w_conns w' !! c = Some cn' /\ channel_ cn' = channel_ cn /\
      (~ Conn.up cn -> ~ Conn.up cn') /\
      (~ X c -> Conn.up cn -> Conn.up cn' /\ (Conn.pending cn <> [] -> Conn.pending cn' <> []));
  sy_chans : forall p ch, w_channels w !! p = Some ch ->
    exists ch', w_channels w' !! p = Some ch' /\ Frame.rewired ch ch';
  sy_new : forall p ch, w_channels w' !! p = Some ch -> w_channels w !! p = None -> handlingEvents_ ch = false
}.
Definition nobody : ptr -> Prop := fun _ => False.

(** A step of the application. *)
Definition step_ok w w' : Prop :=
  server_ok w' /\ stays nobody w w' /\ forall es, TRun.firing es w -> TRun.firing es w'.

#[export] Instance stays_preorder X : PreOrder (stays X).
Proof.
  split.
  - intros w. split; [intros c cn Hc; exists cn; by split_and!| |intros p ch Hp Hn; congruence].
    intros p ch Hp. exists ch. split; [done|apply Frame.rewired_refl].
  - intros w1 w2 w3 [C1 P1 N1] [C2 P2 N2]. split.
    + intros c cn Hc. destruct (C1 c cn Hc) as (cn2&Hc2&E2&Hd2&Hk2).
      destruct (C2 c cn2 Hc2) as (cn3&Hc3&E3&Hd3&Hk3). exists cn3. split_and!; [done|congruence|auto|].
      intros HX Hup. destruct (Hk2 HX Hup) as [Hup2 Hp2]. destruct (Hk3 HX Hup2). auto.
    + intros p ch Hp. destruct (P1 p ch Hp) as (ch2&Hp2&E2). destruct (P2 p ch2 Hp2) as (ch3&Hp3&E3).
      exists ch3. split; [done|]. unfold Frame.rewired in *. by rewrite E3, E2.
    + intros p ch Hp Hn. destruct (w_channels w2 !! p) as [ch2|] eqn:Hp2; [|by eapply N2].
      destruct (P2 p ch2 Hp2) as (ch3&Hp3&E3). assert (ch3 = ch) as -> by congruence.
      rewrite E3. by apply (N1 p ch2).
Qed.

Lemma stays_mono (X Y : ptr -> Prop) w w' : stays X w w' -> (forall c, X c -> Y c) -> stays Y w w'.
Proof.
  intros [C P N] HXY. split; [|done..]. intros c cn Hc. destruct (C c cn Hc) as (cn'&?&?&?&Hk).
  exists cn'. split_and!; auto.
Qed.
Lemma stays_live X w w' c : stays X w w' -> live c w -> live c w'.
Proof. intros [C _ _] [cn Hc]. destruct (C c cn Hc) as (cn'&?&_). by exists cn'. Qed.
Lemma stays_task X w w' t : stays X w w' -> task_ok w t -> task_ok w' t.
Proof. intros Hs. destruct t; simpl; try done; try (by apply stays_live with X). intros []. split; [by eapply stays_live|done]. Qed.
Lemma stays_tasks X w w' ts : stays X w w' -> Forall (task_ok w) ts -> Forall (task_ok w') ts.
Proof. intros Hs Ht. eapply list.Forall_impl; [exact Ht|]. intros t. by eapply stays_task. Qed.

(** ** Changing one connection *)

Lemma frame_loop (C P : ptr -> Prop) w w' : Frame.frame C P w w' ->
  tid_ (w_loop w') = tid_ (w_loop w) /\ fixed (w_loop w') = fixed (w_loop w) /\
  timers_ (w_loop w') = timers_ (w_loop w).
Proof. intros Hf. rewrite (Frame.fr_loop _ _ _ _ Hf). done. Qed.

Lemma entry_frame c cn ch w w' :
  entry c cn ch w -> w_conns w' !! c = w_conns w !! c ->
  w_channels w' !! channel_ cn = w_channels w !! channel_ cn ->
  tid_ (w_loop w') = tid_ (w_loop w) -> wakeupfd_ (w_loop w') = wakeupfd_ (w_loop w) ->
  w_cur w' = w_cur w -> registered (channel_ cn) (w_trace w') = registered (channel_ cn) (w_trace w) ->
  entry c cn ch w'.
Proof.
  intros [[Hb Hph] ?????] E1 E2 E3 E4 E5 E6. split; try done. split; [|done].
  by eapply Conn.base_frame.
Qed.

Lemma reads_frame p cb w w' : reads p cb w -> w_channels w' !! p = w_channels w !! p -> reads p cb w'.
Proof. unfold reads. by intros ? ->. Qed.

Lemma accepts_frame w w' : accepts_ok w ->
  (forall p, owner_chan p -> w_channels w' !! p = w_channels w !! p) -> w_acceptors w' = w_acceptors w ->
  accepts_ok w'.
Proof.
  unfold accepts_ok, owner_chan. destruct (st_owner site) as [s a p|x]; [|done].
  intros (Hr&Ha&Hac) Hc ->. split; [|by split]. eapply reads_frame; [exact Hr|by apply Hc].
Qed.

Lemma members_frame w w' : members_ok w -> w_singles w' = w_singles w -> w_clients w' = w_clients w ->
  (forall c, open_conn c w' <-> open_conn c w) -> members_ok w'.
Proof.
  unfold members_ok. intros Hm -> -> Hc. destruct (st_owner site) as [s a p|x].
  - destruct Hm as (?&sv&?&[? ?]&?&Hm). split; [done|]. exists sv. split_and!; [done..|]. intros c. by rewrite Hm, Hc.
  - destruct Hm as (?&cl&?&?&Hm). split; [done|]. exists cl. split_and!; [done..|]. intros c. by rewrite Hm, Hc.
Qed.

Lemma firing_frame es w w' :
  TRun.firing es w -> tid_ (w_loop w') = tid_ (w_loop w) -> w_cur w' = w_cur w ->
  w_next w <= w_next w' -> timers_ (w_loop w') = timers_ (w_loop w) -> w_timers w' = w_timers w ->
  TRun.firing es w'.
Proof.
  intros [[Ht Hn Hs Hl Ha Hf] Hlive Hsane] E1 E2 E3 E4 E5. split; rewrite ?E5; auto.
  split; rewrite ?E4, ?E5; auto; try lia.
  - unfold Chan.in_loop_thread in *. congruence.
  - intros p t Hp. destruct (Ha p t Hp). split; [lia|done].
  - intros p Hp. destruct (Hf p Hp). split; [lia|done].
Qed.

(** The connection [c] goes from [cn] to [cn'] with its channel. *)
Record changes (c : ptr) (cn cn' : TcpConnection) (ch ch' : Channel) w w' : Prop := {
  cg_was : w_conns w !! c = Some cn /\ w_channels w !! channel_ cn = Some ch;
  cg_frame : Frame.frame (eq c) (eq (channel_ cn)) w w';
  cg_is : entry c cn' ch' w';
  cg_channel : channel_ cn' = channel_ cn;
  cg_wiring : Frame.rewired ch ch';
  cg_tasks : exists ts, pendingTasks_ (w_loop w') = pendingTasks_ (w_loop w) ++ ts /\
    Forall (Frame.own_task c) ts;
  cg_linked : Lk w'
}.

Lemma own_task_ok c w t : live c w -> Frame.own_task c t -> task_ok w t.
Proof. intros Hc. destruct t; simpl; try done; by intros ->. Qed.

Lemma changes_stays (X : ptr -> Prop) c cn cn' ch ch' w w' :
  changes c cn cn' ch ch' w w' -> (~ Conn.up cn -> ~ Conn.up cn') ->
  (~ X c -> Conn.up cn -> Conn.up cn' /\ (Conn.pending cn <> [] -> Conn.pending cn' <> [])) ->
  stays X w w'.
Proof.
  intros [[Hc Hch] Hf Hen E Hw _ _] Hdn HX. split.
  - intros q cq Hq. destruct (decide (c = q)) as [<-|Hne].
    + assert (cq = cn) as -> by congruence. exists cn'. split; [apply Hen|]. by split.
    + exists cq. rewrite (Frame.fr_conns _ _ _ _ Hf) by done. by split_and!.
  - intros q x Hq. destruct (decide (channel_ cn = q)) as [<-|Hne].
    + assert (x = ch) as -> by congruence. exists ch'. split; [|done]. rewrite <- E. apply Hen.
    + exists x. rewrite (Frame.fr_chans _ _ _ _ Hf) by done. split; [done|apply Frame.rewired_refl].
  - intros q x Hq Hn. destruct (decide (channel_ cn = q)) as [<-|Hne]; [congruence|].
    rewrite (Frame.fr_chans _ _ _ _ Hf) in Hq by done. congruence.
Qed.

Lemma changes_objects c cn cn' ch ch' w w' :
  objects_ok w -> changes c cn cn' ch ch' w w' -> (~ Conn.up cn -> ~ Conn.up cn') -> objects_ok w'.
Proof.
  intros [Ht Hwk Hcs Hd Hap Ha Hwu Hti Hn Hch0 Hun Hk Hts Hlk Hai] Hcg Hdn.
  pose proof (changes_stays (eq c) _ _ _ _ _ _ _ Hcg Hdn ltac:(by intros [])) as Hst.
  destruct Hcg as [[Hc Hch] Hf Hen E Hw (ts&Hp&Hown) Hlk']. destruct (frame_loop _ _ _ _ Hf) as (F1&F2&F3).
  assert (Hold : forall q cq, w_conns w' !! q = Some cq ->
    exists co, w_conns w !! q = Some co /\ channel_ cq = channel_ co).
  { intros q cq Hq. destruct (decide (c = q)) as [<-|Hne].
    - exists cn. split; [done|]. assert (cq = cn') as -> by (destruct Hen as [[[]]]; congruence). done.
    - exists cq. split; [|done]. by rewrite <- (Frame.fr_conns _ _ _ _ Hf). }
  assert (Hsp : forall p cb, reads p cb w -> special p -> reads p cb w').
  { intros p cb Hr Hs. eapply reads_frame; [exact Hr|]. apply (Frame.fr_chans _ _ _ _ Hf).
    intros <-. by eapply Hap. }
  split; auto.
  - unfold Chan.in_loop_thread in *. rewrite F1, (Frame.fr_cur _ _ _ _ Hf). done.
  - by rewrite F2.
  - intros q cq Hq. destruct (decide (c = q)) as [<-|Hne].
    + exists ch'. assert (cq = cn') as -> by (destruct Hen as [[[]]]; congruence). done.
    + rewrite (Frame.fr_conns _ _ _ _ Hf) in Hq by done. destruct (Hcs q cq Hq) as [x Hx]. exists x.
      assert (channel_ cn <> channel_ cq) by (intros He; apply Hne; by eapply Hd).
      eapply entry_frame; [exact Hx|apply Hf; done|apply Hf; done|done|by apply fixed_wake|apply Hf|apply Hf; done].
  - intros c1 c2 cn1 cn2 Hc1 Hc2 He. destruct (Hold _ _ Hc1) as (d1&G1&E1), (Hold _ _ Hc2) as (d2&G2&E2).
    apply (Hd _ _ _ _ G1 G2). congruence.
  - intros q cq Hq. destruct (Hold _ _ Hq) as (co&Hco&->). by eapply Hap.
  - eapply accepts_frame; [exact Ha| |apply Hf]. intros p Hp0. apply (Frame.fr_chans _ _ _ _ Hf).
    intros <-. eapply Hap; [exact Hc|by left].
  - apply Hsp; [done|by right; left].
  - apply Hsp; [done|by right; right].
  - rewrite (Frame.fr_next _ _ _ _ Hf). destruct Hn as (?&?&Hn). split_and!; auto.
    intros q cq Hq. destruct (Hold _ _ Hq) as (co&Hco&->). by apply (Hn q).
  - intros q x Hq. rewrite (Frame.fr_next _ _ _ _ Hf). destruct (decide (channel_ cn = q)) as [<-|Hne].
    + destruct Hn as (_&_&Hn). by apply (Hn c).
    + rewrite (Frame.fr_chans _ _ _ _ Hf) in Hq by done. by eapply Hch0.
  - intros q. rewrite (Frame.fr_next _ _ _ _ Hf). intros Hq. rewrite <- (Hun q Hq). apply (Frame.fr_reg _ _ _ _ Hf).
    intros <-. destruct Hn as (_&_&Hn). destruct (Hn c cn Hc). lia.
  - intros q Hq. destruct (decide (channel_ cn = q)) as [<-|Hne].
    + right. exists c, cn'. split; [apply Hen|done].
    + apply (keeps_reg_watched _ (w_trace w)) in Hq; [|by apply Hf]. destruct (Hk q Hq) as [?|(x&cx&Hx&Ex)]; [by left|].
      right. destruct (sy_conns _ _ _ Hst x cx Hx) as (cx'&?&?&_). exists x, cx'. split; [done|congruence].
  - rewrite Hp. apply list.Forall_app. split; [by eapply stays_tasks|].
    eapply list.Forall_impl; [exact Hown|]. intros t. apply own_task_ok. exists cn'. apply Hen.
  - rewrite (Frame.fr_app _ _ _ _ Hf). eapply app_inv_mono; [exact Hai|]. intros q. by eapply stays_live.
Qed.

Lemma changes_members c cn cn' ch ch' w w' :
  members_ok w -> changes c cn cn' ch ch' w w' -> (Conn.up cn' <-> Conn.up cn) -> members_ok w'.
Proof.
  intros Hm Hcg Hup. pose proof (cg_frame _ _ _ _ _ _ _ Hcg) as Hf.
  eapply members_frame; [exact Hm|apply Hf|apply Hf|]. intros q. unfold open_conn. destruct (decide (c = q)) as [<-|Hne].
  - pose proof (proj1 (cg_was _ _ _ _ _ _ _ Hcg)) as Hc.
    pose proof (cg_is _ _ _ _ _ _ _ Hcg) as [[[_ Hc' _ _ _ _ _ _] _] _ _ _ _ _].
    split; intros (x&Hx&Hux); [exists cn|exists cn']; (split; [done|]); apply Hup; congruence.
  - by rewrite (Frame.fr_conns _ _ _ _ Hf).
Qed.

Lemma changes_firing es c cn cn' ch ch' w w' :
  TRun.firing es w -> changes c cn cn' ch ch' w w' -> TRun.firing es w'.
Proof.
  intros Hfi Hcg. pose proof (cg_frame _ _ _ _ _ _ _ Hcg) as Hf.
  destruct (frame_loop _ _ _ _ Hf) as (F1&F2&F3).
  eapply firing_frame; [exact Hfi|done|apply Hf| |done|apply Hf].
  rewrite (Frame.fr_next _ _ _ _ Hf). lia.
Qed.

Lemma changes_ok c cn cn' ch ch' w w' :
  server_ok w -> changes c cn cn' ch ch' w w' -> (Conn.up cn' <-> Conn.up cn) -> server_ok w'.
Proof.
  intros [[Ho Hm] Hfi] Hcg Hup. split; [split|]; [eapply changes_objects; eauto; tauto|by eapply changes_members|].
  by eapply changes_firing.
Qed.

Lemma evolves_changes c cn cn' ch ch' w w' :
  entry c cn ch w -> Frame.evolves c cn cn' ch ch' w w' -> Lk w' -> changes c cn cn' ch ch' w w'.
Proof.
  intros [[Hb _] Hwi Hti Hst Hcl Hms] [Hf Hc Hr E Em Ec Hup Hs Ht] Hlk.
  assert (Hr' : ch' = set_pooling (pooling ch') (set_events_ (events_ ch') ch)) by exact Hr.
  split; auto; [split; apply Hb|].
  split; auto; [..|congruence|congruence].
  - rewrite Hr'. exact Hwi.
  - rewrite Hr'. exact Hti.
Qed.

(** Nothing the invariant of the objects reads changed. *)
Lemma objects_same w w' :
  objects_ok w -> w_conns w' = w_conns w -> w_channels w' = w_channels w ->
  tid_ (w_loop w') = tid_ (w_loop w) -> fixed (w_loop w') = fixed (w_loop w) ->
  w_cur w' = w_cur w -> w_acceptors w' = w_acceptors w -> w_app w' = w_app w -> w_next w <= w_next w' ->
  (forall q, keeps_reg q (w_trace w) (w_trace w')) ->
  Forall (task_ok w) (pendingTasks_ (w_loop w')) -> Lk w' -> objects_ok w'.
Proof.
  intros [Ht Hwk Hcs Hd Hap Ha Hwu Hti Hn Hch0 Hun Hk Hts Hlk Hai] E1 E2 E3 E4 E5 E6 Ea E7 E8 Hp Hlk'.
  split; rewrite ?E1, ?E4; auto.
  - unfold Chan.in_loop_thread in *. congruence.
  - intros c cn Hc. destruct (Hcs c cn Hc) as [ch Hch]. exists ch.
    pose proof (fixed_wake _ _ E4). eapply entry_frame; [exact Hch|congruence..|apply E8].
  - eapply accepts_frame; [exact Ha|intros; congruence|done].
  - eapply reads_frame; [exact Hwu|congruence].
  - eapply reads_frame; [exact Hti|congruence].
  - destruct Hn as (?&Hs&Hn). split_and!; [lia|..].
    + intros p Hsp. specialize (Hs p Hsp). lia.
    + intros c cn Hc. destruct (Hn c cn Hc). lia.
  - intros q ch. rewrite E2. intros Hq%Hch0. lia.
  - intros q Hq. rewrite (proj1 (E8 q)). apply Hun. lia.
  - intros q Hq. apply Hk. eapply keeps_reg_watched; [apply E8|done].
  - eapply list.Forall_impl; [exact Hp|]. intros t. destruct t; simpl; try done; unfold live; by rewrite E1.
  - rewrite Ea. eapply app_inv_mono; [exact Hai|]. intros c. unfold live. by rewrite E1.
Qed.

(** ** Calls of the application *)

Lemma api_step x rm rc c w cn :
  server_ok w -> w_conns w !! c = Some cn -> Conn.call_pre x cn -> Frame.local_call x = true ->
  wp (Conn.conn_call_run rm rc c x) (eq LengthError) (fun _ w' =>
    server_ok w' /\ (forall es, TRun.firing es w -> TRun.firing es w') /\
    stays (eq c) w w' /\ (x <> Conn.CallHandleWrite -> stays nobody w w')) w.
Proof.
  intros Hok Hc Hpre Hx. pose proof (proj1 (proj1 Hok)) as Ho.
  destruct (ob_conns _ Ho _ _ Hc) as [ch Hen]. eapply wp_conseq.
  - eapply wp_and; [by eapply Frame.local_call_evolves; [apply Hen|apply Hen|..]|].
    apply (Rep.local_call_linked x rm rc c Hx w). apply Ho.
  - intros _ w' [(cn'&ch'&Hev&Hw) Hlk].
    pose proof (evolves_changes _ _ _ _ _ _ _ Hen Hev Hlk) as Hcg.
    pose proof (Frame.ev_up _ _ _ _ _ _ _ Hev) as Hup.
    split_and!; [by eapply changes_ok|intros es Hes; by eapply changes_firing| |].
    + eapply changes_stays; [exact Hcg|tauto|by intros []].
    + intros Hne. eapply changes_stays; [exact Hcg|tauto|]. intros _ Hu. split; [by apply Hup|by apply Hw].
Qed.

Lemma api_keeps x rm rc c w cn :
  server_ok w -> w_conns w !! c = Some cn -> Conn.call_pre x cn -> Frame.local_call x = true ->
  x <> Conn.CallHandleWrite ->
  wp (Conn.conn_call_run rm rc c x) (eq LengthError) (fun _ => step_ok w) w.
Proof.
  intros. eapply wp_conseq; [by eapply api_step|]. intros _ w' (?&?&_&?). split; auto.
Qed.

Lemma stays_same X w w' : w_conns w' = w_conns w -> w_channels w' = w_channels w -> stays X w w'.
Proof.
  intros E1 E2. split; [intros c cn Hc|intros p ch Hp|intros p ch]; rewrite ?E1, ?E2.
  - exists cn. by split_and!.
  - exists ch. split; [done|apply Frame.rewired_refl].
  - intros. congruence.
Qed.

(** A call on the input buffer of a connection, as the message callback makes
    them. *)
Lemma input_keeps {T} (m : M Buf.Buffer T) c cn (E : fault -> Prop) w :
  server_ok w -> w_conns w !! c = Some cn ->
  wp m E (fun _ => Buf.wf) (inputBuffer_ cn) ->
  wp (Conn.on_input c m) E (fun _ => step_ok w) w.
Proof.
  intros Hok Hc Hm. pose proof (proj1 (proj1 Hok)) as Ho. destruct (ob_conns _ Ho _ _ Hc) as [ch Hen].
  set (Q1 := fun (_ : T) w' => exists b, Conn.base_at c (set_inputBuffer_ b cn) ch w' /\
    pendingTasks_ (w_loop w') = pendingTasks_ (w_loop w)).
  pose proof (proj1 (en_conn _ _ _ _ Hen)) as Hb.
  eapply wp_conseq.
  - eapply (wp_and _ E Q1).
    + eapply Conn.wp_on_input; [exact Hb|]. eapply wp_conseq; [exact Hm|]. intros x b Hwf. split; [done|].
      intros w' Hb' Hobs _. exists b. split; [done|]. unfold Conn.obs in Hobs. by injection Hobs.
    + eapply wp_and; [|apply (Rep.on_input_linked c m w), Ho].
      apply (Frame.on_input_framed c (channel_ cn) (Frame.rewired ch) w m w).
      split; [reflexivity|by exists cn|]. exists ch. split; [apply Hb|apply Frame.rewired_refl].
  - intros _ w' [(b&Hb'&Ht) [[Hf _ (ch'&Hl&Hr)] Hlk]].
    assert (ch' = ch) as -> by (pose proof (Conn.ba_chan _ _ _ _ Hb'); simpl in *; congruence).
    destruct Hen as [[_ Hph] Hwi Hti Hst Hcl Hms].
    assert (Hcg : changes c cn (set_inputBuffer_ b cn) ch ch w w').
    { split; auto; [split; apply Hb|split; [by split|done..]|].
      exists []. by rewrite app_nil_r. }
    split; [by eapply changes_ok|]. split; [|intros es Hes; by eapply changes_firing].
    eapply changes_stays; [exact Hcg|done|]. done.
Qed.
(** ** Small steps *)

Lemma step_refl w : server_ok w -> step_ok w w.
Proof. intros Hok. split; [done|]. by split. Qed.

(** Two steps in a row. *)
Lemma step_trans w1 w2 w3 : step_ok w1 w2 -> step_ok w2 w3 -> step_ok w1 w3.
Proof.
  intros (_&Hs&Hf) (Hok&Hs'&Hf'). split; [done|]. split; [by transitivity w2|]. auto.
Qed.

Lemma errno_step e w : server_ok w -> step_ok w (set_w_errno e w).
Proof.
  intros [[Ho Hm] Hfi].
  assert (Hfr : forall es, TRun.firing es w -> TRun.firing es (set_w_errno e w)).
  { intros es Hes. by eapply firing_frame. }
  split; [|by split; [apply stays_same|]]. split; [split|by apply Hfr].
  - eapply objects_same; [exact Ho|try done; apply Ho..].
  - exact Hm.
Qed.

(** The application changes its own state. *)
Lemma set_app_keeps a w : server_ok w -> app_inv a (fun c => live c w) -> step_ok w (set_w_app a w).
Proof.
  intros [[Ho Hm] Hfi] Ha.
  assert (Hfr : forall es, TRun.firing es w -> TRun.firing es (set_w_app a w)).
  { intros es Hes. by eapply firing_frame. }
  split; [|by split; [apply stays_same|]]. split; [split; [|exact Hm]|by apply Hfr].
  destruct Ho as [Ht Hwk Hcs Hd Hap Hac Hwu Hti Hn Hch Hun Hk Hts Hlk _]. split; auto.
  intros c cn Hc. destruct (Hcs c cn Hc) as [ch Hen]. exists ch. by eapply entry_frame.
Qed.

(** A system call other than epoll_ctl is a step. *)
Lemma sys_step x (E : fault -> Prop) (Q : sysret (reply x) -> World K A -> Prop) w :
  server_ok w -> match x with SysEpollCtl _ _ _ _ => False | _ => True end ->
  (forall r w', step_ok w w' -> Rep.truthful (st_wfd site) (w_trace w) x r ->
     w_trace w' = w_trace w ++ [Event x r] -> Q r w') -> wp (sys x) E Q w.
Proof.
  intros [[Ho Hm] Hfi] Hx HQ. apply Rep.wp_sys_truth; [apply Ho|]. destruct (k_call x (w_kern w)) as [r k].
  intros _ Htr w' Hlk.
  assert (Hreg : forall q, keeps_reg q (w_trace w) (w_trace w')).
  { intros q. simpl. apply keeps_reg_snoc. by destruct x. }
  apply HQ; try done. split; [|split].
  - split; [split; [|exact Hm]|by apply TRun.firing_sys].
    eapply objects_same; [exact Ho|done..|exact Hreg| |exact Hlk]. apply Ho.
  - by apply stays_same.
  - intros es Hes. by apply TRun.firing_sys.
Qed.

(** A change of the loop's own flags. *)
Lemma loop_ok l w :
  server_ok w -> tid_ l = tid_ (w_loop w) -> fixed l = fixed (w_loop w) ->
  timers_ l = timers_ (w_loop w) -> Forall (task_ok w) (pendingTasks_ l) -> server_ok (set_w_loop l w).
Proof.
  intros [[Ho Hm] Hfi] E1 E2 E3 Ht. split; [split; [|exact Hm]|by eapply firing_frame].
  eapply objects_same; [exact Ho|done..|]. apply Ho.
Qed.

(** What the callbacks of timers keep of the rest of the world. *)
Definition calm w0 w : Prop := base_ok w /\ stays nobody w0 w.

Lemma calm_same w0 w w' :
  calm w0 w -> w_conns w' = w_conns w -> w_channels w' = w_channels w -> w_singles w' = w_singles w -> w_clients w' = w_clients w ->
  tid_ (w_loop w') = tid_ (w_loop w) -> fixed (w_loop w') = fixed (w_loop w) ->
  pendingTasks_ (w_loop w') = pendingTasks_ (w_loop w) ->
  w_cur w' = w_cur w -> w_acceptors w' = w_acceptors w -> w_app w' = w_app w -> w_next w <= w_next w' ->
  (forall q, keeps_reg q (w_trace w) (w_trace w')) -> Lk w' -> calm w0 w'.
Proof.
  intros [[Ho Hm] Hs] E1 E2 E3 E3' E4 E5 E6 E7 E8 Ea E9 E10 Hlk. split; [split|].
  - eapply objects_same; [exact Ho|done..| |done]. rewrite E6. apply Ho.
  - eapply members_frame; [exact Hm|done..|]. unfold open_conn. by rewrite E1.
  - transitivity w; [done|]. by apply stays_same.
Qed.

Lemma calm_refl w : base_ok w -> calm w w.
Proof. by split. Qed.

(** A step from a calm change that keeps the timers being fired. *)
Lemma calm_step w w' :
  calm w w' -> (forall es, TRun.firing es w -> TRun.firing es w') -> TRun.firing [] w -> step_ok w w'.
Proof. intros [Hb Hs] Hf Hfi. split; [|by split]. split; [done|by apply Hf]. Qed.

(** ** What an application may call *)

Lemma loop_step l w :
  server_ok w -> tid_ l = tid_ (w_loop w) -> fixed l = fixed (w_loop w) ->
  timers_ l = timers_ (w_loop w) -> Forall (task_ok w) (pendingTasks_ l) -> step_ok w (set_w_loop l w).
Proof.
  intros Hok E1 E2 E3 Ht. split; [by apply loop_ok|]. split; [by apply stays_same|].
  intros es Hes. by eapply firing_frame.
Qed.

Lemma queue_keeps t (E : fault -> Prop) w :
  server_ok w -> task_ok w t -> wp (Loop.queueInLoop t) E (fun _ => step_ok w) w.
Proof.
  intros Hok Ht. unfold Loop.queueInLoop, Loop.isInLoopThread, Loop.wakeup, upd_loop, get_loop.
  wp_step. wp_step. set (w1 := set_w_loop _ w).
  assert (Hs1 : step_ok w w1).
  { apply loop_step; [done..|]. simpl. apply list.Forall_app. split; [apply Hok|by constructor]. }
  wp_step. wp_step. wp_step. wp_step. apply wp_when; [intros _|done]. wp_step. wp_step. wp_step.
  apply sys_step; [apply Hs1|done|]. intros r w2 Hs2 _ _. wp_step. by eapply step_trans.
Qed.

(** Timers. *)
Lemma calm_sys x w0 : match x with SysEpollCtl _ _ _ _ => False | _ => True end -> Preserves (calm w0) (sys x).
Proof.
  intros Hx w Hc. apply Rep.wp_sys_truth; [apply Hc|]. destruct (k_call x (w_kern w)) as [r k].
  intros _ _ w' Hlk. eapply calm_same; [exact Hc|try done..]. intros q. simpl.
  apply keeps_reg_snoc. by destruct x.
Qed.
Lemma calm_now w0 : Preserves (calm w0) clock_now.
Proof.
  intros w Hc. apply wp_now_run. pose proof (Rep.coupled_now _ _ (ob_linked _ (proj1 (proj1 Hc)))) as Hlk.
  destruct (k_now (w_kern w)) as [t k]. intros _. by eapply calm_same.
Qed.
Lemma calm_timerfdSet w0 when : Preserves (calm w0) (TQ.timerfdSet when).
Proof.
  unfold TQ.timerfdSet, TQ.durationFromNow, add_i64, get_loop. pose proof (calm_now w0).
  repeat first [ assumption | by apply calm_sys | apply bind_preserves; [|intros] | apply _ | case_match ].
Qed.
Lemma calm_addTimer w0 cb when interval w :
  calm w0 w -> wp (TQ.addTimer cb when interval) any_fault (fun _ => calm w0) w.
Proof.
  intros Hc. unfold TQ.addTimer, TQ.new_timer, alloc. wp_step. wp_step. unfold wp at 1. wp_step. wp_step.
  wp_step. wp_step. set (w1 := put_timer _ _ _).
  assert (Hc1 : calm w0 w1) by (eapply calm_same; [exact Hc|try done..]; [simpl; lia|apply Hc]).
  apply TQ.wp_runInLoop; [apply Hc1|]. unfold TQ.addTimerInLoop, get_loop, upd_loop. wp_step. wp_step.
  destruct (TQ.set_insert _ _) as [l' b]. wp_step. wp_step.
  set (w2 := set_w_loop _ w1).
  assert (Hc2 : calm w0 w2) by (eapply calm_same; [exact Hc1|try done..]; apply Hc1).
  wp_step. apply wp_assert; [intros _|done]. apply wp_conseq with (fun _ => calm w0).
  - destruct l' as [|e l']; [by wp_step|]. apply wp_when; [intros _; by apply calm_timerfdSet|done].
  - intros _ w3 Hc3. by wp_step.
Qed.

Lemma addTimer_keeps k when interval w :
  server_ok w -> 0 <= when < 2 ^ 63 -> 0 <= interval <= 2 ^ 62 ->
  wp (TQ.addTimer (Some (TimerUser k)) when interval) no_fault (fun _ => step_ok w) w.
Proof.
  intros [Hb Hfi] Hw Hi. pose proof (TRun.fi_ok _ _ Hfi) as Hok.
  destruct (wp_total _ _ _ (TQ.addTimer_wp [] (Some (TimerUser k)) when interval w Hok Hw)) as (p&w'&Hr&_).
  unfold wp. rewrite Hr. apply calm_step; [| |exact Hfi].
  - by apply (wp_ok _ _ _ _ _ _ Hr (calm_addTimer w _ _ _ _ (calm_refl w Hb))).
  - intros es Hes. pose proof (TRun.fi_ok _ _ Hes) as Hoke.
    destruct (wp_ok _ _ _ _ _ _ Hr (TQ.addTimer_wp _ (Some (TimerUser k)) when interval w Hoke Hw))
      as (->&Hok'&Ht'&_). split; [done|..]; rewrite Ht'.
    + intros d q Hq. rewrite lookup_insert_ne; [by apply (TRun.fi_live _ _ Hes)|].
      destruct (TRun.fi_live _ _ Hes d q Hq) as (t&Ht&_). apply (TQ.tk_addr _ _ Hoke) in Ht as [? _]. lia.
    + intros q t [[<- <-]|[_ Hq]]%lookup_insert_Some; [|by apply (TRun.fi_sane _ _ Hes) in Hq]. split; [exact Hw|by split].
Qed.

Lemma now_step (Q : Z -> World K A -> Prop) (E : fault -> Prop) w :
  server_ok w -> (forall t w', 0 <= t < 2 ^ 62 -> step_ok w w' -> w_app w' = w_app w -> Q t w') ->
  wp clock_now E Q w.
Proof.
  intros Hok HQ. pose proof (calm_now w w (calm_refl w (proj1 Hok))) as Hc. apply wp_now_run.
  unfold wp, clock_now in Hc. destruct (k_now (w_kern w)) as [t k]. intros Ht. apply HQ; [done| |done].
  apply calm_step; [exact Hc|intros es; apply TRun.firing_kern|apply Hok].
Qed.

Lemma runEvery_keeps k interval w :
  server_ok w -> 0 <= interval <= 2 ^ 62 ->
  wp (TQ.runEvery interval (Some (TimerUser k))) no_fault (fun _ => step_ok w) w.
Proof.
  intros Hok Hi. unfold TQ.runEvery. wp_step. apply now_step; [done|]. intros t w1 Ht Hs1 _. wp_step.
  apply TQ.add_i64_wp; [intros _|lia]. eapply wp_conseq; [apply addTimer_keeps; [apply Hs1|lia|done]|].
  intros p w2 Hs2. by eapply step_trans.
Qed.
Lemma runAfter_keeps k interval w :
  server_ok w -> 0 <= interval <= 2 ^ 62 ->
  wp (TQ.runAfter interval (Some (TimerUser k))) no_fault (fun _ => step_ok w) w.
Proof.
  intros Hok Hi. unfold TQ.runAfter. wp_step. apply now_step; [done|]. intros t w1 Ht Hs1 _. wp_step.
  apply TQ.add_i64_wp; [intros _|lia]. unfold TQ.runAt.
  eapply wp_conseq; [apply addTimer_keeps; [apply Hs1|lia|lia]|].
  intros p w2 Hs2. by eapply step_trans.
Qed.

(** A timer that is in the set is not one of those being fired. *)
Lemma cancelTimer_keeps d p w :
  server_ok w -> (d, p) ∈ timers_ (w_loop w) -> wp (TQ.cancelTimer p) no_fault (fun _ => step_ok w) w.
Proof.
  intros [Hb Hfi] Hin. unfold wp. rewrite (TQ.cancelTimer_eq [] d p w (TRun.fi_ok _ _ Hfi) Hin).
  apply calm_step; [| |exact Hfi].
  - eapply calm_same; [by apply calm_refl|try done..]. apply Hb.
  - intros es Hes. pose proof (TRun.fi_ok _ _ Hes) as Hok.
    pose proof (TQ.cancelTimer_wp _ d p w Hok Hin) as Hwp. unfold wp in Hwp.
    rewrite (TQ.cancelTimer_eq _ d p w Hok Hin) in Hwp. destruct Hwp as [Hok' _].
    split; [done|..]; simpl.
    + intros d' q Hq. rewrite lookup_delete_ne; [by apply (TRun.fi_live _ _ Hes)|]. intros <-.
      apply (TQ.tk_firing _ _ Hok p) in Hin; [done|]. apply list_elem_of_fmap. by exists (d', p).
    + intros q t [_ Hq]%lookup_delete_Some. by apply (TRun.fi_sane _ _ Hes) in Hq.
Qed.
(** A connection that is up may go to another state in which it is. *)
Lemma put_state_keeps c cn cn' w :
  server_ok w -> w_conns w !! c = Some cn -> channel_ cn' = channel_ cn -> sockfd_ cn' = sockfd_ cn ->
  state_ cn' = state_ cn \/ (Conn.up cn /\ Conn.up cn') ->
  connCloseCallback_ cn' = connCloseCallback_ cn -> messageCallback_ cn' <> None ->
  outputBuffer_ cn' = outputBuffer_ cn -> Buf.wf (inputBuffer_ cn') ->
  step_ok w (put_conn c cn' w).
Proof.
  intros Hok Hc E1 E2 E3 E4 E5 E6 Hwf. destruct (ob_conns _ (proj1 (proj1 Hok)) _ _ Hc) as [ch Hen].
  assert (Hup : Conn.up cn' <-> Conn.up cn) by (unfold Conn.up in *; destruct E3 as [->|[? ?]]; tauto).
  assert (Hnc : state_ cn' <> kConnecting).
  { destruct E3 as [->|[_ [->| ->]]]; [apply Hen|done..]. }
  assert (Hcg : changes c cn cn' ch ch w (put_conn c cn' w)).
  { destruct Hen as [[Hb Hph] Hwi Hti Hst Hcl Hms]. split; auto.
    - split; apply Hb.
    - split; try done; simpl; [intros q Hq; by apply lookup_insert_ne|by rewrite Frame.set_pending_id].
    - split; [split|done|done|done|congruence|done].
      + eapply Conn.base_put; eauto. rewrite E6. apply Hb.
      + destruct E3 as [E3|[U1 U2]]; [unfold Conn.phase, Conn.pending in *; by rewrite E3, E6|].
        apply (Conn.up_phase _ _ U2). apply (Conn.up_phase _ _ U1) in Hph. unfold Conn.pending in *. by rewrite E6.
    - apply Frame.rewired_refl.
    - exists []. by rewrite app_nil_r.
    - apply Hok. }
  split; [by eapply changes_ok|]. split; [|intros es Hes; by eapply changes_firing].
  eapply changes_stays; [exact Hcg|tauto|]. unfold Conn.pending. rewrite E6. tauto.
Qed.

(** Setting a callback or a buffer of a connection. *)
Lemma put_conn_keeps c cn cn' w :
  server_ok w -> w_conns w !! c = Some cn -> channel_ cn' = channel_ cn -> sockfd_ cn' = sockfd_ cn ->
  state_ cn' = state_ cn -> connCloseCallback_ cn' = connCloseCallback_ cn -> messageCallback_ cn' <> None ->
  outputBuffer_ cn' = outputBuffer_ cn -> Buf.wf (inputBuffer_ cn') ->
  step_ok w (put_conn c cn' w).
Proof. intros. eapply put_state_keeps; eauto. Qed.

Lemma server_conn c cn w : server_ok w -> w_conns w !! c = Some cn ->
  c <> nullptr /\ Buf.wf (inputBuffer_ cn) /\ messageCallback_ cn <> None.
Proof.
  intros Hok Hc. destruct (ob_conns _ (proj1 (proj1 Hok)) _ _ Hc) as [ch [[[]]]]. done.
Qed.

(** A method of the input buffer through a reference to it. *)
Lemma wp_on_buf {T} (m : M Buf.Buffer T) (E : fault -> Prop) (Q : T -> World K A -> Prop) c cn w :
  c <> nullptr -> w_conns w !! c = Some cn ->
  wp m E (fun x b => Q x (put_conn c (set_inputBuffer_ b cn) w)) (inputBuffer_ cn) ->
  wp (Conn.on_buf (Conn.input_of c) m) E Q w.
Proof.
  intros Hc0 Hc Hm. unfold Conn.on_buf, Conn.input_of, get_conn; simpl. wp_step. wp_step. wp_lookup. wp_step.
  unfold wp in Hm. destruct (m (inputBuffer_ cn)) as [x b|f]; [|exact Hm].
  wp_step. unfold upd_conn, get_conn. wp_step. wp_lookup. wp_step. wp_step. exact Hm.
Qed.

Lemma on_buf_keeps {T} (m : M Buf.Buffer T) (E : fault -> Prop) (Q : T -> World K A -> Prop) c cn w :
  server_ok w -> w_conns w !! c = Some cn ->
  wp m E (fun x b => Buf.wf b /\ forall w', step_ok w w' ->
    w_conns w' !! c = Some (set_inputBuffer_ b cn) -> Q x w') (inputBuffer_ cn) ->
  wp (Conn.on_buf (Conn.input_of c) m) E Q w.
Proof.
  intros Hok Hc Hm. destruct (server_conn c cn w Hok Hc) as (Hc0&Hwf&Hms).
  apply (wp_on_buf m E Q c cn); [done..|]. eapply wp_conseq; [exact Hm|]. intros x b [Hb HQ].
  apply HQ; [by eapply put_conn_keeps|]. simpl. by rewrite lookup_insert_eq.
Qed.

(** send of the connection's own input buffer, as an echo does. *)
Lemma send_buffer_keeps c cn w :
  server_ok w -> w_conns w !! c = Some cn ->
  wp (Conn.send_buffer c (Conn.input_of c)) (eq LengthError) (fun _ => step_ok w) w.
Proof.
  intros Hok Hc. destruct (server_conn c cn w Hok Hc) as (Hc0&Hwf&Hms).
  unfold Conn.send_buffer, get_conn. wp_step. wp_lookup.
  destruct (negb _) eqn:Hcon; [wp_step; by apply step_refl|]. zbool. apply bool_decide_eq_true_1 in Hcon.
  unfold Loop.isInLoopThread. wp_step. wp_step.
  assert (Ht : tid_ (w_loop w) =? w_cur w = true) by apply Z.eqb_eq, Hok. rewrite Ht. wp_step.
  eapply on_buf_keeps; [done..|]. wp_step. wp_step. unfold id.
  rewrite Buf.readable_wf by done. apply Buf.load_contents; [done|]. split; [done|].
  intros w1 Hs1 Hc1. wp_step. pose proof (proj1 Hs1) as Hok1. eapply wp_conseq.
  - apply (api_keeps (Conn.CallSendInLoop (Buf.contents (inputBuffer_ cn))) Conn.no_message Conn.no_close
      c w1 _ Hok1 Hc1); [|done..]. simpl. split; [by rewrite Hcon|].
    rewrite Buf.zlen_contents by done. destruct Hwf as (?&?&?). lia.
  - intros [] w2 Hs2. destruct (sy_conns _ _ _ (proj1 (proj2 Hs2)) _ _ Hc1) as (cn2&Hc2&_).
    destruct (server_conn c cn2 w2 (proj1 Hs2) Hc2) as (_&Hwf2&_).
    eapply on_buf_keeps; [apply Hs2|done|]. eapply wp_weaken; [by apply Buf.retrieveAll_spec|].
    intros _ b (Hb&_). split; [done|]. intros w3 Hs3 _.
    apply (step_trans w w1); [done|]. by apply (step_trans w1 w2).
Qed.

(** The calls an application may make in a callback, in the loop's thread. *)
Inductive app_call :=
  | AConn (c : ptr) (x : Conn.conn_call)
  | ASendInput (c : ptr)                       (* conn->send(buffer), the message callback's buffer *)
  | ATakeInput (c : ptr)                       (* buffer.retrieveAllAsString() *)
  | ASetHighWaterMark (c : ptr) (cb mark : Z)
  | ASetWriteComplete (c : ptr) (cb : Z)
  | ARunAt (when cb : Z) | ARunAfter (interval cb : Z) | ARunEvery (interval cb : Z)
  | ACancelTimer (p : ptr)
  | AQueueInLoop (cb : Z).

Definition discard {T} (m : M (World K A) T) : M (World K A) unit := m ;;; ret tt.
Definition app_run (x : app_call) : M (World K A) unit :=
  match x with
  | AConn c x => Conn.conn_call_run Conn.no_message Conn.no_close c x
  | ASendInput c => Conn.send_buffer c (Conn.input_of c)
  | ATakeInput c => discard (Conn.on_input c Buf.retrieveAllAsString)
  | ASetHighWaterMark c cb mark => Conn.setHighWaterMarkCallback c (Some cb) mark
  | ASetWriteComplete c cb => Conn.setWriteCompleteCallback c (Some cb)
  | ARunAt when cb => discard (TQ.runAt when (Some (TimerUser cb)))
  | ARunAfter interval cb => discard (TQ.runAfter interval (Some (TimerUser cb)))
  | ARunEvery interval cb => discard (TQ.runEvery interval (Some (TimerUser cb)))
  | ACancelTimer p => TQ.cancelTimer p
  | AQueueInLoop cb => Loop.queueInLoop (TaskUser cb)
  end.

(** The public methods of a connection; a message no longer than a vector can
    be; times within range; a timer that waits in the queue. *)
Definition app_pre (x : app_call) w : Prop :=
  match x with
  | AConn c x => exists cn, w_conns w !! c = Some cn /\ Conn.call_pre x cn /\
      match x with
      | Conn.CallSend _ | Conn.CallShutdown | Conn.CallForceClose
      | Conn.CallStopRead | Conn.CallStartRead => True
      | _ => False
      end
  | ASendInput c | ATakeInput c | ASetHighWaterMark c _ _ | ASetWriteComplete c _ => live c w
  | ARunAt when _ => 0 <= when < 2 ^ 63
  | ARunAfter interval _ | ARunEvery interval _ => 0 <= interval <= 2 ^ 62
  | ACancelTimer p => exists d, (d, p) ∈ timers_ (w_loop w)
  | AQueueInLoop _ => True
  end.

Lemma discard_wp {T} (m : M (World K A) T) E (Q : World K A -> Prop) w :
  wp m E (fun _ => Q) w -> wp (discard m) E (fun _ => Q) w.
Proof. intros Hm. unfold discard. wp_step. eapply wp_conseq; [exact Hm|]. intros. by wp_step. Qed.

Lemma setter_keeps f (E : fault -> Prop) c w :
  server_ok w -> live c w ->
  (forall cn, channel_ (f cn) = channel_ cn /\ sockfd_ (f cn) = sockfd_ cn /\ state_ (f cn) = state_ cn /\
    connCloseCallback_ (f cn) = connCloseCallback_ cn /\ messageCallback_ (f cn) = messageCallback_ cn /\
    outputBuffer_ (f cn) = outputBuffer_ cn /\ inputBuffer_ (f cn) = inputBuffer_ cn) ->
  wp (upd_conn c f) E (fun _ => step_ok w) w.
Proof.
  intros Hok [cn Hc] Hf. destruct (server_conn c cn w Hok Hc) as (Hc0&Hwf&Hms).
  unfold upd_conn, get_conn. wp_step. wp_lookup. wp_step.
  destruct (Hf cn) as (?&?&?&?&E5&?&E7). eapply put_conn_keeps; rewrite ?E5, ?E7; done.
Qed.

Lemma app_keeps x w :
  server_ok w -> app_pre x w -> wp (app_run x) (eq LengthError) (fun _ => step_ok w) w.
Proof.
  intros Hok Hpre. destruct x; simpl in *.
  - destruct Hpre as (cn&Hc&Hpre&Hx). eapply api_keeps; [done..| |]; by destruct x.
  - destruct Hpre as [cn Hc]. by eapply send_buffer_keeps.
  - destruct Hpre as [cn Hc]. apply discard_wp. eapply input_keeps; [done..|].
    eapply wp_weaken; [apply Buf.retrieveAllAsString_spec; by eapply server_conn|]. simpl. tauto.
  - by apply setter_keeps.
  - by apply setter_keeps.
  - apply discard_wp. eapply wp_weaken; [apply addTimer_keeps; [done..|lia]|done].
  - apply discard_wp. eapply wp_weaken; [by apply runAfter_keeps|done].
  - apply discard_wp. eapply wp_weaken; [by apply runEvery_keeps|done].
  - destruct Hpre as [d Hd]. eapply wp_weaken; [by eapply cancelTimer_keeps|done].
  - by apply queue_keeps.
Qed.

(** quit asserts that it was not called before. *)
Definition quit_fault (f : fault) : Prop := f = LengthError \/ f = AssertFail "!quit_".

Lemma quit_keeps w : server_ok w -> wp Loop.quit quit_fault (fun _ => step_ok w) w.
Proof.
  intros Hok. unfold Loop.quit, Loop.isInLoopThread, Loop.wakeup, upd_loop, get_loop.
  wp_step. wp_step. wp_step. apply wp_assert; [intros _|by right].
  wp_step. wp_step. set (w1 := set_w_loop _ w).
  assert (Hs1 : step_ok w w1) by (apply loop_step; [done..|apply Hok]).
  wp_step. wp_step. apply wp_when; [intros _|done]. wp_step. wp_step. wp_step.
  apply sys_step; [apply Hs1|done|]. intros r w2 Hs2 _ _. wp_step. eapply step_trans; [exact Hs1|exact Hs2].
Qed.

(** ** Property *)

End server.
End Srv.
