(* ===== verification/Server.v ===== *)
(** The loop of Reactor.v with one server: each event handler, the dispatch of
    the active channels, the pending tasks and so every iteration keep the
    invariant of ServerInv.v and do not fault, for every application whose
    callbacks keep it too ([contract]). *)

From S2P Require Import Prelude Ints Kernel Buffer World Poller Channel TimerQueue.
From S2P Require Import TcpConnection EventLoop Endpoints Frame Reports TimerRun Reactor ServerInv.

Module Serve.
Import Srv.
#[local] Existing Instances Frame.frame_preorder Frame.rewired_loose Frame.idle_loose stays_preorder.

Section server.
Context {K A : Type} `{Kernel K} `{!KernelLaws K} `{Build}.
Context {site : Site} `{!Rep.Epoll K (st_wfd site)} `{!AppInv A}.
Implicit Types w : World K A.
Abbreviation Lk := (@Rep.linked K A _ (st_wfd site) _).
Abbreviation special := (Srv.special (site := site)).
Abbreviation entry := (Srv.entry (site := site)).
Abbreviation objects_ok := (Srv.objects_ok (site := site)).
Abbreviation members_ok := (Srv.members_ok (site := site)).
Abbreviation base_ok := (Srv.base_ok (site := site)).
Abbreviation server_ok := (Srv.server_ok (site := site)).
Abbreviation step_ok := (Srv.step_ok (site := site)).
Abbreviation changes := (Srv.changes (site := site)).

(** ** The handlers *)

Section app.
Variable app : React.App K A.
Variable E : fault -> Prop.

Definition open (c : ptr) w : Prop := exists cn, w_conns w !! c = Some cn /\ Conn.up cn.
Definition closed (c : ptr) w : Prop := exists cn, w_conns w !! c = Some cn /\ ~ Conn.up cn.

(** The contract of an application: each of its callbacks keeps the invariant,
    closes no connection itself (forceClose queues a task) and leaves the
    timers that are being fired alone; its faults are in [E]. *)
Record contract : Prop := {
  ct_connection k c w : server_ok w -> live c w -> wp (React.on_connection app k c) E (fun _ => step_ok w) w;
  ct_message k c w : server_ok w -> open c w -> wp (React.on_message app k c) E (fun _ => step_ok w) w;
  ct_writeComplete k c w : server_ok w -> live c w ->
    wp (React.on_writeComplete app k c) E (fun _ => step_ok w) w;
  ct_highWaterMark k c mark w : server_ok w -> live c w ->
    wp (React.on_highWaterMark app k c mark) E (fun _ => step_ok w) w;
  ct_timer k w : server_ok w -> wp (React.on_timer app k) E (fun _ => step_ok w) w;
  ct_task k w : server_ok w -> wp (React.on_task app k) E (fun _ => step_ok w) w
}.
Hypothesis Happ : contract.
Hypothesis E_length : E LengthError.
Hypothesis E_accept : E (Fatal "unexpected accept4() error").

Lemma connection_keeps cb c w :
  server_ok w -> live c w -> wp (React.run_connection app cb c) E (fun _ => step_ok w) w.
Proof.
  intros Hok Hc. destruct cb as [|k]; simpl; [wp_step; by apply step_refl|by apply (ct_connection Happ)].
Qed.

Lemma message_keeps cb c w :
  server_ok w -> open c w -> wp (React.run_message app cb c) E (fun _ => step_ok w) w.
Proof.
  intros Hok Hc. destruct cb as [|k]; simpl; [|by apply (ct_message Happ)].
  destruct Hc as (cn&Hc&_). eapply input_keeps; [done..|].
  pose proof (proj1 (proj1 Hok)) as Ho. destruct (ob_conns _ Ho _ _ Hc) as [ch [[Hb _] _ _ _ _ _]].
  eapply wp_weaken; [apply Buf.retrieveAll_spec, Hb|]. simpl. tauto.
Qed.

(** The owner forgets a connection that has just gone down. *)
Lemma owner_close_ok c cn w w1 :
  members_ok w -> objects_ok w1 -> TRun.firing [] w1 -> w_singles w1 = w_singles w -> w_clients w1 = w_clients w ->
  open_conn c w -> (forall q, q <> c -> w_conns w1 !! q = w_conns w !! q) ->
  w_conns w1 !! c = Some cn -> ~ Conn.up cn ->
  wp (React.run_close app (owner_close (site := site)) c) E (fun _ w' => server_ok w' /\ stays nobody w1 w') w1.
Proof.
  intros Hm Ho1 Hfi1 Es Ec Hopen Hcs Hl1 Hdn.
  assert (Hleft : forall q, open_conn q w1 <-> q <> c /\ open_conn q w).
  { intros q. destruct (decide (q = c)) as [->|Hne].
    - split; [|tauto]. intros (x&Hx&Hux). assert (x = cn) as -> by congruence. done.
    - unfold open_conn. rewrite Hcs by done. tauto. }
  assert (Hcall : forall cb w2, objects_ok w2 -> members_ok w2 -> TRun.firing [] w2 -> w_conns w2 = w_conns w1 ->
    w_channels w2 = w_channels w1 -> cb <> None ->
    wp (Ends.call_connection (React.run_connection app) cb c) E (fun _ w' => server_ok w' /\ stays nobody w1 w') w2).
  { intros [cb|] w2 Ho2 Hm2 Hf2 E1 E2 Hcb; [|done]. simpl.
    eapply wp_conseq; [apply connection_keeps; [by split|by exists cn; rewrite E1]|].
    intros _ w3 (Hok3&Hs3&_). split; [done|]. transitivity w2; [by apply stays_same|done]. }
  assert (Hobj : forall w2, w_conns w2 = w_conns w1 -> w_channels w2 = w_channels w1 -> w_loop w2 = w_loop w1 ->
    w_cur w2 = w_cur w1 -> w_acceptors w2 = w_acceptors w1 -> w_app w2 = w_app w1 -> w_next w2 = w_next w1 ->
    w_trace w2 = w_trace w1 -> w_kern w2 = w_kern w1 -> w_timers w2 = w_timers w1 -> objects_ok w2 /\ TRun.firing [] w2).
  { intros w2 E1 E2 E3 E4 E5 E6 E7 E8 E9 E10. split; [|eapply firing_frame; [exact Hfi1|congruence..|lia|congruence|done]].
    eapply objects_same; [exact Ho1|congruence..|lia|intros q; by rewrite E8|rewrite E3; apply Ho1|].
    unfold Rep.linked. rewrite E8, E9. apply Ho1. }
  unfold members_ok in Hm, Hcall. unfold owner_close.
  destruct (st_owner site) as [s a p|x]; cbn [React.run_close Ends.run_close].
  - destruct Hm as (Hs&sv&Hsv&[Hcb Hca]&Hmb&Hm). rewrite <- Es in Hsv. assert (Hin : c ∈ connections_ sv) by by apply Hm.
    unfold React.run_close, Ends.run_close, Ends.Single_closeConnection, get_single, upd_single, get_single.
    wp_step. apply Chan.wp_assertInLoopThread; [apply Ho1|]. wp_step. wp_lookup. wp_step. wp_step.
    wp_lookup. wp_step. rewrite bool_decide_eq_true_2 by done. wp_step.
    apply wp_when; [done|intros _]. wp_step. wp_lookup. simpl. set (w2 := put_single _ _ w1).
    destruct (Hobj w2) as [Ho2 Hf2]; [done..|]. apply Hcall; [done| |done..].
    split; [done|]. eexists. split; [apply lookup_insert_eq|]. simpl. split_and!; auto. intros q.
    rewrite elem_of_difference, elem_of_singleton, Hm. specialize (Hleft q). unfold open_conn in *. simpl. tauto.
  - destruct Hm as (Hx&cl&Hcl&Hcb&Hm). rewrite <- Ec in Hcl.
    unfold React.run_close, Ends.run_close, Ends.Client_closeConnection, get_client, upd_client, get_client.
    assert (Hin : connection_ cl = Some c) by by apply Hm.
    wp_step. apply Chan.wp_assertInLoopThread; [apply Ho1|]. wp_step. wp_lookup. wp_step.
    apply wp_assert_true; [by rewrite Hin|]. wp_step. wp_step. wp_lookup. wp_step. wp_step. wp_lookup. simpl.
    set (w2 := put_client _ _ w1). destruct (Hobj w2) as [Ho2 Hf2]; [done..|]. apply Hcall; [done| |done..].
    split; [done|]. eexists. split; [apply lookup_insert_eq|]. simpl. split; [done|]. intros q. split; [done|].
    intros [Hne Hq%Hm]%Hleft. congruence.
Qed.

(** Closing an open connection. *)
Lemma handleClose_ok c cn w :
  server_ok w -> w_conns w !! c = Some cn -> Conn.up cn ->
  wp (Conn.handleClose (React.run_close app) c) E
    (fun _ w' => server_ok w' /\ stays (eq c) w w' /\ closed c w') w.
Proof.
  intros [[Ho Hm] Hfi] Hc Hup. destruct (ob_conns _ Ho _ _ Hc) as [ch Hen].
  eapply (Frame.handleClose_closes _ c cn ch _ Lk); [apply Rep.close_prefix_linked|apply Ho|apply Hen|done|apply Hen|].
  intros ch' w1 Hlk (Hf&Hc1&Hr&Ht). set (cn' := set_state_ kDisconnected cn) in *.
  assert (Hdn : ~ Conn.up cn') by (intros [Hx|Hx]; discriminate Hx).
  assert (Hcg : changes c cn cn' ch ch' w w1).
  { destruct Hen as [[Hb _] Hwi Hti Hst Hcl Hms].
    assert (Hr' : ch' = set_pooling (pooling ch') (set_events_ (events_ ch') ch)) by exact Hr.
    split; auto; [split; apply Hb| |exists []; by rewrite app_nil_r].
    split; auto; try (rewrite Hr'; assumption); try done. }
  pose proof (Conn.ba_conn _ _ _ _ (proj1 Hc1)) as Hl1.
  eapply wp_conseq.
  - apply (owner_close_ok c cn' w w1); [exact Hm|by eapply changes_objects|by eapply changes_firing|apply Hf|apply Hf|
      by exists cn| |exact Hl1|exact Hdn]. intros q Hq. apply (Frame.fr_conns _ _ _ _ Hf). congruence.
  - intros _ w3 [Hok3 Hs3]. split; [done|]. split.
    + transitivity w1; [|by eapply stays_mono]. eapply changes_stays; [exact Hcg|done|by intros []].
    + destruct (sy_conns _ _ _ Hs3 c cn' Hl1) as (cn3&?&_&?&_). exists cn3. auto.
Qed.

(** An evolution that keeps data waiting is a step. *)
Lemma evolves_step c cn cn' ch ch' w w' :
  server_ok w -> entry c cn ch w -> Frame.evolves c cn cn' ch ch' w w' -> Lk w' ->
  (Conn.pending cn <> [] -> Conn.pending cn' <> []) -> step_ok w w'.
Proof.
  intros Hok Hen Hev Hlk Hp. pose proof (evolves_changes _ _ _ _ _ _ _ Hen Hev Hlk) as Hcg.
  pose proof (Frame.ev_up _ _ _ _ _ _ _ Hev) as Hup.
  split; [by eapply changes_ok|]. split; [|intros es Hes; by eapply changes_firing].
  eapply changes_stays; [exact Hcg|tauto|]. intros _ Hu. split; [by apply Hup|done].
Qed.

Lemma handleError_step c w : server_ok w -> live c w ->
  wp (Conn.handleError c) E (fun _ => step_ok w) w.
Proof.
  intros Hok [cn Hc]. eapply wp_mono.
  - by apply (api_keeps Conn.CallHandleError Conn.no_message Conn.no_close c w cn).
  - by intros f <-.
  - done.
Qed.

(** A read event of an open connection: a step, or the connection closes. *)
Lemma conn_read_ok c cn w :
  server_ok w -> w_conns w !! c = Some cn -> Conn.up cn ->
  wp (Conn.handleRead (React.run_message app) (React.run_close app) c) E
    (fun _ w' => server_ok w' /\ (stays nobody w w' \/ (stays (eq c) w w' /\ closed c w'))) w.
Proof.
  intros Hok Hc Hup. pose proof (proj1 (proj1 Hok)) as Ho. destruct (ob_conns _ Ho _ _ Hc) as [ch Hen].
  pose proof (en_conn _ _ _ _ Hen) as Hca. pose proof (proj1 Hca) as Hb.
  unfold Conn.handleRead. wp_step. eapply Conn.wp_in_loop; [exact Hb|]. wp_step.
  eapply Conn.wp_get_conn; [exact Hb|]. wp_step. apply wp_assert_true; [by rewrite Conn.up_decide|]. wp_step.
  set (Q1 := fun (r : Z * option Z) w1 => exists cn1, Frame.evolves c cn cn1 ch ch w w1 /\
    Conn.pending cn1 = Conn.pending cn /\
    ((exists e, r = (-1, Some e)) \/ exists d : list byte, r = (zlen d, None))).
  eapply wp_conseq.
  { eapply (wp_and _ E Q1); [|apply (Rep.readFd_linked c w), Ho].
    eapply Frame.readFd_evolves; [exact Hca|done|..].
    - intros e w1 Hev. exists cn. split; [done|]. split; [done|]. left. by exists e.
    - intros d b w1 Hev. exists (set_inputBuffer_ b cn). split; [done|]. split; [done|]. right. by exists d. }
  intros r w1 [(cn1&Hev&Hpe&Hr) Hlk].
  assert (Hs1 : step_ok w w1) by (eapply evolves_step; [done..|by rewrite Hpe]).
  pose proof Hs1 as (Hok1&Hst1&_).
  assert (Hup1 : Conn.up cn1) by by apply (Frame.ev_up _ _ _ _ _ _ _ Hev).
  pose proof (Frame.ev_conn _ _ _ _ _ _ _ Hev) as [Hb1 _]. pose proof (Conn.ba_conn _ _ _ _ Hb1) as Hc1.
  destruct Hr as [(e&->)|(d&->)]; cbv beta iota.
  - simpl. wp_step. unfold put_errno. wp_step. pose proof (errno_step e w1 Hok1) as Hs2.
    pose proof (proj1 Hs2) as Hok2. eapply wp_conseq; [apply handleError_step; [exact Hok2|by exists cn1]|].
    intros [] w3 Hs3. pose proof (step_trans _ _ _ Hs1 (step_trans _ _ _ Hs2 Hs3)) as (?&?&?). auto.
  - pose proof (zlen_nonneg d). destruct (zlen d =? -1) eqn:Hm1; [zbool; lia|].
    destruct (zlen d =? 0) eqn:Hz.
    + eapply wp_conseq; [by eapply handleClose_ok|]. intros _ w2 (?&?&?). split; [done|]. right.
      split; [|done]. transitivity w1; [|done]. by eapply stays_mono.
    + wp_step. eapply Conn.wp_get_conn; [exact Hb1|].
      destruct (ob_conns _ (proj1 (proj1 Hok1)) _ _ Hc1) as [ch1 Hen1].
      pose proof (en_message _ _ _ _ Hen1). destruct (messageCallback_ cn1) as [cb|]; [|done].
      eapply wp_conseq; [apply message_keeps; [done|by exists cn1]|].
      intros _ w2 (?&?&_). split; [done|]. left. by transitivity w1.
Qed.

(** ** Dispatch *)

(** Objects that agree but for what epoll reported and the handling mark. *)
Definition alike (ch ch' : Channel) : Prop :=
  ch' = set_handlingEvents_ (handlingEvents_ ch') (set_revents_ (revents_ ch') ch).

Lemma objects_touch p ch ch' w :
  objects_ok w -> w_channels w !! p = Some ch -> alike ch ch' -> objects_ok (put_channel p ch' w).
Proof.
  intros [Ht Hwk Hcs Hd Hap Ha Hwu Hti Hn Hch0 Hun Hk Hts Hlk Hai] Hp Hal. unfold alike in Hal.
  assert (Hreads : forall q cb, reads q cb w -> reads q cb (put_channel p ch' w)).
  { intros q cb (Hq&x&Hx&?&?&?&?&?&?). split; [done|]. simpl. destruct (decide (p = q)) as [<-|Hne].
    - exists ch'. rewrite lookup_insert_eq. assert (x = ch) as -> by congruence.
      rewrite Hal. by split_and!.
    - exists x. rewrite lookup_insert_ne by done. by split_and!. }
  split; auto.
  2: { unfold accepts_ok in *. destruct (st_owner site); [|done]. destruct Ha as (?&?&?). split; [by apply Hreads|by split]. }
  2: { simpl. intros q x [[<- _]|[_ Hq]]%lookup_insert_Some; by eapply Hch0. }
  intros c cn Hc. destruct (Hcs c cn Hc) as [x Hx].
  destruct (decide (p = channel_ cn)) as [->|Hne].
  - exists ch'. destruct Hx as [[[Hn0 Hc0 Hx (Hp0&_&y&Hy&He&Hpo&Hreg) Hfd Hi Hou Hwf] Hph] Hwi Hte Hst Hcl Hms].
    assert (x = ch) as -> by congruence. assert (y = ch) as -> by congruence.
    split; auto; [|rewrite Hal; assumption..]. split; [|rewrite Hal; exact Hph].
    split; auto; simpl; [apply lookup_insert_eq| |rewrite Hal; exact Hfd].
    split; [done|]. split; [done|]. exists ch'. simpl.
    rewrite lookup_insert_eq, Hal. by split_and!.
  - exists x. eapply entry_frame; [exact Hx|try done..]. simpl. by rewrite lookup_insert_ne.
Qed.

Lemma server_touch p ch ch' w :
  server_ok w -> w_channels w !! p = Some ch -> alike ch ch' -> server_ok (put_channel p ch' w).
Proof.
  intros [[Ho Hm] Hfi] Hp Hal. split; [split; [by eapply objects_touch|exact Hm]|].
  by eapply firing_frame.
Qed.

(** Between two handlers no channel is marked. *)
Definition idle w : Prop := forall q ch, w_channels w !! q = Some ch -> handlingEvents_ ch = false.

Lemma stays_idle X w w' : stays X w w' -> idle w -> idle w'.
Proof.
  intros [_ P N] Hi q ch Hq. destruct (w_channels w !! q) as [x|] eqn:Hx; [|by eapply N].
  destruct (P q x Hx) as (y&Hy&Hw). assert (y = ch) as -> by congruence. rewrite Hw. by apply (Hi q x).
Qed.

(** What handleEvents of [p] leaves: [p] is marked, then a step, then unmarked. *)
Record handled (p : ptr) (X : ptr -> Prop) w w' : Prop := {
  hd_conns : forall c cn, w_conns w !! c = Some cn ->
    exists cn', w_conns w' !! c = Some cn' /\ channel_ cn' = channel_ cn /\
      (~ Conn.up cn -> ~ Conn.up cn') /\
      (~ X c -> Conn.up cn -> Conn.up cn' /\ (Conn.pending cn <> [] -> Conn.pending cn' <> []));
  hd_chans : forall q ch, q <> p -> w_channels w !! q = Some ch ->
    exists ch', w_channels w' !! q = Some ch' /\ Frame.rewired ch ch';
  hd_idle : idle w -> idle w'
}.

Lemma marked_handled X p ch ch5 w w5 :
  w_channels w !! p = Some ch -> stays X (put_channel p (set_handlingEvents_ true ch) w) w5 ->
  handled p X w (put_channel p (set_handlingEvents_ false ch5) w5).
Proof.
  intros Hp [C P N]. simpl in *. split; simpl.
  - intros c cn Hc. by apply C.
  - intros q x Hq Hx. rewrite lookup_insert_ne by done. apply P. by rewrite lookup_insert_ne.
  - intros Hi q x Hx. simpl in Hx. apply lookup_insert_Some in Hx as [[_ <-]|[Hq Hx]]; [done|].
    destruct (w_channels w !! q) as [y|] eqn:Hy.
    + destruct (P q y) as (z&Hz&Hw); [by rewrite lookup_insert_ne|]. assert (z = x) as -> by congruence.
      rewrite Hw. by apply (Hi q y).
    + apply (N q x Hx). simpl. by rewrite lookup_insert_ne.
Qed.

Lemma dispatch_if_wp run p cond f (Q : unit -> World K A -> Prop) w ch :
  p <> nullptr -> w_channels w !! p = Some ch ->
  (forall h, cond ch = true -> f ch = Some h -> wp (run h) E Q w) ->
  (cond ch = false \/ f ch = None -> Q tt w) ->
  wp (Chan.dispatch_if run p cond f) E Q w.
Proof.
  intros Hp Hch H1' H2'. unfold Chan.dispatch_if, get_channel. wp_step. wp_lookup.
  apply wp_when; [|auto]. intros Hc. unfold Chan.invoke. destruct (f ch) as [h|] eqn:Hf; [auto|].
  wp_step. auto.
Qed.

(** The connection of the channel being dispatched: still open, with data to
    write if a write event is to come, or closed by a hang-up. *)
Definition opened (c : ptr) (ch : Channel) w : Prop := exists cn, w_conns w !! c = Some cn /\ Conn.up cn /\
  (Chan.has EPOLLOUT ch = true -> Conn.pending cn <> []).

Lemma stays_opened c ch w w' : stays nobody w w' -> opened c ch w -> opened c ch w'.
Proof.
  intros [C _] (cn&Hc&Hup&Hp). destruct (C c cn Hc) as (cn'&Hc'&_&_&Hk).
  destruct (Hk (fun x => x) Hup) as [? Hk']. exists cn'. split_and!; auto.
Qed.
Lemma stays_closed X c w w' : stays X w w' -> closed c w -> closed c w'.
Proof. intros [C _] (cn&Hc&Hup). destruct (C c cn Hc) as (cn'&Hc'&_&?&_). exists cn'. auto. Qed.
Lemma opened_open c ch w : opened c ch w -> open c w.
Proof. intros (cn&?&?&_). by exists cn. Qed.
Lemma closed_live c w : closed c w -> live c w.
Proof. intros (cn&?&_). by exists cn. Qed.
Lemma opened_live c ch w : opened c ch w -> live c w.
Proof. intros (cn&?&_). by exists cn. Qed.

(** A write event: the connection is open with data to write, or closed. *)
Lemma handleWrite_ok c w :
  server_ok w -> (exists cn, w_conns w !! c = Some cn /\ (Conn.up cn -> Conn.pending cn <> [])) ->
  wp (Conn.handleWrite c) E (fun _ w' => server_ok w' /\ stays (eq c) w w') w.
Proof.
  intros Hok (cn&Hc&Hp). destruct (ob_conns _ (proj1 (proj1 Hok)) _ _ Hc) as [ch Hen]. eapply wp_mono.
  - apply (api_step Conn.CallHandleWrite Conn.no_message Conn.no_close c w cn Hok Hc); [|done]. simpl.
    destruct (Conn.not_connecting _ (en_state _ _ _ _ Hen)); auto.
  - by intros f <-.
  - intros _ w' (?&_&?&_). done.
Qed.

Section stages.
Variables (c : ptr) (cn : TcpConnection) (ch : Channel) (w0 : World K A).
Hypothesis Hok0 : server_ok w0.
Hypothesis Hcn : w_conns w0 !! c = Some cn.
Hypothesis Hch : w_channels w0 !! channel_ cn = Some ch.
Hypothesis Hwire : Ends.wired c ch.
Abbreviation p := (channel_ cn).
Abbreviation run := (React.run_channel app).

(** The invariant of the dispatch at [c]. *)
Definition going w : Prop := server_ok w /\ stays (eq c) w0 w.

Lemma going_chan w : going w -> p <> nullptr /\ exists ch', w_channels w !! p = Some ch' /\
  revents_ ch' = revents_ ch /\ Ends.wired c ch'.
Proof.
  intros [_ Hs]. destruct (sy_chans _ _ _ Hs _ _ Hch) as (ch'&Hl&Hw).
  split.
  - destruct (ob_conns _ (proj1 (proj1 Hok0)) _ _ Hcn) as [x Hx]. eapply Conn.base_chan_null, Hx.
  - exists ch'. split_and!; [done|by rewrite Hw|rewrite Hw; exact Hwire].
Qed.

Lemma stage cond f (Q : unit -> World K A -> Prop) w h :
  going w -> (forall x y, revents_ x = revents_ y -> cond x = cond y) ->
  (forall x, Ends.wired c x -> f x = Some h) ->
  (cond ch = true -> wp (run h) E Q w) -> (cond ch = false -> Q tt w) ->
  wp (Chan.dispatch_if run p cond f) E Q w.
Proof.
  intros Hg Hcond Hf Ht Hn. destruct (going_chan w Hg) as (Hp&ch'&Hl&Hr&Hw).
  eapply dispatch_if_wp; [done|exact Hl|..].
  - rewrite (Hf _ Hw), (Hcond _ ch Hr). intros h' Hc [= <-]. auto.
  - rewrite (Hf _ Hw), (Hcond _ ch Hr). intros [?|?]; [auto|done].
Qed.

Lemma going_stays X w w' : going w -> server_ok w' -> stays X w w' -> (forall q, X q -> c = q) -> going w'.
Proof. intros [_ Hs] Hok Hs' HX. split; [done|]. transitivity w; [done|]. by eapply stays_mono. Qed.

Abbreviation hup := (fun x : Channel => Chan.has EPOLLHUP x && negb (Chan.has EPOLLIN x)).
Abbreviation input := (Chan.has (Z.lor EPOLLIN (Z.lor EPOLLPRI EPOLLRDHUP))).
Hypothesis Hquiet : hup ch = true -> input ch = false.

(** The four stages of handleEventWithGuard. *)
Lemma stages_ok w :
  going w -> opened c ch w ->
  wp (Chan.dispatch_if run p hup closeCallback_ ;;;
      Chan.dispatch_if run p (Chan.has EPOLLERR) errorCallback_ ;;;
      Chan.dispatch_if run p input readCallback_ ;;;
      Chan.dispatch_if run p (Chan.has EPOLLOUT) writeCallback_) E (fun _ => going) w.
Proof.
  intros Hg Ho. unfold Chan.has in *.
  wp_step. eapply wp_conseq with (Q := fun _ w1 => going w1 /\
    (opened c ch w1 \/ (closed c w1 /\ hup ch = true))).
  { eapply (stage hup closeCallback_); [done|by intros ?? Heq; unfold Chan.has; rewrite Heq|by intros x (?&?&?&?)|..].
    - intros Hh. pose proof Hg as [Hok _]. destruct Ho as (cn1&Hc1&Hup&_). eapply wp_conseq; [by eapply handleClose_ok|].
      intros _ w1 (Hok1&Hs1&Hcl). split; [|by right]. by eapply going_stays.
    - intros _. split; [done|by left]. }
  clear Hg Ho. intros _ w1 [Hg1 Ho1]. wp_step.
  eapply wp_conseq with (Q := fun _ w2 => going w2 /\
    (opened c ch w2 \/ (closed c w2 /\ hup ch = true))).
  { eapply (stage _ errorCallback_); [done|by intros ?? Heq; rewrite Heq|by intros x (?&?&?&?)|..].
    - intros _. pose proof Hg1 as [Hok1 _]. eapply wp_conseq.
      + apply handleError_step; [done|]. destruct Ho1 as [Ho1|[Ho1 _]]; [by eapply opened_live|by apply closed_live].
      + intros _ w2 (Hok2&Hs2&_). split; [by eapply (going_stays nobody)|].
        destruct Ho1 as [Ho1|[Ho1 ?]]; [left; by eapply stays_opened|right; split; [by eapply stays_closed|done]].
    - intros _. by split. }
  clear Hg1 Ho1. intros _ w2 [Hg2 Ho2]. wp_step.
  eapply wp_conseq with (Q := fun _ w3 => going w3 /\ (opened c ch w3 \/ closed c w3)).
  { eapply (stage _ readCallback_); [done|by intros ?? Heq; rewrite Heq|by intros x (?&?&?&?)|..].
    - intros Hin. destruct Ho2 as [Ho2|[_ Hh]]; [|specialize (Hquiet Hh); unfold Chan.has in Hquiet; congruence].
      pose proof Ho2 as (cn2&Hc2&Hup2&_). pose proof Hg2 as [Hok2 _].
      eapply wp_conseq; [by eapply conn_read_ok|]. intros _ w3 (Hok3&[Hs3|[Hs3 Hcl3]]).
      + split; [by eapply (going_stays nobody)|]. left. by eapply stays_opened.
      + split; [by eapply going_stays|]. by right.
    - intros _. split; [done|]. tauto. }
  clear Hg2 Ho2. intros _ w3 [Hg3 Ho3].
  eapply (stage _ writeCallback_); [done|by intros ?? Heq; rewrite Heq|by intros x (?&?&?&?)|..].
  - intros Hout. pose proof Hg3 as [Hok3 _]. eapply wp_conseq; [apply handleWrite_ok; [done|]|].
    + destruct Ho3 as [(cn3&?&?&Hp)|(cn3&?&?)]; exists cn3; split; auto.
    + intros _ w4 [? ?]. by eapply going_stays.
  - done.
Qed.
End stages.

(** What epoll reported of a channel, when it is still to be dispatched. *)
Definition ready (q : ptr) w : Prop :=
  special q \/ exists c cn ch, w_conns w !! c = Some cn /\ channel_ cn = q /\
    w_channels w !! q = Some ch /\ opened c ch w /\
    (Z.land (revents_ ch) EPOLLHUP <> 0 -> Z.land (revents_ ch) EPOLLIN = 0 ->
     Z.land (revents_ ch) (Z.lor EPOLLPRI EPOLLRDHUP) = 0).

(** The connection of a channel is not affected by the dispatch of another. *)
Definition owned (X : ptr -> Prop) (q : ptr) w : Prop :=
  exists c cn, X c /\ w_conns w !! c = Some cn /\ channel_ cn = q.

Lemma ready_handled p X q w w' : handled p X w w' -> q <> p -> ~ owned X q w -> ready q w -> ready q w'.
Proof.
  intros Hs Hqp HX [?|(c&cn&ch&Hc&Hq&Hch&(cn0&Hc0&Hup&Hp)&Hh)]; [by left|right].
  assert (cn0 = cn) as -> by congruence.
  assert (HXc : ~ X c) by (intros Hx; apply HX; by exists c, cn).
  destruct (hd_conns _ _ _ _ Hs _ _ Hc) as (cn'&Hc'&E1&_&Hk). destruct (Hk HXc Hup) as [Hup' Hp'].
  destruct (hd_chans _ _ _ _ Hs q ch) as (ch'&Hch'&Hw); [done|done|].
  assert (Hr : revents_ ch' = revents_ ch) by (by rewrite Hw).
  exists c, cn', ch'. rewrite Hr. split_and!; [done|congruence|done| |done].
  exists cn'. unfold Chan.has in *. rewrite Hr. auto.
Qed.

Lemma hup_quiet ch :
  (Z.land (revents_ ch) EPOLLHUP <> 0 -> Z.land (revents_ ch) EPOLLIN = 0 ->
   Z.land (revents_ ch) (Z.lor EPOLLPRI EPOLLRDHUP) = 0) ->
  Chan.has EPOLLHUP ch && negb (Chan.has EPOLLIN ch) = true ->
  Chan.has (Z.lor EPOLLIN (Z.lor EPOLLPRI EPOLLRDHUP)) ch = false.
Proof.
  unfold Chan.has. intros Hq. rewrite andb_true_iff, !negb_true_iff, negb_false_iff, Z.eqb_neq, Z.eqb_eq.
  intros [Hh Hin]. rewrite Z.land_lor_distr_r, Hin, (Hq Hh Hin). done.
Qed.

(** Marking a channel as being handled and back. *)
Lemma touch_keeps p b ch w :
  server_ok w -> p <> nullptr -> w_channels w !! p = Some ch ->
  wp (upd_channel p (set_handlingEvents_ b)) E (fun _ w' => server_ok w' /\
    w' = put_channel p (set_handlingEvents_ b ch) w) w.
Proof.
  intros Hok Hp Hch. unfold upd_channel, get_channel. wp_step. wp_lookup. wp_step.
  split; [|done]. eapply server_touch; [done..|]. unfold alike. by destruct ch.
Qed.

Lemma handleEvents_conn c cn ch w :
  server_ok w -> w_conns w !! c = Some cn -> w_channels w !! channel_ cn = Some ch -> opened c ch w ->
  (Z.land (revents_ ch) EPOLLHUP <> 0 -> Z.land (revents_ ch) EPOLLIN = 0 ->
   Z.land (revents_ ch) (Z.lor EPOLLPRI EPOLLRDHUP) = 0) ->
  wp (Chan.handleEvents (React.run_channel app) (channel_ cn)) E
    (fun _ w' => server_ok w' /\ handled (channel_ cn) (eq c) w w') w.
Proof.
  intros Hok Hc Hch Hop Hq. pose proof (proj1 (proj1 Hok)) as Ho. destruct (ob_conns _ Ho _ _ Hc) as [x Hx].
  assert (x = ch) as -> by (destruct Hx as [[[]]]; congruence).
  assert (Hp : channel_ cn <> nullptr) by apply (Conn.base_chan_null _ _ _ _ (proj1 (en_conn _ _ _ _ Hx))).
  unfold Chan.handleEvents, get_channel. wp_step. apply Chan.wp_assertInLoopThread; [apply Ho|]. wp_step.
  wp_lookup. destruct (en_tied _ _ _ _ Hx) as [-> ->]. wp_step. wp_step.
  apply wp_when; [intros _|]. 2: { intros Hn. exfalso. rewrite Hc in Hn. done. }
  unfold Chan.handleEventWithGuard. wp_step.
  eapply wp_conseq; [by apply touch_keeps|]. intros _ w1 (Hok1&->).
  set (ch1 := set_handlingEvents_ true ch). set (w1 := put_channel _ ch1 w) in *.
  assert (Hl1 : w_channels w1 !! channel_ cn = Some ch1) by (simpl; apply lookup_insert_eq).
  assert (Hc1 : w_conns w1 !! c = Some cn) by exact Hc.
  pose proof (stages_ok c cn ch1 w1 Hok1 Hc1 Hl1 (en_wired _ _ _ _ Hx) (hup_quiet ch1 Hq) w1) as Hst.
  assert (Hg1 : going c w1 w1) by (split; [done|reflexivity]).
  specialize (Hst Hg1 Hop).
  apply wp_bind_inv in Hst. wp_step. eapply wp_conseq; [exact Hst|]. clear Hst. intros [] w2 Hst.
  apply wp_bind_inv in Hst. wp_step. eapply wp_conseq; [exact Hst|]. clear Hst. intros [] w3 Hst.
  apply wp_bind_inv in Hst. wp_step. eapply wp_conseq; [exact Hst|]. clear Hst. intros [] w4 Hst.
  wp_step. eapply wp_conseq; [exact Hst|]. clear Hst. intros _ w5 [Hok5 Hs5].
  destruct (sy_chans _ _ _ Hs5 _ _ Hl1) as (ch5&Hl5&_).
  eapply wp_conseq; [by apply touch_keeps|]. intros _ w6 (Hok6&->). split; [done|]. by apply marked_handled with ch.
Qed.

(** *** New connections *)

(** A connection [c] with a channel [p] joins the world, and the server's set. *)
Record joined c p cn w w3 : Prop := {
  jn_conn : w_conns w !! c = None /\ (exists ch, entry c cn ch w3) /\ channel_ cn = p /\ Conn.up cn;
  jn_born : forall ch, w_channels w3 !! p = Some ch -> handlingEvents_ ch = false;
  jn_fresh : c = w_next w + 1 /\ p = w_next w /\ w_next w3 = w_next w + 1 + 1;
  jn_conns : forall q, q <> c -> w_conns w3 !! q = w_conns w !! q;
  jn_chans : forall q, q <> p -> w_channels w3 !! q = w_channels w !! q;
  jn_reg : forall q, q <> p -> keeps_reg q (w_trace w) (w_trace w3);
  jn_loop : w_loop w3 = w_loop w;
  jn_cur : w_cur w3 = w_cur w;
  jn_timers : w_timers w3 = w_timers w;
  jn_acceptors : w_acceptors w3 = w_acceptors w;
  jn_app : w_app w3 = w_app w
}.

Lemma joined_conn c p cn w w3 q x : joined c p cn w w3 ->
  w_conns w3 !! q = Some x -> (q = c /\ x = cn) \/ w_conns w !! q = Some x.
Proof.
  intros Hj Hq. destruct (decide (q = c)) as [->|Hne].
  - left. destruct (jn_conn _ _ _ _ _ Hj) as (_&[ch Hen]&_).
    pose proof (Conn.ba_conn _ _ _ _ (proj1 (en_conn _ _ _ _ Hen))). split; [done|congruence].
  - right. by rewrite (jn_conns _ _ _ _ _ Hj) in Hq.
Qed.

Lemma joined_old c p cn w w3 q x : joined c p cn w w3 -> objects_ok w ->
  w_conns w !! q = Some x -> q <> c /\ channel_ x <> p /\ w_conns w3 !! q = Some x.
Proof.
  intros Hj Ho Hq. destruct (ob_next _ Ho) as (_&_&Hn). destruct (Hn q x Hq).
  destruct (jn_fresh _ _ _ _ _ Hj) as (?&?&_). assert (q <> c) by lia.
  rewrite (jn_conns _ _ _ _ _ Hj) by done. split_and!; [done|lia|done].
Qed.

Lemma joined_stays c p cn w w3 : joined c p cn w w3 -> objects_ok w -> stays nobody w w3.
Proof.
  intros Hj Ho. destruct (jn_fresh _ _ _ _ _ Hj) as (_&?&_). split.
  - intros q x Hq. destruct (joined_old _ _ _ _ _ _ _ Hj Ho Hq) as (_&_&?). exists x. by split_and!.
  - intros q x Hq. exists x. rewrite (jn_chans _ _ _ _ _ Hj); [split; [done|apply Frame.rewired_refl]|].
    apply (ob_chans _ Ho) in Hq. lia.
  - intros q x Hq Hn. destruct (decide (q = p)) as [->|Hne].
    + by apply (jn_born _ _ _ _ _ Hj).
    + rewrite (jn_chans _ _ _ _ _ Hj) in Hq by done. congruence.
Qed.

(** Whatever was there before is still there, and does not meet the connection. *)
Lemma joined_objects c p cn w w3 : joined c p cn w w3 -> objects_ok w -> Lk w3 -> objects_ok w3.
Proof.
  intros Hj Ho Hlk. pose proof Ho as [Ht Hwk Hcs Hd Hap Ha Hwu Hti (Hn0&Hsp&Hn) Hch0 Hun Hk Hts _ Hai].
  pose proof (joined_stays _ _ _ _ _ Hj Ho) as Hst.
  pose proof (fun q x => joined_old _ _ _ _ _ q x Hj Ho) as Hold.
  pose proof (fun q x => joined_conn _ _ _ _ _ q x Hj) as Hcases.
  destruct Hj as [(Hcn&[ch Hen]&Hp&Hup) _ (Ec&Ep&Enx) C3 P3 R3 L3 Cu Ti Ac Ap].
  assert (Hreads : forall q cb, special q -> reads q cb w -> reads q cb w3).
  { intros q cb Hs Hr. eapply reads_frame; [exact Hr|]. apply P3. apply Hsp in Hs. lia. }
  split; auto.
  - unfold Chan.in_loop_thread in *. by rewrite L3, Cu.
  - by rewrite L3.
  - intros q x [[-> ->]|Hq]%Hcases; [by exists ch|]. destruct (Hcs q x Hq) as [y Hy]. exists y.
    destruct (Hold q x Hq) as (?&?&?). eapply entry_frame; [exact Hy|by apply C3|by apply P3|congruence..|by apply R3].
  - intros q1 q2 x1 x2 [[-> ->]|H1']%Hcases [[-> ->]|H2']%Hcases He; [done| | |by eapply Hd];
      [destruct (Hold _ _ H2') as (_&?&_)|destruct (Hold _ _ H1') as (_&?&_)]; congruence.
  - intros q x [[-> ->]|Hq]%Hcases; [|by eapply Hap]. rewrite Hp. intros Hs. apply Hsp in Hs. lia.
  - eapply accepts_frame; [exact Ha| |done]. intros q Hq. apply P3. specialize (Hsp q (or_introl Hq)). lia.
  - apply Hreads; [by right; left|done].
  - apply Hreads; [by right; right|done].
  - rewrite Enx. split_and!; [lia|intros q Hs; apply Hsp in Hs; lia|].
    intros q x [[-> ->]|Hq]%Hcases; [lia|]. destruct (Hn q x Hq). lia.
  - intros q x Hq. rewrite Enx. destruct (decide (q = p)) as [->|Hne]; [lia|].
    rewrite P3 in Hq by done. apply Hch0 in Hq. lia.
  - intros q Hq. rewrite Enx in Hq. rewrite (proj1 (R3 q ltac:(lia))). apply Hun. lia.
  - intros q Hq. destruct (decide (q = p)) as [->|Hne].
    { right. exists c, cn. split; [|done]. exact (Conn.ba_conn _ _ _ _ (proj1 (en_conn _ _ _ _ Hen))). }
    apply (keeps_reg_watched _ (w_trace w)) in Hq; [|by apply R3]. destruct (Hk q Hq) as [?|(x&cx&Hx&Ex)]; [by left|right].
    exists x, cx. by destruct (Hold _ _ Hx) as (_&_&?).
  - rewrite L3. by eapply stays_tasks.
  - rewrite Ap. eapply app_inv_mono; [exact Hai|]. intros q. by eapply stays_live.
Qed.

Lemma joined_open c p cn w w3 q : joined c p cn w w3 -> objects_ok w ->
  (open_conn q w3 <-> q = c \/ open_conn q w).
Proof.
  intros Hj Ho. destruct (jn_conn _ _ _ _ _ Hj) as (_&[ch Hen]&_&Hup). split.
  - intros (x&[[-> ->]|Hx]%(joined_conn _ _ _ _ _ _ _ Hj)&Hux); [by left|]. right. by exists x.
  - intros [->|(x&Hx&Hux)]; [exists cn; split; [|done]; exact (Conn.ba_conn _ _ _ _ (proj1 (en_conn _ _ _ _ Hen)))|].
    exists x. by destruct (joined_old _ _ _ _ _ _ _ Hj Ho Hx) as (_&_&?).
Qed.

(** The owner goes on with the connection, once it holds it. *)
Lemma joined_ok c p cn w w3 : joined c p cn w w3 -> objects_ok w -> TRun.firing [] w -> Lk w3 ->
  ((forall q, open_conn q w3 <-> q = c \/ open_conn q w) -> members_ok w3) ->
  server_ok w3 /\ stays nobody w w3 /\ forall es, TRun.firing es w -> TRun.firing es w3.
Proof.
  intros Hj Ho Hfi Hlk Hm3. pose proof (joined_objects _ _ _ _ _ Hj Ho Hlk) as Ho3.
  assert (Hfi3 : forall es, TRun.firing es w -> TRun.firing es w3).
  { intros es Hes. destruct Hj as [_ _ (_&_&?) _ _ _ L3 Cu Ti _ _]. eapply firing_frame; [exact Hes|congruence..|lia|congruence|done]. }
  split; [|split; [by eapply joined_stays|done]]. split; [split; [done|]|auto].
  apply Hm3. intros q. by eapply joined_open.
Qed.

Lemma join_ok c p w w2 w3 :
  objects_ok w -> TRun.firing [] w -> c = w_next w + 1 -> p = w_next w ->
  ((forall q, open_conn q w3 <-> q = c \/ open_conn q w) -> members_ok w3) ->
  (forall q, q <> c -> w_conns w2 !! q = w_conns w !! q) ->
  (forall q, q <> p -> w_channels w2 !! q = w_channels w !! q) ->
  w_trace w2 = w_trace w -> w_loop w2 = w_loop w -> w_cur w2 = w_cur w -> w_timers w2 = w_timers w ->
  w_acceptors w2 = w_acceptors w -> w_next w2 = w_next w + 1 + 1 -> w_app w2 = w_app w ->
  (forall ch, w_channels w3 !! p = Some ch -> handlingEvents_ ch = false) ->
  Frame.frame (eq c) (eq p) w2 w3 -> pendingTasks_ (w_loop w3) = pendingTasks_ (w_loop w2) -> Lk w3 ->
  (exists cn ch, entry c cn ch w3 /\ channel_ cn = p /\ Conn.up cn) ->
  server_ok w3 /\ stays nobody w w3 /\ forall es, TRun.firing es w -> TRun.firing es w3.
Proof.
  intros Ho Hfi Ec Ep Hm3 B1 B2 B3 B4 B5 B6 B7 B8 Ba Bi Hf Hpt Hlk (cn&ch&Hen&Hp&Hup).
  apply (joined_ok c p cn); [|done..]. destruct (ob_next _ Ho) as (_&_&Hn).
  destruct Hf as [F1 F2 F3 F4 F5 F6 F7 _ _ _ F10 F11]. split; [|done|split_and!; congruence|..]; try congruence.
  - split_and!; [|by exists ch|done..]. destruct (w_conns w !! c) as [x|] eqn:Hx; [|done]. apply Hn in Hx. lia.
  - intros q Hq. rewrite F1 by congruence. auto.
  - intros q Hq. rewrite F2 by congruence. auto.
  - intros q Hq. rewrite <- B3. apply F3. congruence.
  - rewrite F4, Hpt, B4. apply Frame.set_pending_id.
Qed.

Lemma server_fresh w : objects_ok w -> Ends.fresh w.
Proof.
  intros Ho. split; [apply (proj1 (ob_next _ Ho))|]. by apply (ob_unused _ Ho).
Qed.

Lemma newConnection_ok s a p fd local peer w :
  st_owner site = OServer s a p -> server_ok w -> fd <> st_wfd site ->
  wp (Ends.Single_newConnection (React.run_connection app) s fd local peer) E
    (fun _ => step_ok w) w.
Proof.
  intros Eow Hok Hfd. pose proof Hok as [[Ho Hms] Hfi].
  unfold members_ok in Hms. rewrite Eow in Hms. destruct Hms as (Hs0&sv&Hsv&[Hcb Hca]&Hmb&Hm).
  unfold Ends.Single_newConnection, upd_single, get_single. wp_step.
  apply Chan.wp_assertInLoopThread; [apply Ho|]. wp_step.
  apply Ends.ctor_wp; [by apply server_fresh|apply Ho|destruct (ob_wake _ Ho) as [[= ->] _]; congruence|].
  intros i o ch w1 c Hc1 Hwi Hi E1 E2 [B1 B2 B3 B3' B4 B5 B6 B7 B8 Ba Bi].
  wp_step. wp_step. rewrite <- E1 in Hsv. wp_lookup. wp_step. wp_step. set (sv2 := set_connections_ _ sv).
  set (w2 := put_single _ sv2 w1).
  assert (Hs2 : w_singles w2 !! s = Some sv2) by apply lookup_insert_eq.
  assert (Hc2 : Conn.conn_at c (Ends.new_conn fd (w_next w) local peer i o) ch w2).
  { destruct Hc1 as [Hb Hph]. split; [|done]. eapply Conn.base_frame; [exact Hb|done..]. }
  assert (Hlk2 : Lk w2) by (unfold Rep.linked; simpl; rewrite B3, B3'; apply Ho).
  wp_lookup. apply Ends.wp_wire_up. eapply wp_mono with (E := no_fault); [|by intros ? []|].
  { eapply wp_and; [by eapply Ends.wire_up_wp|]. eapply wp_and; [|by apply (Rep.wire_up_linked c _ _ _ w2)].
    apply (Frame.wire_up_framed c (w_next w) (fun ch => handlingEvents_ ch = false) w2); [done|].
    split; [reflexivity|eexists; split; [apply Hc2|done]|]. pose proof (Conn.ba_chan _ _ _ _ (proj1 Hc2)) as Hch2.
    exists ch. split; [exact Hch2|by apply Bi]. }
  intros _ w3 [((cn&ch3&Hc3&Hwi3&Hst3&_&_&Hmsg&_&Hcl&_&_&Htd&Htie&_)&F6&_&Ht) [[Hf (cn'&Hcn'&Hp) Hid] Hlk3]].
  assert (cn' = cn) as -> by (pose proof (Conn.ba_conn _ _ _ _ (proj1 Hc3)); congruence).
  assert (Hs3 : step_ok w w3).
  { eapply (join_ok c (w_next w) w w2 w3); try done.
    - intros Hopen. unfold members_ok. rewrite Eow. split; [done|]. exists sv2. rewrite F6.
      split; [done|]. simpl. split_and!; auto. intros q. by rewrite elem_of_union, elem_of_singleton, Hm, Hopen.
    - intros x Hx. destruct Hid as (y&Hy&Hi3). congruence.
    - exists cn, ch3. split_and!; [|done|by left]. split; auto; [by rewrite Hst3| |by rewrite Hmsg].
      unfold owner_close. by rewrite Eow. }
  wp_step. rewrite <- F6 in Hs2. wp_lookup. unfold Ends.call_connection. simpl.
  destruct (s_connectionCallback_ sv) as [cb|]; [|done]. eapply wp_conseq.
  - apply (connection_keeps cb c w3); [apply Hs3|]. by exists cn.
  - intros [] w4 Hs4. by eapply step_trans.
Qed.

(** *** The other handlers *)

Lemma acceptor_ok s a p w : st_owner site = OServer s a p -> server_ok w ->
  wp (Ends.Acceptor_handleRead (React.uninit app) (React.run_connection app) a) E
    (fun _ => step_ok w) w.
Proof.
  intros Eow Hok. pose proof Hok as [[Ho _] _]. pose proof (ob_accepts _ Ho) as Hacc.
  unfold accepts_ok in Hacc. rewrite Eow in Hacc. destruct Hacc as (_&Ha&ac&Hac&Hcb&_).
  unfold Ends.Acceptor_handleRead, get_acceptor. wp_step. apply Chan.wp_assertInLoopThread; [apply Ho|].
  wp_step. wp_lookup. wp_step. apply sys_step; [done|done|].
  intros r w1 Hs1 Htr _. simpl in Htr. rewrite Hcb. simpl.
  assert (Hnew : forall fd peer, fd <> st_wfd site ->
    wp (Ends.Single_newConnection (React.run_connection app) s fd (a_local_ ac) peer) E
      (fun _ => step_ok w) w1).
  { intros fd peer Hfd. eapply wp_conseq; [eapply newConnection_ok; [exact Eow|apply Hs1|done]|].
    intros [] w2 Hs2. by eapply step_trans. }
  destruct r as [[fd peer]|e]; wp_step; [wp_step; by apply Hnew|].
  destruct (_ || _); wp_step; [|exact E_accept]. apply Hnew. pose proof (proj2 (ob_wake _ Ho)). congruence.
Qed.

Lemma wakeup_ok w : server_ok w -> wp Ev.handleRead E (fun _ => step_ok w) w.
Proof.
  intros Hok. unfold Ev.handleRead, get_loop. wp_step. wp_step. wp_step.
  apply sys_step; [done..|]. intros r w1 Hs1 _ _. by wp_step.
Qed.

Lemma timers_ok w : server_ok w ->
  wp (TQ.handleRead (React.run_timer app)) E (fun _ w' => server_ok w' /\ stays nobody w w') w.
Proof.
  intros [Hb Hfi]. eapply wp_conseq.
  - apply (TRun.handleRead_safe (React.run_timer app) E (calm w)).
    + intros w1 x e Hx Hc. pose proof (Rep.coupled_call x _ _ (ob_linked _ (proj1 (proj1 Hc)))) as Hlk.
      destruct (k_call x (w_kern w1)) as [r k]. eapply calm_same; [exact Hc|try done..|apply Hlk].
      intros q. simpl. apply keeps_reg_snoc. by destruct x.
    + intros w1 Hc. pose proof (Rep.coupled_now _ _ (ob_linked _ (proj1 (proj1 Hc)))).
      by eapply calm_same.
    + intros w1 m l Hc. eapply calm_same; [exact Hc|try done..]. apply Hc.
    + intros k es w1 [Hes [Hb1 Hs1]]. simpl. eapply wp_conseq; [apply (ct_timer Happ)|].
      * split; [done|]. by apply (TRun.firing_none es).
      * intros _ w2 ([Hb2 _]&Hs2&Hf2). split; [by apply Hf2|]. split; [done|]. by transitivity w1.
    + split; [done|]. by split.
  - intros _ w' [Hfi' [Hb' Hs']]. by split.
Qed.

(** A channel that is not tied and has one callback, for reading or for
    writing. *)
Lemma handleEvents_single q ch h (Q : unit -> World K A -> Prop) w :
  q <> nullptr -> Chan.in_loop_thread w -> w_channels w !! q = Some ch -> tied_ ch = false ->
  closeCallback_ ch = None -> errorCallback_ ch = None ->
  (readCallback_ ch = Some h /\ writeCallback_ ch = None) \/ (readCallback_ ch = None /\ writeCallback_ ch = Some h) ->
  let ch1 := set_handlingEvents_ true ch in let w1 := put_channel q ch1 w in
  wp (React.run_channel app h) E (fun _ w2 => exists ch2, w_channels w2 !! q = Some ch2 /\ Frame.rewired ch1 ch2 /\
    Q tt (put_channel q (set_handlingEvents_ false ch2) w2)) w1 ->
  Q tt (put_channel q (set_handlingEvents_ false ch1) w1) ->
  wp (Chan.handleEvents (React.run_channel app) q) E Q w.
Proof.
  intros Hq Ht Hch Htd Hc He Hrw ch1 w1 Hrun Hno.
  assert (Hl1 : w_channels w1 !! q = Some ch1) by apply lookup_insert_eq.
  assert (Hend : forall ch2 w2, w_channels w2 !! q = Some ch2 -> Q tt (put_channel q (set_handlingEvents_ false ch2) w2) ->
    wp (upd_channel q (set_handlingEvents_ false)) E Q w2).
  { intros ch2 w2 Hl2 HQ. unfold upd_channel, get_channel. wp_step. wp_lookup. by wp_step. }
  unfold Chan.handleEvents, get_channel. wp_step. apply Chan.wp_assertInLoopThread; [done|]. wp_step. wp_lookup.
  rewrite Htd. unfold Chan.handleEventWithGuard, upd_channel at 1, get_channel. wp_step. wp_step. wp_lookup. wp_step.
  change (put_channel _ _ w) with w1.
  wp_step. eapply dispatch_if_wp; [done|exact Hl1|simpl; congruence|intros _].
  wp_step. eapply dispatch_if_wp; [done|exact Hl1|simpl; congruence|intros _].
  destruct Hrw as [[Hr Hw]|[Hr Hw]].
  - wp_step. eapply dispatch_if_wp; [done|exact Hl1|intros h' _ Hh|intros _].
    + simpl in Hh. assert (h' = h) as -> by congruence. eapply wp_conseq; [exact Hrun|].
      intros [] w2 (ch2&Hl2&Hr2&HQ). wp_step.
      eapply dispatch_if_wp; [done|exact Hl2|rewrite Hr2; simpl; congruence|intros _]. by apply (Hend ch2).
    + wp_step. eapply dispatch_if_wp; [done|exact Hl1|simpl; congruence|intros _]. by apply (Hend ch1).
  - wp_step. eapply dispatch_if_wp; [done|exact Hl1|simpl; congruence|intros _].
    wp_step. eapply dispatch_if_wp; [done|exact Hl1|intros h' _ Hh|intros _; by apply (Hend ch1)].
    simpl in Hh. assert (h' = h) as -> by congruence. eapply wp_conseq; [exact Hrun|].
    intros [] w2 (ch2&Hl2&_&HQ). by apply (Hend ch2).
Qed.

(** A channel that only reads. *)
Lemma handleEvents_reads q h w :
  server_ok w -> reads q h w ->
  (forall w1, server_ok w1 -> wp (React.run_channel app h) E (fun _ w2 => server_ok w2 /\ stays nobody w1 w2) w1) ->
  wp (Chan.handleEvents (React.run_channel app) q) E (fun _ w' => server_ok w' /\ handled q nobody w w') w.
Proof.
  intros Hok (Hq&ch&Hch&Htd&Hr&Hw&Hc&He&_) Hrun.
  assert (Hmark : forall b ch2 w2, server_ok w2 -> w_channels w2 !! q = Some ch2 ->
    server_ok (put_channel q (set_handlingEvents_ b ch2) w2)).
  { intros b ch2 w2 Hok2 Hl2. eapply server_touch; [done..|]. unfold alike. by destruct ch2. }
  assert (Hl1 : forall b, w_channels (put_channel q (set_handlingEvents_ b ch) w) !! q = Some (set_handlingEvents_ b ch))
    by (intros; apply lookup_insert_eq).
  eapply handleEvents_single; [done|apply Hok|exact Hch|done..|by left| |].
  - eapply wp_conseq; [by apply Hrun, Hmark|]. intros _ w2 [Hok2 Hs2].
    destruct (sy_chans _ _ _ Hs2 _ _ (Hl1 true)) as (ch2&Hl2&Hr2). exists ch2. split_and!; [done..|by apply Hmark|].
    by apply marked_handled with ch.
  - split; [by apply Hmark; [apply Hmark|]|]. by apply marked_handled with ch.
Qed.

(** The dispatch of one active channel. *)
Definition dispatched (q : ptr) w w' : Prop :=
  (forall q', q' <> q -> ready q' w -> ready q' w') /\ (idle w -> idle w').

Lemma handleEvents_ok q w :
  server_ok w -> ready q w ->
  wp (Chan.handleEvents (React.run_channel app) q) E (fun _ w' => server_ok w' /\ dispatched q w w') w.
Proof.
  intros Hok Hrd. pose proof (proj1 (proj1 Hok)) as Ho.
  assert (Hsp : forall h, reads q h w -> (forall w1, server_ok w1 ->
      wp (React.run_channel app h) E (fun _ w2 => server_ok w2 /\ stays nobody w1 w2) w1) ->
    wp (Chan.handleEvents (React.run_channel app) q) E (fun _ w' => server_ok w' /\ dispatched q w w') w).
  { intros h Hr Hrun. eapply wp_conseq; [by eapply handleEvents_reads|]. intros _ w' [? Hs]. split; [done|].
    split; [|apply Hs]. intros q' Hne. eapply ready_handled; [exact Hs|done|]. intros (x&cx&Hx&_). destruct Hx. }
  destruct Hrd as [[Hq | [-> | ->]] | (c&cn&ch&Hc&<-&Hch&Hop&Hh)].
  - pose proof (ob_accepts _ Ho) as Hacc. unfold owner_chan, accepts_ok in *.
    destruct (st_owner site) as [s a p|x] eqn:Eow; [|done]. subst q.
    eapply Hsp; [apply Hacc|]. intros w1 Hok1. eapply wp_conseq; [by eapply acceptor_ok|]. intros _ w2 (?&?&_). done.
  - eapply Hsp; [apply Ho|]. intros w1 Hok1. eapply wp_conseq; [by apply wakeup_ok|]. intros _ w2 (?&?&_). done.
  - eapply Hsp; [apply Ho|]. intros w1 Hok1. by apply timers_ok.
  - eapply wp_conseq; [by eapply handleEvents_conn|]. intros _ w' [Hok' Hs]. split; [done|]. split; [|apply Hs].
    intros q' Hne. eapply ready_handled; [exact Hs|done|]. intros (x&cx&<-&Hx&Ex). congruence.
Qed.

Lemma dispatch_all_ok qs w :
  server_ok w -> NoDup qs -> (forall q, q ∈ qs -> ready q w) ->
  wp (for_each qs (Chan.handleEvents (React.run_channel app))) E (fun _ => server_ok) w.
Proof.
  intros Hok Hnd Hrd.
  eapply wp_conseq with (Q := fun _ w' => server_ok w' /\ NoDup ([] : list ptr) /\ forall q, q ∈ [] -> ready q w').
  2: { by intros _ w' [? _]. }
  apply (wp_for_each _ _ _ (fun l w' => server_ok w' /\ NoDup l /\ forall q, q ∈ l -> ready q w')); [done|].
  clear w Hok Hnd Hrd qs. intros q qs w (Hok&[Hq Hnd]%list.NoDup_cons&Hrd). eapply wp_conseq.
  - apply handleEvents_ok; [done|]. apply Hrd. by left.
  - intros _ w' [Hok' [Hrd' _]]. split; [done|]. split; [done|]. intros q' Hq'. apply Hrd'; [by intros ->|].
    apply Hrd. by right.
Qed.

(** ** The loop *)

(** A report of epoll about a registered channel. *)
Lemma reported_ready q m ev ch w :
  server_ok w -> registered q (w_trace w) = Reg (Some ev) -> descriptor q (w_trace w) <> None -> Rep.report_ok ev m ->
  w_channels w !! q = Some ch -> revents_ ch = m -> ready q w.
Proof.
  intros Hok Hreg Hfd [Hout Hhup] Hch <-. pose proof (proj1 (proj1 Hok)) as Ho.
  assert (Hwt : watched q (w_trace w)) by (split; [congruence|done]).
  destruct (ob_known _ Ho q Hwt) as [?|(c&cn&Hc&<-)]; [by left|right].
  destruct (ob_conns _ Ho _ _ Hc) as [x Hx].
  pose proof (en_conn _ _ _ _ Hx) as [[_ _ Hx' (_&_&y&Hy&_&_&Hr) _ _ _ _] Hph].
  assert (x = ch) as -> by congruence. rewrite Hreg in Hr.
  assert (Hev : events_ ch = ev) by (destruct (events_ ch =? 0); congruence).
  assert (Hne : events_ ch <> 0) by (intros Hz; rewrite Hz in Hr; discriminate).
  exists c, cn, ch. split_and!; [done..| |done]. exists cn. split; [done|].
  destruct (Conn.not_connecting _ (en_state _ _ _ _ Hx)) as [Hup|Hd].
  - split; [done|]. unfold Chan.has. intros Hb. zbool. apply (Conn.up_phase _ _ Hup) in Hph as [_ Hph].
    specialize (Hout Hb). rewrite <- Hev in Hout.
    assert (Hw : Chan.isWriting ch = true) by (unfold Chan.isWriting; by apply negb_true_iff, Z.eqb_neq).
    rewrite Conn.isWriting_bit, Hph in Hw. intros Hp. rewrite bool_decide_eq_true_2 in Hw by done. done.
  - unfold Conn.phase in Hph. rewrite Hd in Hph. done.
Qed.

Lemma known_channel q w : objects_ok w -> watched q (w_trace w) ->
  q <> nullptr /\ exists ch, w_channels w !! q = Some ch.
Proof.
  intros Ho Hq. destruct (ob_known _ Ho q Hq) as [[Hs | [-> | ->]]|(c&cn&Hc&<-)].
  - pose proof (ob_accepts _ Ho) as Hacc. unfold owner_chan, accepts_ok in *. destruct (st_owner site); [|done]. subst q.
    destruct Hacc as ((?&ch&?&_)&_). split; [done|by exists ch].
  - destruct (ob_wakeup _ Ho) as (?&ch&?&_). split; [done|by exists ch].
  - destruct (ob_timer _ Ho) as (?&ch&?&_). split; [done|by exists ch].
  - destruct (ob_conns _ Ho _ _ Hc) as [ch Hch]. pose proof (proj1 (en_conn _ _ _ _ Hch)) as Hb.
    split; [by eapply Conn.base_chan_null|]. exists ch. apply Hb.
Qed.

(** Marking the reported channels with their events. *)
Lemma mark_ok evs w :
  server_ok w -> NoDup (map snd evs) ->
  (forall m q, (m, q) ∈ evs -> watched q (w_trace w)) ->
  wp (for_each evs (fun e => upd_channel (snd e) (set_revents_ (fst e)))) E (fun _ w' =>
    server_ok w' /\ w_trace w' = w_trace w /\ (idle w -> idle w') /\
    (forall q, q ∉ map snd evs -> w_channels w' !! q = w_channels w !! q) /\
    forall m q, (m, q) ∈ evs -> exists ch, w_channels w' !! q = Some ch /\ revents_ ch = m) w.
Proof.
  revert w. induction evs as [|[m q] evs IH]; intros w Hok Hnd Hreg; simpl.
  { wp_step. split_and!; [done..|]. by intros m q ?%not_elem_of_nil. }
  apply list.NoDup_cons in Hnd as [Hnin Hnd].
  destruct (known_channel q w (proj1 (proj1 Hok)) (Hreg m q ltac:(left))) as (Hq&ch&Hch).
  unfold upd_channel, get_channel. wp_step. wp_step. wp_lookup. wp_step.
  set (ch1 := set_revents_ m ch). set (w1 := put_channel q ch1 w).
  assert (Hok1 : server_ok w1) by (eapply server_touch; [done..|unfold alike; by destruct ch]).
  eapply wp_conseq.
  - apply (IH w1 Hok1 Hnd). intros m' q' Hin. apply (Hreg m' q'). by right.
  - intros _ w' (Hok'&Htr&Hid&Hno&Hin). split_and!; [done|done|..].
    + intros Hi. apply Hid. intros q' x Hx. simpl in Hx.
      apply lookup_insert_Some in Hx as [[<- <-]|[_ Hx]]; [|by eapply Hi].
      exact (Hi q ch Hch).
    + intros q' [Hne Hni]%not_elem_of_cons. rewrite Hno by done. simpl. by apply lookup_insert_ne.
    + intros m' q' [Heq|Hin']%elem_of_cons; [|by apply Hin]. injection Heq as -> ->.
      exists ch1. split; [|done]. rewrite Hno by done. simpl. apply lookup_insert_eq.
Qed.

Lemma poll_ok w :
  server_ok w ->
  wp (Poller.poll []) E (fun active w' => server_ok w' /\ NoDup active /\
    (forall q, q ∈ active -> ready q w') /\ (idle w -> idle w')) w.
Proof.
  intros Hok. pose proof (proj1 (proj1 Hok)) as Ho. unfold Poller.poll, get_loop. wp_step.
  apply Chan.wp_assertInLoopThread; [apply Ho|]. wp_step. wp_step. wp_step.
  apply sys_step; [done|done|]. intros r w1 (Hok1&Hs1&_) Htr Htr1.
  destruct r as [evs|e]; [|wp_step; split_and!; [done|constructor|by intros q ?%not_elem_of_nil|by eapply stays_idle]].
  destruct Htr as [Hnd Hrep]. wp_step.
  eapply wp_conseq; [apply mark_ok; [done..|]|].
  { intros m q Hin. unfold watched. rewrite Htr1, registered_snoc, descriptor_snoc. destruct (Hrep m q Hin) as (?&ev&->&_). done. }
  intros _ w2 (Hok2&Htr2&Hid&_&Hmark). wp_step.
  assert (Hready : forall w3, server_ok w3 -> w_trace w3 = w_trace w2 -> w_channels w3 = w_channels w2 ->
    server_ok w3 /\ NoDup ([] ++ map snd evs) /\ (forall q, q ∈ [] ++ map snd evs -> ready q w3) /\
    (idle w -> idle w3)).
  { intros w3 Hok3 T3 C3. split_and!; [done|done| |].
    2: { intros Hi%(stays_idle _ _ _ Hs1)%Hid q x. rewrite C3. apply Hi. }
    intros q Hq. simpl in Hq.
    apply list_elem_of_fmap in Hq as ([m q']&->&Hin). destruct (Hrep m q' Hin) as (Hd&ev&Hreg&Hr).
    destruct (Hmark m q' Hin) as (ch&Hch&Hm). simpl.
    eapply reported_ready; [done| | |exact Hr| |exact Hm]; [..|by rewrite C3];
      by rewrite T3, Htr2, Htr1, ?registered_snoc, ?descriptor_snoc. }
  apply wp_when; intros _; [unfold upd_loop; wp_step|]; wp_step; [|by apply Hready].
  apply Hready; [|done..]. apply loop_ok; [done..|]. apply Hok2.
Qed.

(** *** Pending tasks *)

Lemma task_step t w :
  server_ok w -> task_ok w t ->
  wp (React.run_task app t) E (fun _ w' => server_ok w' /\ exists X, stays X w w') w.
Proof.
  intros Hok Ht. pose proof (proj1 (proj1 Hok)) as Ho.
  assert (Hweak : forall m : M (World K A) unit, wp m E (fun _ => step_ok w) w ->
    wp m E (fun _ w' => server_ok w' /\ exists X, stays X w w') w).
  { intros m Hm. eapply wp_conseq; [exact Hm|]. intros _ w' (?&Hs&_). split; [done|]. by exists nobody. }
  assert (Hcall : forall x c cn, w_conns w !! c = Some cn -> Conn.call_pre x cn -> Frame.local_call x = true ->
    x <> Conn.CallHandleWrite ->
    wp (Conn.conn_call_run Conn.no_message Conn.no_close c x) E (fun _ => step_ok w) w).
  { intros x c cn Hc Hpre Hx Hne. eapply wp_mono; [by eapply api_keeps|by intros f <-|done]. }
  assert (Hst : forall c cn, w_conns w !! c = Some cn -> state_ cn <> kConnecting).
  { intros c cn Hc. destruct (ob_conns _ Ho _ _ Hc) as [ch Hch]. apply Hch. }
  destruct t as [c d|c|c|c|c|k c|k c mark|when p|p|k]; simpl in Ht; try done.
  - destruct Ht as [[cn Hc] Hd]. apply Hweak. apply (Hcall (Conn.CallSendInLoop d) c cn); try done.
    split; [by eapply Hst|done].
  - destruct Ht as [cn Hc]. apply Hweak. apply (Hcall Conn.CallShutdownInLoop c cn); try done. by eapply Hst.
  - destruct Ht as [cn Hc]. simpl. unfold Conn.forceCloseInLoop, get_conn. wp_step.
    apply Chan.wp_assertInLoopThread; [apply Ho|]. wp_step.
    assert (Hc0 : c <> nullptr) by (destruct (ob_conns _ Ho _ _ Hc) as [ch [[[]]]]; done).
    wp_lookup. apply wp_when; [|intros _; split; [done|]; by exists nobody]. intros Hd%negb_true_iff%bool_decide_eq_false_1.
    eapply wp_conseq; [eapply handleClose_ok; [done..|]|].
    + destruct (Conn.not_connecting cn) as [?|?]; [by eapply Hst|done|done].
    + intros _ w' (?&Hs&_). split; [done|]. by exists (eq c).
  - apply Hweak. by apply (ct_writeComplete Happ).
  - apply Hweak. by apply (ct_highWaterMark Happ).
  - apply Hweak. by apply (ct_task Happ).
Qed.

(** Whatever else is done around each task. *)
Lemma run_tasks_ok run w :
  (forall t w, server_ok w -> task_ok w t ->
     wp (run t) E (fun _ w' => server_ok w' /\ exists X, stays X w w') w) ->
  server_ok w -> wp (Ev.doPendingTasks run) E (fun _ w' => server_ok w' /\ (idle w -> idle w')) w.
Proof.
  intros Hrun Hok. pose proof (proj1 (proj1 Hok)) as Ho.
  unfold Ev.doPendingTasks, get_loop, upd_loop. wp_step.
  apply Chan.wp_assertInLoopThread; [apply Ho|]. wp_step. wp_step. wp_step. wp_step. wp_step. wp_step. simpl.
  set (w1 := set_w_loop _ _). wp_step.
  assert (Hok1 : server_ok w1) by (repeat (apply loop_ok; try done)).
  eapply wp_conseq with (Q := fun _ w' => server_ok w' /\ Forall (task_ok w') [] /\ (idle w -> idle w')).
  { apply (wp_for_each _ _ _ (fun l w' => server_ok w' /\ Forall (task_ok w') l /\ (idle w -> idle w'))).
    - split; [done|]. split; [exact (ob_tasks _ Ho)|done].
    - intros t l w' (Hok'&[Ht Hl]%list.Forall_cons&Hi). eapply wp_conseq; [by apply Hrun|].
      intros _ w2 (Hok2&X&Hs). split; [done|]. split; [by eapply stays_tasks|].
      intros Hw. by eapply stays_idle, Hi. }
  intros _ w2 (Hok2&_&Hi). wp_step. split; [|exact Hi]. apply loop_ok; [done..|]. apply Hok2.
Qed.

Lemma doPendingTasks_ok w :
  server_ok w -> wp (React.doPendingTasks app) E (fun _ w' => server_ok w' /\ (idle w -> idle w')) w.
Proof. apply run_tasks_ok. intros. by apply task_step. Qed.

Lemma iteration_ok w : server_ok w -> wp (React.iteration app) E (fun _ => server_ok) w.
Proof.
  intros Hok. unfold React.iteration, Ev.iteration, upd_loop. wp_step. wp_step.
  assert (Hok1 : server_ok (set_w_loop (set_activeChannels_ [] (w_loop w)) w)).
  { apply loop_ok; [done..|]. apply Hok. }
  wp_step. eapply wp_conseq; [by apply poll_ok|]. intros active w2 (Hok2&Hnd&Hrd&_). wp_step. wp_step.
  set (w3 := set_w_loop _ w2). wp_step. eapply wp_conseq; [apply (dispatch_all_ok active w3)|].
  - apply loop_ok; [done..|]. apply Hok2.
  - done.
  - intros q Hq. exact (Hrd q Hq).
  - intros [] w4 Hok4. eapply wp_conseq; [by apply doPendingTasks_ok|]. by intros _ w5 [? _].
Qed.

Lemma while_ok n w :
  server_ok w ->
  wp (Ev.while_not_quit (React.run_channel app) (React.run_task app) n) E
    (fun b w' => server_ok w' /\ b = quit_ (w_loop w')) w.
Proof.
  revert w. induction n as [|n IH]; intros w Hok; simpl; unfold get_loop; wp_step; wp_step.
  - destruct (quit_ (w_loop w)) eqn:Hq; by wp_step.
  - destruct (quit_ (w_loop w)) eqn:Hq; [by wp_step|]. wp_step.
    eapply wp_conseq; [by apply iteration_ok|]. intros [] w1 Hok1. by apply IH.
Qed.

Lemma react_ok n w : server_ok w ->
  wp (React.loop app n) E (fun b w' => server_ok w' /\ b = quit_ (w_loop w')) w.
Proof.
  intros Hok. unfold React.loop, Ev.loop, upd_loop. wp_step.
  apply Chan.wp_assertInLoopThread; [apply Hok|]. wp_step. wp_step.
  apply while_ok. apply loop_ok; [done..|]. apply Hok.
Qed.
End app.

Lemma contract_mono app (E E' : fault -> Prop) : contract app E -> (forall f, E f -> E' f) -> contract app E'.
Proof. intros [] HE. split; intros; (eapply wp_mono; [eauto|exact HE|done]). Qed.

(** ** Properties *)

(** The loop of a server is safe. From a world that satisfies the
    invariant, whatever the kernel answers and however many iterations are
    run, the loop only returns when quit was asked for, in a world that
    satisfies the invariant, and otherwise stops with a fault of the
    application's callbacks, of a vector that is too long, or of accept4
    failing: no assertion of the library fails, no object is used after it was
    destroyed, no empty function is called and no integer overflows. *)
Theorem server_loop_safe (app : React.App K A) (E : fault -> Prop) n w :
  contract app E -> E LengthError -> E (Fatal "unexpected accept4() error") -> server_ok w ->
  match React.loop app n w with
  | Ok b w' => server_ok w' /\ b = quit_ (w_loop w')
  | Err f => E f
  end.
Proof.
  intros Happ Hlen Hacc Hok. exact (react_ok app E Happ Hlen Hacc n w Hok).
Qed.

End server.
End Serve.
