(* ===== verification/Lifetime.v ===== *)
(** The lifetime of connections.  A TcpConnection is shared: the server's set
    (src/TcpServerSingle.cc), a client (src/TcpClient.cc), the tasks made with
    shared_from_this (src/TcpConnection.cc) and the application hold references
    to it, and the last one that goes destroys it.  While a handler or a task
    runs, Channel::handleEvents (src/Channel.cc) or the vector of
    doPendingTasks (src/EventLoop.cc) hold one more; so the connections that no
    reference holds are destroyed where those end.  (An application that drops
    the last reference inside of a callback destroys its connection there, which
    is put off to the end of the handler here.)  The loop with destruction is
    proved safe: nothing uses a connection or a channel that was destroyed. *)

From S2P Require Import Prelude Ints Kernel Buffer World Poller Channel TimerQueue.
From S2P Require Import TcpConnection EventLoop Endpoints Frame Reports TimerRun Reactor ServerInv Server.

Module Life.
Import Srv Serve.
#[local] Existing Instances stays_preorder.

(** The references an application holds in its state; what its invariant says of
    other connections may not matter. *)
Class AppOwns (A : Type) `{AppInv A} := {
  holds : A -> ptr -> bool;
  holds_inv : forall a (P Q : ptr -> Prop), app_inv a P ->
    (forall c, holds a c = true -> P c -> Q c) -> app_inv a Q
}.

(** ** References *)

Section ops.
Context {K A : Type} `{Kernel K} `{Build} `{AppOwns A}.
Implicit Types w : World K A.

(** The connection that the closure of a task holds: stopRead and startRead
    capture this. *)
Definition task_ref (t : Task) : option ptr :=
  match t with
  | TaskSendInLoop c _ | TaskShutdownInLoop c | TaskForceCloseInLoop c
  | TaskWriteComplete _ c | TaskHighWaterMark _ c _ => Some c
  | _ => None
  end.

Definition owned (w : World K A) (c : ptr) : bool :=
  existsb (fun s => bool_decide (c ∈ connections_ (snd s))) (map_to_list (w_singles w)) ||
  existsb (fun x => bool_decide (connection_ (snd x) = Some c)) (map_to_list (w_clients w)) ||
  existsb (fun t => bool_decide (task_ref t = Some c)) (pendingTasks_ (w_loop w)) ||
  holds (w_app w) c.

(** ** The loop with destruction *)

Definition release (c : ptr) : M (World K A) unit :=
  let! o := gets (fun w => owned w c) in
  when (negb o) (Conn.TcpConnection_dtor c).
Definition sweep : M (World K A) unit :=
  let! cs := gets (fun w => map fst (map_to_list (w_conns w))) in
  for_each cs release.

(** ~TcpServerSingle: its members in turn, connections_ first. *)
Definition TcpServerSingle_dtor (s : ptr) : M (World K A) unit :=
  upd_single s (set_connections_ ∅) ;;;
  sweep ;;;
  let! sv := get_single s in
  Ends.Acceptor_dtor (acceptor_ sv) ;;;
  modify (fun w => set_w_singles (delete s (w_singles w)) w).
Definition destroy_tasks : M (World K A) unit :=
  upd_loop (set_pendingTasks_ []) ;;;
  sweep.
Definition EventLoop_dtor (this t_Eventloop : ptr) : M (World K A) ptr :=
  Ev.EventLoop_dtor destroy_tasks this t_Eventloop.

(** EventLoop::loop around the body of its while loop. *)
Fixpoint while_not_quit (body : M (World K A) unit) (fuel : nat) : M (World K A) bool :=
  let! q := get_loop quit_ in
  if q then ret true else
  match fuel with
  | O => ret false
  | S n => body ;;; while_not_quit body n
  end.
Definition run_loop (body : M (World K A) unit) (fuel : nat) : M (World K A) bool :=
  Loop.assertInLoopThread ;;;
  upd_loop (set_quit_ false) ;;;
  while_not_quit body fuel.

Section loop.
Variable app : React.App K A.

(** The guard of handleEvents ends with it. *)
Definition handleEvents (p : ptr) : M (World K A) unit :=
  Chan.handleEvents (React.run_channel app) p ;;; sweep.
(** So does the vector of tasks. *)
Definition doPendingTasks : M (World K A) unit :=
  React.doPendingTasks app ;;; sweep.

Definition iteration : M (World K A) unit :=
  upd_loop (set_activeChannels_ []) ;;;
  let! active := Poller.poll [] in
  upd_loop (set_activeChannels_ active) ;;;
  for_each active handleEvents ;;;
  doPendingTasks.

Definition loop (fuel : nat) : M (World K A) bool := run_loop iteration fuel.
End loop.
End ops.

(** ** Destruction *)

Section server.
Context {K A : Type} `{Kernel K} `{!KernelLaws K} `{Build}.
Context {site : Site} `{!Rep.Epoll K (st_wfd site)} `{AppOwns A}.
Implicit Types w : World K A.
Abbreviation Lk := (@Rep.linked K A _ (st_wfd site) _).
Abbreviation objects_ok := (Srv.objects_ok (site := site)).
Abbreviation members_ok := (Srv.members_ok (site := site)).
Abbreviation server_ok := (Srv.server_ok (site := site)).
Abbreviation entry := (Srv.entry (site := site)).
Abbreviation ready := (Serve.ready (site := site)).

Lemma existsb_elem {X} (f : X -> bool) l : existsb f l = true <-> exists x, x ∈ l /\ f x = true.
Proof. rewrite existsb_exists. split; intros (x&Hx&?); exists x; (split; [by apply list_elem_of_In|done]). Qed.

Lemma owned_iff w c : owned w c = true <->
  (exists s sv, w_singles w !! s = Some sv /\ c ∈ connections_ sv) \/
  (exists x cl, w_clients w !! x = Some cl /\ connection_ cl = Some c) \/
  (exists t, t ∈ pendingTasks_ (w_loop w) /\ task_ref t = Some c) \/ holds (w_app w) c = true.
Proof.
  unfold owned. rewrite !orb_true_iff, !existsb_elem. split.
  - intros [[[([s sv]&Hs&Hc%bool_decide_eq_true)|([x cl]&Hx&Hc%bool_decide_eq_true)]|(t&Ht&Hc%bool_decide_eq_true)]|?]; [..|by auto].
    + left. exists s, sv. split; [by apply elem_of_map_to_list|done].
    + right. left. exists x, cl. split; [by apply elem_of_map_to_list|done].
    + right. right. left. by exists t.
  - intros [(s&sv&Hs&Hc)|[(x&cl&Hx&Hc)|[(t&Ht&Hc)|?]]]; [do 3 left|do 2 left; right|left; right|by right].
    + exists (s, sv). split; [by apply elem_of_map_to_list|by apply bool_decide_eq_true].
    + exists (x, cl). split; [by apply elem_of_map_to_list|by apply bool_decide_eq_true].
    + exists t. split; [done|by apply bool_decide_eq_true].
Qed.

Lemma not_owned w c : owned w c = false ->
  (forall s sv, w_singles w !! s = Some sv -> c ∉ connections_ sv) /\
  (forall t, t ∈ pendingTasks_ (w_loop w) -> task_ref t <> Some c) /\ holds (w_app w) c = false.
Proof.
  rewrite <- not_true_iff_false, owned_iff. intros Ho. split_and!.
  - intros s sv Hs Hc. apply Ho. left. by exists s, sv.
  - intros t Ht Hc. apply Ho. right. right. left. by exists t.
  - apply not_true_iff_false. tauto.
Qed.

(** The owner holds the open connections. *)
Lemma member_owned w c : members_ok w -> open_conn c w -> owned w c = true.
Proof.
  unfold members_ok. intros Hm Hc. apply owned_iff. destruct (st_owner site) as [s a p|x].
  - destruct Hm as (_&sv&Hsv&_&_&Hm). left. exists s, sv. split; [done|by apply Hm].
  - destruct Hm as (_&cl&Hcl&_&Hm). right. left. exists x, cl. split; [done|by apply Hm].
Qed.

(** The world without the connection [c], whose channel is [p]. *)
Definition gone (c p : ptr) w : World K A :=
  set_w_conns (delete c (w_conns w)) (set_w_channels (delete p (w_channels w)) w).

Lemma gone_task c p w t : task_ok w t -> task_ref t <> Some c -> task_ok (gone c p w) t.
Proof.
  intros Ht Hr.
  assert (Hl : forall q, live q w -> Some q <> Some c -> live q (gone c p w)).
  { intros q Hq Hne. unfold live, gone; simpl. rewrite lookup_delete_ne; [done|congruence]. }
  destruct t; simpl in *; auto. destruct Ht. auto.
Qed.

(** A closed connection that nothing refers to leaves the invariant true. *)
Lemma gone_objects c cn w :
  objects_ok w -> w_conns w !! c = Some cn -> ~ Conn.up cn -> owned w c = false ->
  objects_ok (gone c (channel_ cn) w).
Proof.
  intros Ho Hc Hdn (_&Hts0&Hh)%not_owned.
  pose proof Ho as [Ht Hwk Hcs Hd Hap Ha Hwu Hti Hn Hch0 Hun Hk Hts Hlk Hai].
  assert (Hsub : forall q cq, w_conns (gone c (channel_ cn) w) !! q = Some cq ->
    q <> c /\ w_conns w !! q = Some cq).
  { intros q cq Hq. simpl in Hq. apply lookup_delete_Some in Hq as [? ?]. by split. }
  assert (Hchan : forall q cq, q <> c -> w_conns w !! q = Some cq -> channel_ cq <> channel_ cn).
  { intros q cq Hne Hq He. apply Hne. by eapply Hd. }
  assert (Hsame : forall p, special (site := site) p -> w_channels (gone c (channel_ cn) w) !! p = w_channels w !! p).
  { intros p Hs. apply lookup_delete_ne. intros <-. by eapply Hap. }
  split; auto.
  - intros q cq [Hne Hq]%Hsub. destruct (Hcs q cq Hq) as [ch Hch]. exists ch.
    eapply entry_frame; [exact Hch|..]; try done; simpl.
    + by apply lookup_delete_ne.
    + apply lookup_delete_ne. symmetry. by eapply Hchan.
  - intros q1 q2 x1 x2 [_ H1']%Hsub [_ H2']%Hsub. by eapply Hd.
  - intros q x [_ Hq]%Hsub. by eapply Hap.
  - eapply accepts_frame; [exact Ha| |done]. intros p Hp. apply Hsame. by left.
  - eapply reads_frame; [exact Hwu|]. apply Hsame. right. by left.
  - eapply reads_frame; [exact Hti|]. apply Hsame. right. by right.
  - destruct Hn as (?&?&Hn). split_and!; [done..|]. intros q x [_ Hq]%Hsub. by apply (Hn q).
  - intros q x Hq. simpl in Hq. apply lookup_delete_Some in Hq as [_ Hq]. by eapply Hch0.
  - intros q Hq. destruct (Hk q Hq) as [?|(x&cx&Hx&<-)]; [by left|right]. exists x, cx. split; [|done].
    simpl. rewrite lookup_delete_ne; [done|]. intros <-. apply (proj1 Hq). assert (cx = cn) as -> by congruence.
    destruct (Hcs c cn Hc) as [ch Hen].
    destruct (Conn.not_connecting _ (en_state _ _ _ _ Hen)) as [?|Hs]; [done|].
    destruct (en_conn _ _ _ _ Hen) as [[_ _ Hx' (_&_&y&Hy&_&_&Hr) _ _ _ _] Hph].
    assert (y = ch) as -> by congruence. unfold Conn.phase in Hph. rewrite Hs in Hph. simpl. by rewrite Hr, Hph.
  - apply list.Forall_forall. intros t Hin. apply gone_task; [|by apply Hts0].
    by apply (proj1 (list.Forall_forall _ _) Hts).
  - eapply holds_inv; [exact Hai|]. intros q Hq [x Hx]. exists x. simpl. rewrite lookup_delete_ne; [done|].
    intros <-. simpl in Hq. congruence.
Qed.

Lemma gone_ok c cn w :
  server_ok w -> w_conns w !! c = Some cn -> ~ Conn.up cn -> owned w c = false ->
  server_ok (gone c (channel_ cn) w).
Proof.
  intros [[Ho Hm] Hfi] Hc Hdn Hno.
  split; [split; [by apply gone_objects|]|by eapply firing_frame].
  eapply members_frame; [exact Hm|done..|]. intros q. unfold open_conn. simpl. split.
  - intros (x&[_ Hx]%lookup_delete_Some&Hup). by exists x.
  - intros (x&Hx&Hup). exists x. rewrite lookup_delete_ne; [done|]. intros <-. congruence.
Qed.

(** Only the kernel, its log and errno differ. *)
Record quiet w w' : Prop := {
  qu_conns : w_conns w' = w_conns w;
  qu_chans : w_channels w' = w_channels w;
  qu_loop : w_loop w' = w_loop w;
  qu_singles : w_singles w' = w_singles w;
  qu_clients : w_clients w' = w_clients w;
  qu_app : w_app w' = w_app w;
  qu_rest : w_cur w' = w_cur w /\ w_timers w' = w_timers w /\ w_acceptors w' = w_acceptors w
}.

Lemma sys_quiet x (E : fault -> Prop) (Q : sysret (reply x) -> World K A -> Prop) w :
  server_ok w -> match x with SysEpollCtl _ _ _ _ => False | _ => True end ->
  (forall r w', server_ok w' -> quiet w w' -> w_trace w' = w_trace w ++ [Event x r] -> Q r w') ->
  wp (sys x) E Q w.
Proof.
  intros Hok Hx HQ. unfold wp, sys.
  assert (Hs : wp (sys x) E (fun _ w' => server_ok w') w).
  { apply sys_step; [done|done|]. by intros r w' [? _]. }
  unfold wp, sys in Hs. destruct (k_call x (w_kern w)) as [r k]. apply HQ; [exact Hs|..]; by destruct r.
Qed.

Lemma owned_quiet w w' c : w_loop w' = w_loop w -> w_singles w' = w_singles w ->
  w_clients w' = w_clients w -> w_app w' = w_app w -> owned w' c = owned w c.
Proof. unfold owned. by intros -> -> -> ->. Qed.

(** What destroying those of [cs] that nothing refers to does: they and their
    channels are gone, their descriptors closed in turn, and nothing else
    changed. *)
Definition closes (cs : list ptr) w : list syscall :=
  omap (fun c => if owned w c then None else (fun cn => SysClose (sockfd_ cn)) <$> w_conns w !! c) cs.
Definition closed cn : Prop := ndebug = true \/ state_ cn = kDisconnected.
Definition still_open : fault := AssertFail "state_ == kDisconnected".
Definition doomed (cs : list ptr) w (c : ptr) : Prop := c ∈ cs /\ owned w c = false.

Record swept (cs : list ptr) w w' : Prop := {
  sw_gone : forall c, doomed cs w c -> w_conns w' !! c = None;
  sw_conns : forall c, ~ doomed cs w c -> w_conns w' !! c = w_conns w !! c;
  sw_chans : forall q, (forall c cn, doomed cs w c -> w_conns w !! c = Some cn -> channel_ cn <> q) ->
    w_channels w' !! q = w_channels w !! q;
  sw_none : forall c cn, doomed cs w c -> w_conns w !! c = Some cn -> w_channels w' !! channel_ cn = None;
  sw_closed : forall c cn, doomed cs w c -> w_conns w !! c = Some cn -> closed cn;
  sw_trace : exists evs, w_trace w' = w_trace w ++ evs /\ map ev_call evs = closes cs w;
  sw_loop : w_loop w' = w_loop w;
  sw_singles : w_singles w' = w_singles w;
  sw_clients : w_clients w' = w_clients w;
  sw_app : w_app w' = w_app w;
  sw_rest : w_cur w' = w_cur w /\ w_timers w' = w_timers w /\ w_acceptors w' = w_acceptors w
}.

Lemma swept_owned cs w w' c : swept cs w w' -> owned w' c = owned w c.
Proof. intros []. by apply owned_quiet. Qed.

Lemma swept_nil w : swept [] w w.
Proof.
  assert (Hn : forall c, ~ doomed [] w c) by (by intros c [?%not_elem_of_nil _]).
  split; try done; try (by intros c ?%Hn); try (by intros c cn ?%Hn).
  exists []. by rewrite app_nil_r.
Qed.

Lemma closes_ext cs w w' :
  (forall c, c ∈ cs -> owned w' c = owned w c /\ w_conns w' !! c = w_conns w !! c) -> closes cs w' = closes cs w.
Proof.
  unfold closes. induction cs as [|c cs IH]; intros Hq; [done|]. simpl.
  destruct (Hq c) as [-> ->]; [by left|].
  assert (Heq := IH (fun q Hin => Hq q (list_elem_of_further _ _ _ Hin))).
  destruct (if owned w c then None else _); [f_equal|]; exact Heq.
Qed.

Lemma swept_step c cs w w1 w2 : c ∉ cs ->
  (forall c1 c2 cn1 cn2, w_conns w !! c1 = Some cn1 -> w_conns w !! c2 = Some cn2 ->
    channel_ cn1 = channel_ cn2 -> c1 = c2) ->
  swept [c] w w1 -> swept cs w1 w2 -> swept (c :: cs) w w2.
Proof.
  intros Hnin Hdist S1 S2. pose proof (swept_owned _ _ _ c S1) as _.
  assert (Hd1 : forall q, doomed [c] w q <-> q = c /\ owned w c = false).
  { intros q. unfold doomed. rewrite list_elem_of_singleton. split; [by intros [-> ?]|by intros [-> ?]]. }
  assert (Hd2 : forall q, doomed cs w1 q <-> q ∈ cs /\ owned w q = false).
  { intros q. unfold doomed. by rewrite (swept_owned _ _ _ q S1). }
  assert (Hd : forall q, doomed (c :: cs) w q <-> doomed [c] w q \/ doomed cs w1 q).
  { intros q. rewrite Hd1, Hd2. unfold doomed. rewrite elem_of_cons. naive_solver. }
  assert (Hc1 : forall q, q <> c -> w_conns w1 !! q = w_conns w !! q).
  { intros q Hq. apply (sw_conns _ _ _ S1). by intros [? _]%Hd1. }
  assert (Hne : forall q, q ∈ cs -> q <> c) by (by intros q Hq ->).
  split; try (by etransitivity; [apply S2|apply S1]);
    try (by destruct (sw_rest _ _ _ S1) as (<-&<-&<-); apply S2).
  - intros q [Hq|Hq]%Hd; [|by apply S2]. rewrite (sw_conns _ _ _ S2); [by apply S1|].
    apply Hd1 in Hq as [-> _]. by intros [? _]%Hd2.
  - intros q Hq. rewrite Hd in Hq. rewrite (sw_conns _ _ _ S2) by tauto. apply S1. tauto.
  - intros q Hq. rewrite (sw_chans _ _ _ S2).
    + apply S1. intros x cn Hx. apply (Hq x). apply Hd. by left.
    + intros x cn Hx Hcn. apply (Hq x); [apply Hd; by right|]. rewrite Hc1 in Hcn; [done|].
      apply Hne, (proj1 (Hd2 x) Hx).
  - intros q cn [Hq|Hq]%Hd Hcn.
    + rewrite (sw_chans _ _ _ S2); [by eapply S1|]. intros x cx [Hx _]%Hd2 Hcx He.
      rewrite Hc1 in Hcx by by apply Hne. apply Hd1 in Hq as [-> _]. apply (Hne x Hx). by eapply Hdist.
    + eapply (sw_none _ _ _ S2); [exact Hq|]. rewrite Hc1; [done|]. apply Hd2 in Hq as [? _]. by apply Hne.
  - intros q cn [Hq|Hq]%Hd Hcn; [by eapply S1|]. eapply S2; [exact Hq|]. rewrite Hc1; [done|].
    apply Hd2 in Hq as [? _]. by apply Hne.
  - destruct (sw_trace _ _ _ S1) as (e1&T1&M1), (sw_trace _ _ _ S2) as (e2&T2&M2).
    exists (e1 ++ e2). rewrite T2, T1, app_assoc. split; [done|]. rewrite map_app, M1, M2.
    rewrite (closes_ext cs w w1); [unfold closes; simpl; by destruct (owned w c), (w_conns w !! c)|].
    intros q Hq. rewrite (swept_owned _ _ _ q S1), Hc1; [done|]. by apply Hne.
Qed.

Definition all_conns w : list ptr := map fst (map_to_list (w_conns w)).

(** A connection of the server that nothing refers to is closed. *)
Lemma unowned_closed w c cn : server_ok w -> w_conns w !! c = Some cn -> owned w c = false ->
  state_ cn = kDisconnected /\ ~ Conn.up cn.
Proof.
  intros Hok Hc Ho. destruct (ob_conns _ (proj1 (proj1 Hok)) _ _ Hc) as [ch Hen].
  assert (Hdn : ~ Conn.up cn).
  { intros Hup. rewrite (member_owned w c (proj2 (proj1 Hok))) in Ho; [done|]. by exists cn. }
  split; [|done]. by destruct (Conn.not_connecting _ (en_state _ _ _ _ Hen)).
Qed.

(** *** Under any invariant that finds the objects

    [J] says that connections are well formed, that nothing handles their
    channels, and, in a debug build, that those nothing refers to are closed. *)
Record sweepable (E : fault -> Prop) (J : World K A -> Prop) : Prop := {
  sp_conn w c cn : J w -> w_conns w !! c = Some cn -> c <> nullptr /\ channel_ cn <> nullptr /\
    exists ch, w_channels w !! channel_ cn = Some ch /\ handlingEvents_ ch = false;
  sp_distinct w c1 c2 cn1 cn2 : J w -> w_conns w !! c1 = Some cn1 -> w_conns w !! c2 = Some cn2 ->
    channel_ cn1 = channel_ cn2 -> c1 = c2;
  sp_closed w c cn : J w -> w_conns w !! c = Some cn -> owned w c = false ->
    closed cn \/ E still_open;
  sp_sys fd w : J w -> wp (sys (SysClose fd)) no_fault (fun r w' => J w' /\ quiet w w' /\
    w_trace w' = w_trace w ++ [Event (SysClose fd) r]) w;
  sp_gone w c cn : J w -> w_conns w !! c = Some cn -> owned w c = false -> J (gone c (channel_ cn) w)
}.

Section sweep.
Variable E : fault -> Prop.
Variable J : World K A -> Prop.
Hypothesis HJ : sweepable E J.

(** The destructor of a connection. *)
Lemma release_wp c w :
  J w -> live c w -> wp (release c) E (fun _ w' => J w' /\ swept [c] w w') w.
Proof.
  intros Hok [cn Hc]. unfold release. wp_step. wp_step.
  destruct (owned w c) eqn:Ho; simpl.
  { wp_step. split; [done|]. split; try done.
    - by intros q [->%list_elem_of_singleton ?]; congruence.
    - by intros q x [->%list_elem_of_singleton ?]; congruence.
    - by intros q x [->%list_elem_of_singleton ?]; congruence.
    - exists []. unfold closes. simpl. by rewrite Ho, app_nil_r. }
  destruct (sp_conn _ _ HJ _ _ _ Hok Hc) as (Hc0&Hp0&ch&Hch&Hid).
  unfold Conn.TcpConnection_dtor, Chan.Channel_dtor, get_conn, get_channel. wp_step. wp_lookup. wp_step.
  apply wp_assert.
  2: { intros Hdb Hst%bool_decide_eq_false.
    destruct (sp_closed _ _ HJ _ _ _ Hok Hc Ho) as [[?|?]|?]; [congruence|done|done]. }
  rewrite bool_decide_eq_true. intros Hcl. wp_step. eapply wp_mono; [by apply (sp_sys _ _ HJ)|done|]. intros r w1 (Hok1&[Q1 Q2 Q3 Q4 Q5 Q6 Q7]&Htr).
  rewrite <- Q1 in Hc. rewrite <- Q2 in Hch. wp_step. wp_step. wp_lookup. wp_step.
  apply wp_assert_true; [by rewrite Hid|]. wp_step. wp_step.
  change (set_w_conns _ _) with (gone c (channel_ cn) w1).
  assert (Ho1 : owned w1 c = false) by (by rewrite (owned_quiet w)).
  split; [by apply (sp_gone _ _ HJ)|]. rewrite Q1 in Hc. split; simpl; try done.
  - intros q [->%list_elem_of_singleton _]. apply lookup_delete_eq.
  - intros q Hq. rewrite <- Q1. apply lookup_delete_ne. intros <-. apply Hq. split; [by left|done].
  - intros q Hq. rewrite <- Q2. apply lookup_delete_ne. apply (Hq c); [split; [by left|done]|done].
  - intros q x [->%list_elem_of_singleton _] Hx. assert (x = cn) as -> by congruence. apply lookup_delete_eq.
  - intros q x [->%list_elem_of_singleton _] Hx. by assert (x = cn) as -> by congruence.
  - exists [Event (SysClose (sockfd_ cn)) r]. split; [done|]. unfold closes. simpl. by rewrite Ho, Hc.
Qed.

Lemma releases_wp cs w :
  J w -> NoDup cs -> (forall c, c ∈ cs -> live c w) ->
  wp (for_each cs release) E (fun _ w' => J w' /\ swept cs w w') w.
Proof.
  revert w. induction cs as [|c cs IH]; intros w Hok Hnd Hl; simpl.
  { wp_step. split; [done|apply swept_nil]. }
  apply list.NoDup_cons in Hnd as [Hnin Hnd]. wp_step.
  eapply wp_conseq; [apply release_wp; [done|apply Hl; by left]|]. intros _ w1 (Hok1&S1).
  eapply wp_conseq; [apply (IH w1 Hok1 Hnd)|].
  - intros q Hq. destruct (Hl q) as [cq Hcq]; [by right|]. exists cq. rewrite (sw_conns _ _ _ S1); [done|].
    intros [->%list_elem_of_singleton _]. done.
  - intros _ w2 (?&S2). split; [done|]. eapply swept_step; [done| |done..].
    intros c1 c2 cn1 cn2. by apply (sp_distinct _ _ HJ).
Qed.

Lemma sweep_J w : J w -> wp sweep E (fun _ w' => J w' /\ swept (all_conns w) w w') w.
Proof.
  intros Hok. unfold sweep. wp_step. wp_step. apply releases_wp; [done|apply NoDup_fst_map_to_list|].
  intros c ([q cn]&->&Hin)%list_elem_of_fmap. exists cn. by apply elem_of_map_to_list.
Qed.
End sweep.

(** The invariant of a running server. *)
Lemma server_sweepable E : sweepable E (fun w => server_ok w /\ idle w).
Proof.
  split.
  - intros w c cn [Hok Hid] Hc. destruct (ob_conns _ (proj1 (proj1 Hok)) _ _ Hc) as [ch Hen].
    pose proof (proj1 (en_conn _ _ _ _ Hen)) as Hb. split; [apply Hb|]. split; [by eapply Conn.base_chan_null|].
    exists ch. pose proof (Conn.ba_chan _ _ _ _ Hb) as Hch. split; [done|by eapply Hid].
  - intros w c1 c2 cn1 cn2 [Hok _]. apply (ob_distinct _ (proj1 (proj1 Hok))).
  - intros w c cn [Hok _] Hc Ho. left. right. destruct (unowned_closed w c cn Hok Hc Ho). done.
  - intros fd w [Hok Hid]. apply sys_quiet; [done|done|]. intros r w' Hok' Hq Htr. split_and!; [done| |done..].
    intros q x. rewrite (qu_chans _ _ Hq). apply Hid.
  - intros w c cn [Hok Hid] Hc Ho. destruct (unowned_closed w c cn Hok Hc Ho) as [_ Hdn].
    split; [by apply gone_ok|]. intros q x Hq. simpl in Hq. apply lookup_delete_Some in Hq as [_ Hq]. by eapply Hid.
Qed.

Lemma sweep_wp w (E : fault -> Prop) : server_ok w -> idle w ->
  wp sweep E (fun _ w' => server_ok w' /\ idle w' /\ swept (all_conns w) w w') w.
Proof.
  intros Hok Hid. eapply wp_conseq; [by apply (sweep_J _ _ (server_sweepable E))|]. by intros _ w' [[? ?] ?].
Qed.

Lemma live_all c w : live c w -> c ∈ all_conns w.
Proof.
  intros [cn Hc]. apply list_elem_of_fmap. exists (c, cn). split; [done|]. by apply elem_of_map_to_list.
Qed.

Lemma closes_all w : closes (all_conns w) w =
  map (fun x => SysClose (sockfd_ (snd x))) (filter (fun x => owned w (fst x) = false) (map_to_list (w_conns w))).
Proof.
  unfold closes, all_conns.
  assert (Hl : forall l, (forall x, x ∈ l -> w_conns w !! fst x = Some (snd x)) ->
    omap (fun c => if owned w c then None else (fun cn => SysClose (sockfd_ cn)) <$> w_conns w !! c) (map fst l) =
    map (fun x => SysClose (sockfd_ (snd x))) (filter (fun x => owned w (fst x) = false) l)).
  { induction l as [|[c cn] l IH]; intros Hx; [done|]. rewrite filter_cons. simpl.
    pose proof (Hx (c, cn) ltac:(by left)) as Hc. simpl in Hc. rewrite Hc. specialize (IH (fun x Hin => Hx x (list_elem_of_further _ _ _ Hin))).
    destruct (owned w c); simpl; [exact IH|]. f_equal. exact IH. }
  apply Hl. intros [c cn] Hin. by apply elem_of_map_to_list.
Qed.

Definition all_owned w : Prop := forall c, live c w -> owned w c = true.

Lemma swept_conns w w' c : swept (all_conns w) w w' ->
  w_conns w' !! c = if owned w c then w_conns w !! c else None.
Proof.
  intros S. destruct (owned w c) eqn:Ho; [apply S; by intros [_ ?]; congruence|].
  destruct (w_conns w !! c) as [cn|] eqn:Hc.
  - apply S. split; [|done]. apply live_all. by exists cn.
  - rewrite (sw_conns _ _ _ S); [done|]. intros [Hin _].
    apply list_elem_of_fmap in Hin as ([q cq]&->&Hin). apply elem_of_map_to_list in Hin. simpl in Hc. congruence.
Qed.

Lemma swept_all w w' : swept (all_conns w) w w' -> all_owned w'.
Proof.
  intros S c [cn Hc]. rewrite (swept_owned _ _ _ c S). rewrite (swept_conns _ _ _ S) in Hc.
  by destruct (owned w c).
Qed.

(** A channel that waits for its dispatch belongs to a connection the server
    holds. *)
Lemma ready_swept q cs w w' : server_ok w -> swept cs w w' -> ready q w -> ready q w'.
Proof.
  intros Hok S [?|(c&cn&ch&Hc&<-&Hch&(cn0&Hc0&Hup&Hp)&Hh)]; [by left|right].
  assert (cn0 = cn) as -> by congruence. pose proof Hok as [[Ho Hm] _].
  assert (Hown : owned w c = true) by (apply member_owned; [exact Hm|by exists cn]).
  assert (Hnd : ~ doomed cs w c) by (intros [_ ?]; congruence).
  assert (Hc' : w_conns w' !! c = Some cn) by (by rewrite (sw_conns _ _ _ S)).
  exists c, cn, ch. split_and!; [done|done| | |done]; [|by exists cn].
  rewrite (sw_chans _ _ _ S); [done|]. intros x cx Hx Hcx He.
  assert (x = c) as -> by by eapply (ob_distinct _ Ho). done.
Qed.

(** ** The loop *)

(** Between two iterations: no handler runs, and no connection is left that
    nothing refers to. *)
Definition life_ok w : Prop := server_ok w /\ idle w /\ all_owned w.

(** The loop keeps what its body keeps. *)
Lemma run_loop_inv (J : World K A -> Prop) (E : fault -> Prop) body n w :
  (forall w, J w -> wp body E (fun _ => J) w) -> (forall w, J w -> Chan.in_loop_thread w) ->
  (forall w, J w -> J (set_w_loop (set_quit_ false (w_loop w)) w)) -> J w ->
  wp (run_loop body n) E (fun b w' => J w' /\ b = quit_ (w_loop w')) w.
Proof.
  intros Hbody Ht Hq Hw. unfold run_loop, upd_loop. wp_step. apply Chan.wp_assertInLoopThread; [by apply Ht|].
  wp_step. wp_step. apply Hq in Hw. revert Hw. generalize (set_w_loop (set_quit_ false (w_loop w)) w). clear w.
  induction n as [|n IH]; intros w Hw; simpl; unfold get_loop; wp_step; wp_step;
    destruct (quit_ (w_loop w)) eqn:Hqt; try by wp_step.
  wp_step. eapply wp_conseq; [by apply Hbody|]. intros [] w1 Hw1. by apply IH.
Qed.

Lemma run_loop_ok (E : fault -> Prop) body n w :
  (forall w, server_ok w -> idle w -> wp body E (fun _ => life_ok) w) -> life_ok w ->
  wp (run_loop body n) E (fun b w' => life_ok w' /\ b = quit_ (w_loop w')) w.
Proof.
  intros Hbody. apply run_loop_inv.
  - intros w1 (?&?&_). by apply Hbody.
  - intros w1 Hok. apply Hok.
  - intros w1 (Hok&Hid&Hall). split_and!; [apply loop_ok; [done..|]; apply Hok|exact Hid|].
    intros c Hc. rewrite <- (Hall c Hc). reflexivity.
Qed.

Section loop.
Variable app : React.App K A.
Variable E : fault -> Prop.
Hypothesis Happ : contract (site := site) app E.
Hypothesis E_length : E LengthError.
Hypothesis E_accept : E (Fatal "unexpected accept4() error").

Lemma life_handle_ok q w : server_ok w -> idle w -> ready q w ->
  wp (handleEvents app q) E (fun _ w' => server_ok w' /\ idle w' /\
    forall q', q' <> q -> ready q' w -> ready q' w') w.
Proof.
  intros Hok Hid Hrd. unfold handleEvents. wp_step.
  eapply wp_conseq; [by apply (handleEvents_ok app E Happ E_length E_accept)|].
  intros _ w1 (Hok1&Hrd1&Hid1). eapply wp_conseq; [apply sweep_wp; auto|].
  intros _ w2 (Hok2&Hid2&S). split_and!; [done..|]. intros q' Hne Hq'. eapply ready_swept; [exact Hok1|exact S|].
  by apply Hrd1.
Qed.

Lemma life_dispatch_ok qs w :
  server_ok w -> idle w -> NoDup qs -> (forall q, q ∈ qs -> ready q w) ->
  wp (for_each qs (handleEvents app)) E (fun _ w' => server_ok w' /\ idle w') w.
Proof.
  intros Hok Hid Hnd Hrd.
  eapply wp_conseq with (Q := fun _ w' => (server_ok w' /\ idle w') /\ NoDup ([] : list ptr) /\ forall q, q ∈ [] -> ready q w').
  2: { by intros _ w' [? _]. }
  apply (wp_for_each _ _ _ (fun l w' => (server_ok w' /\ idle w') /\ NoDup l /\ forall q, q ∈ l -> ready q w')); [done|].
  clear w Hok Hid Hnd Hrd qs. intros q qs w ([Hok Hid]&[Hq Hnd]%list.NoDup_cons&Hrd).
  eapply wp_conseq; [apply life_handle_ok; [done..|]; apply Hrd; by left|].
  intros _ w1 (Hok1&Hid1&Hrd1). split_and!; [done..|]. intros q' Hq'. apply Hrd1; [by intros ->|]. apply Hrd. by right.
Qed.

Lemma life_iteration_ok w : server_ok w -> idle w -> wp (iteration app) E (fun _ => life_ok) w.
Proof.
  intros Hok Hid. unfold iteration, upd_loop. wp_step. wp_step.
  assert (Hok1 : server_ok (set_w_loop (set_activeChannels_ [] (w_loop w)) w)) by (apply loop_ok; [done..|apply Hok]).
  wp_step. eapply wp_conseq; [by apply poll_ok|]. intros active w2 (Hok2&Hnd&Hrd&Hid2). wp_step. wp_step.
  set (w3 := set_w_loop _ w2). wp_step. eapply wp_conseq; [apply (life_dispatch_ok active w3); [|by apply Hid2|done|exact Hrd]|].
  - apply loop_ok; [done..|]. apply Hok2.
  - intros _ w4 [Hok4 Hid4]. unfold doPendingTasks. wp_step.
    eapply wp_conseq; [by apply (doPendingTasks_ok app E Happ E_length)|]. intros _ w5 [Hok5 Hid5].
    eapply wp_conseq; [apply sweep_wp; auto|]. intros _ w6 (?&?&S). split_and!; [done..|by eapply swept_all].
Qed.

Lemma life_loop_ok n w : life_ok w ->
  wp (loop app n) E (fun b w' => life_ok w' /\ b = quit_ (w_loop w')) w.
Proof. apply run_loop_ok. exact life_iteration_ok. Qed.
End loop.

(** ** Properties *)


(** What the destructions between two handlers do, exactly. Of the
    connections of the heap those that nothing refers to are destroyed with
    their channels and no other; the descriptor of each of them is closed once
    and there are no other system calls; the loop, the owners and the
    application are as before. *)
Theorem sweep_destroys_unowned w :
  server_ok w -> idle w ->
  exists w', sweep w = Ok tt w' /\
    (forall c, w_conns w' !! c = if owned w c then w_conns w !! c else None) /\
    (forall c cn, w_conns w !! c = Some cn ->
       w_channels w' !! channel_ cn = if owned w c then w_channels w !! channel_ cn else None) /\
    (exists evs, w_trace w' = w_trace w ++ evs /\
       map ev_call evs ≡ₚ map (fun x => SysClose (sockfd_ (snd x)))
         (filter (fun x => owned w (fst x) = false) (map_to_list (w_conns w)))) /\
    w_loop w' = w_loop w /\ w_singles w' = w_singles w /\ w_clients w' = w_clients w /\ w_app w' = w_app w.
Proof.
  intros Hok Hid. destruct (wp_total _ _ _ (sweep_wp w no_fault Hok Hid)) as ([]&w'&Hr&_&_&S).
  exists w'. split; [done|]. split_and!; try apply S.
  - intros c. by apply swept_conns.
  - intros c cn Hc. destruct (owned w c) eqn:Ho.
    + apply S. intros x cx [_ Hx] Hcx He. assert (x = c) as -> by by eapply (ob_distinct _ (proj1 (proj1 Hok))).
      congruence.
    + eapply S; [|exact Hc]. split; [|done]. apply live_all. by exists cn.
  - destruct (sw_trace _ _ _ S) as (evs&Ht&Hm). exists evs. split; [done|]. rewrite Hm. by rewrite closes_all.
Qed.
End server.
End Life.
