(* ===== verification/TcpServer.v ===== *)
(** TcpServer (src/TcpServer.hpp, src/TcpServer.cc).  First what one of its
    threads runs: runInThread builds a loop and a TcpServerSingle on the
    thread's stack, starts it and runs the loop, and is proved safe from its
    first instruction.  Last, a small program with its run: a server
    that sends back what it receives, with a run.  How the threads are started
    and stopped is in TcpThreads.v. *)

From S2P Require Import Prelude Ints Kernel Buffer World Poller Channel TimerQueue.
From S2P Require Import TcpConnection EventLoop Endpoints Frame Reports TimerRun Reactor Os ServerInv Server.

Module Tcp.
Import Srv Serve OsK.

(** ** The object *)

Section object.
Context {K A : Type}.

(** The members of TcpServer that its threads read; those that start and stop
    the threads are in TcpThreads.v. The callbacks that are set are not empty
    functions. *)
Record TcpServer := mkTcpServer {
  ts_local_ : sockaddr_in;
  ts_threadInitCallback_ : nat -> M (World K A) unit;
  ts_connectionCallback_ : ConnectionCallback;
  ts_messageCallback_ : MessageCallback;
  ts_writeCompleteCallback_ : option Z
}.
(** defaultThreadInitCallback writes a line of the log. *)
Definition defaultThreadInitCallback (index : nat) : M (World K A) unit := ret tt.
Definition TcpServer_ctor (local : sockaddr_in) : TcpServer :=
  mkTcpServer local defaultThreadInitCallback DefaultConnection DefaultMessage None.
Definition setThreadInitCallback (callback : nat -> M (World K A) unit) (t : TcpServer) : TcpServer :=
  mkTcpServer (ts_local_ t) callback (ts_connectionCallback_ t) (ts_messageCallback_ t) (ts_writeCompleteCallback_ t).
Definition setConnectionCallback (callback : ConnectionCallback) (t : TcpServer) : TcpServer :=
  mkTcpServer (ts_local_ t) (ts_threadInitCallback_ t) callback (ts_messageCallback_ t) (ts_writeCompleteCallback_ t).
Definition setMessageCallback (callback : MessageCallback) (t : TcpServer) : TcpServer :=
  mkTcpServer (ts_local_ t) (ts_threadInitCallback_ t) (ts_connectionCallback_ t) callback (ts_writeCompleteCallback_ t).
Definition setWriteCompleteCallback (callback : option Z) (t : TcpServer) : TcpServer :=
  mkTcpServer (ts_local_ t) (ts_threadInitCallback_ t) (ts_connectionCallback_ t) (ts_messageCallback_ t) callback.
End object.
#[global] Arguments TcpServer : clear implicits.

(** ** One thread *)

Section worker.
Context {K A : Type} `{Kernel K} `{Build}.
Implicit Types w : World K A.

(** The address of the loop on the stack; the thread has no other loop. *)
Variable loop : ptr.
Variable t : TcpServer K A.

(** A TcpServerSingle with the callbacks of the TcpServer. *)
Definition make_single : M (World K A) ptr :=
  let! server := Ends.TcpServerSingle_ctor (ts_local_ t) in
  Ends.Single_setConnectionCallback server (Some (ts_connectionCallback_ t)) ;;;
  Ends.Single_setMessageCallback server (Some (ts_messageCallback_ t)) ;;;
  Ends.Single_setWriteCompleteCallback server (ts_writeCompleteCallback_ t) ;;;
  ret server.

(** What startInLoop and runInThread have in common: the server is made, the
    user's callback called with the index of the thread, the server started. *)
Definition start_single (index : nat) : M (World K A) ptr :=
  let! server := make_single in
  ts_threadInitCallback_ t index ;;;
  Ends.Single_start server ;;;
  ret server.

(** startInLoop on the base loop: the base server. What it does with the other
    threads is in TcpThreads.v. *)
Definition startInLoop : M (World K A) ptr := start_single 0.

(** runInThread up to the call of loop; the publication of the loop's address
    is a step of TcpThreads.v. *)
Definition runInThread_setup (index : nat) : M (World K A) ptr :=
  Ev.EventLoop_ctor loop nullptr ;;;
  start_single index.

Definition runInThread (index : nat) (app : React.App K A) (fuel : nat) : M (World K A) bool :=
  let! _ := runInThread_setup index in React.loop app fuel.
End worker.

(** ** From nothing to the invariant *)

Section boot.
Context {K A : Type} `{Kernel K} `{!KernelLaws K} `{Build} {wfd : Z} `{!Rep.Epoll K wfd} `{!AppInv A}.
Implicit Types w : World K A.
Abbreviation Lk := (@Rep.linked K A _ wfd _).

(** A world under construction: no connection, timer or task yet; the channels
    in [S] are set up with these callbacks and nothing else is registered. *)
Record booting (S : list (ptr * ChannelCallback)) w : Prop := {
  bt_thread : Chan.in_loop_thread w;
  bt_conns : w_conns w = ∅;
  bt_timers : w_timers w = ∅ /\ timers_ (w_loop w) = [];
  bt_tasks : pendingTasks_ (w_loop w) = [];
  bt_next : 0 < w_next w;
  bt_chans : forall q ch, w_channels w !! q = Some ch -> q < w_next w;
  bt_reads : forall p cb, (p, cb) ∈ S -> reads p cb w;
  bt_unused : forall q, w_next w <= q -> registered q (w_trace w) = Reg None;
  bt_known : forall q, watched q (w_trace w) -> q ∈ S.*1;
  bt_linked : Lk w;
  bt_idle : Serve.idle w
}.

Lemma idle_put p ch w : handlingEvents_ ch = false -> idle w -> idle (put_channel p ch w).
Proof. intros Hc Hi q x Hq. simpl in Hq. apply lookup_insert_Some in Hq as [[_ <-]|[_ Hq]]; [done|by eapply Hi]. Qed.

(** The objects that a step of the construction does not touch. *)
Definition kept w w' : Prop :=
  w_loop w' = w_loop w /\ w_acceptors w' = w_acceptors w /\ w_singles w' = w_singles w /\ w_app w' = w_app w.

Lemma boot_sys S x (E : fault -> Prop) (Q : sysret (reply x) -> World K A -> Prop) w :
  booting S w -> match x with SysEpollCtl _ _ _ _ => False | _ => True end ->
  (forall r w', booting S w' -> kept w w' -> w_channels w' = w_channels w ->
     w_next w' = w_next w -> Rep.truthful wfd (w_trace w) x r -> Q r w') -> wp (sys x) E Q w.
Proof.
  intros [Ht Hc Htm Htk Hn Hch Hr Hun Hk Hl Hi] Hx HQ. apply Rep.wp_sys_truth; [done|].
  destruct (k_call x (w_kern w)) as [r k]. intros _ Htr w' Hl'. apply HQ; try done. split; auto.
  - intros q Hq. simpl. rewrite (proj1 (keeps_reg_snoc q (w_trace w) (Event x r) ltac:(by destruct x))). by apply Hun.
  - intros q Hq. apply Hk. eapply keeps_reg_watched; [|exact Hq]. apply keeps_reg_snoc. by destruct x.
Qed.

Lemma boot_channel S fd (E : fault -> Prop) (Q : ptr -> World K A -> Prop) w :
  booting S w ->
  (forall w', booting S w' -> kept w w' -> w_next w' = w_next w + 1 ->
     w_channels w' = <[w_next w := Chan.Channel_new fd]> (w_channels w) -> Q (w_next w) w') ->
  wp (Chan.Channel_ctor fd) E Q w.
Proof.
  intros [Ht Hc Htm Htk Hn Hch Hr Hun Hk Hl Hi] HQ. unfold Chan.Channel_ctor, alloc. wp_step. unfold wp at 1.
  wp_step. wp_step. wp_step. apply HQ; try done. split; auto; simpl; [lia|..].
  - intros q x [[<- _]|[_ Hq]]%lookup_insert_Some; [lia|]. apply Hch in Hq. lia.
  - intros p cb Hp. eapply reads_frame; [by apply Hr|]. simpl. apply lookup_insert_ne. intros <-.
    destruct (Hr _ _ Hp) as (_&x&Hx&_). apply Hch in Hx. lia.
  - intros q Hq. apply Hun. lia.
  - by apply idle_put.
Qed.

(** A new channel with a read callback, enabled for reading. *)
Definition fresh_reader (fd : Z) (cb : ChannelCallback) : Channel :=
  set_readCallback_ (Some cb) (Chan.Channel_new fd).

Lemma boot_setRead S p cb fd (E : fault -> Prop) (Q : unit -> World K A -> Prop) w :
  booting S w -> p ∉ S.*1 -> p <> nullptr -> w_channels w !! p = Some (Chan.Channel_new fd) ->
  (forall w', booting S w' -> kept w w' -> w_next w' = w_next w ->
     w_channels w' = <[p := fresh_reader fd cb]> (w_channels w) -> Q tt w') ->
  wp (Chan.setReadCallback p cb) E Q w.
Proof.
  intros [Ht Hc Htm Htk Hn Hch Hr Hun Hk Hl Hi] Hp Hp0 Hlk HQ.
  unfold Chan.setReadCallback, upd_channel, get_channel. wp_step. wp_lookup. wp_step. apply HQ; try done.
  split; auto; simpl.
  - intros q x [[<- _]|[_ Hq]]%lookup_insert_Some; by eapply Hch.
  - intros q h Hq. eapply reads_frame; [by apply Hr|]. simpl. apply lookup_insert_ne. intros <-.
    apply Hp. apply list_elem_of_fmap. by exists (p, h).
  - by apply idle_put.
Qed.

Lemma boot_enable S p cb fd (E : fault -> Prop) (Q : unit -> World K A -> Prop) w :
  booting S w -> p ∉ S.*1 -> p <> nullptr -> w_channels w !! p = Some (fresh_reader fd cb) ->
  (forall w', booting ((p, cb) :: S) w' -> kept w w' -> w_next w' = w_next w ->
     (forall q, q <> p -> w_channels w' !! q = w_channels w !! q) -> Q tt w') ->
  wp (Chan.enableRead p) E Q w.
Proof.
  intros [Ht Hc Htm Htk Hn Hch Hr Hun Hk Hl Hi] Hp Hp0 Hlk HQ.
  eapply wp_conseq with (Q := fun _ w' => booting ((p, cb) :: S) w' /\ kept w w' /\
    w_next w' = w_next w /\ forall q, q <> p -> w_channels w' !! q = w_channels w !! q).
  2: { intros [] w' (?&?&?&?). by apply HQ. }
  clear HQ Q. set (ch := set_pooling true (set_events_ (Z.lor EPOLLIN EPOLLPRI) (fresh_reader fd cb))).
  eapply wp_conseq.
  - eapply (wp_and _ E (fun _ w' => exists r e k, w' = Chan.after_ctl p ch EPOLL_CTL_ADD r e k w));
      [|exact (Rep.channel_call_linked p Chan.EnableRead w Hl)].
    apply (Chan.call_body p Chan.EnableRead w (fresh_reader fd cb)); [done|done|].
    eapply Chan.update_wp; [done|done|apply lookup_insert_eq|done|]. intros _ r e k. exists r, e, k.
    unfold Chan.after_ctl, put_channel. simpl. by rewrite insert_insert_eq.
  - intros _ w' [(r&e&k&->) Hl']. split; [|split_and!; try done].
    2: { intros q Hq. simpl. by apply lookup_insert_ne. }
    split; auto; simpl.
    + intros q x [[<- _]|[_ Hq]]%lookup_insert_Some; by eapply Hch.
    + intros q h [Heq|Hq]%elem_of_cons.
      * injection Heq as -> ->. split; [done|]. exists ch. simpl. rewrite lookup_insert_eq. by split_and!.
      * eapply reads_frame; [by apply Hr|]. simpl. apply lookup_insert_ne. intros <-.
        apply Hp. apply list_elem_of_fmap. by exists (p, h).
    + intros q Hq. pose proof (Hch _ _ Hlk). rewrite <- (Hun q Hq).
      refine (proj1 (keeps_reg_snoc q (w_trace w) _ _)). simpl. lia.
    + intros q Hq. destruct (decide (q = p)) as [->|Hne]; [left|]. right. apply Hk.
      eapply keeps_reg_watched; [|exact Hq]. by apply keeps_reg_snoc.
    + by apply idle_put.
Qed.

(** A change of the loop's fields that keeps the thread, the timers and the
    tasks. *)
Lemma boot_loop S l w : booting S w -> tid_ l = tid_ (w_loop w) -> timers_ l = timers_ (w_loop w) ->
  pendingTasks_ l = pendingTasks_ (w_loop w) -> booting S (set_w_loop l w).
Proof.
  intros [Ht Hc Htm Htk Hn Hch Hr Hun Hk Hl Hi] E1 E2 E3.
  split; auto; simpl; [unfold Chan.in_loop_thread in *; simpl; congruence|by rewrite E2|congruence].
Qed.

(** Startup failures abort. *)
Definition fatal (f : fault) : Prop := exists what, f = Fatal what.

(** The world of a new thread. *)
Record blank w : Prop := {
  bl_conns : w_conns w = ∅;
  bl_chans : w_channels w = ∅;
  bl_timers : w_timers w = ∅;
  bl_next : 0 < w_next w;
  bl_known : forall q, registered q (w_trace w) = Reg None;
  bl_linked : Lk w
}.

Lemma boot_new S w : booting S w -> w_next w ∉ S.*1 /\ w_next w <> nullptr.
Proof.
  intros Hb. split; [|pose proof (bt_next _ _ Hb); lia].
  intros ([p cb]&Heq&Hin)%list_elem_of_fmap. destruct (bt_reads _ _ Hb _ _ Hin) as (_&ch&Hch&_).
  apply (bt_chans _ _ Hb) in Hch. simpl in Heq. lia.
Qed.

Lemma TimerQueue_ctor_ok S w :
  booting S w ->
  wp Ev.TimerQueue_ctor fatal (fun _ w' =>
    booting ((w_next w, TimerQueueHandleRead) :: S) w' /\ w_next w' = w_next w + 1 /\
    fixed (w_loop w') = (wakeupfd_ (w_loop w), wakeupChannel_ (w_loop w), w_next w) /\
    w_acceptors w' = w_acceptors w /\ w_singles w' = w_singles w /\ w_app w' = w_app w /\
    forall q, q <> w_next w -> w_channels w' !! q = w_channels w !! q) w.
Proof.
  intros Hb. destruct (boot_new S w Hb) as [Hnew Hn0]. unfold Ev.TimerQueue_ctor, Ev.timerfdCreate, upd_loop.
  wp_step. wp_step. eapply boot_sys; [exact Hb|done|]. intros r w1 Hb1 R1 C1 N1 _.
  destruct r as [fd|]; [|wp_step; by eexists]. wp_step. wp_step.
  eapply boot_channel; [exact Hb1|]. rewrite N1. intros w2 Hb2 R2 N2 C2. wp_step. wp_step.
  set (w3 := set_w_loop _ w2). assert (Hb3 : booting S w3) by by apply boot_loop.
  assert (C3 : w_channels w3 = <[w_next w := Chan.Channel_new fd]> (w_channels w1)) by exact C2.
  assert (L3 : fixed (w_loop w3) = (wakeupfd_ (w_loop w2), wakeupChannel_ (w_loop w2), w_next w) /\ w_next w3 = w_next w2 /\
    w_acceptors w3 = w_acceptors w2 /\ w_singles w3 = w_singles w2 /\ w_app w3 = w_app w2) by done. clearbody w3.
  wp_step. apply Chan.wp_assertInLoopThread; [apply Hb3|]. wp_step.
  eapply boot_setRead; [exact Hb3|done|done|rewrite C3; apply lookup_insert_eq|].
  intros w4 Hb4 R4 N4 C4. eapply boot_enable; [exact Hb4|done|done|rewrite C4; apply lookup_insert_eq|].
  intros w5 Hb5 R5 N5 C5. unfold kept in *. destruct_and!.
  split_and!; [done|congruence..|]. intros q Hq. rewrite C5, C4, C3 by done.
  rewrite !lookup_insert_ne by done. by rewrite C1.
Qed.

(** A loop with its two channels. *)
Lemma EventLoop_ctor_ok this w :
  blank w ->
  wp (Ev.EventLoop_ctor this nullptr) fatal (fun _ w' =>
    booting [(w_next w, EventLoopHandleRead); (w_next w + 1, TimerQueueHandleRead)] w' /\
    fixed (w_loop w') = (wfd, w_next w, w_next w + 1) /\ wfd <> -1 /\ w_next w' = w_next w + 1 + 1 /\
    w_acceptors w' = w_acceptors w /\ w_singles w' = w_singles w /\ w_app w' = w_app w) w.
Proof.
  intros [Hc Hch Ht Hn Hk Hl]. unfold Ev.EventLoop_ctor, Ev.EPollPoller_ctor, upd_loop.
  set (n := w_next w). wp_step. wp_step. set (w1 := set_w_loop _ w).
  assert (Hb1 : booting [] w1).
  { split; try done; simpl; [by intros q x; rewrite Hch|by intros p cb ?%not_elem_of_nil|..].
    - intros q [Hq _]. by rewrite Hk in Hq.
    - intros q x. simpl. by rewrite Hch. }
  wp_step. wp_step. wp_step. set (w2 := set_w_loop _ w1).
  assert (Hb2 : booting [] w2) by by apply boot_loop. wp_step.
  eapply boot_sys; [exact Hb2|done|]. intros r w3 Hb3 R3 C3 N3 _.
  destruct r as [efd|]; [|wp_step; by eexists]. wp_step. set (w4 := set_w_loop _ w3).
  assert (Hb4 : booting [] w4) by by apply boot_loop.
  wp_step. eapply boot_sys; [exact Hb4|done|]. intros r w5 Hb5 R5 C5 N5 Htr. simpl in Htr.
  set (fd := match r with SysOk fd => fd | SysErr _ => -1 end).
  assert (Hfd : fd = -1 \/ fd = wfd) by (destruct r; auto). clearbody fd. clear r Htr.
  wp_step. eapply boot_channel; [exact Hb5|]. intros w6 Hb6 R6 N6 C6.
  assert (En : w_next w5 = n) by (rewrite N5; simpl; rewrite N3; done). rewrite En in *. clear En.
  wp_step. wp_step. set (w7 := set_w_loop _ w6).
  assert (Hb7 : booting [] w7) by by apply boot_loop.
  assert (C7 : w_channels w7 = <[n := Chan.Channel_new fd]> (w_channels w5)) by exact C6.
  assert (L7 : (wakeupfd_ (w_loop w7) = fd /\ wakeupChannel_ (w_loop w7) = n) /\ w_next w7 = n + 1 /\ w_acceptors w7 = w_acceptors w /\
    w_singles w7 = w_singles w /\ w_app w7 = w_app w).
  { destruct R6 as (_&R6a&R6s&R6p), R5 as (_&R5a&R5s&R5p), R3 as (_&R3a&R3s&R3p).
    split_and!; [done|done|..]; simpl in *; congruence. }
  clearbody w7. destruct L7 as ([L7 L7']&N7&A7&S7&P7).
  wp_step. eapply wp_conseq; [by apply TimerQueue_ctor_ok|]. rewrite N7.
  intros _ w8 (Hb8&N8&L8&A8&S8&P8&C8). wp_step. wp_step; [wp_step; by eexists|]. zbool.
  assert (C8n : w_channels w8 !! n = Some (Chan.Channel_new fd)).
  { rewrite C8 by lia. rewrite C7. apply lookup_insert_eq. }
  assert (Hnew : n ∉ [(n + 1, TimerQueueHandleRead)].*1) by (simpl; rewrite list_elem_of_singleton; lia).
  assert (Hn0 : n <> nullptr) by (unfold n; lia).
  wp_step. eapply boot_setRead; [exact Hb8|exact Hnew|done|exact C8n|].
  intros w9 Hb9 R9 N9 C9. wp_step.
  eapply boot_enable; [exact Hb9|exact Hnew|done|rewrite C9; apply lookup_insert_eq|].
  intros w10 Hb10 R10 N10 C10. wp_step. apply wp_assert_true; [done|]. wp_step.
  unfold kept in *. destruct_and!. destruct Hfd as [?|Hfd]; [done|]. split_and!; [done|congruence..].
Qed.

(** A change of other objects. *)
Lemma boot_same S w w' : booting S w -> w_conns w' = w_conns w -> w_channels w' = w_channels w ->
  w_timers w' = w_timers w -> w_loop w' = w_loop w -> w_cur w' = w_cur w -> w_trace w' = w_trace w ->
  w_kern w' = w_kern w -> w_next w <= w_next w' -> booting S w'.
Proof.
  intros [Ht Hc Htm Htk Hn Hch Hr Hun Hk Hl Hi] E1 E2 E3 E4 E5 E6 E7 E8.
  split; rewrite ?E1, ?E2, ?E3, ?E4, ?E5, ?E6; auto; try lia.
  - unfold Chan.in_loop_thread in *. congruence.
  - intros q ch Hq. apply Hch in Hq. lia.
  - intros p cb Hp. eapply reads_frame; [by apply Hr|congruence].
  - intros q Hq. apply Hun. lia.
  - unfold Rep.linked in *. by rewrite E6, E7.
  - intros q x. rewrite E2. apply Hi.
Qed.

(** What a started server has besides the channels. *)
Definition has_server (a s : ptr) (ac : Acceptor) (sv : TcpServerSingle) w : Prop :=
  w_acceptors w !! a = Some ac /\ w_singles w !! s = Some sv.

Lemma kept_server a s ac sv w w' : kept w w' -> has_server a s ac sv w -> has_server a s ac sv w'.
Proof. intros (_&E1&E2&_). unfold has_server. by rewrite E1, E2. Qed.

(** A system call whose failure aborts. *)
Lemma boot_or_fatal {T} S x what (k : M (World K A) T) (Q : T -> World K A -> Prop) w :
  booting S w -> match x with SysEpollCtl _ _ _ _ => False | _ => True end ->
  (forall w', booting S w' -> kept w w' -> w_channels w' = w_channels w -> w_next w' = w_next w -> wp k fatal Q w') ->
  wp (let! r := sys x in match r with SysErr _ => throw (Fatal what) | SysOk _ => ret tt end ;;; k) fatal Q w.
Proof.
  intros Hb Hne HQ. wp_step. eapply boot_sys; [exact Hb|exact Hne|]. intros r w' Hb' Hk Hc Hn _. wp_step.
  destruct r; [wp_step; by apply HQ|]. wp_step. by eexists.
Qed.

Lemma make_single_ok S t w :
  booting S w ->
  wp (make_single t) fatal (fun s w' => exists fd,
    s = w_next w + 1 + 1 /\ booting S w' /\ w_loop w' = w_loop w /\ w_next w' = w_next w + 1 + 1 + 1 /\
    w_channels w' !! w_next w = Some (Chan.Channel_new fd) /\
    has_server (w_next w + 1) s (mkAcceptor false fd (w_next w) (ts_local_ t) (Some (ServerNewConnection s)))
      (mkSingle (w_next w + 1) ∅ (Some (ts_connectionCallback_ t)) (Some (ts_messageCallback_ t))
        (ts_writeCompleteCallback_ t)) w') w.
Proof.
  intros Hb. set (n := w_next w). pose proof (bt_next _ _ Hb) as Hn. fold n in Hn.
  assert (Hn1 : n + 1 <> nullptr) by lia. assert (Hn2 : n + 1 + 1 <> nullptr) by lia.
  unfold make_single, Ends.TcpServerSingle_ctor, Ends.Acceptor_ctor, Ends.createSocket, Ends.or_fatal.
  wp_step. wp_step. wp_step. wp_step. eapply boot_sys; [exact Hb|done|]. intros r w1 Hb1 K1 C1 N1 _.
  destruct r as [fd|]; [|wp_step; by eexists]. wp_step. wp_step.
  eapply boot_channel; [exact Hb1|]. rewrite N1. fold n. intros w2 Hb2 K2 N2 C2.
  wp_step. unfold alloc at 1. unfold wp at 1. rewrite N2. wp_step. wp_step.
  set (w3 := put_acceptor _ _ _). assert (Hb3 : booting S w3) by (eapply boot_same; [exact Hb2|try done..]; simpl; lia).
  assert (A3 : w_acceptors w3 !! (n + 1) = Some (mkAcceptor false fd n (ts_local_ t) None)) by apply lookup_insert_eq.
  assert (C3 : w_channels w3 !! n = Some (Chan.Channel_new fd)) by (simpl; rewrite C2; apply lookup_insert_eq).
  assert (L3 : w_loop w3 = w_loop w) by (destruct K1 as (?&_), K2 as (?&_); simpl; congruence).
  assert (N3 : w_next w3 = n + 1 + 1) by (simpl; lia).
  clearbody w3.
  apply boot_or_fatal with S; [exact Hb3|done|]. intros w4 Hb4 K4 C4 N4.
  apply boot_or_fatal with S; [exact Hb4|done|]. intros w5 Hb5 K5 C5 N5.
  apply boot_or_fatal with S; [exact Hb5|done|]. intros w6 Hb6 K6 C6 N6.
  wp_step. wp_step. unfold alloc at 1. unfold wp at 1.
  assert (E6 : w_next w6 = n + 1 + 1 /\ w_channels w6 !! n = Some (Chan.Channel_new fd) /\
    w_acceptors w6 !! (n + 1) = Some (mkAcceptor false fd n (ts_local_ t) None) /\ w_loop w6 = w_loop w).
  { destruct K4 as (?&?&_), K5 as (?&?&_), K6 as (?&?&_). split_and!; try congruence. }
  destruct E6 as (E6&C6'&A6&L6). rewrite E6. wp_step. wp_step.
  unfold Ends.Acceptor_setNewConnectionCallback, upd_acceptor, get_acceptor.
  wp_step. wp_step. wp_lookup. wp_step. wp_step.
  unfold Ends.Single_setConnectionCallback, Ends.Single_setMessageCallback,
    Ends.Single_setWriteCompleteCallback, upd_single, get_single.
  do 3 (wp_step; wp_step; wp_lookup; wp_step). wp_step. exists fd. split_and!; try done.
  - eapply boot_same; [exact Hb6|try done..]. simpl. lia.
  - split; simpl; apply lookup_insert_eq.
Qed.

Lemma start_ok S a s ac sv fd w :
  booting S w -> has_server a s ac sv w -> acceptor_ sv = a -> a <> nullptr -> s <> nullptr ->
  acceptChannel_ ac ∉ S.*1 -> acceptChannel_ ac <> nullptr ->
  w_channels w !! acceptChannel_ ac = Some (Chan.Channel_new fd) ->
  wp (Ends.Single_start s) fatal (fun _ w' => booting ((acceptChannel_ ac, AcceptorHandleRead a) :: S) w' /\
    has_server a s ac sv w' /\ w_loop w' = w_loop w /\ w_next w' = w_next w /\ w_app w' = w_app w) w.
Proof.
  intros Hb [Ha Hs] Hsa Ha0 Hs0 Hnew Hp0 Hch.
  unfold Ends.Single_start, Ends.listen, get_single, get_acceptor, Ends.or_fatal.
  wp_step. wp_lookup. rewrite Hsa. wp_step. apply Chan.wp_assertInLoopThread; [apply Hb|]. wp_step. wp_lookup.
  apply boot_or_fatal with S; [exact Hb|done|]. intros w1 Hb1 K1 C1 N1. wp_step. rewrite <- C1 in Hch.
  eapply boot_setRead; [exact Hb1|exact Hnew|done|exact Hch|]. intros w2 Hb2 K2 N2 C2.
  eapply boot_enable; [exact Hb2|exact Hnew|done|rewrite C2; apply lookup_insert_eq|].
  intros w3 Hb3 K3 N3 _. split; [done|]. split.
  - by eapply kept_server, kept_server, kept_server.
  - destruct K1 as (?&_&_&?), K2 as (?&_&_&?), K3 as (?&_&_&?). split_and!; congruence.
Qed.

(** The objects of a thread, by the order in which they are made. *)
Definition thread_site (n : ptr) : Site := mkSite (OServer (n + 1 + 1 + 1 + 1) (n + 1 + 1 + 1) (n + 1 + 1)) n (n + 1) wfd.

(** A complete construction satisfies the invariant of the server. *)
Lemma booted_ok n ac sv w :
  booting [(n + 1 + 1, AcceptorHandleRead (n + 1 + 1 + 1)); (n, EventLoopHandleRead);
           (n + 1, TimerQueueHandleRead)] w ->
  has_server (n + 1 + 1 + 1) (n + 1 + 1 + 1 + 1) ac sv w -> 0 < n -> wfd <> -1 ->
  fixed (w_loop w) = (wfd, n, n + 1) -> n + 1 + 1 + 1 + 1 < w_next w ->
  a_newConnectionCallback_ ac = Some (ServerNewConnection (n + 1 + 1 + 1 + 1)) ->
  acceptChannel_ ac = n + 1 + 1 -> acceptor_ sv = n + 1 + 1 + 1 ->
  connections_ sv = ∅ -> s_connectionCallback_ sv <> None -> s_messageCallback_ sv <> None ->
  app_inv (w_app w) (fun _ => False) ->
  Srv.server_ok (site := thread_site n) w.
Proof.
  intros [Ht Hc [Htm Hts] Htk Hn Hch Hr Hun Hk Hl Hi] [Ha Hs] Hn0 Hfd Hw Hnx Hcb Hac Has Hcs Hcc Hmc Hai.
  assert (Hno : forall c cn, w_conns w !! c = Some cn -> False) by (intros c cn; rewrite Hc; done).
  assert (Hfi : TRun.firing [] w).
  { split; [split|by intros d p ?%not_elem_of_nil|intros p t; by rewrite Htm]; try done.
    - rewrite Hts. constructor.
    - rewrite Hts. by intros d p ?%not_elem_of_nil.
    - intros p t. by rewrite Htm.
    - by intros p ?%not_elem_of_nil. }
  split; [split|exact Hfi].
  - split; try done; try (by intros c cn ?%Hno); try (by intros c1 c2 cn1 cn2 ?%Hno).
    + split; [apply Hr; by left|]. split; [lia|]. by exists ac.
    + apply Hr. right. by left.
    + apply Hr. right. right. by left.
    + split; [done|]. split; [intros p [-> | [-> | ->]]; simpl; lia|by intros c cn ?%Hno].
    + intros q Hq. left. apply Hk in Hq. simpl in Hq. unfold special; simpl. set_solver.
    + rewrite Htk. constructor.
    + eapply app_inv_mono; [exact Hai|done].
  - split; [simpl; lia|]. exists sv. split_and!; try done. intros c. rewrite Hcs. split; [set_solver|].
    intros (cn&?%Hno&_). done.
Qed.

#[export] Instance thread_is_server n : IsServer (thread_site n).
Proof. done. Qed.

(** threadInitCallback_ may change the state of the application only, and sets
    up its invariant. *)
Definition only_app (m : M (World K A) unit) : Prop := forall w, exists a,
  m w = Ok tt (set_w_app a w) /\ app_inv a (fun _ => False).

Lemma setup_ok this t i w :
  blank w -> only_app (ts_threadInitCallback_ t i) ->
  wp (runInThread_setup this t i) fatal
    (fun s w' => Srv.server_ok (site := thread_site (w_next w)) w' /\ idle w' /\ w_conns w' = ∅ /\
       s = st_server (thread_site (w_next w))) w.
Proof.
  intros Hbl Hinit. set (n := w_next w). pose proof (bl_next _ Hbl) as Hn. fold n in Hn.
  unfold runInThread_setup, start_single. wp_step. eapply wp_conseq; [by apply EventLoop_ctor_ok|].
  fold n. intros _ w1 (Hb1&L1&Hfd&N1&_). wp_step. eapply wp_conseq; [by apply make_single_ok|].
  intros s w2 (fd&->&Hb2&L2&N2&C2&Hs2). rewrite N1 in *. wp_step.
  destruct (Hinit w2) as (x&Hx&Hai). unfold wp at 1. rewrite Hx. set (w3 := set_w_app x w2).
  assert (Hb3 : booting [(n, EventLoopHandleRead); (n + 1, TimerQueueHandleRead)] w3).
  { eapply boot_same; [exact Hb2|done..]. }
  wp_step. eapply wp_conseq.
  - eapply start_ok; [exact Hb3|exact Hs2|done| | | | |exact C2]; simpl; try lia.
    rewrite not_elem_of_cons, list_elem_of_singleton. lia.
  - intros _ w4 (Hb4&Hs4&L4&N4&A4). wp_step.
    split_and!; [|apply Hb4|apply Hb4|done].
    eapply booted_ok; [exact Hb4|exact Hs4|done|done| | |done..|by rewrite A4].
    + rewrite L4. simpl. rewrite L2. exact L1.
    + rewrite N4. simpl. rewrite N2. lia.
Qed.
End boot.

(** ** Properties of a thread *)

Section properties.
Context {K A : Type} `{Kernel K} `{!KernelLaws K} `{Build} {wfd : Z} `{!Rep.Epoll K wfd} `{!AppInv A}.
Implicit Types w : World K A.

Lemma thread_ok this t i (app : React.App K A) (E : fault -> Prop) fuel w :
  blank (wfd := wfd) w -> only_app (ts_threadInitCallback_ t i) -> contract (site := thread_site (wfd := wfd) (w_next w)) app E ->
  E LengthError -> E (Fatal "unexpected accept4() error") ->
  match runInThread this t i app fuel w with
  | Ok b w' => Srv.server_ok (site := thread_site (wfd := wfd) (w_next w)) w' /\ b = quit_ (w_loop w')
  | Err f => fatal f \/ E f
  end.
Proof.
  intros Hbl Hinit Happ Hlen Hacc.
  change (wp (runInThread this t i app fuel) (fun f => fatal f \/ E f) (fun b w' =>
    Srv.server_ok (site := thread_site (wfd := wfd) (w_next w)) w' /\ b = quit_ (w_loop w')) w).
  unfold runInThread. wp_step. eapply wp_mono; [by apply setup_ok|by left|]. intros s w1 (Hok1&_).
  eapply wp_mono; [by apply (react_ok (site := thread_site (wfd := wfd) (w_next w)) app E)|by right|done].
Qed.

(** A thread of a TcpServer is safe from its first instruction. Whatever
    the kernel answers, runInThread either aborts while it starts up because a
    system call failed, or runs its loop, which returns only when it was asked
    to quit, in a world that satisfies the server's invariant, or stops with a
    fault its callbacks, the length of a vector or accept4 account for. *)
Theorem runInThread_safe this t i (app : React.App K A) (E : fault -> Prop) fuel w :
  blank (wfd := wfd) w -> only_app (ts_threadInitCallback_ t i) -> contract (site := thread_site (wfd := wfd) (w_next w)) app E ->
  E LengthError -> E (Fatal "unexpected accept4() error") ->
  match runInThread this t i app fuel w with
  | Ok b w' => Srv.server_ok (site := thread_site (wfd := wfd) (w_next w)) w' /\ b = quit_ (w_loop w')
  | Err f => fatal f \/ E f
  end.
Proof. exact (thread_ok this t i app E fuel w). Qed.
End properties.

(** ** Example: a server that sends back what it receives *)

#[local] Instance debug : Build := {| ndebug := false |}.
#[export] Instance no_state : AppInv unit := {| app_inv := fun _ _ => True; app_inv_mono := fun _ _ _ _ _ => I |}.

Definition mirror : React.App Os unit := React.mkApp
  (fun _ _ => ret tt) (fun _ c => Conn.send_buffer c (Conn.input_of c)) (fun _ _ => ret tt)
  (fun _ _ _ => ret tt) (fun _ => ret tt) (fun _ => ret tt) (fun _ => ret tt) null_sockaddr.

Definition mirror_server : TcpServer Os unit := setMessageCallback (UserMessage 1) (TcpServer_ctor null_sockaddr).

(** The world of a new thread, and what the kernel will answer. *)
Definition new_thread {A} (a : A) (replies : list raw) (clock : list Z) : World Os A :=
  mkWorld (mkOs [] (mkScript replies clock)) [] 0 1 (mkLoop 0 false false 0 [] 0 0 [] 0 0 [] 0)
    ∅ ∅ ∅ ∅ ∅ ∅ ∅ 1 a.

(** epoll, eventfd, timerfd, the listening socket 6 on channel 3. *)
Definition startup : list raw := [RNum 3; RNum os_wfd; RNum 4; RNum 6; RNum 0; RNum 0; RNum 0; RNum 0].
(** A connection on descriptor 30, which becomes object 7 with channel 6. *)
Definition accepted : list raw := [REvents [(EPOLLIN, 3)]; RAccept 30 null_sockaddr].
Definition hi : list byte := [x68; x69].

(** Startup, a connection, a message, and the end of the stream. *)
Definition mirror_script : list raw := startup ++ accepted ++
  [REvents [(EPOLLIN, 6)]; RBytes hi; RNum 2; REvents [(EPOLLIN, 6)]; RBytes []].

Definition mirror_thread (replies : list raw) (n : nat) : outcome (World Os unit) bool :=
  runInThread 1 mirror_server 1 mirror n
    (new_thread tt replies []).
(** Two iterations: accept, and one message. *)
Definition mirror_run := mirror_thread (mirror_script) 2.
Lemma mirror_run_eq : mirror_run =
  runInThread 1 mirror_server 1 mirror 2
    (new_thread tt (mirror_script) []).
Proof. reflexivity. Qed.
Definition mirror_world : World Os unit :=
  match mirror_run with Ok _ w => w | Err _ => new_thread tt [] [] end.
Definition mirror_site : Site := thread_site (wfd := os_wfd) 1.
#[export] Instance mirror_is_server : IsServer mirror_site := thread_is_server 1.

Lemma mirror_contract (site : Site) `{!Rep.Epoll Os (st_wfd site)} :
  contract (site := site) mirror (fun f => f = LengthError \/ f = Fatal "unexpected accept4() error").
Proof.
  assert (Hret : forall E (w : World Os unit), server_ok (site := site) w ->
    wp (ret tt) E (fun _ => step_ok (site := site) w) w) by (intros; apply wp_ret, step_refl; done).
  split; simpl; auto. intros k c w Hok (cn&Hc&_).
  eapply wp_mono; [by eapply send_buffer_keeps|by intros f <-; left|done].
Qed.

Lemma new_thread_blank {A} (a : A) replies clock : blank (wfd := os_wfd) (new_thread a replies clock).
Proof. by split. Qed.

Lemma mirror_init : only_app (ret tt : M (World Os unit) unit).
Proof. intros w. exists (w_app w). by destruct w. Qed.

(** The message comes back, on the descriptor it came from. *)
Lemma runInThread_safe_witness :
  match mirror_run with
  | Ok b w' => Srv.server_ok (site := mirror_site) w' /\ b = false /\ wire 30 (w_trace w') = hi
  | Err _ => False
  end.
Proof.
  assert (Hv : match mirror_run with Ok b w' => b = false /\ wire 30 (w_trace w') = hi | Err _ => False end)
    by (vm_compute; split; reflexivity).
  pose proof (runInThread_safe 1 mirror_server 1 mirror _ 2
    (new_thread tt (mirror_script) [])
    (new_thread_blank _ _ _) mirror_init (mirror_contract mirror_site)
    (or_introl eq_refl) (or_intror eq_refl)) as Hs.
  rewrite <- mirror_run_eq in Hs.
  destruct mirror_run as [b w'|f]; [|done]. split; [apply Hs|exact Hv].
Defined.

Lemma mirror_world_ok : Srv.server_ok (site := mirror_site) mirror_world.
Proof.
  pose proof (thread_ok 1 mirror_server 1 mirror _ 2
    (new_thread tt (mirror_script) [])
    (new_thread_blank _ _ _) mirror_init (mirror_contract mirror_site)
    (or_introl eq_refl) (or_intror eq_refl)) as Hs.
  rewrite <- mirror_run_eq in Hs.
  assert (Hv : match mirror_run with Ok _ _ => True | Err _ => False end) by (vm_compute; done).
  unfold mirror_world. destruct mirror_run as [b w'|f]; [apply Hs|done].
Qed.

(** The peer hangs up: the server forgets the connection. *)
Lemma server_loop_safe_witness :
  match React.loop mirror 3 mirror_world with
  | Ok b w' => Srv.server_ok (site := mirror_site) w' /\ b = quit_ (w_loop w') /\
      option_map connections_ (w_singles w' !! 5) = Some ∅
  | Err f => False
  end.
Proof.
  assert (Hv : match React.loop mirror 3 mirror_world with
    | Ok b w' => option_map connections_ (w_singles w' !! 5) = Some ∅ | Err _ => False end)
    by (vm_compute; reflexivity).
  pose proof (server_loop_safe mirror _ 3 mirror_world (mirror_contract mirror_site)
    (or_introl eq_refl) (or_intror eq_refl) mirror_world_ok) as Hs.
  destruct (React.loop mirror 3 mirror_world) as [b w'|f]; [|done].
  destruct Hs. split; [done|]. by split.
Defined.

Lemma mirror_conn : exists cn, w_conns mirror_world !! 7 = Some cn /\ state_ cn = kConnected.
Proof.
  assert (Ho : forall o : option TcpConnection,
    match o with Some cn => state_ cn = kConnected | None => False end ->
    exists cn, o = Some cn /\ state_ cn = kConnected) by (intros [cn|] ?; [by exists cn|done]).
  refine (Ho (w_conns mirror_world !! 7) _). vm_compute. reflexivity.
Qed.

End Tcp.
