(* ===== verification/TcpThreads.v ===== *)
(** The threads of a TcpServer (src/TcpServer.hpp, src/TcpServer.cc): the
    configuration before start, the handshake in which startInLoop waits for
    each thread to publish its loop in eventLoops_, and the destructor, which
    quits the loops it finds there and joins the threads.  What a thread does
    between these points is runInThread of TcpServer.v; of its loop only quit_
    is kept here (src/EventLoop.cc: loop resets it, then runs until it is set). *)

From S2P Require Import Prelude.

Module TcpT.

(** ** Configuration *)

(** eventLoops_ is a vector of null pointers until start; [loops_size] is its
    size. *)
Record config := mkConfig {
  numThreads_ : nat;
  loops_size : nat;
  started_ : bool
}.
Definition TcpServer_ctor : config := mkConfig 1 0 false.
Definition setNumThread (n : nat) (c : config) : config :=
  if (0 <? n)%nat then mkConfig n n (started_ c) else c.
(** start: whether startInLoop is run. *)
Definition start (c : config) : config * bool :=
  (mkConfig (numThreads_ c) (loops_size c) true, negb (started_ c)).

Inductive configured : config -> Prop :=
  | configured_new : configured TcpServer_ctor
  | configured_set n c : configured c -> configured (setNumThread n c).

(** ** The threads *)

(** runInThread: not created; constructing loop and server; loop published;
    in loop(); loop() returned; ended. *)
Inductive worker := WNone | WBuild | WPublished | WLooping | WLeft | WDone.
#[export] Instance worker_eq_dec : EqDecision worker.
Proof. solve_decision. Defined.

(** An index of eventLoops_: the thread, whether the pointer is set, and
    quit_ of the loop. *)
Record slot := mkSlot { thread_ : worker; loop_ : bool; quit_ : bool }.

(** The thread of startInLoop and of the destructor: before the creation of
    thread [i]; with the mutex, about to look at eventLoops_[i]; waiting on the
    condition; started; in the destructor at loop [i] or joining thread [i]. *)
Inductive base := BSpawn (i : nat) | BCheck (i : nat) | BAsleep (i : nat) | BReady
  | BQuit (i : nat) | BJoin (i : nat) | BDone.

Record state := mkState { base_ : base; slots : list slot }.
Definition init (c : config) : state := mkState (BSpawn 1) (replicate (loops_size c) (mkSlot WNone false false)).

(** cond_.notify_one(): only startInLoop waits. *)
Definition notify (b : base) : base := match b with BAsleep i => BCheck i | _ => b end.

Section steps.
Variable n : nat.      (* numThreads_ *)

Inductive act : state -> state -> Prop :=
  (* startInLoop *)
  | spawn i l : (i < n)%nat -> l !! i = Some (mkSlot WNone false false) ->
      act (mkState (BSpawn i) l) (mkState (BCheck i) (<[i := mkSlot WBuild false false]> l))
  | spawned l i : (n <= i)%nat -> act (mkState (BSpawn i) l) (mkState BReady l)
  | check i l sl : l !! i = Some sl ->
      act (mkState (BCheck i) l) (mkState (if loop_ sl then BSpawn (S i) else BAsleep i) l)
  (* runInThread *)
  | publish b i l q : l !! i = Some (mkSlot WBuild false q) ->
      act (mkState b l) (mkState (notify b) (<[i := mkSlot WPublished true q]> l))
  | enter_loop b i l p q : l !! i = Some (mkSlot WPublished p q) ->
      act (mkState b l) (mkState b (<[i := mkSlot WLooping p false]> l))
  | leave_loop b i l p : l !! i = Some (mkSlot WLooping p true) ->
      act (mkState b l) (mkState b (<[i := mkSlot WLeft p true]> l))
  | clear_loop b i l p q : l !! i = Some (mkSlot WLeft p q) ->
      act (mkState b l) (mkState b (<[i := mkSlot WDone false q]> l))
  (* the destructor *)
  | destroy l : act (mkState BReady l) (mkState (BQuit 0) l)
  | quit_one i l sl : l !! i = Some sl ->
      act (mkState (BQuit i) l)
        (mkState (BQuit (S i)) (if loop_ sl then <[i := mkSlot (thread_ sl) true true]> l else l))
  | quit_all i l : (length l <= i)%nat -> act (mkState (BQuit i) l) (mkState (BJoin 1) l)
  | join i l p q : (i < n)%nat -> l !! i = Some (mkSlot WDone p q) -> act (mkState (BJoin i) l) (mkState (BJoin (S i)) l)
  | joined i l : (n <= i)%nat -> act (mkState (BJoin i) l) (mkState BDone l).

(** Besides, a wait may return without a notification. *)
Definition step (s s' : state) : Prop :=
  act s s' \/ exists i l, s = mkState (BAsleep i) l /\ s' = mkState (BCheck i) l.
Definition reachable (c : config) : state -> Prop := rtc step (init c).
End steps.

(** ** Invariant *)

Definition published (t : worker) : bool :=
  match t with WPublished | WLooping | WLeft => true | _ => false end.

(** The threads created so far. *)
Definition created (n : nat) (b : base) : nat :=
  match b with BSpawn i => i | BCheck i | BAsleep i => S i | _ => n end.
(** Those whose publication was seen. *)
Definition seen (n : nat) (b : base) : nat :=
  match b with BSpawn i | BCheck i | BAsleep i => i | _ => n end.
Definition starting (b : base) : bool :=
  match b with BSpawn _ | BCheck _ | BAsleep _ => true | _ => false end.

Record inv (n : nat) (s : state) : Prop := {
  inv_size : (n <= length (slots s))%nat \/ n = 1%nat;
  inv_base : (created n (base_ s) <= n)%nat /\ (1 <= seen n (base_ s))%nat;
  inv_loop : forall i sl, slots s !! i = Some sl -> loop_ sl = published (thread_ sl);
  inv_new : forall i sl, slots s !! i = Some sl -> i = 0%nat \/ (created n (base_ s) <= i)%nat ->
    sl = mkSlot WNone false false;
  inv_made : forall i sl, slots s !! i = Some sl -> (1 <= i < created n (base_ s))%nat -> thread_ sl <> WNone;
  inv_seen : forall i sl, slots s !! i = Some sl -> (1 <= i < seen n (base_ s))%nat -> thread_ sl <> WBuild;
  inv_asleep : forall i sl, base_ s = BAsleep i -> slots s !! i = Some sl -> thread_ sl = WBuild;
  inv_running : starting (base_ s) = true \/ base_ s = BReady -> forall i sl, slots s !! i = Some sl ->
    quit_ sl = false /\ thread_ sl <> WLeft /\ thread_ sl <> WDone;
  inv_join : forall i, base_ s = BJoin i -> (1 <= i)%nat
}.

(** One slot changes: what the fields of [inv] ask of the new one. *)
Lemma inv_put n b b' i sl sl' l :
  inv n (mkState b l) -> l !! i = Some sl -> created n b' = created n b -> (forall j, b' = BJoin j -> b = BJoin j) -> seen n b' = seen n b ->
  (starting b' = true -> starting b = true) -> (b' = BReady -> b = BReady) ->
  (forall j, b' = BAsleep j -> b = BAsleep j /\ (i = j -> thread_ sl' = WBuild)) ->
  thread_ sl <> WNone -> thread_ sl' <> WNone ->
  loop_ sl' = published (thread_ sl') -> (thread_ sl' = WBuild -> thread_ sl = WBuild) ->
  (starting b = true \/ b = BReady -> quit_ sl' = false /\ thread_ sl' <> WLeft /\ thread_ sl' <> WDone) ->
  inv n (mkState b' (<[i := sl']> l)).
Proof.
  intros [Hsz Hb Hl Hn Hm Hs Ha Hr Hj0] Hi E1 EJ E2 E3 E4 E5 N1 N2 L1 L2 R1.
  assert (Hc : forall j x, <[i := sl']> l !! j = Some x -> (i = j /\ x = sl') \/ l !! j = Some x).
  { intros j x [(->&->&_)|[_ ?]]%list_lookup_insert_Some; auto. }
  assert (Hi0 : ~ (i = 0%nat \/ (created n b <= i)%nat)).
  { intros Hx. apply N1. by rewrite (Hn _ _ Hi Hx). }
  split; simpl in *; rewrite ?E1, ?E2, ?length_insert; auto.
  - intros j x [[<- ->]|Hj]%Hc; eauto.
  - intros j x [[<- ->]|Hj]%Hc Hx; [done|eauto].
  - intros j x [[<- ->]|Hj]%Hc Hx; [done|eauto].
  - intros j x [[<- ->]|Hj]%Hc Hx; [|eauto]. intros Hx'%L2. by apply (Hs i sl Hi).
  - intros j x Hj [[<- ->]|Hx]%Hc; destruct (E5 _ Hj) as [Hj' Hw]; [by apply Hw|by eapply Ha].
  - intros Hst j x [[<- ->]|Hj]%Hc; [apply R1|apply (Hr ltac:(destruct Hst; auto) j x Hj)]; destruct Hst; auto.
Qed.

Lemma notify_facts n b : created n (notify b) = created n b /\ seen n (notify b) = seen n b /\
  (starting (notify b) = true -> starting b = true) /\ (notify b = BReady -> b = BReady) /\
  (forall j, notify b <> BAsleep j) /\ forall j, notify b = BJoin j -> b = BJoin j.
Proof. destruct b; simpl; by split_and!. Qed.

(** startInLoop: a thread is created, and its publication is waited for. *)
Lemma spawn_inv n i l : (i < n)%nat -> l !! i = Some (mkSlot WNone false false) ->
  inv n (mkState (BSpawn i) l) -> inv n (mkState (BCheck i) (<[i := mkSlot WBuild false false]> l)).
Proof.
  intros Hi Hl Hinv.
  destruct Hinv as [Hsz Hb Hlo Hn Hm Hs Ha Hr Hj0]. simpl in *.
  assert (Hc : forall j x, <[i := mkSlot WBuild false false]> l !! j = Some x ->
    (i = j /\ x = mkSlot WBuild false false) \/ (i <> j /\ l !! j = Some x)).
  { intros j x [(->&->&_)|[? ?]]%list_lookup_insert_Some; auto. }
  split; simpl; rewrite ?length_insert; auto; try lia; try done.
  - intros j x [[<- ->]|[_ Hj]]%Hc; [done|eauto].
  - intros j x [[<- ->]|[_ Hj]]%Hc Hx; [lia|]. apply (Hn j x Hj). lia.
  - intros j x [[<- ->]|[Hne Hj]]%Hc Hx; [done|]. apply (Hm j x Hj). lia.
  - intros j x [[<- ->]|[_ Hj]]%Hc Hx; [lia|eauto].
  - intros _ j x [[<- ->]|[_ Hj]]%Hc; [done|]. by apply (Hr (or_introl eq_refl) j x).
Qed.

Lemma check_inv n i l sl : l !! i = Some sl ->
  inv n (mkState (BCheck i) l) -> inv n (mkState (if loop_ sl then BSpawn (S i) else BAsleep i) l).
Proof.
  intros Hl Hinv.
  destruct Hinv as [Hsz Hb Hlo Hn Hm Hs Ha Hr Hj0]. simpl in *.
  destruct (Hr (or_introl eq_refl) i sl Hl) as (_&Hlf&Hdn).
  pose proof (Hm i sl Hl ltac:(lia)) as Hnone. pose proof (Hlo i sl Hl) as Hpub.
  assert (Hr' : forall j x, l !! j = Some x -> quit_ x = false /\ thread_ x <> WLeft /\ thread_ x <> WDone)
    by (apply Hr; by left).
  destruct (loop_ sl); split; simpl; try done; try lia; try (intros _; exact Hr').
  - intros j x Hj Hx. destruct (decide (j = i)) as [->|Hne]; [|apply (Hs j x Hj); lia].
    assert (x = sl) as -> by congruence. intros Hw. rewrite Hw in Hpub. done.
  - intros j x [= <-] Hj. assert (x = sl) as -> by congruence. by destruct (thread_ sl).
Qed.

(** The steps of a thread. *)
Lemma publish_inv n b i l q : l !! i = Some (mkSlot WBuild false q) ->
  inv n (mkState b l) -> inv n (mkState (notify b) (<[i := mkSlot WPublished true q]> l)).
Proof.
  intros Hl Hinv.
  destruct (notify_facts n b) as (E1&E2&E3&E4&E5&E6).
  eapply inv_put; [exact Hinv|exact Hl|done|done|done|done|done| |done..|].
  - intros j Hj. exfalso. exact (E5 j Hj).
  - intros Hst. destruct (inv_running _ _ Hinv Hst _ _ Hl) as [? _]. by split_and!.
Qed.

(** A thread that has published its loop goes on: the base does not sleep on it. *)
Lemma advance_inv n b i l sl sl' : l !! i = Some sl -> published (thread_ sl) = true ->
  thread_ sl' <> WNone -> thread_ sl' <> WBuild -> loop_ sl' = published (thread_ sl') ->
  (starting b = true \/ b = BReady -> quit_ sl' = false /\ thread_ sl' <> WLeft /\ thread_ sl' <> WDone) ->
  inv n (mkState b l) -> inv n (mkState b (<[i := sl']> l)).
Proof.
  intros Hl Hp N1 N2 L1 R1 Hinv.
  eapply inv_put; [exact Hinv|exact Hl|done..| | |done|done|done|done].
  - intros j ->. split; [done|]. intros <-. by rewrite (inv_asleep _ _ Hinv _ _ eq_refl Hl) in Hp.
  - intros Hn. by rewrite Hn in Hp.
Qed.

(** The destructor. *)
Lemma quit_one_inv n i l sl : l !! i = Some sl -> inv n (mkState (BQuit i) l) ->
  inv n (mkState (BQuit (S i)) (if loop_ sl then <[i := mkSlot (thread_ sl) true true]> l else l)).
Proof.
  intros Hl Hinv.
  destruct Hinv as [Hsz Hb Hlo Hn Hm Hs Ha Hr Hj0]. simpl in *. pose proof (Hlo i sl Hl) as Hpub.
  destruct (loop_ sl); [|split; simpl; auto; try done; by intros []].
  assert (Hc : forall j x, <[i := mkSlot (thread_ sl) true true]> l !! j = Some x ->
    exists y, l !! j = Some y /\ thread_ x = thread_ y /\ loop_ x = published (thread_ x) /\
      (x = y \/ published (thread_ x) = true)).
  { intros j x [(<-&<-&_)|[_ Hj]]%list_lookup_insert_Some; [exists sl; by auto 6|].
    exists x. split_and!; eauto. }
  split; simpl; rewrite ?length_insert; auto; try done.
  - intros j x (y&_&_&?&_)%Hc. done.
  - intros j x (y&Hj&Et&_&[->|Hp])%Hc Hx; [by eapply Hn|]. rewrite Et in Hp.
    rewrite (Hn j y Hj Hx) in Hp. done.
  - intros j x (y&Hj&->&_)%Hc Hx. by eapply Hm.
  - intros j x (y&Hj&->&_)%Hc Hx. by eapply Hs.
  - by intros [].
Qed.

(** The base moves on without touching a thread. *)
Lemma base_inv n b b' l : inv n (mkState b l) -> starting b' = false ->
  created n b = n -> created n b' = n -> seen n b = n -> seen n b' = n ->
  (forall j, b' = BJoin j -> (1 <= j)%nat) -> (b' = BReady -> starting b = true) ->
  inv n (mkState b' l).
Proof.
  intros [Hsz Hb Hlo Hn Hm Hs Ha Hr Hj0] Hst E1 E2 E3 E4 Hj Hrd. simpl in *. rewrite E1, E3 in *.
  split; simpl; rewrite ?E2, ?E4; auto.
  - intros i sl ->. done.
  - rewrite Hst. intros [?|Hb'%Hrd]; [done|]. apply Hr. by left.
Qed.

Lemma act_inv n s s' : act n s s' -> inv n s -> inv n s'.
Proof.
  intros Hact Hinv. destruct Hact as [i l Hi Hl|l i Hi|i l sl Hl|b i l q Hl|b i l p q Hl|b i l p Hl|b i l p q Hl|l|i l sl Hl|i l Hi|i l p q Hi Hl|i l Hi].
  - by apply spawn_inv.
  - pose proof (inv_base _ _ Hinv) as Hb. simpl in Hb. assert (i = n) as -> by lia. by apply (base_inv n (BSpawn n)).
  - by apply check_inv.
  - by apply publish_inv.
  - pose proof (inv_loop _ _ Hinv _ _ Hl). eapply advance_inv; [exact Hl|done..|intros _; by split_and!|exact Hinv].
  - pose proof (inv_loop _ _ Hinv _ _ Hl). eapply advance_inv; [exact Hl|done..| |exact Hinv].
    intros Hst. by destruct (inv_running _ _ Hinv Hst _ _ Hl).
  - eapply advance_inv; [exact Hl|done..| |exact Hinv].
    intros Hst. by destruct (inv_running _ _ Hinv Hst _ _ Hl) as (_&?&_).
  - by apply (base_inv n BReady).
  - by apply quit_one_inv.
  - apply (base_inv n (BQuit i)); try done. intros j [= <-]. lia.
  - apply (base_inv n (BJoin i)); try done. intros j [= <-]. lia.
  - by apply (base_inv n (BJoin i)).
Qed.

(** A configuration has as many places as threads, except that a server that
    was never told has one thread and no place. *)
Lemma configured_size c : configured c ->
  (1 <= numThreads_ c)%nat /\ (loops_size c = numThreads_ c \/ (numThreads_ c = 1 /\ loops_size c = 0)%nat).
Proof.
  induction 1 as [|n c Hc IH]; simpl; [lia|]. unfold setNumThread.
  destruct (0 <? n)%nat eqn:Hn; simpl; [|exact IH]. apply Nat.ltb_lt in Hn. lia.
Qed.

Lemma init_inv c : configured c -> inv (numThreads_ c) (init c).
Proof.
  intros Hc%configured_size.
  assert (Hl : forall i sl, replicate (loops_size c) (mkSlot WNone false false) !! i = Some sl ->
    sl = mkSlot WNone false false) by (by intros i sl [-> _]%lookup_replicate).
  split; simpl; rewrite ?length_replicate; try lia; try done.
  - by intros i sl ->%Hl.
  - intros i sl Hi _. by apply Hl in Hi.
  - intros _ i sl ->%Hl. done.
Qed.

Lemma reachable_inv c s : configured c -> reachable (numThreads_ c) c s -> inv (numThreads_ c) s.
Proof.
  intros Hc Hr. refine (rtc_ind_r (R := step (numThreads_ c)) (inv (numThreads_ c)) (init c) _ _ s Hr).
  - by apply init_inv.
  - intros s1 s2 _ [Hs|(i&l&->&->)] Hinv; [by eapply act_inv|].
    destruct Hinv as [Hsz Hb Hlo Hn Hm Hs Ha Hr' Hj0]. split; simpl in *; auto; try done. intros _. apply Hr'. by left.
Qed.

(** ** Progress *)

Definition weight (sl : slot) : nat :=
  match thread_ sl with WNone => 5 | WBuild => 4 | WPublished => 3 | WLooping => 2 | WLeft => 1 | WDone => 0 end.

(** The steps left in the thread of startInLoop and the destructor. *)
Definition left_of (n len : nat) (b : base) : nat :=
  match b with
  | BSpawn i => 3 * (n - i) + (len + n + 6)
  | BCheck i => 3 * (n - i) - 1 + (len + n + 6)
  | BAsleep i => 3 * (n - i) - 2 + (len + n + 6)
  | BReady => len + n + 5
  | BQuit i => len - i + (n + 3)
  | BJoin i => n - i + 1
  | BDone => 0
  end.
Definition measure (n : nat) (s : state) : nat :=
  (3 * total weight (slots s) + left_of n (length (slots s)) (base_ s))%nat.

Lemma act_decreases n s s' : inv n s -> act n s s' -> (measure n s' < measure n s)%nat.
Proof.
  intros Hinv Hact. pose proof (inv_base _ _ Hinv) as Hb. unfold measure.
  destruct Hact as [i l Hi Hl|l i Hi|i l sl Hl|b i l q Hl|b i l p q Hl|b i l p Hl|b i l p q Hl|l|i l sl Hl|i l Hi|i l p q Hi Hl|i l Hi];
    simpl in *; rewrite ?length_insert;
    try (match goal with |- context [<[i := ?x]> l] => pose proof (total_insert weight l i x _ Hl) as Hw end;
         unfold weight in *; simpl in *; lia); try lia.
  - destruct (loop_ sl); simpl; lia.
  - pose proof (total_insert weight l i (mkSlot WPublished true q) _ Hl) as Hw. unfold weight in *.
    destruct b; simpl in *; lia.
  - apply lookup_lt_Some in Hl as Hlt. destruct (loop_ sl); rewrite ?length_insert; [|lia].
    pose proof (total_insert weight l i (mkSlot (thread_ sl) true true) _ Hl) as Hw. unfold weight in *. simpl in *. lia.
Qed.

(** The base joins a thread whose loop runs on. *)
Definition hangs (n : nat) (s : state) : Prop := exists i p, (i < n)%nat /\ base_ s = BJoin i /\
  slots s !! i = Some (mkSlot WLooping p false).

Lemma slot_exists n s i : inv n s -> (1 <= i < n)%nat -> exists sl, slots s !! i = Some sl.
Proof. intros Hinv Hi. destruct (inv_size _ _ Hinv); [|lia]. apply lookup_lt_is_Some_2. lia. Qed.

(** A step of a thread that was created, unless it loops on. *)
Lemma worker_acts n b l i sl :
  l !! i = Some sl -> loop_ sl = published (thread_ sl) ->
  thread_ sl <> WNone -> thread_ sl <> WDone -> (thread_ sl = WLooping -> quit_ sl = true) ->
  exists s', act n (mkState b l) s'.
Proof.
  destruct sl as [[] p q]; simpl; intros Hl Hp Hn Hd Hq; try done; subst.
  - eexists. by eapply publish.
  - eexists. by eapply enter_loop.
  - rewrite Hq in Hl by done. eexists. by eapply leave_loop.
  - eexists. by eapply clear_loop.
Qed.

Lemma progress n s : inv n s -> (exists s', act n s s') \/ base_ s = BDone \/ hangs n s.
Proof.
  intros Hinv. pose proof (slot_exists n s) as Hex. destruct s as [b l]. simpl in *.
  pose proof (inv_base _ _ Hinv) as Hb. simpl in Hb. destruct b as [i|i|i| |i|i|]; simpl in *.
  - left. destruct (decide (i < n)%nat) as [Hi|Hi]; [|eexists; apply spawned; lia].
    destruct (Hex i Hinv ltac:(lia)) as [sl Hl].
    rewrite (inv_new _ _ Hinv i sl Hl) in Hl by (simpl; lia). eexists. by eapply spawn.
  - left. destruct (Hex i Hinv ltac:(lia)) as [sl Hl]. eexists. by eapply check.
  - left. destruct (Hex i Hinv ltac:(lia)) as [sl Hl]. pose proof (inv_asleep _ _ Hinv _ _ eq_refl Hl) as Hw.
    apply (worker_acts n _ l i sl Hl); rewrite ?Hw; try done. rewrite <- Hw. by apply (inv_loop _ _ Hinv i).
  - left. eexists. apply destroy.
  - left. destruct (l !! i) as [sl|] eqn:Hl; [eexists; by eapply quit_one|].
    eexists. apply quit_all. by apply lookup_ge_None_1.
  - destruct (decide (i < n)%nat) as [Hi|Hi]; [|left; eexists; apply joined; lia].
    pose proof (inv_join _ _ Hinv i eq_refl) as Hi1. destruct (Hex i Hinv ltac:(lia)) as [sl Hl].
    pose proof (inv_made _ _ Hinv i sl Hl ltac:(simpl; lia)) as Hn.
    pose proof (inv_loop _ _ Hinv i sl Hl) as Hp.
    destruct (decide (thread_ sl = WDone)) as [Hd|Hd].
    { left. destruct sl as [t p q]. simpl in Hd. subst. eexists. by eapply join. }
    destruct (decide (thread_ sl = WLooping /\ quit_ sl = false)) as [[Ht Hq]|Hh].
    + right. right. exists i, (loop_ sl). split_and!; [done..|]. simpl. rewrite Hl. destruct sl. simpl in *. congruence.
    + left. apply (worker_acts n _ l i sl Hl Hp Hn Hd). intros Ht. destruct (quit_ sl) eqn:Hq; [done|].
      exfalso. by apply Hh.
  - auto.
Qed.

(** From where all loops run, no quit is lost. *)
Record entered (s : state) : Prop := {
  et_threads : forall i sl, slots s !! i = Some sl -> (1 <= i)%nat ->
    thread_ sl = WLooping \/ thread_ sl = WLeft \/ thread_ sl = WDone;
  et_loop : forall i sl, slots s !! i = Some sl -> loop_ sl = published (thread_ sl);
  et_base : match base_ s with
            | BReady => True
            | BQuit j => forall i sl, slots s !! i = Some sl -> (1 <= i < j)%nat -> thread_ sl = WLooping -> quit_ sl = true
            | BJoin _ | BDone => forall i sl, slots s !! i = Some sl -> (1 <= i)%nat -> thread_ sl = WLooping -> quit_ sl = true
            | _ => False
            end
}.

Lemma entered_put b i sl' l :
  entered (mkState b l) -> (thread_ sl' = WLooping -> quit_ sl' = true) ->
  thread_ sl' = WLooping \/ thread_ sl' = WLeft \/ thread_ sl' = WDone ->
  loop_ sl' = published (thread_ sl') -> entered (mkState b (<[i := sl']> l)).
Proof.
  intros [Ht Hlo Hb] Hq Hth Hlp.
  assert (Hc : forall j x, <[i := sl']> l !! j = Some x -> x = sl' \/ l !! j = Some x).
  { intros j x [(_&<-&_)|[_ ?]]%list_lookup_insert_Some; auto. }
  split; simpl in *.
  - intros j x [->|Hj]%Hc Hx; [done|eauto].
  - intros j x [->|Hj]%Hc; [done|eauto].
  - destruct b; try done; intros j x [->|Hj]%Hc; eauto.
Qed.

Lemma act_entered n s s' : act n s s' -> inv n s -> entered s -> entered s'.
Proof.
  intros Hact Hinv Hen. pose proof Hen as [Ht Hlo Hb].
  assert (H0 : forall sl, slots s !! O = Some sl -> sl = mkSlot WNone false false).
  { intros sl Hl. apply (inv_new _ _ Hinv O sl Hl). by left. }
  destruct Hact as [i l Hi Hl|l i Hi|i l sl Hl|b i l q Hl|b i l p q Hl|b i l p Hl|b i l p q Hl|l|i l sl Hl|i l Hi|i l p q Hi Hl|i l Hi];
    simpl in *; try done.
  - exfalso. destruct i as [|i]; [by apply H0 in Hl|]. by destruct (Ht _ _ Hl ltac:(lia)) as [?|[?|?]].
  - exfalso. destruct i as [|i]; [by apply H0 in Hl|]. by destruct (Ht _ _ Hl ltac:(lia)) as [?|[?|?]].
  - apply entered_put; simpl; auto. by apply Hlo in Hl.
  - apply entered_put; simpl; auto; done.
  - split; simpl; auto. intros i sl _ Hi. lia.
  - pose proof (Hlo _ _ Hl) as Hp. destruct (loop_ sl) eqn:Hls.
    + assert (Hi : (1 <= i)%nat) by (destruct i; [by rewrite (H0 _ Hl) in Hls|lia]).
      apply (entered_put (BQuit i) i (mkSlot (thread_ sl) true true)) in Hen as [Ht' Hlo' Hb']; simpl in *; eauto.
      split; simpl; auto. intros j x [(<-&<-&_)|[Hne Hj]]%list_lookup_insert_Some Hx; [done|].
      apply (Hb j x Hj). lia.
    + split; simpl; auto. intros j x Hj Hx Hth. destruct (decide (j = i)) as [->|Hne]; [|apply (Hb j x Hj); [lia|done]].
      assert (x = sl) as -> by congruence. rewrite Hth in Hp. done.
  - split; simpl; auto. intros j x Hj Hx. apply (Hb j x Hj). split; [done|]. apply lookup_lt_Some in Hj. lia.
Qed.

(** ** Properties *)

Section properties.
Variable c : config.
Hypothesis Hc : configured c.
Abbreviation n := (numThreads_ c).

(** C15: start waits for its threads. When startInLoop returns, every thread
    1 .. numThreads_ - 1 was created and has published its loop, which exists
    and has not been left; and while startInLoop waits, the thread it waits for
    has still to publish and notify, so the wakeup is not lost. *)
Theorem start_publishes_all s :
  reachable n c s ->
  (base_ s = BReady -> forall i, (1 <= i < n)%nat -> exists sl, slots s !! i = Some sl /\
     loop_ sl = true /\ (thread_ sl = WPublished \/ thread_ sl = WLooping)) /\
  (forall i, base_ s = BAsleep i -> exists sl, slots s !! i = Some sl /\ thread_ sl = WBuild).
Proof.
  intros Hinv%reachable_inv; [|done]. split.
  - intros Hb i Hi. destruct (slot_exists _ _ _ Hinv Hi) as [sl Hl]. exists sl. split; [done|].
    pose proof (inv_made _ _ Hinv i sl Hl) as Hm. pose proof (inv_seen _ _ Hinv i sl Hl) as Hs.
    destruct (inv_running _ _ Hinv (or_intror Hb) i sl Hl) as (_&?&?). rewrite (inv_loop _ _ Hinv i sl Hl).
    rewrite Hb in *. specialize (Hm Hi). specialize (Hs Hi). destruct (thread_ sl); simpl; auto; done.
  - intros i Hb. pose proof (inv_base _ _ Hinv) as Hbd. rewrite Hb in Hbd. simpl in Hbd.
    destruct (slot_exists _ _ i Hinv ltac:(lia)) as [sl Hl]. exists sl. split; [done|].
    by apply (inv_asleep _ _ Hinv i).
Qed.

(** C16: starting and stopping end. Every step of the threads, spurious wakeups
    aside, brings the system closer to its end; and it can only come to rest
    when the destructor has joined every thread, or when it joins a thread that
    loops on with quit_ unset. If all threads are in their loops when the
    destructor starts, the latter does not happen. *)
Theorem server_stops s :
  reachable n c s ->
  (forall s', act n s s' -> (measure n s' < measure n s)%nat) /\
  ((exists s', act n s s') \/ base_ s = BDone \/ hangs n s) /\
  (base_ s = BReady -> (forall i sl, slots s !! i = Some sl -> (1 <= i)%nat -> thread_ sl = WLooping) ->
   forall s', rtc (act n) s s' -> (forall s'', ~ act n s' s'') -> base_ s' = BDone).
Proof.
  intros Hinv%reachable_inv; [|done]. split_and!.
  - intros s'. by apply act_decreases.
  - by apply progress.
  - intros Hb Hall s' Hr Hstuck.
    assert (Hen : entered s).
    { split; [eauto|apply (inv_loop _ _ Hinv)|by rewrite Hb]. }
    clear Hb Hall. induction Hr as [s|s1 s2 s3 Hact Hr IH].
    + destruct (progress _ _ Hinv) as [[s' Hs]|[?|(i&p&Hi&Hb&Hl)]]; [by apply Hstuck in Hs|done|].
      pose proof (et_base _ Hen) as Heb. rewrite Hb in Heb. pose proof (inv_join _ _ Hinv i Hb).
      by specialize (Heb i _ Hl ltac:(lia) eq_refl).
    + apply IH; [by eapply act_inv|done|by eapply act_entered].
Qed.
End properties.

(** The destructor can hang. Destroying the server right after start can
    set quit_ of a published loop before its thread calls loop(), which resets
    it: the destructor then joins a thread whose loop runs on, and no step is
    left to end it. *)
Theorem server_destructor_can_hang : exists s,
  reachable 2 (setNumThread 2 TcpServer_ctor) s /\ hangs 2 s /\
  forall s', ~ step 2 s s'.
Proof.
  exists (mkState (BJoin 1) [mkSlot WNone false false; mkSlot WLooping true false]). split_and!.
  - unfold reachable, init. simpl.
    eapply rtc_l; [left; by apply (spawn 2 1); [lia|]|]. simpl.
    eapply rtc_l; [left; by eapply (publish 2 (BCheck 1) 1)|]. simpl.
    eapply rtc_l; [left; by eapply (check 2 1)|]. simpl.
    eapply rtc_l; [left; apply (spawned 2); lia|].
    eapply rtc_l; [left; apply (destroy 2)|].
    eapply rtc_l; [left; by eapply (quit_one 2 0)|]. simpl.
    eapply rtc_l; [left; by eapply (quit_one 2 1)|]. simpl.
    eapply rtc_l; [left; apply (quit_all 2); simpl; lia|].
    apply rtc_once. left.
    by apply (enter_loop 2 (BJoin 1) 1 [mkSlot WNone false false; mkSlot WPublished true true] true true).
  - exists 1%nat, true. split_and!; [lia|done|done].
  - intros s' [Ha|(i&l&Hs&_)]; [|done].
    inversion Ha; subst; try lia;
      match goal with Hl : _ !! ?i = Some _ |- _ => first [done | destruct i as [|[|i]]; simpl in *; done] end.
Qed.

(** ** Witnesses *)

Definition two_threads : config := setNumThread 2 TcpServer_ctor.
Lemma two_configured : configured two_threads.
Proof. apply configured_set, configured_new. Qed.
Definition example_ready : state := mkState BReady [mkSlot WNone false false; mkSlot WLooping true false].
Lemma ready_reachable : reachable 2 two_threads example_ready.
Proof.
  eapply rtc_l; [left; by apply (spawn 2 1); [lia|]|]. simpl.
  eapply rtc_l; [left; by eapply (check 2 1)|]. simpl.
  eapply rtc_l; [left; by eapply (publish 2 (BAsleep 1) 1)|]. simpl.
  eapply rtc_l; [left; by eapply (enter_loop 2 _ 1 _ true false)|]. simpl.
  eapply rtc_l; [left; by eapply (check 2 1)|]. simpl.
  apply rtc_once. left. apply (spawned 2); lia.
Qed.

Lemma start_publishes_all_witness : exists sl, slots example_ready !! 1%nat = Some sl /\ loop_ sl = true.
Proof.
  destruct (proj1 (start_publishes_all two_threads two_configured _ ready_reachable) eq_refl 1%nat ltac:(simpl; lia))
    as (sl&Hl&Hp&_). by exists sl.
Defined.
Lemma server_stops_witness :
  (exists s', act 2 example_ready s') \/ base_ example_ready = BDone \/ hangs 2 example_ready.
Proof. exact (proj1 (proj2 (server_stops two_threads two_configured _ ready_reachable))). Defined.
End TcpT.
