(* ===== verification/Teardown.v ===== *)
(** The end of a thread of a TcpServer.  When loop() returns, runInThread
    (src/TcpServer.cc) returns and the objects on its stack are destroyed: the
    TcpServerSingle with its connections and its Acceptor, then the EventLoop
    with its timers, tasks and descriptors.  The whole life of a thread is put
    together from its construction (TcpServer.v), the loop in which connections
    are destroyed (Lifetime.v) and this end. *)

From S2P Require Import Prelude Ints Kernel Buffer World Poller Channel TimerQueue.
From S2P Require Import TcpConnection EventLoop Endpoints Frame Reports TimerRun Reactor Os ServerInv Server.
From S2P Require Import TcpServer Lifetime.

Module Down.
Import Srv Serve Life OsK.

(** ** A thread from its start to its end *)

Section ops.
Context {K A : Type} `{Kernel K} `{Build} `{AppOwns A}.

(** The locals of runInThread in turn; t_Eventloop points to the loop. *)
Definition end_thread (loop server : ptr) : M (World K A) unit :=
  TcpServerSingle_dtor server ;;;
  let! _ := EventLoop_dtor loop loop in
  ret tt.

Definition runInThread (loop : ptr) (t : Tcp.TcpServer K A) (index : nat) (app : React.App K A)
    (fuel : nat) : M (World K A) bool :=
  let! server := Tcp.runInThread_setup loop t index in
  let! b := Life.loop app fuel in
  when b (end_thread loop server) ;;;
  ret b.
End ops.

(** ** The destructors *)

Section server.
Context {K A : Type} `{Kernel K} `{!KernelLaws K} `{Build}.
Context {site : Site} `{!IsServer site} `{!Rep.Epoll K (st_wfd site)} `{AppOwns A}.
Implicit Types w : World K A.
Abbreviation server_ok := (Srv.server_ok (site := site)).

(** The channels of the loop and of its server. *)
Definition fixture (q : ptr) : Prop := q = st_achan site \/ q = st_wchan site \/ q = st_tchan site.

Lemma fixture_special q : fixture q <-> special (site := site) q.
Proof. unfold fixture, special, owner_chan. by rewrite is_server. Qed.

Lemma server_accepts w : accepts_ok (site := site) w ->
  reads (st_achan site) (AcceptorHandleRead (st_acceptor site)) w /\ st_acceptor site <> nullptr /\
  exists ac, w_acceptors w !! st_acceptor site = Some ac /\ acceptChannel_ ac = st_achan site.
Proof. unfold accepts_ok. rewrite is_server. intros (?&?&ac&?&_&?). split; [done|]. split; [done|]. by exists ac. Qed.

Lemma server_members w : members_ok (site := site) w -> st_server site <> nullptr /\
  exists sv, w_singles w !! st_server site = Some sv /\ acceptor_ sv = st_acceptor site.
Proof. unfold members_ok. rewrite is_server. intros (?&sv&?&[_ ?]&_). split; [done|]. by exists sv. Qed.

(** What is still referred to when the tasks of the loop, and its server, are gone. *)
Definition untasked w : World K A := set_w_loop (set_pendingTasks_ [] (w_loop w)) w.
Definition parting w : World K A :=
  untasked (set_w_singles (delete (st_server site) (w_singles w)) w).

Lemma parting_ext w w' c : delete (st_server site) (w_singles w') = delete (st_server site) (w_singles w) ->
  w_clients w' = w_clients w -> w_app w' = w_app w -> owned (parting w') c = owned (parting w) c.
Proof. unfold owned. simpl. by intros -> -> ->. Qed.

Lemma parting_owned w c : owned (parting w) c = true -> owned w c = true.
Proof.
  rewrite !owned_iff. simpl. intros [(q&x&[_ Hq]%lookup_delete_Some&?)|[?|[(t&?%not_elem_of_nil&_)|?]]]; [|by auto..].
  left. by exists q, x.
Qed.

(** What the destructors need of the connections that go: that they are closed, unless
    an assertion may fail. *)
Variable E : fault -> Prop.
Record tear w : Prop := {
  te_conn : forall c cn, w_conns w !! c = Some cn -> c <> nullptr /\ channel_ cn <> nullptr /\
    ~ fixture (channel_ cn) /\ exists ch, w_channels w !! channel_ cn = Some ch;
  te_distinct : forall c1 c2 cn1 cn2, w_conns w !! c1 = Some cn1 -> w_conns w !! c2 = Some cn2 ->
    channel_ cn1 = channel_ cn2 -> c1 = c2;
  te_idle : idle w;
  te_closed : E still_open \/ forall c cn, w_conns w !! c = Some cn -> owned (parting w) c = true \/ closed cn
}.

Lemma tear_same w w' : tear w -> w_conns w' = w_conns w ->
  delete (st_server site) (w_singles w') = delete (st_server site) (w_singles w) ->
  w_clients w' = w_clients w -> w_app w' = w_app w ->
  (forall q, ~ fixture q -> w_channels w' !! q = w_channels w !! q) -> idle w' -> tear w'.
Proof.
  intros [T1 T2 T3 T4] E1 E2 E3 E4 E5 Hi. split; rewrite ?E1; auto.
  - intros c cn Hc. destruct (T1 c cn Hc) as (?&?&Hs&?). split_and!; auto. by rewrite E5.
  - destruct T4 as [?|T4]; [by left|right]. intros c cn Hc. rewrite (parting_ext w) by done. by apply T4.
Qed.

Lemma tear_sweepable : sweepable E tear.
Proof.
  split.
  - intros w c cn T Hc. destruct (te_conn _ T c cn Hc) as (?&?&_&ch&Hch). split_and!; [done..|].
    exists ch. split; [done|]. by eapply (te_idle _ T).
  - intros w c1 c2 cn1 cn2 T. by apply te_distinct.
  - intros w c cn T Hc Ho. destruct (te_closed _ T) as [?|Hd]; [by right|left].
    destruct (Hd c cn Hc) as [Hp%parting_owned|?]; [congruence|done].
  - intros fd w T. apply wp_sys. intros r k _. split; [|split; [|done]; by split].
    eapply tear_same; [exact T|done..|]. apply T.
  - intros w c cn T Hc _.
    assert (Hsub : forall q cq, w_conns (gone c (channel_ cn) w) !! q = Some cq -> q <> c /\ w_conns w !! q = Some cq).
    { intros q cq Hq. simpl in Hq. apply lookup_delete_Some in Hq as [? ?]. by split. }
    split.
    + intros q cq [Hne Hq]%Hsub. destruct (te_conn _ T q cq Hq) as (?&?&?&ch&?). split_and!; [done..|].
      exists ch. simpl. rewrite lookup_delete_ne; [done|]. intros He. apply Hne. symmetry. by eapply (te_distinct _ T).
    + intros c1 c2 cn1 cn2 [_ H1']%Hsub [_ H2']%Hsub. by eapply (te_distinct _ T).
    + intros q x Hq. simpl in Hq. apply lookup_delete_Some in Hq as [_ Hq]. by eapply (te_idle _ T).
    + destruct (te_closed _ T) as [?|Hd]; [by left|right]. intros q cq [_ Hq]%Hsub. rewrite (parting_ext w) by done. by eapply Hd.
Qed.

Lemma swept_special cs w w' q : tear w -> swept cs w w' -> fixture q -> w_channels w' !! q = w_channels w !! q.
Proof.
  intros T S Hs. apply (sw_chans _ _ _ S). intros c cn _ Hc <-.
  by destruct (te_conn _ T c cn Hc) as (_&_&?&_).
Qed.

(** ~TcpServerSingle: [w0] is the world when the set of connections is gone. *)
Record unserved (ac : Acceptor) w0 w w' : Prop := {
  un_tear : tear w';
  un_loop : w_loop w' = w_loop w /\ w_cur w' = w_cur w /\ w_timers w' = w_timers w;
  un_owned : forall c, owned (untasked w') c = owned (parting w) c;
  un_conns : forall c, w_conns w' !! c = if owned w0 c then w_conns w !! c else None;
  un_closed : forall c cn, w_conns w !! c = Some cn -> owned w0 c = false -> closed cn;
  un_achan : w_channels w' !! st_achan site = None;
  un_single : w_singles w' !! st_server site = None;
  un_chans : forall q, fixture q -> q <> st_achan site -> w_channels w' !! q = w_channels w !! q;
  un_trace : exists evs, w_trace w' = w_trace w ++ evs /\
    map ev_call evs = closes (all_conns w) w0 ++ [SysClose (acceptfd_ ac)]
}.

Lemma single_dtor_wp a ac sv ch w :
  tear w -> st_server site <> nullptr -> w_singles w !! st_server site = Some sv -> acceptor_ sv = a -> a <> nullptr ->
  w_acceptors w !! a = Some ac -> acceptChannel_ ac = st_achan site -> st_achan site <> nullptr ->
  w_channels w !! st_achan site = Some ch ->
  wp (TcpServerSingle_dtor (st_server site)) E
    (fun _ => unserved ac (put_single (st_server site) (set_connections_ ∅ sv) w) w) w.
Proof.
  intros T Hs0 Hs Ha Ha0 Hac Hp Hp0 Hch. unfold TcpServerSingle_dtor, upd_single, get_single.
  wp_step. wp_step. wp_lookup. wp_step. set (w0 := put_single _ _ w).
  assert (T0 : tear w0) by (eapply tear_same; [exact T|done|apply delete_insert_eq|done..|apply T]).
  wp_step. eapply wp_conseq; [by apply (sweep_J _ _ tear_sweepable)|]. intros _ w1 [T1 S].
  destruct (sw_rest _ _ _ S) as (C1&Tm1&A1).
  assert (Hs1 : w_singles w1 !! st_server site = Some (set_connections_ ∅ sv)) by (rewrite (sw_singles _ _ _ S); apply lookup_insert_eq).
  wp_step. wp_lookup. wp_step. simpl. rewrite Ha. unfold Ends.Acceptor_dtor, Chan.Channel_dtor, get_acceptor, get_channel.
  assert (Hac1 : w_acceptors w1 !! a = Some ac) by (by rewrite A1).
  wp_step. wp_lookup. wp_step. apply wp_sys. intros r k _.
  assert (Hch1 : w_channels w1 !! st_achan site = Some ch).
  { rewrite (swept_special _ _ _ _ T0 S); [done|by left]. }
  rewrite Hp. wp_step. wp_step. wp_lookup. wp_step. apply wp_assert_true; [by rewrite (te_idle _ T1 _ _ Hch1)|].
  wp_step. wp_step. wp_step.
  assert (Hd : delete (st_server site) (w_singles w1) = delete (st_server site) (w_singles w))
    by (rewrite (sw_singles _ _ _ S); apply delete_insert_eq).
  split; simpl; try done.
  - eapply tear_same; [exact T1|done|apply delete_delete_eq|done|done|..].
    + intros q Hq. simpl. apply lookup_delete_ne. intros <-. apply Hq. by left.
    + intros q x Hq. simpl in Hq. apply lookup_delete_Some in Hq as [_ Hq]. by eapply (te_idle _ T1).
  - by rewrite (sw_loop _ _ _ S).
  - intros c. apply owned_quiet; simpl; [|done|apply S..]. by rewrite (sw_loop _ _ _ S).
  - intros c. by apply (swept_conns w0).
  - intros c cn Hc Ho. apply (sw_closed _ _ _ S c); [|done]. split; [|done]. apply live_all. by exists cn.
  - apply lookup_delete_eq.
  - apply lookup_delete_eq.
  - intros q Hq Hne. rewrite lookup_delete_ne by done. by apply (swept_special _ _ _ _ T0 S).
  - destruct (sw_trace _ _ _ S) as (e1&Tr1&M1). exists (e1 ++ [Event (SysClose (acceptfd_ ac)) r]).
    rewrite Tr1, map_app, M1, app_assoc. done.
Qed.

(** The timers of the queue are deleted, each once. *)
Lemma delete_timers_wp (l : list TQ.Entry) (Q : unit -> World K A -> Prop) w :
  NoDup (l.*2) -> (forall p, p ∈ l.*2 -> p <> nullptr /\ is_Some (w_timers w !! p)) ->
  (forall m, (forall p, m !! p = if bool_decide (p ∈ l.*2) then None else w_timers w !! p) ->
     Q tt (set_w_timers m w)) ->
  wp (for_each l (fun e => TQ.delete_timer (snd e))) E Q w.
Proof.
  revert w. induction l as [|[d p] l IH]; intros w Hnd Hl HQ; simpl.
  { wp_step. specialize (HQ (w_timers w)). destruct w. apply HQ.
    intros p. by rewrite bool_decide_eq_false_2 by apply not_elem_of_nil. }
  apply list.NoDup_cons in Hnd as [Hnin Hnd]. destruct (Hl p) as [Hp [t Ht]]; [by left|].
  wp_step. unfold TQ.delete_timer. simpl. rewrite (proj2 (Z.eqb_neq p nullptr) Hp).
  wp_step. apply wp_deref; [|by rewrite Ht]. intros x _. wp_step. apply IH; [done|..].
  - intros q Hq. simpl. rewrite lookup_delete_ne; [apply Hl; by right|]. by intros ->.
  - intros m Hm. apply (HQ m). intros q. rewrite Hm, fmap_cons. cbn [snd w_timers set_w_timers]. destruct (decide (q = p)) as [->|Hne].
    + rewrite lookup_delete_eq, (bool_decide_eq_true_2 (p ∈ p :: l.*2)) by by left. by case_bool_decide.
    + rewrite lookup_delete_ne by done.
      by rewrite (bool_decide_ext (q ∈ p :: l.*2) (q ∈ l.*2)) by (rewrite elem_of_cons; tauto).
Qed.

Lemma timers_once w : TRun.firing [] w -> NoDup ((timers_ (w_loop w)).*2) /\
  forall p, p ∈ (timers_ (w_loop w)).*2 -> p <> nullptr /\ is_Some (w_timers w !! p).
Proof.
  intros Hf. pose proof (TRun.fi_ok _ _ Hf) as Hok.
  assert (Hl : forall d p, (d, p) ∈ timers_ (w_loop w) -> exists t, w_timers w !! p = Some t /\ when_ t = d).
  { intros d p Hin. destruct (TQ.tk_live _ _ Hok d p Hin) as (t&?&?&_). by exists t. }
  split.
  - apply NoDup_fmap_2_strong; [|by apply TQ.sorted_NoDup, Hok].
    intros [d1 p1] [d2 p2] [t1 [H1' <-]]%Hl [t2 [H2' <-]]%Hl Heq. simpl in Heq. subst p2. f_equal. congruence.
  - intros p ([d q]&->&(t&Ht&_)%Hl)%list_elem_of_fmap. simpl. split; [|by exists t].
    apply (TQ.tk_addr _ _ Hok) in Ht as [? _]. lia.
Qed.

(** The parts of ~EventLoop before the tasks go: the system calls [cs] are made,
    channels and timers change. *)
Record kept (cs : list syscall) w w' : Prop := {
  ke_tear : tear w';
  ke_conns : w_conns w' = w_conns w;
  ke_loop : w_loop w' = w_loop w;
  ke_owners : w_singles w' = w_singles w /\ w_clients w' = w_clients w /\ w_app w' = w_app w;
  ke_trace : exists evs, w_trace w' = w_trace w ++ evs /\ map ev_call evs = cs
}.

Lemma kept_trans c1 c2 w1 w2 w3 : kept c1 w1 w2 -> kept c2 w2 w3 -> kept (c1 ++ c2) w1 w3.
Proof.
  intros [] []. split; [done|congruence|congruence|naive_solver congruence|].
  destruct ke_trace0 as (e1&T1&M1), ke_trace1 as (e2&T2&M2). exists (e1 ++ e2).
  by rewrite T2, T1, app_assoc, map_app, M1, M2.
Qed.

Lemma close_wp fd w : tear w ->
  wp (sys (SysClose fd)) E (fun _ w' => kept [SysClose fd] w w' /\
    w_channels w' = w_channels w /\ w_timers w' = w_timers w) w.
Proof.
  intros T. apply wp_sys. intros r k _. split; [|done]. split; [|done..|by eexists].
  eapply tear_same; [exact T|done..|]. apply T.
Qed.

(** wakeupChannel_.disableAll() *)
Lemma wakeup_off_wp wch w :
  tear w -> Chan.in_loop_thread w -> st_wchan site <> nullptr ->
  w_channels w !! st_wchan site = Some wch -> pooling wch = true ->
  wp (Chan.disableAll (st_wchan site)) E (fun _ w' =>
    kept [SysEpollCtl EPOLL_CTL_DEL (fd_ wch) 0 (st_wchan site)] w w' /\ w_timers w' = w_timers w /\
    exists ch, w_channels w' = <[st_wchan site := ch]> (w_channels w)) w.
Proof.
  intros T Ht Hw0 Hwch Hpo. unfold Chan.disableAll, upd_channel, get_channel.
  wp_step. wp_step. wp_lookup. wp_step.
  set (wch1 := set_events_ 0 wch). set (w1 := put_channel _ wch1 w).
  assert (Hl1 : w_channels w1 !! st_wchan site = Some wch1) by apply lookup_insert_eq.
  apply (Chan.update_wp (st_wchan site) wch1); [done|exact Ht|exact Hl1|simpl; by rewrite Hpo|].
  intros _ r e k. unfold Chan.ctl_op, Chan.ctl_pooling. simpl. rewrite Hpo. simpl.
  set (wch2 := set_pooling _ wch1). split; [split|split]; try done; [|by eexists|exists wch2; apply insert_insert_eq].
  eapply tear_same; [exact T|done..| |].
  - intros q Hq. simpl. rewrite !lookup_insert_ne; [done|..]; intros <-; apply Hq; right; by left.
  - intros q x Hq. simpl in Hq. rewrite insert_insert_eq in Hq.
    apply lookup_insert_Some in Hq as [[_ <-]|[_ Hq]]; [|by eapply (te_idle _ T)].
    simpl. by apply (te_idle _ T _ _ Hwch).
Qed.

(** ~TimerQueue *)
Lemma timers_dtor_wp tch w :
  tear w -> timerChannel_ (w_loop w) = st_tchan site -> st_tchan site <> nullptr ->
  w_channels w !! st_tchan site = Some tch -> NoDup ((timers_ (w_loop w)).*2) ->
  (forall p, p ∈ (timers_ (w_loop w)).*2 -> p <> nullptr /\ is_Some (w_timers w !! p)) ->
  wp TQ.TimerQueue_dtor E (fun _ w' => kept [SysClose (timerfd_ (w_loop w))] w w' /\
    w_channels w' = delete (st_tchan site) (w_channels w) /\
    forall p, p ∈ (timers_ (w_loop w)).*2 -> w_timers w' !! p = None) w.
Proof.
  intros T Htc Ht0 Htch Hnd Htl. unfold TQ.TimerQueue_dtor, get_loop. wp_step. wp_step. wp_step.
  apply delete_timers_wp; [done|done|]. intros m Hm. set (w1 := set_w_timers m w). wp_step. wp_step. wp_step.
  assert (T1 : tear w1) by (eapply tear_same; [exact T|done..|apply T]).
  eapply wp_conseq; [by apply close_wp|]. intros _ w2 (K2&C2&Tm2). pose proof (ke_tear _ _ _ K2) as T2.
  wp_step. wp_step. rewrite (ke_loop _ _ _ K2). simpl. rewrite Htc. unfold Chan.Channel_dtor, get_channel.
  assert (Htch2 : w_channels w2 !! st_tchan site = Some tch) by by rewrite C2.
  wp_step. wp_lookup. wp_step. apply wp_assert_true; [by rewrite (te_idle _ T2 _ _ Htch2)|]. wp_step.
  split; [|split; [simpl; by rewrite C2|]].
  - destruct K2. split; try done. eapply tear_same; [exact T2|done..| |].
    + intros q Hq. simpl. apply lookup_delete_ne. intros <-. apply Hq. right. by right.
    + intros q x Hq. simpl in Hq. apply lookup_delete_Some in Hq as [_ Hq]. by eapply (te_idle _ T2).
  - intros p Hp. simpl. rewrite Tm2. simpl. rewrite Hm. by rewrite bool_decide_eq_true_2.
Qed.

(** ~EventLoop, in the loop's thread. *)
Lemma loop_dtor_wp this wch tch w :
  tear w -> Chan.in_loop_thread w ->
  fixed (w_loop w) = (st_wfd site, st_wchan site, st_tchan site) -> st_wchan site <> st_tchan site ->
  st_wchan site <> nullptr -> w_channels w !! st_wchan site = Some wch -> pooling wch = true ->
  st_tchan site <> nullptr -> w_channels w !! st_tchan site = Some tch ->
  NoDup ((timers_ (w_loop w)).*2) ->
  (forall p, p ∈ (timers_ (w_loop w)).*2 -> p <> nullptr /\ is_Some (w_timers w !! p)) ->
  wp (EventLoop_dtor this this) E (fun _ w' =>
    (forall c cn, w_conns w !! c = Some cn -> owned (untasked w) c = false -> closed cn) /\
    (forall c, w_conns w' !! c = if owned (untasked w) c then w_conns w !! c else None) /\
    all_owned w' /\ w_singles w' = w_singles w /\
    (forall q, fixture q -> (q = st_achan site -> w_channels w !! q = None) -> w_channels w' !! q = None) /\
    (forall p, p ∈ (timers_ (w_loop w)).*2 -> w_timers w' !! p = None) /\
    exists evs, w_trace w' = w_trace w ++ evs /\ map ev_call evs =
      [SysEpollCtl EPOLL_CTL_DEL (fd_ wch) 0 (st_wchan site); SysClose (st_wfd site); SysClose (timerfd_ (w_loop w))] ++
      closes (all_conns w) (untasked w) ++ [SysClose (epollfd_ (w_loop w))]) w.
Proof.
  intros T Ht [= Hwfd Hwc Htc] Hne Hw0 Hwch Hpo Ht0 Htch Hnd Htl.
  unfold EventLoop_dtor, Ev.EventLoop_dtor, get_loop. wp_step. wp_step. rewrite Hwc. wp_step.
  eapply wp_conseq; [by apply (wakeup_off_wp wch)|]. intros _ w1 (K1&Tm1&wch1&C1). wp_step. wp_step.
  rewrite (ke_loop _ _ _ K1), Hwfd. wp_step. eapply wp_conseq; [apply close_wp, K1|]. intros _ w2 (K2&C2&Tm2).
  pose proof (kept_trans _ _ _ _ _ K1 K2) as K12. wp_step. apply wp_assert_true; [apply Z.eqb_refl|]. wp_step.
  eapply wp_conseq; [apply (timers_dtor_wp tch w2 (ke_tear _ _ _ K12)); rewrite ?(ke_loop _ _ _ K12); try done|].
  { by rewrite C2, C1, lookup_insert_ne. } { by rewrite Tm2, Tm1. }
  intros _ w3 (K3&C3&Tm3). rewrite (ke_loop _ _ _ K12) in K3, Tm3.
  pose proof (kept_trans _ _ _ _ _ K12 K3) as K'. clear K12 K1 K2 K3.
  destruct K' as [T3 Cn3 L3 (Sg3&Cl3&Ap3) (e1&Tr3&M3)].
  assert (Hch3 : w_channels w3 = delete (st_tchan site) (<[st_wchan site := wch1]> (w_channels w))) by by rewrite C3, C2, C1.
  wp_step. unfold destroy_tasks, upd_loop. wp_step. wp_step. set (w4 := set_w_loop _ w3).
  assert (Hout : forall c, owned w4 c = owned (untasked w) c).
  { intros c. apply owned_quiet; [|done..]. simpl. by rewrite L3. }
  assert (T4 : tear w4) by (eapply tear_same; [exact T3|done..|apply T3]).
  eapply wp_conseq; [by apply (sweep_J _ _ tear_sweepable)|]. intros _ w5 [T5 S].
  assert (Hw5 : w_channels w5 !! st_wchan site = Some wch1).
  { rewrite (swept_special _ _ _ _ T4 S) by (right; by left). simpl. rewrite Hch3, lookup_delete_ne by done. apply lookup_insert_eq. }
  unfold Chan.Channel_dtor, get_channel. wp_step. wp_step. wp_lookup. wp_step.
  apply wp_assert_true; [by rewrite (te_idle _ T5 _ _ Hw5)|]. wp_step.
  unfold Ev.EPollPoller_dtor, get_loop. wp_step. wp_step. wp_step. wp_step. apply (wp_sys (SysClose _)). intros r k _.
  wp_step. wp_step. simpl. destruct (sw_rest _ _ _ S) as (_&Tm5&_). split_and!.
  - intros c cn Hc Ho. apply (sw_closed _ _ _ S c); [split; [|by rewrite Hout]|by rewrite <- Cn3 in Hc].
    apply live_all. exists cn. simpl. by rewrite Cn3.
  - intros c. rewrite <- Hout, <- Cn3. exact (swept_conns w4 w5 c S).
  - intros c Hl. rewrite <- (swept_all w4 w5 S c Hl). by apply owned_quiet.
  - by rewrite (sw_singles _ _ _ S).
  - intros q Hq Hna. destruct (decide (q = st_wchan site)) as [->|Hnw]; [apply lookup_delete_eq|].
    rewrite lookup_delete_ne, (swept_special _ _ _ _ T4 S) by done. simpl. rewrite Hch3.
    destruct Hq as [Hq|[?| ->]]; [|done|apply lookup_delete_eq].
    rewrite lookup_delete_ne by (intros <-; specialize (Hna Hq); congruence).
    rewrite !lookup_insert_ne by done. by apply Hna.
  - intros p Hp. rewrite Tm5. by apply Tm3.
  - destruct (sw_trace _ _ _ S) as (evs&Htr&Hev). exists (e1 ++ evs ++ [Event (SysClose (epollfd_ (w_loop w5))) r]).
    split; [rewrite Htr; simpl; by rewrite Tr3, <- !app_assoc|].
    assert (Hcl : closes (all_conns w4) w4 = closes (all_conns w) (untasked w)).
    { unfold all_conns. simpl. rewrite Cn3. apply closes_ext. intros c _. split; [apply Hout|]. simpl. by rewrite Cn3. }
    rewrite !map_app, Hev, Hcl, M3, (sw_loop _ _ _ S). simpl. by rewrite L3.
Qed.
(** *** A thread that ends *)

Lemma specials_apart w : server_ok w -> st_achan site <> st_wchan site /\
  st_achan site <> st_tchan site /\ st_wchan site <> st_tchan site.
Proof.
  intros [[Ho _] _]. destruct (server_accepts _ (ob_accepts _ Ho)) as [(_&x&?&_&?&_) _], (ob_wakeup _ Ho) as (_&y&?&_&?&_),
    (ob_timer _ Ho) as (_&z&?&_&?&_). split_and!; congruence.
Qed.

(** A connection that nothing will hold is not open. *)
Definition all_down w : Prop := forall c cn, w_conns w !! c = Some cn -> owned (parting w) c = false -> closed cn.

Lemma server_tear w : server_ok w -> idle w -> E still_open \/ all_down w -> tear w.
Proof.
  intros Hok Hid Hcl. pose proof Hok as [[Ho _] _]. split.
  - intros c cn Hc. destruct (ob_conns _ Ho c cn Hc) as [ch Hen].
    pose proof (proj1 (en_conn _ _ _ _ Hen)) as Hb. split; [apply Hb|]. split; [by eapply Conn.base_chan_null|].
    split; [rewrite fixture_special; by eapply ob_apart|]. exists ch. apply Hb.
  - apply (ob_distinct _ Ho).
  - exact Hid.
  - destruct Hcl as [?|Hcl]; [by left|right]. intros c cn Hc.
    destruct (owned (parting w) c) eqn:Hp; [by left|right]. by eapply Hcl.
Qed.

(** The connections go in two sweeps, one for each destructor. *)
Lemma closes_twice w0 w1 w2 :
  (forall c, owned w2 c = true -> owned w0 c = true) ->
  (forall c, w_conns w1 !! c = if owned w0 c then w_conns w0 !! c else None) ->
  w_conns w2 = w_conns w1 ->
  (closes (all_conns w0) w0 ++ closes (all_conns w2) w2) ≡ₚ
  map (fun x => SysClose (sockfd_ (snd x))) (filter (fun x => owned w2 (fst x) = false) (map_to_list (w_conns w0))).
Proof.
  intros Hmono Hc1 Eq. rewrite !closes_all, <- map_app. apply Permutation_map, NoDup_Permutation.
  - apply list.NoDup_app. split_and!; [apply list.NoDup_filter, NoDup_map_to_list| |apply list.NoDup_filter, NoDup_map_to_list].
    intros [c cn] [Ho _]%list_elem_of_filter [_ Hin]%list_elem_of_filter. simpl in Ho.
    apply elem_of_map_to_list in Hin. by rewrite Eq, Hc1, Ho in Hin.
  - apply list.NoDup_filter, NoDup_map_to_list.
  - intros [c cn]. rewrite elem_of_app, !list_elem_of_filter, !elem_of_map_to_list, Eq, Hc1. simpl.
    specialize (Hmono c). destruct (owned w0 c), (owned w2 c); naive_solver.
Qed.

Lemma end_thread_wp loop sv ac wch w :
  server_ok w -> idle w ->
  E still_open \/ all_down w ->
  w_singles w !! st_server site = Some sv -> w_acceptors w !! st_acceptor site = Some ac ->
  w_channels w !! st_wchan site = Some wch ->
  wp (end_thread loop (st_server site)) E (fun _ w' =>
    all_down w /\
    (forall c, w_conns w' !! c = if owned (parting w) c then w_conns w !! c else None) /\
    all_owned w' /\ w_singles w' !! st_server site = None /\
    (forall q, fixture q -> w_channels w' !! q = None) /\
    (forall p, p ∈ (timers_ (w_loop w)).*2 -> w_timers w' !! p = None) /\
    exists c1 c2 evs, w_trace w' = w_trace w ++ evs /\
    map ev_call evs = c1 ++ [SysClose (acceptfd_ ac); SysEpollCtl EPOLL_CTL_DEL (fd_ wch) 0 (st_wchan site);
        SysClose (st_wfd site); SysClose (timerfd_ (w_loop w))] ++ c2 ++ [SysClose (epollfd_ (w_loop w))] /\
    (c1 ++ c2) ≡ₚ map (fun x => SysClose (sockfd_ (snd x)))
        (filter (fun x => owned (parting w) (fst x) = false) (map_to_list (w_conns w)))) w.
Proof.
  intros Hok Hid Hcl Hsv Hac Hwch. pose proof Hok as [[Ho (Hs0&sv'&Hsv'&Hacc)%server_members] Hfi].
  assert (sv' = sv) as -> by congruence.
  destruct (specials_apart w Hok) as (D1&D2&D3), (timers_once w Hfi) as [Hnd Htl].
  destruct (server_accepts _ (ob_accepts _ Ho)) as ((Hp0&ach&Hap&_)&Ha0&ac'&Hac'&Hach). assert (ac' = ac) as -> by congruence.
  destruct (ob_wakeup _ Ho) as (Hw0&wch'&Hwp&_&_&_&_&_&Hpo),
    (ob_timer _ Ho) as (Ht0&tch&Htp&_). assert (wch' = wch) as -> by congruence.
  pose proof (server_tear w Hok Hid Hcl) as T. unfold end_thread. wp_step.
  eapply wp_conseq; [eapply (single_dtor_wp _ ac sv ach w); done|].
  intros _ w2 []. destruct un_loop0 as (L2&Cu2&Tm2). set (w0 := put_single _ _ w) in *.
  assert (Hmono : forall c, owned (parting w) c = true -> owned w0 c = true).
  { intros c. rewrite <- (parting_ext w w0) by (done || apply delete_insert_eq). apply parting_owned. }
  wp_step. eapply wp_conseq.
  - eapply (loop_dtor_wp _ wch tch w2 un_tear0); rewrite ?L2; try done.
    + unfold Chan.in_loop_thread. rewrite Cu2, L2. apply Ho.
    + apply Ho.
    + rewrite un_chans0; [done|by right; left|done].
    + rewrite un_chans0; [done|by right; right|done].
    + rewrite Tm2. apply Htl.
  - intros _ w3 (Cl3&C3&O3&S3&P3&Tm3&evs&R3&M3). rewrite L2 in *. wp_step. split_and!.
    + intros c cn Hc Hp. destruct (owned w0 c) eqn:Hc0; [|by eapply un_closed0].
      eapply (Cl3 c); [|by rewrite un_owned0]. by rewrite un_conns0, Hc0.
    + intros c. rewrite C3, un_owned0, un_conns0. specialize (Hmono c).
      destruct (owned (parting w) c); [by rewrite Hmono|done].
    + exact O3.
    + by rewrite S3.
    + intros q Hq. apply P3; [done|]. by intros ->.
    + exact Tm3.
    + destruct un_trace0 as (e1&Tr1&M1).
      exists (closes (all_conns w) w0), (closes (all_conns w2) (untasked w2)), (e1 ++ evs).
      split; [by rewrite R3, Tr1, app_assoc|]. split; [by rewrite map_app, M1, M3, <- app_assoc|].
      etransitivity; [apply (closes_twice w0 w2 (untasked w2)); [|done..]|].
      * intros c. rewrite un_owned0. apply Hmono.
      * erewrite list_filter_iff; [done|]. intros x. by rewrite un_owned0.
Qed.

Lemma server_parts w : server_ok w -> exists sv ac wch, w_singles w !! st_server site = Some sv /\
  w_acceptors w !! st_acceptor site = Some ac /\ w_channels w !! st_wchan site = Some wch.
Proof.
  intros [[Ho (_&sv&Hsv&_)%server_members] _].
  destruct (server_accepts _ (ob_accepts _ Ho)) as (_&_&ac&Hac&_), (ob_wakeup _ Ho) as (_&wch&Hwch&_).
  by exists sv, ac, wch.
Qed.
End server.

(** ** Properties *)

Section properties.
Context {K A : Type} `{Kernel K} `{!KernelLaws K} `{Build}.
Context {site : Site} `{!IsServer site} `{!Rep.Epoll K (st_wfd site)} `{AppOwns A}.
Implicit Types w : World K A.
Abbreviation server_ok := (Srv.server_ok (site := site)).
Abbreviation fixture := (fixture (site := site)).
Abbreviation parting := (parting (site := site)).
Abbreviation all_down := (all_down (site := site)).

(** C17: a thread whose open connections are all held by someone else ends
    cleanly.  What the kernel answers does not matter: the connections nothing
    else holds are destroyed, each descriptor closed once; the channels of the
    acceptor, the eventfd and the timerfd are destroyed, the timers deleted;
    the listening socket, the eventfd, the timerfd and the epoll instance are
    closed in this order, the eventfd after it was removed from epoll; and no
    connection is left that nothing refers to. *)
Theorem thread_ends_clean loop sv ac wch w :
  server_ok w -> idle w -> all_down w ->
  w_singles w !! st_server site = Some sv -> w_acceptors w !! st_acceptor site = Some ac ->
  w_channels w !! st_wchan site = Some wch ->
  exists w', end_thread loop (st_server site) w = Ok tt w' /\
    (forall c, w_conns w' !! c = if owned (parting w) c then w_conns w !! c else None) /\
    all_owned w' /\ w_singles w' !! st_server site = None /\
    (forall q, fixture q -> w_channels w' !! q = None) /\
    (forall p, p ∈ (timers_ (w_loop w)).*2 -> w_timers w' !! p = None) /\
    exists c1 c2 evs, w_trace w' = w_trace w ++ evs /\
      map ev_call evs = c1 ++ [SysClose (acceptfd_ ac); SysEpollCtl EPOLL_CTL_DEL (fd_ wch) 0 (st_wchan site);
        SysClose (st_wfd site); SysClose (timerfd_ (w_loop w))] ++ c2 ++ [SysClose (epollfd_ (w_loop w))] /\
      (c1 ++ c2) ≡ₚ map (fun x => SysClose (sockfd_ (snd x)))
        (filter (fun x => owned (parting w) (fst x) = false) (map_to_list (w_conns w))).
Proof.
  intros Hok Hid Hd Hsv Hac Hwch.
  destruct (wp_total _ _ _ (end_thread_wp no_fault loop sv ac wch w Hok Hid (or_intror Hd) Hsv Hac Hwch)) as ([]&w'&Hr&_&Hp).
  by exists w'.
Qed.

(** C36: a thread that ends with an open connection that nothing else holds
    aborts in a debug build: the set of its server is the last owner, and
    ~TcpConnection asserts that the connection is disconnected. *)
Theorem thread_end_aborts loop w c cn :
  server_ok w -> idle w -> ndebug = false ->
  w_conns w !! c = Some cn -> Conn.up cn -> owned (parting w) c = false ->
  end_thread loop (st_server site) w = Err still_open.
Proof.
  intros Hok Hid Hdb Hc Hup Ho. destruct (server_parts w Hok) as (sv&ac&wch&Hsv&Hac&Hwch).
  pose proof (end_thread_wp (eq still_open) loop sv ac wch w Hok Hid (or_introl eq_refl) Hsv Hac Hwch) as Hw.
  unfold wp in Hw. destruct (end_thread _ _ w) as [u w'|f]; [|by rewrite Hw].
  destruct Hw as [Hd _]. destruct (Hd c cn Hc Ho) as [?|Hs]; [congruence|]. exfalso. revert Hup. unfold Conn.up.
  rewrite Hs. by intros [].
Qed.
End properties.

(** ** A whole thread *)

Section thread.
#[local] Existing Instance Tcp.thread_is_server.
Context {K A : Type} `{Kernel K} `{!KernelLaws K} `{Build} {wfd : Z} `{!Rep.Epoll K wfd} `{AppOwns A}.
Implicit Types w : World K A.

End thread.

(** ** Example: the server that sends back what it receives *)

#[local] Instance debug : Build := {| ndebug := false |}.
#[local] Existing Instances Tcp.no_state Tcp.mirror_is_server.
#[export, refine] Instance holds_nothing : AppOwns unit := {| holds := fun _ _ => false |}.
Proof. done. Defined.

Lemma idle_check {K A} (w : World K A) :
  forallb (fun x => negb (handlingEvents_ (snd x))) (map_to_list (w_channels w)) = true -> idle w.
Proof.
  rewrite List.forallb_forall. intros Hf q x Hq. specialize (Hf (q, x)). simpl in Hf.
  apply negb_true_iff, Hf, list_elem_of_In. by apply elem_of_map_to_list.
Qed.
Lemma all_owned_check {K} (w : World K unit) :
  forallb (owned w) (all_conns w) = true -> all_owned w.
Proof.
  rewrite List.forallb_forall. intros Hf c Hl. apply Hf, list_elem_of_In. by apply live_all.
Qed.

Definition closed_fds {K A} (w : World K A) : list Z :=
  omap (fun e => match ev_call e with SysClose fd => Some fd | _ => None end) (w_trace w).

Lemma mirror_life : life_ok (site := Tcp.mirror_site) Tcp.mirror_world.
Proof.
  split_and!; [exact Tcp.mirror_world_ok|apply idle_check; by vm_compute|apply all_owned_check; by vm_compute].
Qed.


(** The world a computation leaves. *)
Definition result {S T} (m : M S T) (w : S) : S := match m w with Ok _ w' => w' | Err _ => w end.
Lemma wp_result {S T} (m : M S T) E (P : S -> Prop) w : wp m E (fun _ => P) w -> P w -> P (result m w).
Proof. unfold wp, result. by destruct (m w). Qed.

Lemma wp_result_ok {S T} (m : M S T) E (P : S -> Prop) w :
  wp m E (fun _ => P) w -> match m w with Ok _ _ => True | Err _ => False end -> P (result m w).
Proof. unfold wp, result. by destruct (m w). Qed.

(** After the peer hung up, before anything is destroyed. *)
Definition hung_up : World Os unit := result (React.loop Tcp.mirror 1) Tcp.mirror_world.
Lemma hung_up_ok : Srv.server_ok (site := Tcp.mirror_site) hung_up.
Proof.
  refine (wp_result (React.loop Tcp.mirror 1) (fun f => f = LengthError \/ f = Fatal "unexpected accept4() error")
    (Srv.server_ok (site := Tcp.mirror_site)) _ _ Tcp.mirror_world_ok).
  eapply wp_conseq.
  - apply (react_ok (site := Tcp.mirror_site) Tcp.mirror _ (Tcp.mirror_contract Tcp.mirror_site));
      [by left|by right|exact Tcp.mirror_world_ok].
  - intros b w' [Hw _]. exact Hw.
Qed.
Lemma hung_up_idle : idle hung_up.
Proof. apply idle_check. by vm_compute. Qed.

(** The sweep destroys the connection. *)
Lemma sweep_destroys_unowned_witness :
  option_map state_ (w_conns hung_up !! 7) = Some kDisconnected /\
  exists w', sweep hung_up = Ok tt w' /\ w_conns w' !! 7 = None /\ closed_fds w' = [30].
Proof.
  split; [by vm_compute|].
  assert (Hv : match sweep hung_up with Ok _ w' => w_conns w' !! 7 = None /\ closed_fds w' = [30] | Err _ => False end)
    by (vm_compute; done).
  destruct (sweep_destroys_unowned (site := Tcp.mirror_site) hung_up hung_up_ok hung_up_idle) as (w'&Hr&_).
  exists w'. split; [exact Hr|]. rewrite Hr in Hv. exact Hv.
Defined.

(** The thread ends after the peer hung up: the connection, the listening
    socket 6, the eventfd, the timerfd 4 and epoll 3 are closed. *)
Lemma thread_ends_clean_witness :
  exists w', end_thread 1 5 hung_up = Ok tt w' /\ w_conns w' !! 7 = None /\ closed_fds w' = [30; 6; os_wfd; 4; 3].
Proof.
  assert (Hv : match end_thread 1 5 hung_up with
    | Ok _ w' => w_conns w' !! 7 = None /\ closed_fds w' = [30; 6; os_wfd; 4; 3] | Err _ => False end)
    by (vm_compute; done).
  destruct (server_parts hung_up hung_up_ok) as (sv&ac&wch&Hsv&Hac&Hwch).
  assert (Hd : all_down (site := Tcp.mirror_site) hung_up).
  { intros c cn Hc _. right. apply elem_of_map_to_list in Hc. revert c cn Hc.
    assert (Hf : forallb (fun x => bool_decide (state_ (snd x) = kDisconnected)) (map_to_list (w_conns hung_up)) = true)
      by (by vm_compute).
    rewrite List.forallb_forall in Hf. intros c cn Hc%list_elem_of_In%Hf. by apply bool_decide_eq_true in Hc. }
  destruct (thread_ends_clean (site := Tcp.mirror_site) 1 sv ac wch hung_up hung_up_ok hung_up_idle Hd Hsv Hac Hwch)
    as (w'&Hr&_).
  exists w'. change (st_server Tcp.mirror_site) with 5 in Hr. split; [exact Hr|]. rewrite Hr in Hv. exact Hv.
Defined.

(** It ends while the connection is open. *)
Lemma thread_end_aborts_witness : end_thread 1 5 Tcp.mirror_world = Err still_open.
Proof.
  destruct Tcp.mirror_conn as (cn&Hc&Hs).
  apply (thread_end_aborts (site := Tcp.mirror_site) 1 Tcp.mirror_world 7 cn Tcp.mirror_world_ok);
    [apply mirror_life|done|exact Hc|by left|by vm_compute].
Defined.

(** A server that quits when its peer hangs up, from the first instruction of
    its thread to the last. *)
Definition once : React.App Os unit := React.mkApp
  (fun _ c => let! d := Conn.disconnected c in when d Loop.quit)
  (fun _ c => Conn.send_buffer c (Conn.input_of c)) (fun _ _ => ret tt)
  (fun _ _ _ => ret tt) (fun _ => ret tt) (fun _ => ret tt) (fun _ => ret tt) null_sockaddr.
Definition once_server : Tcp.TcpServer Os unit := Tcp.setConnectionCallback (UserConnection 1) Tcp.mirror_server.
Definition once_fault (f : fault) : Prop := quit_fault f \/ f = Fatal "unexpected accept4() error".

Lemma once_contract (site : Site) `{!Rep.Epoll Os (st_wfd site)} : contract (site := site) once once_fault.
Proof.
  destruct (Tcp.mirror_contract site) as [_ Hm _ _ _ _].
  split; simpl; try (intros; apply wp_ret, step_refl; done).
  - intros k c w Hok [cn Hc]. destruct (server_conn c cn w Hok Hc) as (Hc0&_).
    unfold Conn.disconnected, get_conn. wp_step. wp_step. wp_lookup. wp_step. wp_step.
    + eapply wp_mono; [by apply quit_keeps|by left|done].
    + by apply step_refl.
  - intros k c w Hok Ho. eapply wp_mono; [by apply (Hm k)| |done]. intros f [?|?]; [by left; left|by right].
Qed.

End Down.
