(* ===== verification/Shared.v ===== *)
(** A server whose connections other threads use.  send, shutdown and forceClose
    of src/TcpConnection.cc and queueInLoop and quit of src/EventLoop.cc may be
    called from any thread; between the handlers and tasks of the loop any
    number of such calls is made here, each as one step (EventLoop's own steps
    interleave more finely in Wakeup.v), and references that other threads drop
    destroy connections there.  The calls keep the invariant of the server, so
    the loop is safe under every such interleaving; stopRead and startRead, whose
    tasks do not hold the connection, are not among them and are shown to break
    it. *)

From S2P Require Import Prelude Ints Kernel Buffer World Poller Channel TimerQueue.
From S2P Require Import TcpConnection EventLoop Endpoints Frame Reports TimerRun Reactor Os ServerInv Server.
From S2P Require Import Lifetime TcpServer Teardown.

Module Share.
Import Srv Serve Life OsK.
#[local] Existing Instances stays_preorder.

(** ** Calls from another thread *)

Inductive foreign_call :=
  | FSend (c : ptr) (data : list byte)
  | FShutdown (c : ptr)
  | FForceClose (c : ptr)
  | FQueueInLoop (cb : Z)
  | FQuit.

Section ops.
Context {K A : Type} `{Kernel K} `{Build} `{AppOwns A}.
Implicit Types w : World K A.

(** [m] run by the thread [tid], which has an errno of its own. *)
Definition on_thread {T} (tid : Z) (m : M (World K A) T) : M (World K A) T :=
  let! w := gets id in
  modify (set_w_cur tid) ;;;
  let! x := m in
  modify (fun w' => set_w_errno (w_errno w) (set_w_cur (w_cur w) w')) ;;;
  ret x.

Definition foreign_run (x : foreign_call) : M (World K A) unit :=
  match x with
  | FSend c data => Conn.send c data
  | FShutdown c => Conn.shutdown c
  | FForceClose c => Conn.forceClose c
  | FQueueInLoop cb => Loop.queueInLoop (TaskUser cb)
  | FQuit => Loop.quit
  end.

(** shutdown asserts that the connection is not closed, quit that it was not
    called before. *)
Definition foreign_pre (x : foreign_call) w : Prop :=
  match x with
  | FSend c data => live c w /\ zlen data <= Buf.max_size
  | FShutdown c => exists cn, w_conns w !! c = Some cn /\ Conn.up cn
  | FForceClose c => live c w
  | FQueueInLoop _ => True
  | FQuit => quit_ (w_loop w) = false
  end.

(** The tasks a call queues: a closed connection drops it. *)
Definition in_state (c : ptr) w (f : ConnectState -> bool) : bool :=
  match w_conns w !! c with Some cn => f (state_ cn) | None => false end.
Definition foreign_tasks (x : foreign_call) w : list Task :=
  match x with
  | FSend c data => if in_state c w (fun s => bool_decide (s = kConnected)) then [TaskSendInLoop c data] else []
  | FShutdown c => if in_state c w (fun s => bool_decide (s = kConnected)) then [TaskShutdownInLoop c] else []
  | FForceClose c => if in_state c w (fun s => negb (bool_decide (s = kDisconnected))) then [TaskForceCloseInLoop c] else []
  | FQueueInLoop cb => [TaskUser cb]
  | FQuit => []
  end.
Definition wakes (x : foreign_call) w : bool :=
  match x with FQuit => true | _ => negb (bool_decide (foreign_tasks x w = [])) end.

(** ** The loop among other threads *)

Variable app : React.App K A.
Variable others : M (World K A) unit.

(** What they do between two handlers, and the references they drop. *)
Definition interlude : M (World K A) unit := others ;;; sweep.

Definition handleEvents (p : ptr) : M (World K A) unit :=
  interlude ;;; Life.handleEvents app p.
Definition run_task (t : Task) : M (World K A) unit :=
  others ;;; React.run_task app t.
Definition doPendingTasks : M (World K A) unit :=
  interlude ;;; Ev.doPendingTasks run_task ;;; sweep.

Definition iteration : M (World K A) unit :=
  upd_loop (set_activeChannels_ []) ;;;
  interlude ;;;
  let! active := Poller.poll [] in
  upd_loop (set_activeChannels_ active) ;;;
  for_each active handleEvents ;;;
  doPendingTasks.

Definition loop (fuel : nat) : M (World K A) bool := run_loop iteration fuel.
End ops.

(** ** The calls keep the invariant *)

Section server.
Context {K A : Type} `{Kernel K} `{!KernelLaws K} `{Build}.
Context {site : Site} `{!Rep.Epoll K (st_wfd site)} `{AppOwns A}.
Implicit Types w : World K A.
Abbreviation server_ok := (Srv.server_ok (site := site)).
Abbreviation step_ok := (Srv.step_ok (site := site)).

(** Back in the loop's thread. *)
Definition leave w w' : World K A := set_w_errno (w_errno w) (set_w_cur (w_cur w) w').

Lemma wp_on_thread {T} tid (m : M (World K A) T) E Q w :
  wp m E (fun x w' => Q x (leave w w')) (set_w_cur tid w) -> wp (on_thread tid m) E Q w.
Proof.
  intros Hm. unfold on_thread, id. wp_step. wp_step. wp_step. wp_step. wp_step.
  eapply wp_conseq; [exact Hm|]. intros x w' HQ. wp_step. wp_step. by wp_step.
Qed.

Lemma sys_cur x tid E (Q : sysret (reply x) -> World K A -> Prop) w :
  wp (sys x) E (fun r w' => w_cur w' = w_cur w -> w_trace w' = w_trace w ++ [Event x r] ->
    w_loop w' = w_loop w -> w_app w' = w_app w -> Q r (set_w_cur tid w')) w ->
  wp (sys x) E Q (set_w_cur tid w).
Proof. unfold wp, sys. simpl. destruct (k_call x (w_kern w)) as [[v|e] k]; simpl; auto. Qed.

(** What a call leaves: the steps of an application, the tasks queued in order
    and the system calls made. *)
Record passed (ts : list Task) (cs : list syscall) w w' : Prop := {
  pa_step : step_ok w w';
  pa_cur : w_cur w' = w_cur w /\ tid_ (w_loop w') = tid_ (w_loop w);
  pa_app : w_app w' = w_app w;
  pa_tasks : pendingTasks_ (w_loop w') = pendingTasks_ (w_loop w) ++ ts;
  pa_trace : exists evs, w_trace w' = w_trace w ++ evs /\ map ev_call evs = cs
}.
Definition wake_call w : syscall := SysWrite (wakeupfd_ (w_loop w)) (le_bytes 8 1).

Lemma passed_none w w' :
  step_ok w w' -> w_cur w' = w_cur w -> tid_ (w_loop w') = tid_ (w_loop w) -> w_app w' = w_app w ->
  w_trace w' = w_trace w -> forall ts, pendingTasks_ (w_loop w') = pendingTasks_ (w_loop w) ++ ts ->
  passed ts [] w w'.
Proof. intros ?????? Ht. split; try done. exists []. by rewrite app_nil_r. Qed.

Lemma passed_trans ts1 ts2 cs1 cs2 w1 w2 w3 :
  passed ts1 cs1 w1 w2 -> passed ts2 cs2 w2 w3 -> passed (ts1 ++ ts2) (cs1 ++ cs2) w1 w3.
Proof.
  intros [S1 [C1 D1] A1 T1 (e1&R1&M1)] [S2 [C2 D2] A2 T2 (e2&R2&M2)].
  split; [by eapply step_trans|split; congruence|congruence|by rewrite T2, T1, app_assoc|].
  exists (e1 ++ e2). by rewrite R2, R1, app_assoc, map_app, M1, M2.
Qed.

(** Writing the eventfd. *)
Lemma wakeup_passed tid w0 w (E : fault -> Prop) (Q : unit -> World K A -> Prop) :
  server_ok w -> w_cur w = w_cur w0 -> w_errno w = w_errno w0 ->
  (forall w', passed [] [wake_call w] w w' -> quit_ (w_loop w') = quit_ (w_loop w) -> Q tt w') ->
  wp Loop.wakeup E (fun x w' => Q x (leave w0 w')) (set_w_cur tid w).
Proof.
  intros Hok Ec Ee HQ. unfold Loop.wakeup, get_loop. wp_step. wp_step. wp_step. apply sys_cur.
  apply sys_step; [done|done|]. intros r w1 Hs1 _ _ Hc Ht Hl Ha. wp_step.
  assert (leave w0 (set_w_cur tid w1) = set_w_errno (w_errno w0) w1) as ->.
  { unfold leave. rewrite <- Ec, <- Hc. by destruct w1. }
  apply HQ; simpl; [|by rewrite Hl]. split; simpl; try done.
  - eapply step_trans; [exact Hs1|]. apply errno_step, Hs1.
  - by rewrite Hl.
  - by rewrite Hl, app_nil_r.
  - by eexists.
Qed.

Lemma queue_passed t tid w0 w (E : fault -> Prop) (Q : unit -> World K A -> Prop) :
  server_ok w -> w_cur w = w_cur w0 -> w_errno w = w_errno w0 -> task_ok w t -> tid_ (w_loop w) <> tid ->
  (forall w', passed [t] [wake_call w] w w' -> quit_ (w_loop w') = quit_ (w_loop w) -> Q tt w') ->
  wp (Loop.queueInLoop t) E (fun x w' => Q x (leave w0 w')) (set_w_cur tid w).
Proof.
  intros Hok Ec Ee Ht Hne%Z.eqb_neq HQ. unfold Loop.queueInLoop, Loop.isInLoopThread, upd_loop, get_loop.
  wp_step. wp_step. wp_step. wp_step. wp_step. wp_step. simpl. rewrite Hne. simpl.
  set (l := set_pendingTasks_ _ _).
  assert (Hs1 : step_ok w (set_w_loop l w)).
  { apply loop_step; [done..|]. simpl. apply list.Forall_app. split; [apply Hok|by constructor]. }
  change (set_w_loop l (set_w_cur tid w)) with (set_w_cur tid (set_w_loop l w)).
  apply (wakeup_passed tid w0 (set_w_loop l w)); [apply Hs1|done|done|].
  intros w' Hp Hq. apply HQ; [|done]. eapply (passed_trans [t] [] [] [_]); [|exact Hp]. by apply passed_none.
Qed.

(** ** The calls *)

Lemma conn_null c cn w : server_ok w -> w_conns w !! c = Some cn -> c <> nullptr.
Proof. intros Hok Hc. by destruct (server_conn c cn w Hok Hc). Qed.

(** The state of an open connection goes to kDisconnecting. *)
Lemma disconnecting_passed c cn w : server_ok w -> w_conns w !! c = Some cn -> Conn.up cn ->
  passed [] [] w (put_conn c (set_state_ kDisconnecting cn) w).
Proof.
  intros Hok Hc Hup. destruct (server_conn c cn w Hok Hc) as (_&?&?).
  apply passed_none; [|done..|by rewrite app_nil_r].
  eapply put_state_keeps; try done. right. split; [done|by right].
Qed.

Definition foreign_call_ok (x : foreign_call) w w' : Prop :=
  passed (foreign_tasks x w) (if wakes x w then [wake_call w] else []) w w' /\
  (x = FQuit -> quit_ (w_loop w') = true).

(** Which tasks a call on the connection [c] queues. *)
Lemma in_state_eq c cn w f : w_conns w !! c = Some cn -> in_state c w f = f (state_ cn).
Proof. unfold in_state. by intros ->. Qed.

Lemma foreign_call_queues x t w w' : x <> FQuit -> foreign_tasks x w = [t] ->
  passed [t] [wake_call w] w w' -> foreign_call_ok x w w'.
Proof.
  intros Hx Ht Hp. unfold foreign_call_ok, wakes. rewrite Ht. rewrite bool_decide_eq_false_2 by done.
  destruct x; by split.
Qed.
Lemma foreign_call_drops x w w' : x <> FQuit -> foreign_tasks x w = [] ->
  passed [] [] w w' -> foreign_call_ok x w w'.
Proof.
  intros Hx Ht Hp. unfold foreign_call_ok, wakes. rewrite Ht. rewrite bool_decide_eq_true_2 by done.
  destruct x; by split.
Qed.

Section call.
Variable tid : Z.
Variable w : World K A.
Variable E : fault -> Prop.
Hypothesis Hok : server_ok w.
Hypothesis Htid : tid_ (w_loop w) <> tid.

(** Each call as the thread makes it, up to its return. *)
Abbreviation call_ok x :=
  (wp (foreign_run x) E (fun _ w' => foreign_call_ok x w (leave w w')) (set_w_cur tid w)).

Lemma leave_back w1 : w_cur w1 = w_cur w -> w_errno w1 = w_errno w -> leave w (set_w_cur tid w1) = w1.
Proof. intros Hc He. unfold leave. rewrite <- Hc, <- He. by destruct w1. Qed.

(** A call that finds the connection closed, or closing, does nothing. *)
Lemma drop_ok x w1 : x <> FQuit -> foreign_tasks x w = [] -> passed [] [] w w1 -> w_errno w1 = w_errno w ->
  foreign_call_ok x w (leave w (set_w_cur tid w1)).
Proof. intros Hx Ht Hp He. rewrite leave_back; [|apply Hp|done]. by apply foreign_call_drops. Qed.

(** A call that queues its task after it changed the world to [w1]. *)
Lemma queues_ok x t w1 : x <> FQuit -> foreign_tasks x w = [t] -> passed [] [] w w1 -> w_errno w1 = w_errno w ->
  task_ok w1 t -> wakeupfd_ (w_loop w1) = wakeupfd_ (w_loop w) ->
  wp (Loop.queueInLoop t) E (fun _ w' => foreign_call_ok x w (leave w w')) (set_w_cur tid w1).
Proof.
  intros Hx Ht Hp He Htk Hwk.
  apply (queue_passed t tid w w1 E (fun _ => foreign_call_ok x w)); [apply Hp|apply Hp|done|done| |].
  - destruct (pa_cur _ _ _ _ Hp) as [_ ->]. done.
  - intros w' Hp' _. apply (foreign_call_queues x t); [done..|]. unfold wake_call in *. rewrite Hwk in Hp'.
    by eapply (passed_trans [] _ []).
Qed.

Lemma stay_passed : passed [] [] w w.
Proof. apply passed_none; [by apply step_refl|done..|by rewrite app_nil_r]. Qed.

Lemma foreign_send_ok c d : foreign_pre (FSend c d) w -> call_ok (FSend c d).
Proof.
  intros [[cn Hc] Hd]. pose proof (conn_null _ _ _ Hok Hc) as Hc0. pose proof (proj2 (Z.eqb_neq _ _) Htid) as Htb.
  unfold foreign_run, Conn.send, Loop.isInLoopThread, get_conn, get_loop. wp_step. wp_lookup.
  pose proof (in_state_eq c cn w (fun s => bool_decide (s = kConnected)) Hc) as Ht. cbn beta in Ht.
  destruct (bool_decide (state_ cn = kConnected)) eqn:Hst; simpl.
  - wp_step. wp_step. simpl. rewrite Htb. apply queues_ok; try done; [unfold foreign_tasks; by rewrite Ht|apply stay_passed|].
    by split; [exists cn|].
  - wp_step. apply (drop_ok _ w); [done|unfold foreign_tasks; by rewrite Ht|apply stay_passed|done].
Qed.

Lemma foreign_shutdown_ok c : foreign_pre (FShutdown c) w -> call_ok (FShutdown c).
Proof.
  intros (cn&Hc&Hup). pose proof (conn_null _ _ _ Hok Hc) as Hc0. pose proof (proj2 (Z.eqb_neq _ _) Htid) as Htb.
  pose proof (disconnecting_passed c cn w Hok Hc Hup) as Hp1. set (w1 := put_conn c _ w) in Hp1.
  unfold foreign_run, Conn.shutdown, Conn.stateAtomicGetAndSet, Conn.set_state, upd_conn, Loop.isInLoopThread, get_conn, get_loop.
  wp_step. wp_lookup. wp_step. apply wp_assert_true.
  { destruct Hup as [-> | ->]; reflexivity. }
  wp_step. wp_step. wp_lookup. wp_step. wp_step. wp_lookup. wp_step. wp_step.
  change (put_conn c _ (set_w_cur tid w)) with (set_w_cur tid w1).
  pose proof (in_state_eq c cn w (fun s => bool_decide (s = kConnected)) Hc) as Ht. cbn beta in Ht.
  destruct (bool_decide (state_ cn = kConnected)) eqn:Hst; simpl.
  - wp_step. wp_step. simpl. rewrite Htb. apply queues_ok; try done; [unfold foreign_tasks; by rewrite Ht|].
    eexists. apply lookup_insert_eq.
  - wp_step. apply (drop_ok _ w1); [done|unfold foreign_tasks; by rewrite Ht|done..].
Qed.

Lemma foreign_forceClose_ok c : foreign_pre (FForceClose c) w -> call_ok (FForceClose c).
Proof.
  intros [cn Hc]. pose proof (conn_null _ _ _ Hok Hc) as Hc0.
  unfold foreign_run, Conn.forceClose, Conn.forceClose_exchange, Conn.stateAtomicGetAndSet, Conn.set_state, upd_conn, get_conn.
  wp_step. wp_lookup. 
  pose proof (in_state_eq c cn w (fun s => negb (bool_decide (s = kDisconnected))) Hc) as Ht. cbn beta in Ht.
  destruct (bool_decide (state_ cn = kDisconnected)) eqn:Hst; simpl.
  { wp_step. apply (drop_ok _ w); [done|unfold foreign_tasks; by rewrite Ht|apply stay_passed|done]. }
  assert (Hup : Conn.up cn).
  { destruct (ob_conns _ (proj1 (proj1 Hok)) _ _ Hc) as [ch Hen].
    destruct (Conn.not_connecting _ (en_state _ _ _ _ Hen)); [done|]. by apply bool_decide_eq_false in Hst. }
  pose proof (disconnecting_passed c cn w Hok Hc Hup) as Hp1. set (w1 := put_conn c _ w) in Hp1.
  wp_step. wp_step. wp_lookup. wp_step. wp_step. wp_lookup. wp_step. wp_step. rewrite Hst. simpl.
  change (put_conn c _ (set_w_cur tid w)) with (set_w_cur tid w1).
  apply queues_ok; try done; [unfold foreign_tasks; by rewrite Ht|]. eexists. apply lookup_insert_eq.
Qed.

Lemma foreign_quit_ok : foreign_pre FQuit w -> call_ok FQuit.
Proof.
  simpl. intros Hpre. pose proof (proj2 (Z.eqb_neq _ _) Htid) as Htb.
  unfold foreign_run, Loop.quit, Loop.isInLoopThread, upd_loop, get_loop. wp_step. wp_step. wp_step.
  apply wp_assert_true; [simpl; by rewrite Hpre|]. wp_step. wp_step. wp_step. wp_step. simpl. rewrite Htb. simpl.
  set (w1 := set_w_loop (set_quit_ true (w_loop w)) w).
  change (set_w_loop _ (set_w_cur tid w)) with (set_w_cur tid w1).
  assert (Hs1 : step_ok w w1) by (apply loop_step; [done..|apply Hok]).
  apply (wakeup_passed tid w w1 E (fun _ => foreign_call_ok FQuit w)); [apply Hs1|done|done|].
  intros w' Hp Hq. split; [|by rewrite Hq]. eapply (passed_trans [] [] [] [_]); [|exact Hp].
  apply passed_none; [done..|]. by rewrite app_nil_r.
Qed.

Lemma foreign_wp x : foreign_pre x w -> wp (on_thread tid (foreign_run x)) E (fun _ => foreign_call_ok x w) w.
Proof.
  intros Hpre. apply wp_on_thread. destruct x as [c d|c|c|cb|].
  - by apply foreign_send_ok.
  - by apply foreign_shutdown_ok.
  - by apply foreign_forceClose_ok.
  - apply (queues_ok (FQueueInLoop cb) (TaskUser cb) w); try done. apply stay_passed.
  - by apply foreign_quit_ok.
Qed.
End call.

(** ** The loop *)

Section loop.
Variable app : React.App K A.
Variable others : M (World K A) unit.
Variable E : fault -> Prop.
Hypothesis Happ : contract (site := site) app E.
Hypothesis E_length : E LengthError.
Hypothesis E_accept : E (Fatal "unexpected accept4() error").
Hypothesis Hothers : forall w, server_ok w -> wp others E (fun _ => step_ok w) w.

Abbreviation ready := (Serve.ready (site := site)).

Lemma stays_ready q w w' : stays nobody w w' -> ready q w -> ready q w'.
Proof.
  intros Hs Hr. eapply (ready_handled (q + 1) nobody); [|lia|by intros (c&cn&[]&_)|exact Hr].
  split; [apply Hs| |by apply stays_idle with nobody]. intros q' ch _. apply Hs.
Qed.

Lemma interlude_ok w : server_ok w -> idle w ->
  wp (interlude others) E (fun _ w' => server_ok w' /\ idle w' /\ forall q, ready q w -> ready q w') w.
Proof.
  intros Hok Hid. unfold interlude. wp_step. eapply wp_conseq; [by apply Hothers|].
  intros _ w1 (Hok1&Hs1&_). eapply wp_conseq; [apply sweep_wp; [done|by eapply stays_idle]|].
  intros _ w2 (?&?&S). split_and!; [done..|]. intros q Hq. eapply ready_swept; [exact Hok1|exact S|].
  by eapply stays_ready.
Qed.

Lemma shared_dispatch_ok qs w :
  server_ok w -> idle w -> NoDup qs -> (forall q, q ∈ qs -> ready q w) ->
  wp (for_each qs (handleEvents app others)) E (fun _ w' => server_ok w' /\ idle w') w.
Proof.
  intros Hok Hid Hnd Hrd.
  eapply wp_conseq with (Q := fun _ w' => (server_ok w' /\ idle w') /\ NoDup ([] : list ptr) /\ forall q, q ∈ [] -> ready q w').
  2: { by intros _ w' [? _]. }
  apply (wp_for_each _ _ _ (fun l w' => (server_ok w' /\ idle w') /\ NoDup l /\ forall q, q ∈ l -> ready q w')); [done|].
  clear w Hok Hid Hnd Hrd qs. intros q qs w ([Hok Hid]&[Hq Hnd]%list.NoDup_cons&Hrd).
  unfold handleEvents. wp_step. eapply wp_conseq; [by apply interlude_ok|]. intros _ w1 (Hok1&Hid1&Hrd1).
  eapply wp_conseq; [apply (life_handle_ok app E Happ E_length E_accept); [done..|]; apply Hrd1, Hrd; by left|].
  intros _ w2 (Hok2&Hid2&Hrd2). split_and!; [done..|]. intros q' Hq'. apply Hrd2; [by intros ->|].
  apply Hrd1, Hrd. by right.
Qed.

Lemma shared_task_ok t w : server_ok w -> task_ok w t ->
  wp (run_task app others t) E (fun _ w' => server_ok w' /\ exists X, stays X w w') w.
Proof.
  intros Hok Ht. unfold run_task. wp_step. eapply wp_conseq; [by apply Hothers|]. intros _ w1 (Hok1&Hs1&_).
  eapply wp_conseq; [apply (task_step app E Happ E_length); [done|by eapply stays_task]|].
  intros _ w2 (Hok2&X&Hs2). split; [done|]. exists X. etransitivity; [|exact Hs2]. eapply stays_mono; [exact Hs1|by intros ? []].
Qed.

Lemma shared_tasks_ok w : server_ok w -> idle w -> wp (doPendingTasks app others) E (fun _ => life_ok (site := site)) w.
Proof.
  intros Hok Hid. unfold doPendingTasks. wp_step. eapply wp_conseq; [by apply interlude_ok|]. intros _ w1 (Hok1&Hid1&_).
  wp_step. eapply wp_conseq; [apply (run_tasks_ok E); [exact shared_task_ok|exact Hok1]|]. intros _ w2 [Hok2 Hid2].
  eapply wp_conseq; [apply sweep_wp; auto|]. intros _ w3 (?&?&S). split_and!; [done..|by eapply swept_all].
Qed.

Lemma shared_iteration_ok w : server_ok w -> idle w -> wp (iteration app others) E (fun _ => life_ok (site := site)) w.
Proof.
  intros Hok Hid. unfold iteration, upd_loop. wp_step. wp_step.
  assert (Hok1 : server_ok (set_w_loop (set_activeChannels_ [] (w_loop w)) w)) by (apply loop_ok; [done..|apply Hok]).
  wp_step. eapply wp_conseq; [by apply interlude_ok|]. intros _ w1 (Hok2&Hid2&_).
  wp_step. eapply wp_conseq; [by apply (poll_ok E)|]. intros active w2 (Hok3&Hnd&Hrd&Hid3). wp_step. wp_step.
  set (w3 := set_w_loop _ w2). wp_step. eapply wp_conseq; [apply (shared_dispatch_ok active w3); [|by apply Hid3|done|exact Hrd]|].
  - apply loop_ok; [done..|]. apply Hok3.
  - intros _ w4 [? ?]. by apply shared_tasks_ok.
Qed.
End loop.

(** ** Properties *)

(** C14: what another thread may do with a connection it holds a reference to.
    send, shutdown and forceClose, queueInLoop and quit, called from a thread
    that is not the loop's at any point between two handlers, never fault; they
    keep the invariant of the server and its loop, queue exactly the task of
    the call behind those that wait (none if the connection is closed), and
    write the eventfd once if and only if there is something to wake the loop
    for. *)
Theorem foreign_calls_keep_server tid x w :
  server_ok w -> tid_ (w_loop w) <> tid -> foreign_pre x w ->
  exists w', on_thread tid (foreign_run x) w = Ok tt w' /\ step_ok w w' /\ w_cur w' = w_cur w /\
    pendingTasks_ (w_loop w') = pendingTasks_ (w_loop w) ++ foreign_tasks x w /\
    (exists evs, w_trace w' = w_trace w ++ evs /\
       map ev_call evs = if wakes x w then [SysWrite (wakeupfd_ (w_loop w)) (le_bytes 8 1)] else []) /\
    (x = FQuit -> quit_ (w_loop w') = true).
Proof.
  intros Hok Ht Hpre. destruct (wp_total _ _ _ (foreign_wp tid w no_fault Hok Ht x Hpre)) as ([]&w'&Hr&[Hp Hq]).
  exists w'. destruct Hp as [? [? _] _ ? ?]. by split_and!.
Qed.

End server.

(** ** Example: a thread that sends on a connection of the server *)

#[local] Instance debug : Build := {| ndebug := false |}.

(** The reference the thread has got and what it has left to send; when it is
    done it asks for the end of the connection and lets it go. *)
Record Peer := mkPeer { held : option ptr; plan : list (list byte) }.

#[export] Instance peer_inv : AppInv Peer := {|
  app_inv := fun a P => (forall c, held a = Some c -> P c) /\ Forall (fun d => zlen d <= Buf.max_size) (plan a);
  app_inv_mono := fun a P Q HP HPQ => conj (fun c Hc => HPQ c (proj1 HP c Hc)) (proj2 HP)
|}.
#[export, refine] Instance peer_owns : AppOwns Peer := {| holds := fun a c => bool_decide (held a = Some c) |}.
Proof. intros a P Q [HP Hs] HPQ. split; [|done]. intros c Hc. apply HPQ; [by apply bool_decide_eq_true|by apply HP]. Defined.

Section peer.
Context {K : Type} `{Kernel K} `{Build}.
Abbreviation W := (World K Peer).

Definition peer_step : M W unit :=
  let! a := gets w_app in
  let! tid := get_loop tid_ in
  match held a, plan a with
  | Some c, d :: ds =>
      modify (set_w_app (mkPeer (Some c) ds)) ;;;
      on_thread (tid + 1) (foreign_run (FSend c d))
  | Some c, [] =>
      on_thread (tid + 1) (foreign_run (FForceClose c)) ;;;
      modify (set_w_app (mkPeer None []))
  | None, _ => ret tt
  end.

(** The connection callback hands new connections to the thread. *)
Definition peer_app : React.App K Peer := React.mkApp
  (fun _ c => let! up := Conn.connected c in
              when up (modify (fun w => set_w_app (mkPeer (Some c) (plan (w_app w))) w)))
  (fun _ c => Conn.send_buffer c (Conn.input_of c)) (fun _ _ => ret tt)
  (fun _ _ _ => ret tt) (fun _ => ret tt) (fun _ => ret tt) (fun _ => ret tt) null_sockaddr.
End peer.

Section peer_ok.
Context {K : Type} `{Kernel K} `{!KernelLaws K} `{Build}.
Context {site : Site} `{!Rep.Epoll K (st_wfd site)}.
Abbreviation W := (World K Peer).
Implicit Types w : W.
Abbreviation server_ok := (Srv.server_ok (site := site)).
Abbreviation step_ok := (Srv.step_ok (site := site)).

Lemma peer_app_inv w : server_ok w -> app_inv (w_app w) (fun c => live c w).
Proof. intros Hok. exact (ob_app _ (proj1 (proj1 Hok))). Qed.

Lemma peer_step_ok (E : fault -> Prop) w :
  server_ok w -> wp peer_step E (fun _ => step_ok w) w.
Proof.
  intros Hok. destruct (peer_app_inv w Hok) as [Hh Hp]. unfold peer_step, get_loop. wp_step. wp_step. wp_step. wp_step.
  destruct (held (w_app w)) as [c|] eqn:Hc; [|wp_step; by apply step_refl]. specialize (Hh c eq_refl).
  destruct (plan (w_app w)) as [|d ds] eqn:Hds.
  - wp_step. eapply wp_conseq; [apply (foreign_wp _ w); [done|lia|exact Hh]|].
    intros _ w1 [[Hs1 _ _ _ _] _]. wp_step. eapply step_trans; [exact Hs1|]. apply set_app_keeps; [apply Hs1|].
    split; [done|constructor].
  - apply list.Forall_cons in Hp as [Hd Hp]. wp_step. wp_step. set (w1 := set_w_app _ w).
    assert (Hs1 : step_ok w w1).
    { apply set_app_keeps; [done|]. split; [|done]. intros q [= <-]. exact Hh. }
    eapply wp_conseq; [apply (foreign_wp _ w1); [apply Hs1|simpl; lia|by split]|].
    intros _ w2 [[Hs2 _ _ _ _] _]. eapply step_trans; [exact Hs1|exact Hs2].
Qed.

Definition peer_fault (f : fault) : Prop := f = LengthError \/ f = Fatal "unexpected accept4() error".

Lemma peer_contract : contract (site := site) peer_app peer_fault.
Proof.
  assert (Hret : forall E w, server_ok w -> wp (ret tt : M W unit) E (fun _ => step_ok w) w)
    by (intros; apply wp_ret, step_refl; done).
  split; simpl; auto.
  - intros k c w Hok Hl. pose proof Hl as [cn Hc]. pose proof (conn_null _ _ _ Hok Hc) as Hc0.
    unfold Conn.connected, get_conn. wp_step. wp_step. wp_lookup. wp_step. apply wp_when; intros _; [|by apply step_refl].
    wp_step. apply set_app_keeps; [done|]. split; [|apply (peer_app_inv w Hok)]. by intros q [= <-].
  - intros k c w Hok (cn&Hc&_). eapply wp_mono; [by eapply send_buffer_keeps|by intros f <-; left|done].
Qed.
End peer_ok.

(** threadInitCallback_ sets the state up. *)
Definition peer_init : M (World Os Peer) unit := modify (set_w_app (mkPeer None [[x61]; [x62]])).
Definition peer_server : Tcp.TcpServer Os Peer :=
  Tcp.setThreadInitCallback (fun _ => peer_init)
    (Tcp.setConnectionCallback (UserConnection 1) (Tcp.setMessageCallback (UserMessage 1) (Tcp.TcpServer_ctor null_sockaddr))).

(** The connection of mirror_thread: the thread sends twice while tasks run and
    forces its end before the next epoll_wait. *)
Definition peer_script : list raw := Tcp.startup ++ Tcp.accepted ++
  [RNum 8; RNum 8; RNum 1; RNum 8; REvents [(EPOLLIN, 1)]; RBytes (replicate 8 x00); RNum 1; RNum 0].
Definition peer_start : World Os Peer :=
  Down.result (Tcp.runInThread_setup 1 peer_server 1) (Tcp.new_thread (mkPeer None []) peer_script []).

Lemma peer_start_life : life_ok (site := Tcp.mirror_site) peer_start.
Proof.
  assert (Hi : Tcp.only_app (Tcp.ts_threadInitCallback_ peer_server 1)).
  { intros w. exists (mkPeer None [[x61]; [x62]]). split; [done|]. split; [done|].
    repeat constructor; by vm_compute. }
  refine (Down.wp_result_ok (Tcp.runInThread_setup 1 peer_server 1) Tcp.fatal (life_ok (site := Tcp.mirror_site)) _ _ _).
  - eapply wp_conseq; [by apply Tcp.setup_ok; [apply Tcp.new_thread_blank|]|].
    intros s w (?&?&Hc&_). split_and!; [done..|]. intros c [cn Hcn]. by rewrite Hc in Hcn.
  - by vm_compute.
Qed.


#[local] Existing Instances Tcp.no_state Down.holds_nothing.

(** A send to the open connection of the example. *)
Lemma foreign_calls_keep_server_witness : exists w',
  on_thread 2 (foreign_run (FSend 7 [x61])) Tcp.mirror_world = Ok tt w' /\
  Srv.step_ok (site := Tcp.mirror_site) Tcp.mirror_world w' /\
  pendingTasks_ (w_loop w') = [TaskSendInLoop 7 [x61]].
Proof.
  assert (Hv : match on_thread 2 (foreign_run (FSend 7 [x61])) Tcp.mirror_world with
    | Ok _ w' => pendingTasks_ (w_loop w') = [TaskSendInLoop 7 [x61]] | Err _ => False end) by (vm_compute; done).
  assert (Ht : (tid_ (w_loop Tcp.mirror_world) =? 2) = false) by (vm_compute; reflexivity).
  apply Z.eqb_neq in Ht. destruct Tcp.mirror_conn as (cn&Hc&_).
  assert (Hpre : foreign_pre (FSend 7 [x61]) Tcp.mirror_world).
  { split; [exact (ex_intro _ cn Hc)|]. apply Z.leb_le. vm_compute. reflexivity. }
  destruct (foreign_calls_keep_server (site := Tcp.mirror_site) 2 (FSend 7 [x61]) Tcp.mirror_world Tcp.mirror_world_ok Ht Hpre)
    as (w'&Hr&Hs&_).
  exists w'. split; [exact Hr|]. split; [exact Hs|]. rewrite Hr in Hv. exact Hv.
Defined.

(** ** stopRead and startRead of another thread *)

(** The connection of mirror_thread is open; epoll will report the end of its
    stream. *)
Definition before_eof : World Os unit :=
  Down.result (Tcp.runInThread 1 Tcp.mirror_server 1 Tcp.mirror 2)
    (Tcp.new_thread tt (Tcp.startup ++ Tcp.accepted ++
      [REvents [(EPOLLIN, 6)]; RBytes Tcp.hi; RNum 2; RNum 8; REvents [(EPOLLIN, 6)]; RBytes []]) []).

(** One more iteration after another thread made the call [m]. *)
Definition eof_after (m : M (World Os unit) unit) : outcome (World Os unit) bool :=
  Life.loop Tcp.mirror 1 (Down.result (on_thread 2 m) before_eof).

End Share.
