(* ===== verification/Client.v ===== *)
(** A TcpClient in its loop, from its first instruction on: start, the attempts
    to connect and their repetition by the retry timer, until a connection is
    established; from then on the invariant of ServerInv.v holds with the client
    as the owner of the connection, and the theorems about the loop with a
    server apply.  The phase before it has an invariant of its own
    ([seeking]). *)

From S2P Require Import Prelude Ints Kernel Buffer World Poller Channel TimerQueue.
From S2P Require Import TcpConnection EventLoop Endpoints Frame Reports TimerRun Reactor Os ServerInv Server.
From S2P Require Import Lifetime TcpServer.

Module Cli.
Import Srv Serve Life OsK.
#[local] Existing Instances Frame.frame_preorder Frame.rewired_loose Frame.idle_loose stays_preorder.

(** A loop with the client [x]. *)
Definition client_site (x wch tch : ptr) (wfd : Z) : Site := mkSite (OClient x) wch tch wfd.

(** The repeating timer of start, next due at [d]. *)
Definition retry_timer (x : ptr) (d : Z) : Timer := TQ.Timer_new (Some (TimerRetry x)) d Ends.retry_interval.

Section client.
Context {K A : Type} `{Kernel K} `{!KernelLaws K} `{Build} {wfd : Z} `{!Rep.Epoll K wfd} `{AppOwns A}.
Implicit Types w : World K A.
Variables x wch tch : ptr.
Abbreviation site := (client_site x wch tch wfd).
Abbreviation Lk := (@Rep.linked K A _ wfd _).

(** ** The invariant before there is a connection *)

(** The loop and its two channels; of the others epoll may only report those
    in [X]. *)
Record ground (X : ptr -> Prop) w : Prop := {
  gr_thread : Chan.in_loop_thread w;
  gr_wake : fixed (w_loop w) = (wfd, wch, tch) /\ wfd <> -1;
  gr_wakeup : reads wch EventLoopHandleRead w;
  gr_timer : reads tch TimerQueueHandleRead w;
  gr_apart : wch <> tch;
  gr_conns : w_conns w = ∅;
  gr_next : 0 < w_next w;
  gr_chans : forall q ch, w_channels w !! q = Some ch -> q < w_next w;
  gr_unused : forall q, w_next w <= q -> registered q (w_trace w) = Reg None;
  gr_known : forall q, watched q (w_trace w) -> q = wch \/ q = tch \/ X q;
  gr_tasks : pendingTasks_ (w_loop w) = [];
  gr_linked : Lk w;
  gr_app : app_inv (w_app w) (fun _ => False)
}.

(** A channel that waits for its socket to become writable. *)
Definition waiter (k : ptr) (ch : Channel) : Prop :=
  tied_ ch = false /\ readCallback_ ch = None /\ writeCallback_ ch = Some (ConnectorHandleWrite k) /\
  closeCallback_ ch = None /\ errorCallback_ ch = None.

(** The connector [k] with the channel [p]: its connect is in progress ([on]),
    or has failed. *)
Record attempt (on : bool) (k p : ptr) w : Prop := {
  at_null : k <> nullptr /\ k < w_next w /\ p <> wch /\ p <> tch;
  at_conn : exists cr, w_connectors w !! k = Some cr /\ started_ cr = true /\ connected_ cr = false /\
    x_channel_ cr = p /\ x_newConnectionCallback_ cr = Some (ClientNewConnection x) /\ x_sockfd_ cr <> wfd /\
    (on = true -> descriptor p (w_trace w) <> None -> descriptor p (w_trace w) = Some (x_sockfd_ cr));
  at_chan : exists ch, w_channels w !! p = Some ch /\ waiter k ch;
  at_synced : Chan.synced p (if on then EPOLLOUT else 0) w
}.

(** The client, with the connector [k] and the retry timer [t]. *)
Definition client_at (k t : ptr) w : Prop :=
  x <> nullptr /\ exists cl, w_clients w !! x = Some cl /\ c_connected_ cl = false /\ connector_ cl = k /\
    retryTimer_ cl = t /\ connection_ cl = None /\
    c_connectionCallback_ cl <> None /\ c_messageCallback_ cl <> None.

(** The queue of timers holds the retry timer [t]. *)
Definition retrying (t : ptr) w : Prop := 0 < t < w_next w /\
  exists d, 0 <= d < 2 ^ 63 /\ timers_ (w_loop w) = [(d, t)] /\ w_timers w = {[t := retry_timer x d]}.

Definition pursues (on : bool) (k p t : ptr) w : Prop :=
  ground (fun q => on = true /\ q = p) w /\ attempt on k p w /\ client_at k t w /\ retrying t w.
Definition seeking w : Prop := exists on k p t, pursues on k p t w.

(** ** What keeps it *)

Lemma ground_same X w w' :
  ground X w -> w_conns w' = w_conns w ->
  (forall q, q = wch \/ q = tch -> w_channels w' !! q = w_channels w !! q) ->
  (forall q ch, w_channels w' !! q = Some ch -> q < w_next w') ->
  tid_ (w_loop w') = tid_ (w_loop w) -> fixed (w_loop w') = fixed (w_loop w) ->
  pendingTasks_ (w_loop w') = pendingTasks_ (w_loop w) ->
  w_cur w' = w_cur w -> w_app w' = w_app w -> w_next w <= w_next w' ->
  (forall q, keeps_reg q (w_trace w) (w_trace w')) -> Lk w' -> ground X w'.
Proof.
  intros [] E1 E2 E3 E4 E5 E6 E7 E8 E9 E10 Hlk. split; rewrite ?E1, ?E5, ?E6, ?E8; auto.
  - unfold Chan.in_loop_thread in *. congruence.
  - eapply reads_frame; [done|]. apply E2. by left.
  - eapply reads_frame; [done|]. apply E2. by right.
  - lia.
  - intros q Hq. rewrite (proj1 (E10 q)). apply gr_unused0. lia.
  - intros q Hq. apply gr_known0. eapply keeps_reg_watched; [apply E10|done].
Qed.

Lemma ground_mono (X Y : ptr -> Prop) w : ground X w -> (forall q, X q -> Y q) -> ground Y w.
Proof.
  intros [] HXY. split; auto. intros q Hq. destruct (gr_known0 q Hq) as [?|[?|?]]; auto.
Qed.

(** A system call, or a reading of the clock. *)
Lemma ground_sys c X (E : fault -> Prop) (Q : sysret (reply c) -> World K A -> Prop) w :
  ground X w -> match c with SysEpollCtl _ _ _ _ => False | _ => True end ->
  (forall r w' e k, w' = set_w_errno e (set_w_kern k (set_w_trace (w_trace w ++ [Event c r]) w)) ->
     ground X w' -> Rep.truthful wfd (w_trace w) c r -> Q r w') -> wp (sys c) E Q w.
Proof.
  intros Hg Hc HQ. apply Rep.wp_sys_truth; [apply Hg|]. destruct (k_call c (w_kern w)) as [r k].
  intros _ Htr w' Hlk. eapply HQ; [done| |done]. eapply ground_same; [exact Hg|try done..]; [apply Hg|].
  intros q. simpl. apply keeps_reg_snoc. by destruct c.
Qed.

(** A change of a channel that is not one of the loop's. *)
Lemma ground_put X q ch w : ground X w -> q <> wch -> q <> tch -> q < w_next w -> ground X (put_channel q ch w).
Proof.
  intros Hg Hw Ht Hq. eapply ground_same; [exact Hg|try done..]; [| |apply Hg]; simpl.
  - intros q' Hq'. apply lookup_insert_ne. destruct Hq' as [->| ->]; congruence.
  - intros q' ch' [[<- _]|[_ Hl]]%lookup_insert_Some; [done|by eapply gr_chans].
Qed.

Lemma ground_touch X q ch ch' w :
  ground X w -> w_channels w !! q = Some ch -> alike ch ch' -> ground X (put_channel q ch' w).
Proof.
  intros Hg Hq Hal. unfold alike in Hal.
  assert (Hreads : forall q' cb, reads q' cb w -> reads q' cb (put_channel q ch' w)).
  { intros q' cb (Hq'&y&Hy&?&?&?&?&?&?). split; [done|]. simpl. destruct (decide (q = q')) as [<-|Hne].
    - exists ch'. rewrite lookup_insert_eq. assert (y = ch) as -> by congruence. rewrite Hal. by split_and!.
    - exists y. rewrite lookup_insert_ne by done. by split_and!. }
  destruct Hg. split; auto. simpl. intros q' ch0 [[<- _]|[_ Hl]]%lookup_insert_Some; by eapply gr_chans0.
Qed.

(** Marks on channels. *)
Lemma pursues_touch on k p t q ch ch' w :
  pursues on k p t w -> w_channels w !! q = Some ch -> alike ch ch' -> pursues on k p t (put_channel q ch' w).
Proof.
  intros (Hg&[Hk Hc (y&Hy&Hw) (Hp&Ht&z&Hz&He&Hpo&Hr)]&Hcl&Hrt) Hq Hal.
  assert (z = y) as -> by congruence.
  split; [by eapply ground_touch|]. split; [|by split]. unfold alike in Hal.
  assert (Hl : exists y', w_channels (put_channel q ch' w) !! p = Some y' /\ alike y y').
  { simpl. destruct (decide (q = p)) as [->|Hne].
    - exists ch'. rewrite lookup_insert_eq. assert (y = ch) as -> by congruence. done.
    - exists y. rewrite lookup_insert_ne by done. split; [done|]. unfold alike. by destruct y. }
  destruct Hl as (y'&Hy'&Hal'). unfold alike in Hal'. split; [done..| |].
  - exists y'. split; [done|]. rewrite Hal'. exact Hw.
  - split; [done|]. split; [done|]. exists y'. split; [done|]. rewrite Hal'. by split_and!.
Qed.

(** System calls. *)
Lemma attempt_sys on k p c r e k0 w : attempt on k p w ->
  match c with SysEpollCtl _ _ _ _ => False | _ => True end ->
  attempt on k p (set_w_errno e (set_w_kern k0 (set_w_trace (w_trace w ++ [Event c r]) w))).
Proof.
  intros [Hk (cr&?&?&?&?&?&?&Hd) Hch Hs] Hc. split; try done.
  - exists cr. split_and!; try done. simpl. rewrite descriptor_snoc. unfold descriptor_step.
    destruct c; try done. simpl. case_bool_decide; [done|exact Hd].
  - by apply Ends.synced_event.
Qed.

Lemma pursues_sys_run on k p t c (E : fault -> Prop) (Q : sysret (reply c) -> World K A -> Prop) w :
  pursues on k p t w -> match c with SysEpollCtl _ _ _ _ => False | _ => True end ->
  (forall r w' e k0, w' = set_w_errno e (set_w_kern k0 (set_w_trace (w_trace w ++ [Event c r]) w)) ->
     pursues on k p t w' -> Rep.truthful wfd (w_trace w) c r -> fst (k_call c (w_kern w)) = r -> Q r w') ->
  wp (sys c) E Q w.
Proof.
  intros (Hg&Ha&Hcl&Hrt) Hc HQ. apply Rep.wp_sys_truth; [apply Hg|]. destruct (k_call c (w_kern w)) as [r k0].
  intros _ Htr w' Hlk. eapply HQ; [done| |done|done].
  assert (Hreg : forall q, keeps_reg q (w_trace w) (w_trace w')) by (intros q; simpl; apply keeps_reg_snoc; by destruct c).
  split; [|split; [|by split]].
  - eapply ground_same; [exact Hg|try done..]. apply Hg.
  - by apply attempt_sys.
Qed.

Lemma pursues_sys on k p t c (E : fault -> Prop) (Q : sysret (reply c) -> World K A -> Prop) w :
  pursues on k p t w -> match c with SysEpollCtl _ _ _ _ => False | _ => True end ->
  (forall r w' e k0, w' = set_w_errno e (set_w_kern k0 (set_w_trace (w_trace w ++ [Event c r]) w)) ->
     pursues on k p t w' -> Rep.truthful wfd (w_trace w) c r -> Q r w') -> wp (sys c) E Q w.
Proof. intros Hp Hc HQ. eapply pursues_sys_run; [exact Hp|done|]. intros r w' e k0 E1 Hp' Ht _. by eapply HQ. Qed.

(** The loop's own flags. *)
Lemma pursues_loop on k p t l w :
  pursues on k p t w -> tid_ l = tid_ (w_loop w) -> fixed l = fixed (w_loop w) ->
  timers_ l = timers_ (w_loop w) -> pendingTasks_ l = pendingTasks_ (w_loop w) -> pursues on k p t (set_w_loop l w).
Proof.
  intros (Hg&[Hk Hc Hch (?&Ht&?)]&Hcl&[Htn (d&Hd&Hl&Hm)]) E1 E2 E3 E4.
  split; [|split; [|split; [done|]]].
  - eapply ground_same; [exact Hg|try done..]; apply Hg.
  - split; try done. split; [done|]. split; [|done]. unfold Chan.in_loop_thread in *. simpl. congruence.
  - split; [done|]. exists d. simpl. by rewrite E3.
Qed.

(** The application's state. *)
Lemma pursues_app on k p t a w :
  pursues on k p t w -> app_inv a (fun _ => False) -> pursues on k p t (set_w_app a w).
Proof.
  intros (Hg&[Hk Hc Hch Hs]&Hcl&Hrt) Ha. split; [|by split; [split|split]]. destruct Hg. by split.
Qed.

(** ** Beginning to connect *)

(** How an attempt to connect can fail at once: there is no socket, or connect
    does not answer EINPROGRESS and the assertion of removeChannel fails. *)
Definition connect_fault (f : fault) : Prop :=
  f = Fatal "Connector createSocket" \/ f = AssertFail "!channel->isNoneEvents()".

(** Channels outside of [P] are as they were, and new ones are not handled. *)
Definition chans_kept (P : ptr -> Prop) w w' : Prop := w_next w <= w_next w' /\
  (forall q, q < w_next w -> ~ P q -> w_channels w' !! q = w_channels w !! q) /\
  forall q ch, w_next w <= q -> w_channels w' !! q = Some ch -> handlingEvents_ ch = false.

(** The objects that attempts to connect leave alone. *)
Record aside (P : ptr -> Prop) w w' : Prop := {
  as_loop : w_loop w' = w_loop w;
  as_timers : w_timers w' = w_timers w;
  as_app : w_app w' = w_app w;
  as_chans : chans_kept P w w'
}.

(** A connector that was not started. *)
Definition new_connector (peer : sockaddr_in) (fd : Z) (p : ptr) (error : option Z) : Connector :=
  mkConnector peer fd false false p (Some (ClientNewConnection x)) error.
Definition new_waiter (k : ptr) (fd : Z) : Channel :=
  set_writeCallback_ (Some (ConnectorHandleWrite k)) (Chan.Channel_new fd).

Section attempt.
Variable app : React.App K A.
Hypothesis Hdebug : ndebug = false.

(** The connector [k], now [cr], has begun to connect with the channel [p]. *)
Definition begun (k p : ptr) (cr : Connector) w w' : Prop :=
  ground (fun q => true = true /\ q = p) w' /\ attempt true k p w' /\
  w_clients w' = w_clients w /\ w_next w' = w_next w /\ w_loop w' = w_loop w /\ w_timers w' = w_timers w /\
  w_app w' = w_app w /\ w_connectors w' = <[k := cr]> (w_connectors w) /\
  (forall q, q <> p -> w_channels w' !! q = w_channels w !! q) /\
  exists ch, w_channels w' !! p = Some ch /\ handlingEvents_ ch = false.

(** connect is in progress: its channel waits for writability. *)
Lemma enableWrite_begun k p peer fd ecb w : let cr := set_started_ true (new_connector peer fd p ecb) in
  ground (fun _ => False) w -> k <> nullptr -> k < w_next w -> p <> wch -> p <> tch -> fd <> wfd ->
  w_connectors w !! k = Some cr -> w_channels w !! p = Some (new_waiter k fd) -> Chan.synced p 0 w ->
  wp (Chan.enableWrite p) connect_fault (fun _ => begun k p cr w) w.
Proof.
  intros cr Hg Hk Hkn Hpw Hpt Hfd Hcr Hch Hs.
  set (ch := set_pooling true (set_events_ EPOLLOUT (new_waiter k fd))). eapply wp_conseq.
  - eapply (wp_and _ _ (fun _ w' => exists r e k, w' = Chan.after_ctl p ch EPOLL_CTL_ADD r e k w));
      [|exact (Rep.channel_call_linked p Chan.EnableWrite w (gr_linked _ _ Hg))].
    apply (Chan.call_body p Chan.EnableWrite w (new_waiter k fd)); [apply Hs|done|].
    eapply Chan.update_wp; [apply Hs|apply Hg|apply lookup_insert_eq|done|]. intros _ r1 e1 k1. exists r1, e1, k1.
    unfold Chan.after_ctl, put_channel. simpl. by rewrite insert_insert_eq.
  - intros [] w' [(r1&e1&k1&->) Hl'].
    assert (Hpn : p < w_next w) by by eapply (gr_chans _ _ Hg).
    assert (Hreg : registered p (w_trace w) = Reg None) by (destruct Hs as (_&_&c0&_&_&_&Hr); exact Hr).
    split; [|split]; [..|split_and!; try done; [by rewrite insert_id|by intros q Hq; simpl; rewrite lookup_insert_ne|
      exists ch; split; [apply lookup_insert_eq|done]]].
    + pose proof (ground_put _ p ch w Hg Hpw Hpt Hpn) as Hgp. destruct Hgp. split; auto; simpl.
      * intros q Hq. rewrite <- (gr_unused0 q Hq). refine (proj1 (keeps_reg_snoc q (w_trace w) _ _)). simpl in *. lia.
      * intros q Hq. destruct (decide (q = p)) as [->|Hne]; [by right; right|].
        destruct (gr_known0 q) as [?|[?|[]]]; [|by left|by right; left].
        eapply keeps_reg_watched; [|exact Hq]. by apply keeps_reg_snoc.
    + split; [split_and!; try done; simpl; lia|..].
      * exists cr. simpl. split_and!; try done. rewrite descriptor_snoc. unfold descriptor_step. simpl.
        by rewrite Z.eqb_refl.
      * exists ch. simpl. split; [apply lookup_insert_eq|done].
      * split; [apply Hs|]. split; [apply Hg|]. exists ch. split; [apply lookup_insert_eq|]. split_and!; [done..|].
        simpl. rewrite registered_snoc, Hreg. unfold reg_step. simpl. by rewrite Z.eqb_refl.
Qed.

Lemma Connector_start_ok k p peer fd ecb w :
  ground (fun _ => False) w -> k <> nullptr -> p <> nullptr -> p <> wch -> p <> tch -> fd <> wfd ->
  w_connectors w !! k = Some (new_connector peer fd p ecb) -> w_channels w !! p = Some (new_waiter k fd) ->
  registered p (w_trace w) = Reg None -> k < w_next w ->
  wp (Ends.Connector_start (React.uninit app) (React.run_connection app) (React.on_error app) k) connect_fault
    (fun _ => begun k p (set_started_ true (new_connector peer fd p ecb)) w) w.
Proof.
  intros Hg Hk Hp Hpw Hpt Hfd Hcr Hch Hreg Hkn. pose proof (gr_thread _ _ Hg) as Ht.
  assert (Hs : Chan.synced p 0 w) by (split; [done|]; split; [done|]; eexists; by split_and!).
  set (cr := set_started_ true (new_connector peer fd p ecb)).
  unfold Ends.Connector_start, upd_connector, get_connector. wp_step.
  apply Chan.wp_assertInLoopThread; [done|]. wp_step. wp_lookup. wp_step. apply wp_assert_true; [done|].
  wp_step. wp_step. wp_lookup. wp_step. wp_step. simpl x_sockfd_. simpl x_peer_. simpl x_channel_.
  set (w1 := put_connector k cr w).
  assert (Hg1 : ground (fun _ => False) w1).
  { eapply ground_same; [exact Hg|try done..]; apply Hg. }
  eapply ground_sys; [exact Hg1|done|]. intros r w2 e k0 E2 Hg2 _.
  assert (Hs2 : Chan.synced p 0 w2) by (rewrite E2; by apply Ends.synced_event).
  assert (Hc2 : w_connectors w2 !! k = Some cr) by (rewrite E2; apply lookup_insert_eq).
  assert (Hch2 : w_channels w2 !! p = Some (new_waiter k fd)) by (by rewrite E2).
  assert (Hb : forall w', begun k p cr w2 w' -> begun k p cr w w').
  { intros w' (?&?&F). split; [done|]. split; [done|]. rewrite E2 in F. simpl in F.
    destruct F as (?&?&?&?&?&->&?&?). rewrite insert_insert_eq. by split_and!. }
  assert (Hkn2 : k < w_next w2) by (by rewrite E2). clearbody w1. clear E2.
  assert (Hnow : wp (Ends.Connector_handleWrite (React.uninit app) (React.run_connection app) (React.on_error app) k)
    connect_fault (fun _ _ => False) w2).
  { eapply Ends.connector_handleWrite_wp; [done|exact Hc2|done|exact Hs2|exact Hch2|by right|].
    intros w3 e3 Hno. exfalso. by apply Hno. }
  destruct r as [u|n]; [by eapply wp_conseq; [exact Hnow|]|].
  destruct (negb (n =? EINPROGRESS)); [by eapply wp_conseq; [exact Hnow|]|].
  eapply wp_conseq; [by apply (enableWrite_begun k p peer fd ecb)|]. intros [] w'. apply Hb.
Qed.

(** A new channel at a fresh address. *)
Lemma ground_alloc X fd w : ground X w ->
  ground X (put_channel (w_next w) (Chan.Channel_new fd) (set_w_next (w_next w + 1) w)).
Proof.
  intros Hg. eapply ground_same; [exact Hg|try done..]; [| |simpl; lia|apply Hg]; simpl.
  - intros q Hq. apply lookup_insert_ne. intros <-.
    destruct Hq as [Hq|Hq]; [destruct (gr_wakeup _ _ Hg) as (_&y&Hy&_)|destruct (gr_timer _ _ Hg) as (_&y&Hy&_)];
      rewrite <- Hq in Hy; apply (gr_chans _ _ Hg) in Hy; lia.
  - intros q ch [[<- _]|[_ Hl]]%lookup_insert_Some; [lia|]. apply (gr_chans _ _ Hg) in Hl. lia.
Qed.

(** What the world keeps when other objects of the client change. *)
Lemma ground_objects X w w' : ground X w -> w_conns w' = w_conns w -> w_channels w' = w_channels w ->
  w_loop w' = w_loop w -> w_cur w' = w_cur w -> w_app w' = w_app w -> w_next w <= w_next w' ->
  w_trace w' = w_trace w -> w_kern w' = w_kern w -> ground X w'.
Proof.
  intros Hg E1 E2 E3 E4 E5 E6 E7 E8. eapply ground_same; [exact Hg|try done..]; try congruence; rewrite ?E7; try done.
  - intros q ch. rewrite E2. intros Hq%(gr_chans _ _ Hg). lia.
  - unfold Rep.linked. rewrite E7, E8. apply Hg.
Qed.

(** Making a connector. *)
Lemma Connector_ctor_ok X peer w : ground X w ->
  wp (Ends.Connector_ctor peer) connect_fault (fun k w' => exists fd, let p := w_next w in
    k = p + 1 /\ fd <> wfd /\ ground X w' /\ w_next w' = p + 1 + 1 /\
    w_connectors w' = <[k := mkConnector peer fd false false p None None]> (w_connectors w) /\
    w_channels w' = <[p := new_waiter k fd]> (w_channels w) /\ registered p (w_trace w') = Reg None /\
    (forall q, descriptor q (w_trace w') = descriptor q (w_trace w)) /\
    w_clients w' = w_clients w /\ w_loop w' = w_loop w /\ w_timers w' = w_timers w /\ w_app w' = w_app w) w.
Proof.
  intros Hg. pose proof (gr_next _ _ Hg) as Hn. pose proof (gr_unused _ _ Hg (w_next w) ltac:(lia)) as Hreg.
  unfold Ends.Connector_ctor, Ends.createSocket. wp_step. wp_step. eapply ground_sys; [exact Hg|done|].
  intros r w1 e k0 E1 Hg1 Htr. destruct r as [fd|]; [|wp_step; by left]. wp_step. simpl in Htr.
  assert (F1 : w_next w1 = w_next w /\ registered (w_next w) (w_trace w1) = Reg None /\
    (forall q, descriptor q (w_trace w1) = descriptor q (w_trace w)) /\
    w_channels w1 = w_channels w /\ w_clients w1 = w_clients w /\ w_connectors w1 = w_connectors w /\
    w_loop w1 = w_loop w /\ w_timers w1 = w_timers w /\ w_app w1 = w_app w).
  { rewrite E1. split_and!; try done; simpl; [by rewrite registered_snoc|]. intros q. by rewrite descriptor_snoc. }
  clear E1. destruct F1 as (N1&R1&D1&C1&CL1&CO1&L1&T1&A1).
  wp_step. unfold Chan.Channel_ctor, alloc. wp_step. unfold wp at 1. wp_step. wp_step. wp_step.
  pose proof (ground_alloc X fd w1 Hg1) as Hg2. set (w2 := put_channel _ _ _) in *.
  assert (N2 : w_next w2 = w_next w + 1) by (simpl; lia). rewrite N1.
  assert (C2 : w_channels w2 = <[w_next w := Chan.Channel_new fd]> (w_channels w)) by (simpl; by rewrite C1, N1).
  assert (F2 : w_trace w2 = w_trace w1 /\ w_clients w2 = w_clients w /\ w_connectors w2 = w_connectors w /\
    w_loop w2 = w_loop w /\ w_timers w2 = w_timers w /\ w_app w2 = w_app w) by done.
  clearbody w2. destruct F2 as (TR2&CL2&CO2&L2&T2&A2).
  wp_step. unfold wp at 1. wp_step. wp_step. rewrite N2. set (k := w_next w + 1). wp_step.
  unfold Chan.setWriteCallback, upd_channel, get_channel. wp_step.
  set (w3 := put_connector _ _ _).
  assert (Hg3 : ground X w3) by (eapply ground_objects; [exact Hg2|try done..]; simpl; lia).
  assert (C3 : w_channels w3 !! w_next w = Some (Chan.Channel_new fd)) by (simpl; rewrite C2; apply lookup_insert_eq).
  assert (Hp0 : w_next w <> nullptr) by lia.
  wp_lookup. wp_step. wp_step. exists fd. split_and!; try done.
  - apply ground_put; [exact Hg3|..|simpl; lia];
      [destruct (gr_wakeup _ _ Hg) as (_&y&Hy&_)|destruct (gr_timer _ _ Hg) as (_&y&Hy&_)];
      apply (gr_chans _ _ Hg) in Hy; lia.
  - simpl. by rewrite CO2.
  - simpl. by rewrite C2, insert_insert_eq.
  - simpl. by rewrite TR2.
  - intros q. simpl. by rewrite TR2.
Qed.

(** Destroying the connector of an attempt: closing its descriptor takes its
    channel out of epoll. *)
Lemma Connector_dtor_ok X k cr p ch w :
  ground X w -> (forall q, X q -> q = p) -> k <> nullptr -> w_connectors w !! k = Some cr -> connected_ cr = false ->
  x_channel_ cr = p -> p <> nullptr -> p <> wch -> p <> tch -> w_channels w !! p = Some ch -> handlingEvents_ ch = false ->
  (X p -> descriptor p (w_trace w) <> None -> descriptor p (w_trace w) = Some (x_sockfd_ cr)) ->
  wp (Ends.Connector_dtor k) no_fault (fun _ w' => ground (fun _ => False) w' /\
    w_connectors w' = delete k (w_connectors w) /\ w_channels w' = delete p (w_channels w) /\
    (forall q, registered q (w_trace w') = registered q (w_trace w)) /\
    w_clients w' = w_clients w /\ w_loop w' = w_loop w /\ w_timers w' = w_timers w /\ w_app w' = w_app w /\
    w_next w' = w_next w /\ exists r, w_trace w' = w_trace w ++ [Event (SysClose (x_sockfd_ cr)) r]) w.
Proof.
  intros Hg HX Hk Hcr Hnc <- Hp Hpw Hpt Hch Hid Hd. unfold Ends.Connector_dtor, get_connector. wp_step. wp_lookup.
  rewrite Hnc. simpl. wp_step. wp_step. eapply (ground_sys (SysClose _)); [exact Hg|done|]. intros r w1 e k0 E1 Hg1 _.
  assert (Hg2 : ground (fun _ => False) w1).
  { pose proof Hg1 as []. split; auto. intros q Hq. destruct (gr_known0 q Hq) as [?|[?|Hx]]; [by left|by right; left|].
    pose proof (HX q Hx) as ->. exfalso. destruct Hq as [_ Hq]. apply Hq. rewrite E1. simpl. rewrite descriptor_snoc.
    unfold descriptor_step. simpl. case_bool_decide as Hb; [done|].
    destruct (descriptor (x_channel_ cr) (w_trace w)) as [fd|]; [|done]. destruct Hb. by apply Hd. }
  assert (F1 : w_connectors w1 = w_connectors w /\ w_channels w1 = w_channels w /\
    (forall q, registered q (w_trace w1) = registered q (w_trace w)) /\ w_clients w1 = w_clients w /\ w_loop w1 = w_loop w /\
    w_timers w1 = w_timers w /\ w_app w1 = w_app w /\ w_next w1 = w_next w /\
    w_trace w1 = w_trace w ++ [Event (SysClose (x_sockfd_ cr)) r]).
  { rewrite E1. split_and!; try done. intros q. simpl. by rewrite registered_snoc. }
  clear E1. destruct F1 as (CO1&C1&R1&CL1&L1&T1&A1&N1&TR1). rewrite <- C1 in Hch.
  wp_step. unfold Chan.Channel_dtor, get_channel. wp_step. wp_step. wp_lookup. wp_step.
  apply wp_assert_true; [by rewrite Hid|]. wp_step. wp_step. simpl. split_and!; try done; try congruence; [|by exists r].
  eapply ground_same; [exact Hg2|try done..]; [| |apply Hg2]; simpl.
  - intros q Hq. apply lookup_delete_ne. intros <-. destruct Hq; congruence.
  - intros q y [_ Hq]%lookup_delete_Some. by eapply (gr_chans _ _ Hg2).
Qed.

(** A retry abandons the connector and starts another. *)
Lemma retry_ok on k p t ch w :
  ground (fun q => on = true /\ q = p) w -> attempt on k p w -> client_at k t w ->
  w_channels w !! p = Some ch -> handlingEvents_ ch = false ->
  wp (Ends.Client_retry (React.uninit app) (React.run_connection app) (React.on_error app) x) connect_fault
    (fun _ w' => exists k' p', ground (fun q => true = true /\ q = p') w' /\ attempt true k' p' w' /\
       client_at k' t w' /\ aside (eq p) w w' /\ w_channels w' !! p = None /\ w_connectors w' !! k = None /\
       exists cr, w_connectors w' !! k' = Some cr /\ x_errorCallback_ cr = None) w.
Proof.
  intros Hg [(Hk&Hkn&Hpw&Hpt) (cr&Hcr&Hst&Hnc&Hxp&Hxc&Hxf&Hd) _ (Hp&_)] (Hx&cl&Hcl&Hcc&Hck&Hct&Hcn&Hcb&Hmb) Hch Hid.
  pose proof (gr_next _ _ Hg) as Hn. pose proof (gr_chans _ _ Hg _ _ Hch) as Hpn.
  unfold Ends.Client_retry, get_client. wp_step. apply Chan.wp_assertInLoopThread; [apply Hg|]. wp_step. wp_lookup.
  rewrite Hcc. wp_step. eapply wp_conseq; [by apply Connector_ctor_ok|].
  intros k' w1 (fd&->&Hfd&Hg1&N1&CO1&C1&R1&D1&CL1&L1&T1&A1). set (p' := w_next w) in *. set (k' := p' + 1) in *.
  unfold upd_client, get_client. wp_step. wp_step. rewrite <- CL1 in Hcl. wp_lookup. wp_step.
  set (cl2 := set_connector_ k' cl). set (w2 := put_client x cl2 w1).
  assert (Hg2 : ground (fun q => on = true /\ q = p) w2) by (eapply ground_objects; [exact Hg1|done..]).
  assert (Hcr2 : w_connectors w2 !! k = Some cr) by (simpl; rewrite CO1, lookup_insert_ne; [done|lia]).
  assert (Hch2 : w_channels w2 !! p = Some ch) by (simpl; rewrite C1, lookup_insert_ne; [done|lia]).
  wp_step. rewrite Hck. eapply wp_weaken.
  { eapply (Connector_dtor_ok _ k cr p ch w2); [exact Hg2|by intros q [_ ?]|done..|]. simpl. rewrite D1. intros [? _]. by apply Hd. }
  intros [] w3 (Hg3&CO3&C3&R3&CL3&L3&T3&A3&N3&_). wp_step.
  unfold Ends.Connector_setNewConnectionCallback, upd_connector, get_connector.
  assert (Hk0 : k' <> nullptr) by lia. wp_step.
  assert (Hcr3 : w_connectors w3 !! k' = Some (mkConnector (c_peer_ cl) fd false false p' None None)).
  { rewrite CO3. simpl. rewrite lookup_delete_ne by lia. rewrite CO1. apply lookup_insert_eq. }
  wp_lookup. wp_step. set (w4 := put_connector k' _ w3).
  assert (Hg4 : ground (fun _ => False) w4) by (eapply ground_objects; [exact Hg3|done..]).
  assert (Hcl4 : w_clients w4 !! x = Some cl2) by (simpl; rewrite CL3; apply lookup_insert_eq).
  assert (Hpw' : p' <> wch /\ p' <> tch).
  { split; [destruct (gr_wakeup _ _ Hg) as (_&y&Hy&_)|destruct (gr_timer _ _ Hg) as (_&y&Hy&_)];
      apply (gr_chans _ _ Hg) in Hy; lia. }
  eapply wp_conseq.
  - eapply (Connector_start_ok k' p' (c_peer_ cl) fd None w4); [exact Hg4|done|lia|apply Hpw'|apply Hpw'|done|apply lookup_insert_eq| | |].
    + simpl. rewrite C3. simpl. rewrite lookup_delete_ne by lia. rewrite C1. apply lookup_insert_eq.
    + simpl. rewrite R3. simpl. exact R1.
    + simpl. rewrite N3. simpl. lia.
  - intros [] w5 (Hg5&Ha5&CL5&N5&L5&T5&A5&CO5&C5&ch5&Hch5&Hid5). exists k', p'. split_and!; [done..| | | | |].
    + split; [done|]. exists cl2. rewrite CL5. by split_and!.
    + split; [rewrite L5; simpl; rewrite L3; exact L1|rewrite T5; simpl; rewrite T3; exact T1|rewrite A5; simpl; rewrite A3; exact A1|].
      split; [rewrite N5; simpl; rewrite N3; simpl; lia|]. split.
      * intros q Hq Hqp. rewrite C5 by lia. simpl. rewrite C3. simpl. rewrite lookup_delete_ne by congruence.
        rewrite C1. apply lookup_insert_ne. lia.
      * intros q y Hq Hy. destruct (decide (q = p')) as [->|Hne]; [congruence|].
        rewrite C5 in Hy by done. simpl in Hy. rewrite C3 in Hy. simpl in Hy. apply lookup_delete_Some in Hy as [_ Hy].
        rewrite C1, lookup_insert_ne in Hy by done. apply (gr_chans _ _ Hg) in Hy. lia.
    + rewrite C5 by lia. simpl. rewrite C3. apply lookup_delete_eq.
    + rewrite CO5, lookup_insert_ne by lia. simpl. rewrite lookup_insert_ne by lia. rewrite CO3. apply lookup_delete_eq.
    + eexists. rewrite CO5. split; [apply lookup_insert_eq|done].
Qed.

(** ** The retry timer *)

Lemma attempt_frame on k p w w' : attempt on k p w -> w_connectors w' = w_connectors w ->
  w_channels w' = w_channels w -> w_trace w' = w_trace w -> Chan.in_loop_thread w' -> w_next w <= w_next w' ->
  attempt on k p w'.
Proof.
  intros [(?&?&?) Hc Hch (?&?&?)] E1 E2 E3 Ht Hn. split; rewrite ?E1, ?E2, ?E3; try done.
  - split_and!; try done; try lia; tauto.
  - unfold Chan.synced. by rewrite E2, E3.
Qed.

Lemma pursues_kern on k p t k0 w : pursues on k p t w -> Rep.coupled k0 (w_trace w) ->
  pursues on k p t (set_w_kern k0 w).
Proof.
  intros (Hg&Ha&Hcl&Hrt) Hl. split; [|by split; [eapply attempt_frame; [exact Ha|try done..]; apply Hg|]].
  eapply ground_same; [exact Hg|try done..]. apply Hg.
Qed.

Lemma pursues_now on k p t (E : fault -> Prop) (Q : Z -> World K A -> Prop) w : pursues on k p t w ->
  (forall now w', 0 <= now < 2 ^ 62 -> pursues on k p t w' -> w_loop w' = w_loop w -> w_channels w' = w_channels w ->
     w_next w' = w_next w -> Q now w') -> wp clock_now E Q w.
Proof.
  intros Hp HQ. apply wp_now_run. pose proof (Rep.coupled_now _ _ (gr_linked _ _ (proj1 Hp))) as Hl.
  destruct (k_now (w_kern w)) as [now k0]. intros Hnow. apply HQ; [done|by apply pursues_kern|done..].
Qed.

Lemma retrying_ok X t w : ground X w -> retrying t w -> TQ.timers_ok [] w.
Proof.
  intros Hg [Htn (d&Hd&Hl&Hm)]. split; [apply Hg|apply Hg|..]; rewrite ?Hl, ?Hm.
  - repeat constructor.
  - intros d' q Hin%list_elem_of_singleton. simplify_eq. eexists. split; [apply lookup_singleton_eq|]. by split.
  - intros q tm [<- <-]%lookup_singleton_Some. by split.
  - by intros q Hq%not_elem_of_nil.
Qed.

(** Arming the timer descriptor. *)
Lemma timerfdSet_ok X on k p when w : ground X w -> attempt on k p w -> 0 <= when < 2 ^ 63 ->
  wp (TQ.timerfdSet when) no_fault (fun _ w' => ground X w' /\ attempt on k p w' /\ w_channels w' = w_channels w /\
    w_next w' = w_next w /\ w_loop w' = w_loop w /\ w_timers w' = w_timers w /\ w_clients w' = w_clients w) w.
Proof.
  intros Hg Ha Hw. unfold TQ.timerfdSet, TQ.durationFromNow, get_loop. wp_step. wp_step. wp_step. wp_step.
  apply wp_now_run. pose proof (Rep.coupled_now _ _ (gr_linked _ _ Hg)) as Hl.
  destruct (k_now (w_kern w)) as [now k0]. intros Hnow. simpl in Hl. set (w1 := set_w_kern k0 w).
  assert (Hg1 : ground X w1) by (eapply ground_same; [exact Hg|try done..]; apply Hg).
  assert (Ha1 : attempt on k p w1) by (eapply attempt_frame; [exact Ha|try done..]; apply Hg).
  wp_step. apply TQ.add_i64_wp; [intros _|lia]. wp_step. wp_step.
  eapply (ground_sys (SysTimerfdSettime _ _ _)); [exact Hg1|done|]. intros r w2 e k2 -> Hg2 _. wp_step.
  split_and!; [done|by apply attempt_sys|done..].
Qed.

(** The rest of handleRead, once the timer is back in the set. *)
Lemma rearm_pursues on k p t w : pursues on k p t w ->
  wp (let! l := get_loop timers_ in match l with e :: _ => TQ.timerfdSet (fst e) | [] => ret tt end) no_fault
    (fun _ w' => pursues on k p t w' /\ w_channels w' = w_channels w /\ w_next w' = w_next w) w.
Proof.
  intros Hp. pose proof Hp as (_&_&_&[_ (d&Hd&Hl&_)]). unfold get_loop. wp_step. wp_step. rewrite Hl.
  eapply wp_conseq; [eapply timerfdSet_ok; [apply Hp|apply Hp|simpl; lia]|].
  intros [] w' (Hg&Ha&C&N&L&T&CL). split; [|done]. destruct Hp as (_&_&(?&Hcl)&[Htn (d'&?&?&?)]).
  split; [done|]. split; [done|]. split; [split; [done|by rewrite CL]|]. split; [lia|]. exists d'. by rewrite L, T.
Qed.

(** The retry timer fires and goes back into the set. *)
Lemma retry_fires on k p t ch now d w :
  ground (fun q => on = true /\ q = p) w -> attempt on k p w -> client_at k t w -> 0 < t < w_next w ->
  w_channels w !! p = Some ch -> handlingEvents_ ch = false ->
  timers_ (w_loop w) = [] -> w_timers w = {[t := retry_timer x d]} -> 0 <= d <= now -> now < 2 ^ 62 ->
  wp (TQ.fire (React.run_timer app) now (d, t)) connect_fault (fun _ w' => exists k' p',
    pursues true k' p' t w' /\ w_channels w' !! p = None /\ chans_kept (eq p) w w') w.
Proof.
  intros Hg Ha Hcl Ht Hch Hid Hl Hm Hd Hnow. unfold TQ.fire, get_timer. simpl.
  assert (Ht0 : t <> nullptr) by lia. assert (Hlk : w_timers w !! t = Some (retry_timer x d)) by (rewrite Hm; apply lookup_singleton_eq).
  wp_step. wp_lookup. wp_step. apply wp_assert_true; [unfold TQ.expired; simpl; by apply Z.leb_le; lia|]. simpl. wp_step.
  unfold TQ.Timer_run, get_timer. wp_step. wp_lookup. simpl. eapply wp_conseq; [by eapply retry_ok|].
  intros [] w1 (k'&p'&Hg1&Ha1&Hcl1&[L1 T1 A1 (N1&C1&C1')]&Hgone&_). rewrite <- T1 in Hlk. wp_step. wp_lookup. simpl.
  unfold TQ.restart, upd_timer, get_timer. wp_step. wp_step. wp_lookup. wp_step. apply wp_assert_true; [done|].
  wp_step. simpl. apply TQ.add_i64_wp; [intros _|unfold Ends.retry_interval; lia]. wp_step. wp_lookup. wp_step. wp_step. wp_lookup.
  unfold upd_loop. wp_step. exists k', p'. set (w2 := set_w_loop _ _).
  split_and!; [|done|by split_and!]. split; [|split; [|split; [done|]]].
  - eapply ground_same; [exact Hg1|try done..]; apply Hg1.
  - eapply attempt_frame; [exact Ha1|try done..]. apply Hg1.
  - split; [simpl; lia|]. exists (d + Ends.retry_interval). split; [unfold Ends.retry_interval; lia|].
    simpl. rewrite L1, Hl, T1, Hm, insert_singleton_eq. done.
Qed.

(** TimerQueue::handleRead either finds the timer not due, or retries. *)
Lemma timers_pursue on k p t ch w :
  pursues on k p t w -> w_channels w !! p = Some ch -> handlingEvents_ ch = false ->
  wp (TQ.handleRead (React.run_timer app)) connect_fault (fun _ w' =>
    (pursues on k p t w' /\ chans_kept (fun _ => False) w w') \/
    (exists k' p', pursues true k' p' t w' /\ w_channels w' !! p = None /\ chans_kept (eq p) w w')) w.
Proof.
  intros Hp Hch Hid. unfold TQ.handleRead. wp_step. apply Chan.wp_assertInLoopThread; [apply (proj1 Hp)|].
  unfold TQ.timerfdRead, get_loop. wp_step. wp_step. wp_step. wp_step.
  eapply (pursues_sys _ _ _ _ (SysRead _ _)); [exact Hp|done|]. intros r w1 e k0 E1 Hp1 _.
  assert (C1 : w_channels w1 = w_channels w /\ w_next w1 = w_next w) by (by rewrite E1). clear E1. destruct C1 as [C1 N1].
  wp_step. wp_step. eapply pursues_now; [exact Hp1|]. intros now w2 Hnow Hp2 L2 C2 N2. wp_step.
  eapply TQ.getExpired_wp; [eapply retrying_ok; apply Hp2|left; lia|]. intros es rest Hes Hle Hgt.
  pose proof Hp2 as (Hg2&Ha2&Hcl2&[Htn (d&Hd&Hl&Hm)]). rewrite Hl in Hes. wp_step.
  destruct es as [|e1 es]; simpl in Hes.
  - subst rest. simpl. wp_step. eapply wp_weaken; [apply rearm_pursues; eapply pursues_loop; [exact Hp2|done..]|].
    intros [] w3 (Hp3&C3&N3). left. split; [done|]. simpl in *. split; [lia|]. split; [intros; congruence|].
    intros q y Hq Hy. rewrite C3, C2, C1 in Hy. apply (gr_chans _ _ (proj1 Hp)) in Hy. lia.
  - injection Hes as <- Hnil. symmetry in Hnil. apply app_eq_nil in Hnil as [-> ->]. simpl. wp_step. set (w3 := set_w_loop _ w2).
    eapply wp_conseq.
    + apply (retry_fires on k p t ch now d w3); try done; [..|simpl; congruence|split; [lia|exact (Hle _ ltac:(by left))]|lia].
      * eapply ground_same; [exact Hg2|try done..]; apply Hg2.
      * eapply attempt_frame; [exact Ha2|try done..]. apply Hg2.
    + intros [] w4 (k'&p'&Hp4&Hgone&(N4&C4&C4')). wp_step. eapply wp_weaken; [by apply rearm_pursues|].
      intros [] w5 (Hp5&C5&N5). right. exists k', p'. split_and!; [done|congruence|]. simpl in *. split; [lia|]. split.
      * intros q Hq Hqp. rewrite C5, C4; [congruence|lia|done].
      * intros q y Hq Hy. rewrite C5 in Hy. apply (C4' q); [lia|done].
Qed.

(** ** The connection *)

Abbreviation server_ok := (Srv.server_ok (site := site)).

(** Without timers, the loop satisfies the invariant of ServerInv.v but for the
    client's own record. *)
Lemma ground_ok w : ground (fun _ => False) w -> w_timers w = ∅ -> timers_ (w_loop w) = [] ->
  Srv.objects_ok (site := site) w /\ TRun.firing [] w.
Proof.
  intros [Ht Hwk Hwu Hti Hap Hc Hn Hch Hun Hk Htk Hl Hai] Htm Hts.
  assert (Hno : forall c cn, w_conns w !! c = Some cn -> False) by (intros c cn; rewrite Hc; done). split.
  - split; try done; try (by intros c cn ?%Hno); try (by intros c1 c2 cn1 cn2 ?%Hno).
    + split; [done|]. split; [|by intros c cn ?%Hno].
      intros p [[] | [-> | ->]]; [destruct Hwu as (_&y&Hy&_)|destruct Hti as (_&y&Hy&_)]; by eapply Hch.
    + intros q Hq. left. destruct (Hk q Hq) as [->|[->|[]]]; [by right; left|by right; right].
    + rewrite Htk. constructor.
    + eapply app_inv_mono; [exact Hai|done].
  - split; [split|by intros d p ?%not_elem_of_nil|intros p tm; by rewrite Htm]; try done.
    + rewrite Hts. constructor.
    + rewrite Hts. by intros d p ?%not_elem_of_nil.
    + intros p tm. by rewrite Htm.
    + by intros p ?%not_elem_of_nil.
Qed.

Lemma stays_same_heap w w' : w_conns w' = w_conns w -> w_channels w' = w_channels w -> stays nobody w w'.
Proof.
  intros E1 E2. split.
  - intros c cn Hc. exists cn. rewrite E1. by split_and!.
  - intros q ch Hq. exists ch. rewrite E2. split; [done|apply Frame.rewired_refl].
  - intros q ch. rewrite E2. congruence.
Qed.

(** Cancelling the retry timer leaves no timer. *)
Lemma cancel_retry X t (E : fault -> Prop) (Q : unit -> World K A -> Prop) w :
  ground X w -> retrying t w ->
  (forall w1, ground X w1 -> w_timers w1 = ∅ -> timers_ (w_loop w1) = [] -> w_clients w1 = w_clients w ->
     w_connectors w1 = w_connectors w -> w_channels w1 = w_channels w -> w_trace w1 = w_trace w ->
     w_conns w1 = w_conns w -> Q tt w1) ->
  wp (TQ.cancelTimer t) E Q w.
Proof.
  intros Hg Hrt HQ. pose proof (retrying_ok _ t w Hg Hrt) as Hok. destruct Hrt as [_ (d&Hd&Hl&Hm)].
  eapply wp_weaken; [apply (TQ.cancelTimer_wp [] d t w Hok); rewrite Hl; by left|]. intros [] w1 [_ ->].
  apply HQ; try done.
  - eapply ground_same; [exact Hg|try done..]; apply Hg.
  - simpl. rewrite Hm. apply delete_singleton_eq.
  - simpl. rewrite Hl. simpl. unfold TQ.entry_ltb. simpl. by rewrite !Z.ltb_irrefl, Z.eqb_refl.
Qed.

(** The client takes a descriptor that has connected. *)
Lemma Client_newConnection_ok E k t fd local peer w :
  contract (site := site) app E ->
  ground (fun _ => False) w -> client_at k t w -> retrying t w -> fd <> wfd ->
  wp (Ends.Client_newConnection (React.run_connection app) x fd local peer) E
    (fun _ w' => server_ok w' /\ stays nobody w w') w.
Proof.
  intros Happ Hg (Hx&cl&Hcl&Hcc&Hck&Hct&Hcn&Hcb&Hmb) Hrt Hfd.
  unfold Ends.Client_newConnection, get_client, upd_client. wp_step. apply Chan.wp_assertInLoopThread; [apply Hg|].
  wp_step. wp_lookup. rewrite Hct. wp_step. eapply cancel_retry; [exact Hg|exact Hrt|].
  intros w0 Hg0 Htm0 Hts0 CL0 _ C0 _ CO0. rewrite <- CL0 in Hcl.
  unfold get_client. do 2 (wp_step; wp_step; wp_lookup; wp_step). simpl.
  set (cl1 := set_c_connected_ true _). set (w1 := put_client x cl1 _).
  assert (Hg1 : ground (fun _ => False) w1) by by eapply ground_objects.
  destruct (ground_ok w1 Hg1 Htm0 Hts0) as [Ho1 Hfi1].
  assert (Hcl1 : w_clients w1 !! x = Some cl1) by apply lookup_insert_eq.
  assert (Hst1 : stays nobody w w1) by by apply stays_same_heap.
  clearbody w1. wp_step.
  apply Ends.ctor_wp; [by apply (server_fresh (site := site))|apply Hg1|destruct (gr_wake _ _ Hg1) as [[= ->] _]; congruence|].
  intros i o ch w2 c Hc2 Hwi Hi E1 E2 [B1 B2 B3 B3' B4 B5 B6 B7 B8 Ba Bi].
  wp_step. wp_step. rewrite <- E2 in Hcl1. wp_lookup. wp_step. wp_step. set (cl3 := set_connection_ _ cl1).
  set (w3 := put_client _ cl3 w2).
  assert (Hcl3 : w_clients w3 !! x = Some cl3) by apply lookup_insert_eq.
  assert (Hc3 : Conn.conn_at c (Ends.new_conn fd (w_next w1) local peer i o) ch w3).
  { destruct Hc2 as [Hb Hph]. split; [|done]. eapply Conn.base_frame; [exact Hb|done..]. }
  assert (Hlk3 : Lk w3) by (unfold Rep.linked; simpl; rewrite B3, B3'; apply Hg1).
  wp_lookup. apply Ends.wp_wire_up. eapply wp_mono with (E := no_fault); [|by intros ? []|].
  { eapply wp_and; [by eapply Ends.wire_up_wp|]. eapply wp_and; [|by apply (Rep.wire_up_linked c _ _ _ w3)].
    apply (Frame.wire_up_framed c (w_next w1) (fun ch => handlingEvents_ ch = false) w3); [done|].
    split; [reflexivity|eexists; split; [apply Hc3|done]|]. pose proof (Conn.ba_chan _ _ _ _ (proj1 Hc3)) as Hch3.
    exists ch. split; [exact Hch3|by apply Bi]. }
  intros _ w4 [((cn&ch4&Hc4&Hwi4&Hst4&_&_&Hmsg&_&Hclo&_&_&Htd&Htie&_)&_&F4&Ht) [[Hf (cn'&Hcn'&Hp) Hid] Hlk4]].
  assert (cn' = cn) as -> by (pose proof (Conn.ba_conn _ _ _ _ (proj1 Hc4)); congruence).
  assert (Hno : forall q, ~ open_conn q w1) by (intros q (y&Hy&_); rewrite (gr_conns _ _ Hg1) in Hy; done).
  assert (Hs4 : server_ok w4 /\ stays nobody w1 w4 /\ forall es, TRun.firing es w1 -> TRun.firing es w4).
  { eapply (join_ok (site := site) c (w_next w1) w1 w3 w4); try done.
    - intros Hopen. split; [done|]. exists cl3. rewrite F4. split; [done|]. split; [done|]. intros q. simpl.
      rewrite Hopen. split; [intros [= <-]; by left|intros [->|Hq]; [done|by destruct (Hno q)]].
    - intros y Hy. destruct Hid as (y'&Hy'&Hi3). congruence.
    - exists cn, ch4. split_and!; [|done|by left]. split; auto; [by rewrite Hst4|by rewrite Hmsg]. }
  destruct Hs4 as (Hok4&Hst4'&_).
  wp_step. rewrite <- F4 in Hcl3. wp_lookup. unfold Ends.call_connection. simpl.
  destruct (c_connectionCallback_ cl) as [cb|]; [|done]. eapply wp_conseq.
  - apply (connection_keeps (site := site) app E Happ cb c w4); [exact Hok4|]. by exists cn.
  - intros [] w5 (Hok5&Hs5&_). split; [done|]. transitivity w1; [done|]. by transitivity w4.
Qed.

(** ** The end of an attempt *)

Lemma pursues_stays on k p t on' k' p' t' w w' : pursues on k p t w -> pursues on' k' p' t' w' ->
  (forall q ch, w_channels w !! q = Some ch -> exists ch', w_channels w' !! q = Some ch' /\ Frame.rewired ch ch') ->
  (forall q ch, w_channels w' !! q = Some ch -> w_channels w !! q = None -> handlingEvents_ ch = false) ->
  stays nobody w w'.
Proof. intros [Hg _] _ H1' H2'. split; [|done..]. intros c cn. by rewrite (gr_conns _ _ Hg). Qed.

(** The channel leaves epoll. *)
Lemma removeChannel_pursues k p t w : pursues true k p t w ->
  wp (Chan.removeChannel p) no_fault (fun _ w' => pursues false k p t w' /\ stays nobody w w' /\
    w_connectors w' = w_connectors w) w.
Proof.
  intros Hp. pose proof Hp as (Hg&[Hk (cr&Hcr&Hst&Hnc&Hxp&Hxc&Hxf&Hd) (ch0&Hch&Hwt) (Hp0&Ht&y&Hy&He&Hpo&Hreg)]&Hcl&Hrt).
  assert (y = ch0) as -> by congruence. clear Hy.
  assert (Hrm : Preserves Lk (Chan.removeChannel p)).
  { unfold Chan.removeChannel, Loop.assertInLoopThread, Loop.isInLoopThread.
    pose proof (Rep.channel_call_linked (K := K) (A := A) (wfd := wfd) p Chan.DisableAll). apply _. }
  set (ch := set_pooling false (set_events_ 0 ch0)). eapply wp_conseq.
  - eapply (wp_and _ _ (fun _ w' => exists r e k, w' = Chan.after_ctl p ch EPOLL_CTL_DEL r e k w)).
    + unfold Chan.removeChannel. wp_step. apply Chan.wp_assertInLoopThread; [done|].
      apply (Chan.call_body p Chan.DisableAll w ch0); [done|done|].
      eapply Chan.update_wp; [done|done|apply lookup_insert_eq|by intros _ Hf; simpl in Hf; rewrite Hpo in Hf|]. intros _ r1 e1 k1. exists r1, e1, k1.
      unfold Chan.after_ctl, Chan.ctl_op, Chan.ctl_pooling, put_channel. simpl. by rewrite insert_insert_eq, Hpo.
    + exact (Hrm w (gr_linked _ _ Hg)).
  - intros [] w' [(r1&e1&k1&->) Hl'].
    assert (Hpn : p < w_next w) by by eapply (gr_chans _ _ Hg).
    assert (Hp' : pursues false k p t (Chan.after_ctl p ch EPOLL_CTL_DEL r1 e1 k1 w)).
    { split; [|split; [|by split]].
      - pose proof (ground_put _ p ch w Hg ltac:(tauto) ltac:(tauto) Hpn) as Hgp. destruct Hgp. split; auto; simpl.
        + intros q Hq. rewrite <- (gr_unused0 q Hq). refine (proj1 (keeps_reg_snoc q (w_trace w) _ _)). simpl in *. lia.
        + intros q Hq. destruct (decide (q = p)) as [->|Hne].
          * destruct Hq as [Hq _]. rewrite registered_snoc, Hreg in Hq. unfold reg_step in Hq. simpl in Hq.
            by rewrite Z.eqb_refl in Hq.
          * destruct (gr_known0 q) as [?|[?|[_ ?]]]; [|by left|by right; left|done].
            eapply keeps_reg_watched; [|exact Hq]. by apply keeps_reg_snoc.
      - split; [done|..].
        + exists cr. by split_and!.
        + exists ch. simpl. split; [apply lookup_insert_eq|done].
        + split; [done|]. split; [done|]. exists ch. split; [apply lookup_insert_eq|]. split_and!; [done..|].
          simpl. rewrite registered_snoc, Hreg. unfold reg_step. simpl. by rewrite Z.eqb_refl. }
    split; [done|]. split; [|done]. eapply pursues_stays; [exact Hp|exact Hp'|..]; simpl.
    + intros q y Hy. destruct (decide (q = p)) as [->|Hne].
      * exists ch. rewrite lookup_insert_eq. assert (y = ch0) as -> by congruence. split; [done|]. unfold Frame.rewired. done.
      * exists y. rewrite lookup_insert_ne by done. split; [done|apply Frame.rewired_refl].
    + intros q y [[<- _]|[_ Hy]]%lookup_insert_Some; congruence.
Qed.

Variable E : fault -> Prop.

(** The contract of the callback for errors, before there is a connection. *)
Definition error_contract : Prop := forall cb w, seeking w ->
  wp (React.on_error app cb) E (fun _ w' => seeking w' /\ stays nobody w w') w.

Hypothesis Happ : contract (site := site) app E.
Hypothesis Herr : error_contract.

(** The connector's descriptor is writable: the connection is established, or
    its callback is told of the error and the retry timer will try again. *)
Lemma Connector_handleWrite_ok k p t w : pursues true k p t w ->
  wp (Ends.Connector_handleWrite (React.uninit app) (React.run_connection app) (React.on_error app) k) E
    (fun _ w' => (seeking w' \/ server_ok w') /\ stays nobody w w') w.
Proof.
  intros Hp. pose proof Hp as (Hg&[(Hk&_) (cr&Hcr&Hst&Hnc&Hxp&Hxc&Hxf&_) _ _]&_).
  unfold Ends.Connector_handleWrite, get_connector. wp_step. apply Chan.wp_assertInLoopThread; [apply Hg|].
  wp_step. wp_lookup. wp_step. apply wp_assert_true; [done|]. wp_step. rewrite Hxp.
  eapply wp_weaken; [by eapply removeChannel_pursues|]. intros [] w1 (Hp1&Hs1&CO1). rewrite <- CO1 in Hcr.
  wp_step. eapply (pursues_sys _ _ _ _ (SysSoError _)); [exact Hp1|done|]. intros r w2 e2 k2 E2 Hp2 _.
  assert (F2 : w_connectors w2 !! k = Some cr /\ stays nobody w w2).
  { rewrite E2. split; [done|]. etransitivity; [exact Hs1|]. by apply stays_same_heap. }
  clear E2 Hp1 Hs1 Hcr CO1. destruct F2 as [Hcr2 Hs2]. wp_step. unfold put_errno, get_errno.
  enough (Hk2 : forall w3, pursues false k p t w3 -> w_connectors w3 !! k = Some cr -> stays nobody w w3 ->
    wp (let! e0 := gets w_errno in if negb (e0 =? 0)
      then match x_errorCallback_ cr with Some cb => React.on_error app cb | None => ret tt end
      else match x_newConnectionCallback_ cr with
           | Some cb =>
               let! r0 := sys (SysGetsockname (x_sockfd_ cr)) in
               let addr := match r0 with SysOk a => a | SysErr _ => React.uninit app end in
               upd_connector k (set_connected_ true) ;;;
               Ends.run_newConnection (React.run_connection app) cb (x_sockfd_ cr) addr (x_peer_ cr)
           | None => ret tt
           end) E (fun _ w' => (seeking w' \/ server_ok w') /\ stays nobody w w') w3).
  { destruct r as [n|n]; [wp_step; apply Hk2; [|done|]|wp_step; by apply Hk2].
    - destruct Hp2 as (Hg2&Ha2&Hcl2&Hrt2). split; [|split; [|done]]; [by eapply ground_objects|].
      eapply attempt_frame; [exact Ha2|try done..]. apply Hg2.
    - etransitivity; [exact Hs2|]. by apply stays_same_heap. }
  clear w2 Hp2 Hcr2 Hs2 e2 k2. intros w3 Hp3 Hcr3 Hs3. wp_step. wp_step. destruct (negb _).
  - destruct (x_errorCallback_ cr) as [cb|]; [|wp_step; split; [left; by exists false, k, p, t|done]].
    eapply wp_conseq; [apply Herr; by exists false, k, p, t|]. intros [] w4 [Hs4 Hst4].
    split; [by left|by transitivity w3].
  - rewrite Hxc. wp_step. eapply (pursues_sys _ _ _ _ (SysGetsockname _)); [exact Hp3|done|].
    intros r0 w4 e4 k4 E4 Hp4 _.
    assert (F4 : w_connectors w4 !! k = Some cr /\ stays nobody w w4).
    { rewrite E4. split; [done|]. etransitivity; [exact Hs3|]. by apply stays_same_heap. }
    clear E4. destruct F4 as [Hcr4 Hs4]. cbv zeta. unfold upd_connector, get_connector. wp_step. wp_step. wp_lookup. wp_step.
    destruct Hp4 as (Hg4&_&Hcl4&Hrt4). simpl. set (w5 := put_connector k _ w4). eapply wp_conseq.
    + apply (Client_newConnection_ok E k t _ _ _ w5 Happ); [|done|done|done].
      eapply ground_mono; [eapply ground_objects; [exact Hg4|done..]|]. by intros q [? _].
    + intros [] w6 [Hok6 Hs6]. split; [by right|]. transitivity w5; [|done]. etransitivity; [exact Hs4|]. by apply stays_same_heap.
Qed.

(** ** Dispatch *)

(** The channel of an abandoned connector. *)
Definition dead (q : ptr) w : Prop := q <> nullptr /\ q < w_next w /\ w_channels w !! q = None.

Lemma dead_kept P q w w' : chans_kept P w w' -> ~ P q -> dead q w -> dead q w'.
Proof. intros (Hn&Hc&_) HP (?&?&?). split_and!; [done|lia|]. by rewrite Hc. Qed.

(** A channel of the loop is handled, marked meanwhile. *)
Lemma handle_loop_chan q h (Q : World K A -> Prop) w :
  reads q h w -> Chan.in_loop_thread w -> idle w -> q < w_next w ->
  (forall ch b w', w_channels w' !! q = Some ch -> Q w' -> Q (put_channel q (set_handlingEvents_ b ch) w')) ->
  (forall ch w1, w_channels w !! q = Some ch -> w1 = put_channel q (set_handlingEvents_ true ch) w ->
     wp (React.run_channel app h) E (fun _ w2 => Q w2 /\ exists P, ~ P q /\ chans_kept P w1 w2 /\
       forall q', P q' -> w_channels w2 !! q' = None) w1) ->
  (forall ch, w_channels w !! q = Some ch -> Q (put_channel q (set_handlingEvents_ true ch) w)) ->
  wp (Chan.handleEvents (React.run_channel app) q) E (fun _ w' => Q w' /\ idle w' /\
    forall q', dead q' w -> dead q' w') w.
Proof.
  intros (Hq&ch&Hch&Htd&Hr&Hw&Hc&He&_) Ht Hid Hqn HQ Hrun Hno.
  set (ch1 := set_handlingEvents_ true ch). set (w1 := put_channel q ch1 w).
  assert (Hl1 : w_channels w1 !! q = Some ch1) by apply lookup_insert_eq.
  assert (Hdead1 : forall q', dead q' w -> q' <> q /\ dead q' w1).
  { intros q' (?&?&Hn). assert (q' <> q) by congruence. split; [done|]. split_and!; [done..|]. simpl. by rewrite lookup_insert_ne. }
  eapply handleEvents_single; [done|done|exact Hch|done..|by left| |].
  - eapply wp_conseq; [by apply (Hrun ch)|]. intros _ w2 (HQ2&P&HP&(Hn2&Hk2&Hnew2)&HP2). simpl in *.
    exists ch1. assert (Hl2 : w_channels w2 !! q = Some ch1) by (by rewrite Hk2). split; [done|].
    split; [apply Frame.rewired_refl|]. split_and!; [by apply HQ| |].
    + intros q' y Hy. simpl in Hy. apply lookup_insert_Some in Hy as [[_ <-]|[Hne Hy]]; [done|].
      destruct (decide (q' < w_next w)) as [Hlt|Hge]; [|apply (Hnew2 q'); [lia|done]].
      destruct (w_channels w !! q') as [z|] eqn:Hz.
      * destruct (decide (handlingEvents_ y = false)) as [|Hhy]; [done|]. exfalso. apply Hhy.
        rewrite Hk2 in Hy; [|done|intros Hp; rewrite (HP2 _ Hp) in Hy; done]. rewrite lookup_insert_ne in Hy by done.
        by eapply Hid.
      * rewrite Hk2 in Hy; [|done|intros Hp; rewrite (HP2 _ Hp) in Hy; done]. rewrite lookup_insert_ne in Hy by done. congruence.
    + intros q' Hd. destruct (Hdead1 q' Hd) as [Hne (?&?&Hn)]. split_and!; [done|simpl in *; lia|].
      simpl. rewrite lookup_insert_ne by done. destruct (w_channels w2 !! q') as [y|] eqn:Hy; [|done]. exfalso.
      rewrite Hk2 in Hy; [discriminate (eq_trans (eq_sym Hn) Hy)|done|]. intros Hp. rewrite (HP2 _ Hp) in Hy. done.
  - split_and!.
    + apply HQ; [done|]. by apply Hno.
    + intros q' y Hy. simpl in Hy. rewrite insert_insert_eq in Hy.
      apply lookup_insert_Some in Hy as [[_ <-]|[_ Hy]]; [done|by eapply Hid].
    + intros q' Hd. destruct (Hdead1 q' Hd) as [Hne (?&?&Hn)]. split_and!; [done..|]. simpl. by rewrite lookup_insert_ne.
Qed.

Lemma pursues_mark on k p t q ch b w : pursues on k p t w -> w_channels w !! q = Some ch ->
  pursues on k p t (put_channel q (set_handlingEvents_ b ch) w).
Proof. intros Hp Hq. eapply pursues_touch; [exact Hp|exact Hq|]. unfold alike. by destruct ch. Qed.

Lemma kept_refl w w' : w_channels w' = w_channels w -> w_next w' = w_next w ->
  (forall q ch, w_channels w !! q = Some ch -> q < w_next w) -> chans_kept (fun _ => False) w w'.
Proof. intros E1 E2 Hn. split; [lia|]. rewrite E1. split; [done|]. intros q ch Hq Hl. apply Hn in Hl. lia. Qed.

(** A wakeup. *)
Lemma wakeup_seek on k p t w : pursues on k p t w -> idle w ->
  wp (Chan.handleEvents (React.run_channel app) wch) E (fun _ w' => pursues on k p t w' /\ idle w' /\
    forall q, dead q w -> dead q w') w.
Proof.
  intros Hp Hid. pose proof (proj1 Hp) as Hg. pose proof (gr_wakeup _ _ Hg) as Hr.
  pose proof Hr as (_&ch0&Hch0&_).
  eapply handle_loop_chan; [exact Hr|apply Hg|done|by eapply gr_chans| | |].
  - intros ch b w' Hl Hp'. by apply pursues_mark.
  - intros ch w1 Hl ->. pose proof (pursues_mark on k p t wch ch true w Hp Hl) as Hp1. set (w1 := put_channel _ _ w) in *.
    simpl. unfold Ev.handleRead, get_loop. wp_step. wp_step. wp_step.
    eapply (pursues_sys _ _ _ _ (SysRead _ _)); [exact Hp1|done|]. intros r w2 e k0 E2 Hp2 _. wp_step.
    split; [done|]. exists (fun _ => False). split; [tauto|]. split; [|by intros q []].
    apply kept_refl; [by rewrite E2..|]. apply (gr_chans _ _ (proj1 Hp1)).
  - intros ch Hl. by apply pursues_mark.
Qed.

(** The timer descriptor. *)
Lemma timer_seek on k p t w : (forall f, connect_fault f -> E f) -> pursues on k p t w -> idle w ->
  wp (Chan.handleEvents (React.run_channel app) tch) E (fun _ w' =>
    (pursues on k p t w' \/ exists k' p', pursues true k' p' t w' /\ dead p w') /\ idle w' /\
    forall q, dead q w -> dead q w') w.
Proof.
  intros Hcf Hp Hid. pose proof Hp as (Hg&[(_&_&Hpw&Hpt) _ (ch0&Hch0&_) (Hp0&_)]&_). pose proof (gr_timer _ _ Hg) as Hr.
  pose proof Hr as (_&ch2&Hch2&_). pose proof (gr_chans _ _ Hg _ _ Hch0) as Hpn.
  eapply handle_loop_chan; [exact Hr|apply Hg|done|by eapply gr_chans| | |].
  - intros ch b w' Hl [Hp'|(k'&p'&Hp'&?&?&Hn)]; [left; by apply pursues_mark|right].
    exists k', p'. split; [by apply pursues_mark|]. split_and!; [done..|]. simpl. by rewrite lookup_insert_ne.
  - intros ch w1 Hl ->. pose proof (pursues_mark on k p t tch ch true w Hp Hl) as Hp1. set (w1 := put_channel _ _ w) in *.
    assert (Hch1 : w_channels w1 !! p = Some ch0) by (simpl; by rewrite lookup_insert_ne).
    eapply wp_mono; [eapply (timers_pursue _ _ _ _ ch0 w1 Hp1); [exact Hch1|by eapply Hid]|exact Hcf|].
    intros [] w2 [[Hp2 Hk2]|(k'&p'&Hp2&Hgone&Hk2)].
    + split; [by left|]. exists (fun _ => False). split; [tauto|]. split; [exact Hk2|by intros q []].
    + split.
      * right. exists k', p'. split; [done|]. split_and!; [done| |done]. destruct Hk2. simpl in *. lia.
      * exists (eq p). split; [congruence|]. split; [exact Hk2|by intros q <-].
  - intros ch Hl. left. by apply pursues_mark.
Qed.

(** The connector's channel. *)
Lemma connector_seek k p t w : pursues true k p t w -> idle w ->
  wp (Chan.handleEvents (React.run_channel app) p) E (fun _ w' => (seeking w' \/ server_ok w') /\ idle w') w.
Proof.
  intros Hp Hid. pose proof Hp as (Hg&[_ _ (ch&Hch&Htd&Hr&Hw&Hc&He) (Hp0&_)]&_).
  assert (Hmk : forall b w', pursues true k p t w' -> forall ch, w_channels w' !! p = Some ch ->
    pursues true k p t (put_channel p (set_handlingEvents_ b ch) w')) by (intros; by apply pursues_mark).
  set (ch1 := set_handlingEvents_ true ch). set (w1 := put_channel p ch1 w).
  assert (Hl1 : w_channels w1 !! p = Some ch1) by apply lookup_insert_eq.
  eapply handleEvents_single; [done|apply Hg|exact Hch|done..|by right| |].
  - eapply wp_conseq; [eapply (Connector_handleWrite_ok k p t); by apply Hmk|]. intros [] w2 [Hok2 Hs2].
    destruct (sy_chans _ _ _ Hs2 _ _ Hl1) as (ch2&Hl2&Hr2). exists ch2. split_and!; [done..| |].
    + destruct Hok2 as [(on&k'&p'&t'&Hp2)|Hok2]; [left|right].
      * exists on, k', p', t'. by apply pursues_mark.
      * eapply server_touch; [done..|]. unfold alike. by destruct ch2.
    + by apply (hd_idle _ _ _ _ (marked_handled nobody p ch ch2 w w2 Hch Hs2)).
  - split; [left; exists true, k, p, t; by apply Hmk; [apply Hmk|]|].
    apply (hd_idle p nobody w); [|done]. by apply (marked_handled nobody p ch ch1 w).
Qed.

(** *** A batch of reported channels *)

(** The kernel may report the timer descriptor together with another one. *)
Definition reports_both : Prop := exists (k : K) n evs, fst (k_call (SysEpollWait n) k) = SysOk evs /\
  tch ∈ map snd evs /\ exists q, q ∈ map snd evs /\ q <> wch /\ q <> tch.

Hypothesis E_connect : forall f, connect_fault f -> E f.
Hypothesis E_length : E LengthError.
Hypothesis E_accept : E (Fatal "unexpected accept4() error").
Hypothesis E_race : reports_both -> E UseAfterFree.

(** What is still to be dispatched: channels that are there, unless the retry
    timer and the connector were reported together, or with a
    connection the loop's own channels. *)
Definition batch_ok (l : list ptr) w : Prop :=
  (exists on k p t, pursues on k p t w /\ (forall q, q ∈ l -> q = wch \/ q = tch \/ (on = true /\ q = p)) /\
     (tch ∈ l -> p ∈ l -> reports_both)) \/
  (reports_both /\ exists on k p t, pursues on k p t w /\ forall q, q ∈ l -> q = wch \/ q = tch \/ dead q w) \/
  (server_ok w /\ forall q, q ∈ l -> q = wch \/ q = tch).

Lemma sweep_empty w (E' : fault -> Prop) : w_conns w = ∅ -> wp sweep E' (fun _ w' => w' = w) w.
Proof. intros Hc. unfold sweep. wp_step. wp_step. rewrite Hc, map_to_list_empty. simpl. by wp_step. Qed.

Lemma seek_then_sweep on k p t (Q : World K A -> Prop) w :
  pursues on k p t w -> Q w -> wp sweep E (fun _ => Q) w.
Proof. intros Hp HQ. eapply wp_conseq; [apply sweep_empty, Hp|]. by intros [] w' ->. Qed.

Lemma batch_step q l w : batch_ok (q :: l) w -> idle w -> q ∉ l ->
  wp (Life.handleEvents app q) E (fun _ w' => batch_ok l w' /\ idle w') w.
Proof.
  intros Hb Hid Hq. unfold Life.handleEvents. wp_step. destruct Hb as [(on&k&p&t&Hp&Hl&Hrc)|[(Hr&on&k&p&t&Hp&Hl)|[Hok Hl]]].
  - assert (Hl' : forall q', q' ∈ l -> q' = wch \/ q' = tch \/ on = true /\ q' = p) by (intros; apply Hl; by right).
    destruct (Hl q ltac:(by left)) as [->|[->|[-> ->]]].
    + eapply wp_conseq; [by apply wakeup_seek|]. intros [] w1 (Hp1&Hid1&_). eapply seek_then_sweep; [exact Hp1|].
      split; [|done]. left. exists on, k, p, t. split_and!; [done..|]. intros ??. apply Hrc; by right.
    + eapply wp_conseq; [by eapply timer_seek|]. intros [] w1 ([Hp1|(k'&p'&Hp1&Hd)]&Hid1&_);
        (eapply seek_then_sweep; [exact Hp1|]; split; [|done]).
      { left. exists on, k, p, t. split_and!; [done..|]. by intros ?. }
      destruct (decide (p ∈ l)) as [Hin|Hin].
      * right. left. split; [apply Hrc; [by left|by right]|]. exists true, k', p', t. split; [done|].
        intros q' Hq'. destruct (Hl' q' Hq') as [?|[?|[_ ->]]]; auto.
      * left. exists true, k', p', t. split_and!; [done| |by intros ?].
        intros q' Hq'. destruct (Hl' q' Hq') as [?|[?|[_ ->]]]; auto. done.
    + assert (Hl2 : forall q', q' ∈ l -> q' = wch \/ q' = tch).
      { intros q' Hq'. destruct (Hl' q' Hq') as [?|[?|[_ ->]]]; auto. done. }
      eapply wp_conseq; [by eapply connector_seek|]. intros [] w1 [[(on1&k1&p1&t1&Hp1)|Hok1] Hid1].
      * eapply seek_then_sweep; [exact Hp1|]. split; [|done]. left. exists on1, k1, p1, t1. split_and!; [done| |].
        -- intros q' Hq'. destruct (Hl2 q' Hq'); auto.
        -- intros _ Hin. pose proof Hp1 as (_&[(_&_&?&?) _ _ _]&_). by destruct (Hl2 p1 Hin).
      * eapply wp_conseq; [by apply (sweep_wp (site := site))|]. intros [] w2 (Hok2&Hid2&_). split; [|done]. right. right. by split.
  - assert (Hl' : forall q', q' ∈ l -> q' = wch \/ q' = tch \/ dead q' w) by (intros; apply Hl; by right).
    destruct (Hl q ltac:(by left)) as [->|[->|(Hq0&_&Hn)]].
    + eapply wp_conseq; [by apply wakeup_seek|]. intros [] w1 (Hp1&Hid1&Hd1). eapply seek_then_sweep; [exact Hp1|].
      split; [|done]. right. left. split; [done|]. exists on, k, p, t. split; [done|].
      intros q' Hq'. destruct (Hl' q' Hq') as [?|[?|?]]; auto.
    + eapply wp_conseq; [by eapply timer_seek|]. intros [] w1 (Hp1&Hid1&Hd1).
      assert (Hx : exists on' k' p', pursues on' k' p' t w1) by (destruct Hp1 as [?|(k'&p'&?&_)]; eauto).
      destruct Hx as (on'&k'&p'&Hp'). eapply seek_then_sweep; [exact Hp'|]. split; [|done]. right. left. split; [done|].
      exists on', k', p', t. split; [done|]. intros q' Hq'. destruct (Hl' q' Hq') as [?|[?|?]]; auto.
    + unfold Chan.handleEvents, get_channel. wp_step. apply Chan.wp_assertInLoopThread; [apply Hp|]. wp_step.
      apply wp_deref_at; [congruence|done|intros _; by apply E_race].
  - assert (Hsp : special (site := site) q) by (destruct (Hl q ltac:(by left)) as [->| ->]; right; [by left|by right]).
    assert (Hh : wp (Life.handleEvents app q) E (fun _ w' => batch_ok l w' /\ idle w') w).
    { eapply wp_conseq; [apply (life_handle_ok (site := site) app E Happ E_length E_accept); [done..|by left]|].
      intros [] w1 (Hok1&Hid1&_). split; [|done]. right. right. split; [done|]. intros q' Hq'. apply Hl. by right. }
    unfold Life.handleEvents in Hh. by apply wp_bind_inv in Hh.
Qed.

Lemma batch_dispatch l w : batch_ok l w -> idle w -> NoDup l ->
  wp (for_each l (Life.handleEvents app)) E (fun _ w' => (seeking w' \/ server_ok w') /\ idle w') w.
Proof.
  intros Hb Hid Hnd.
  eapply wp_conseq with (Q := fun _ w' => batch_ok [] w' /\ idle w' /\ NoDup ([] : list ptr)).
  { apply (wp_for_each _ _ _ (fun l w' => batch_ok l w' /\ idle w' /\ NoDup l)); [done|].
    intros q l' w' (Hb'&Hid'&[Hq Hnd']%list.NoDup_cons). eapply wp_conseq; [by apply batch_step|]. by intros [] w1 [? ?]. }
  intros [] w' ([(on&k&p&t&Hp&_)|[(_&on&k&p&t&Hp&_)|[Hok _]]]&Hid'&_); (split; [|done]); [left..|by right];
    by exists on, k, p, t.
Qed.

(** ** The loop *)

(** A channel epoll may report is there. *)
Lemma watched_chan on k p t q w : pursues on k p t w -> watched q (w_trace w) ->
  (q = wch \/ q = tch \/ (on = true /\ q = p)) /\ q <> nullptr /\ exists ch, w_channels w !! q = Some ch.
Proof.
  intros (Hg&[_ _ (ch&Hch&_) (Hp0&_)]&_) Hq. pose proof (gr_known _ _ Hg q Hq) as Hk. split; [done|].
  destruct Hk as [->|[->|[_ ->]]].
  - destruct (gr_wakeup _ _ Hg) as (?&y&?&_). split; [done|by exists y].
  - destruct (gr_timer _ _ Hg) as (?&y&?&_). split; [done|by exists y].
  - split; [done|by exists ch].
Qed.

Lemma mark_seek on k p t evs w : pursues on k p t w -> idle w ->
  (forall m q, (m, q) ∈ evs -> watched q (w_trace w)) ->
  wp (for_each evs (fun e => Poller.setRevents (snd e) (fst e))) E (fun _ w' => pursues on k p t w' /\ idle w') w.
Proof.
  revert w. induction evs as [|[m q] evs IH]; intros w Hp Hid Hreg; simpl; [by wp_step|].
  destruct (watched_chan _ _ _ _ _ _ Hp (Hreg m q ltac:(left))) as (_&Hq&ch&Hch).
  unfold Poller.setRevents at 1, upd_channel, get_channel. wp_step. wp_step. wp_lookup. wp_step. apply IH.
  - eapply pursues_touch; [exact Hp|exact Hch|]. unfold alike. by destruct ch.
  - intros q' y Hy. simpl in Hy. apply lookup_insert_Some in Hy as [[<- <-]|[_ Hy]]; [exact (Hid q ch Hch)|by eapply Hid].
  - intros m' q' Hin. apply (Hreg m' q'). by right.
Qed.

Lemma poll_seek w : seeking w -> idle w ->
  wp (Poller.poll []) E (fun active w' => NoDup active /\ batch_ok active w' /\ idle w') w.
Proof.
  intros (on&k&p&t&Hp) Hid. unfold Poller.poll, get_loop. wp_step.
  apply Chan.wp_assertInLoopThread; [apply Hp|]. wp_step. wp_step. wp_step.
  eapply (pursues_sys_run _ _ _ _ (SysEpollWait _)); [exact Hp|done|]. intros r w1 e k0 E1 Hp1 Htr Hr.
  assert (F1 : idle w1 /\ forall q, watched q (w_trace w) -> watched q (w_trace w1)).
  { rewrite E1. split; [exact Hid|]. intros q. simpl. unfold watched. by rewrite registered_snoc, descriptor_snoc. }
  clear E1. destruct F1 as [Hid1 Hw1].
  destruct r as [evs|n].
  2: { wp_step. split; [constructor|]. split; [|done]. left. exists on, k, p, t.
       split_and!; [done|by intros q ?%not_elem_of_nil|by intros ?%not_elem_of_nil]. }
  destruct Htr as [Hnd Hrep]. wp_step.
  assert (Hwt : forall m q, (m, q) ∈ evs -> watched q (w_trace w)).
  { intros m q Hin. destruct (Hrep m q Hin) as (?&ev&Hreg&_). split; [by rewrite Hreg|done]. }
  eapply wp_conseq; [apply (mark_seek on k p t); [done..|]; intros m q Hin; by eapply Hw1, Hwt|].
  intros [] w2 [Hp2 Hid2]. wp_step.
  assert (Hb : forall w3, pursues on k p t w3 -> idle w3 ->
    NoDup ([] ++ map snd evs) /\ batch_ok ([] ++ map snd evs) w3 /\ idle w3).
  { intros w3 Hp3 Hid3. split; [done|]. split; [|done]. left. exists on, k, p, t. split; [done|]. split.
    - intros q ([m q']&->&Hin)%list_elem_of_fmap. by apply (watched_chan _ _ _ _ _ _ Hp (Hwt m q' Hin)).
    - intros Ht Hpi. eexists _, _, evs. split; [exact Hr|]. split; [done|]. exists p. split; [done|].
      pose proof Hp as (_&[(_&_&?&?) _ _ _]&_). by split. }
  apply wp_when; intros _; [unfold upd_loop; wp_step|]; wp_step; [|by apply Hb].
  apply Hb; [by eapply pursues_loop|done].
Qed.

(** There is no task. *)
Lemma no_tasks_seek run on k p t w : pursues on k p t w -> idle w ->
  wp (Ev.doPendingTasks run) E (fun _ w' => pursues on k p t w' /\ idle w') w.
Proof.
  intros Hp Hid. unfold Ev.doPendingTasks, get_loop, upd_loop. wp_step. apply Chan.wp_assertInLoopThread; [apply Hp|].
  wp_step. wp_step. wp_step. wp_step. wp_step. wp_step. wp_step. rewrite (gr_tasks _ _ (proj1 Hp)). simpl. wp_step. wp_step.
  split; [|exact Hid].
  eapply pursues_loop; [eapply pursues_loop; [eapply pursues_loop; [exact Hp|done..|]|done..]|done..]. symmetry. apply Hp.
Qed.

(** activeChannels_ does not matter. *)
Lemma batch_active l l' w : batch_ok l w -> batch_ok l (set_w_loop (set_activeChannels_ l' (w_loop w)) w).
Proof.
  intros [(on&k&p&t&Hp&Hl)|[(Hr&on&k&p&t&Hp&Hl)|[Hok Hl]]].
  - left. exists on, k, p, t. split; [by eapply pursues_loop|done].
  - right. left. split; [done|]. exists on, k, p, t. split; [by eapply pursues_loop|done].
  - right. right. split; [|done]. apply loop_ok; [done..|]. apply Hok.
Qed.

(** Between two iterations the client is still seeking, or it is, or was,
    connected. *)
Definition client_ok w : Prop := (seeking w /\ idle w) \/ life_ok (site := site) w.

Lemma iteration_seek w : client_ok w -> wp (Life.iteration app) E (fun _ => client_ok) w.
Proof.
  intros [[Hsk Hid]|(Hok&Hid&_)].
  2: { eapply wp_conseq; [by apply (life_iteration_ok (site := site) app E Happ E_length E_accept)|]. by right. }
  unfold Life.iteration, upd_loop. wp_step. wp_step. wp_step. eapply wp_conseq; [apply poll_seek|].
  - destruct Hsk as (on&k&p&t&Hp). exists on, k, p, t. by eapply pursues_loop.
  - exact Hid.
  - intros active w2 (Hnd&Hb&Hid2). wp_step. wp_step. set (w3 := set_w_loop _ w2). wp_step.
    eapply wp_conseq; [apply (batch_dispatch active w3); [|exact Hid2|exact Hnd]|].
    + by apply batch_active.
    + intros [] w4 [[(on&k&p&t&Hp)|Hok] Hid4]; unfold Life.doPendingTasks; wp_step.
      * eapply wp_conseq; [by apply no_tasks_seek|]. intros [] w5 [Hp5 Hid5].
        eapply seek_then_sweep; [exact Hp5|]. left. split; [by exists on, k, p, t|exact Hid5].
      * eapply wp_conseq; [by apply (doPendingTasks_ok (site := site) app E Happ E_length)|]. intros _ w5 [Hok5 Hid5].
        eapply wp_conseq; [apply (sweep_wp (site := site)); auto|]. intros _ w6 (?&?&S). right. split_and!; [done..|by eapply swept_all].
Qed.

Lemma client_thread w : client_ok w -> Chan.in_loop_thread w.
Proof. intros [[(on&k&p&t&Hp) _]|Hok]; [apply Hp|apply Hok]. Qed.
Lemma client_entered w : client_ok w -> client_ok (set_w_loop (set_quit_ false (w_loop w)) w).
Proof.
  intros [[(on&k&p&t&Hp) Hid]|(Hok&Hid&Hall)]; [left|right].
  - split; [|exact Hid]. exists on, k, p, t. by eapply pursues_loop.
  - split_and!; [apply loop_ok; [done..|]; apply Hok|exact Hid|]. intros c Hc. rewrite <- (Hall c Hc). reflexivity.
Qed.

Lemma loop_seek n w : client_ok w ->
  wp (Life.loop app n) E (fun b w' => client_ok w' /\ b = quit_ (w_loop w')) w.
Proof.
  apply run_loop_inv; [exact iteration_seek|exact client_thread|exact client_entered].
Qed.
End attempt.

(** ** From nothing *)

Section start.
Variable app : React.App K A.
Hypothesis Hdebug : ndebug = false.

(** A client that was not started. *)
Record made w : Prop := {
  md_ground : ground (fun _ => False) w;
  md_timers : w_timers w = ∅ /\ timers_ (w_loop w) = [];
  md_idle : idle w;
  md_client : x <> nullptr /\ exists cl k p peer fd ecb, w_clients w !! x = Some cl /\ c_connected_ cl = false /\
    connector_ cl = k /\ connection_ cl = None /\ c_connectionCallback_ cl <> None /\ c_messageCallback_ cl <> None /\
    w_connectors w !! k = Some (new_connector peer fd p ecb) /\ k <> nullptr /\ k < w_next w /\
    w_channels w !! p = Some (new_waiter k fd) /\ p <> nullptr /\ p <> wch /\ p <> tch /\
    registered p (w_trace w) = Reg None /\ fd <> wfd
}.

Lemma booting_ground w :
  Tcp.booting (wfd := wfd) [(wch, EventLoopHandleRead); (tch, TimerQueueHandleRead)] w ->
  fixed (w_loop w) = (wfd, wch, tch) -> wfd <> -1 -> wch <> tch -> app_inv (w_app w) (fun _ => False) ->
  ground (fun _ => False) w /\ (w_timers w = ∅ /\ timers_ (w_loop w) = []) /\ idle w.
Proof.
  intros [Ht Hc Htm Htk Hn Hch Hr Hun Hk Hl Hi] Hf Hw Hne Ha. split; [|by split].
  split; try done; [apply Hr; by left|apply Hr; by right; left|].
  intros q Hq%Hk. simpl in Hq. apply elem_of_cons in Hq as [->|Hq%list_elem_of_singleton]; [by left|by right; left].
Qed.

Lemma TcpClient_ctor_ok peer w :
  ground (fun _ => False) w -> w_timers w = ∅ /\ timers_ (w_loop w) = [] -> idle w -> x = w_next w + 1 + 1 ->
  wp (Ends.TcpClient_ctor peer) connect_fault (fun c w' => c = x /\ made w') w.
Proof.
  intros Hg Htm Hid Hx. pose proof (gr_next _ _ Hg) as Hn. unfold Ends.TcpClient_ctor. wp_step.
  eapply wp_conseq; [by apply Connector_ctor_ok|].
  intros k w1 (fd&->&Hfd&Hg1&N1&CO1&C1&R1&_&CL1&L1&T1&A1). set (p := w_next w) in *.
  wp_step. unfold alloc. unfold wp at 1. rewrite N1, <- Hx. wp_step. wp_step.
  unfold Ends.Connector_setNewConnectionCallback, upd_connector, get_connector.
  assert (Hk0 : p + 1 <> nullptr) by lia. wp_step. wp_step. set (w2 := put_client x _ _).
  assert (Hcr2 : w_connectors w2 !! (p + 1) = Some (mkConnector peer fd false false p None None)).
  { simpl. rewrite CO1. apply lookup_insert_eq. }
  wp_lookup. wp_step. wp_step. split; [done|]. set (w3 := put_connector _ _ w2).
  assert (Hg3 : ground (fun _ => False) w3) by (eapply ground_objects; [exact Hg1|try done..]; simpl; lia).
  split; [done|simpl; by rewrite T1, L1| |].
  - intros q y Hy. simpl in Hy. rewrite C1 in Hy. apply lookup_insert_Some in Hy as [[_ <-]|[_ Hy]]; [done|by eapply Hid].
  - split; [lia|]. eexists _, (p + 1), p, peer, fd, None. simpl. split; [apply lookup_insert_eq|].
    split_and!; try done; try lia; [apply lookup_insert_eq|rewrite C1; apply lookup_insert_eq|..];
      [destruct (gr_wakeup _ _ Hg) as (_&y&Hy&_)|destruct (gr_timer _ _ Hg) as (_&y&Hy&_)];
      apply (gr_chans _ _ Hg) in Hy; lia.
Qed.

(** The setters. *)
Lemma made_client f w : made w ->
  (forall cl, c_connected_ (f cl) = c_connected_ cl /\ connector_ (f cl) = connector_ cl /\
     connection_ (f cl) = connection_ cl /\ (c_connectionCallback_ cl <> None -> c_connectionCallback_ (f cl) <> None) /\
     (c_messageCallback_ cl <> None -> c_messageCallback_ (f cl) <> None)) ->
  wp (upd_client x f) no_fault (fun _ => made) w.
Proof.
  intros [Hg Htm Hid (Hx&cl&k&p&peer&fd&ecb&Hcl&?&?&?&?&?&?&?&?&?&?&?&?&?&?)] Hf. unfold upd_client, get_client.
  wp_step. wp_lookup. wp_step. destruct (Hf cl) as (E1&E2&E3&E4&E5).
  split; [by eapply ground_objects|done|done|]. split; [done|]. exists (f cl), k, p, peer, fd, ecb.
  split; [apply lookup_insert_eq|]. rewrite E1, E2, E3. split_and!; auto.
Qed.
Lemma setConnectionCallback_made cb w : made w ->
  wp (Ends.Client_setConnectionCallback x (Some cb)) no_fault (fun _ => made) w.
Proof. intros Hm. by apply made_client. Qed.
Lemma setMessageCallback_made cb w : made w ->
  wp (Ends.Client_setMessageCallback x (Some cb)) no_fault (fun _ => made) w.
Proof. intros Hm. by apply made_client. Qed.
Lemma setWriteCompleteCallback_made cb w : made w ->
  wp (Ends.Client_setWriteCompleteCallback x cb) no_fault (fun _ => made) w.
Proof. intros Hm. by apply made_client. Qed.
Lemma setErrorCallback_made cb w : made w -> wp (Ends.Client_setErrorCallback x cb) no_fault (fun _ => made) w.
Proof.
  intros [Hg Htm Hid (Hx&cl&k&p&peer&fd&ecb&Hcl&?&Hk&?&?&?&Hcr&?&?&?&?&?&?&?&?)].
  unfold Ends.Client_setErrorCallback, Ends.Connector_setErrorCallback, upd_connector, get_client, get_connector.
  wp_step. wp_lookup. wp_step. rewrite Hk. wp_lookup. wp_step.
  split; [by eapply ground_objects|done|done|]. split; [done|]. exists cl, k, p, peer, fd, cb. simpl.
  split; [done|]. split_and!; try done. apply lookup_insert_eq.
Qed.

(** The first attempt, and the timer that repeats it. *)
Lemma Client_start_ok w : made w ->
  wp (Ends.Client_start (React.uninit app) (React.run_connection app) (React.on_error app) x) connect_fault
    (fun _ w' => seeking w' /\ idle w') w.
Proof.
  intros [Hg [Htm Hts] Hid (Hx&cl&k&p&peer&fd&ecb&Hcl&Hcc&Hck&Hcn&Hcb&Hmb&Hcr&Hk&Hkn&Hch&Hp&Hpw&Hpt&Hreg&Hfd)].
  unfold Ends.Client_start, get_client. wp_step. apply Chan.wp_assertInLoopThread; [apply Hg|]. wp_step. wp_lookup.
  rewrite Hck. wp_step. eapply wp_conseq; [by eapply Connector_start_ok|].
  intros [] w1 (Hg1&Ha1&CL1&N1&L1&T1&A1&_&C1&ch1&Hch1&Hid1). rewrite <- L1 in Hts. rewrite <- T1 in Htm.
  wp_step. unfold TQ.runEvery. wp_step.
  assert (Hidl : idle w1).
  { intros q y Hy. destruct (decide (q = p)) as [->|Hne]; [congruence|]. rewrite C1 in Hy by done. by eapply Hid. }
  apply wp_now_run. pose proof (Rep.coupled_now _ _ (gr_linked _ _ Hg1)) as Hl.
  destruct (k_now (w_kern w1)) as [now k0]. intros Hnow. simpl in Hl.
  assert (Hg2 : ground (fun q => true = true /\ q = p) (set_w_kern k0 w1)) by (eapply ground_same; [exact Hg1|try done..]; apply Hg1).
  assert (Ha2 : attempt true k p (set_w_kern k0 w1)) by (eapply attempt_frame; [exact Ha1|try done..]; apply Hg1).
  assert (Hcl2 : w_clients (set_w_kern k0 w1) !! x = Some cl) by (simpl; congruence).
  assert (F2 : w_timers (set_w_kern k0 w1) = ∅ /\ timers_ (w_loop (set_w_kern k0 w1)) = [] /\ idle (set_w_kern k0 w1)) by done.
  generalize dependent (set_w_kern k0 w1). clear Hg1 Ha1 CL1 N1 L1 T1 A1 C1 Hch1 Hid1 Hts Htm Hidl Hl w1 ch1.
  intros w2 Hg2 Ha2 Hcl2 (Htm&Hts&Hid2).
  wp_step. apply TQ.add_i64_wp; [intros _|unfold Ends.retry_interval; lia]. set (d := now + Ends.retry_interval).
  assert (Hd : 0 <= d < 2 ^ 63) by (unfold d, Ends.retry_interval; lia).
  unfold TQ.addTimer, TQ.new_timer, alloc, Loop.runInLoop, Loop.isInLoopThread. wp_step. wp_step. unfold wp at 1.
  wp_step. wp_step. wp_step. set (t := w_next w2). set (w3 := put_timer _ _ _). wp_step. wp_step. wp_step.
  rewrite (proj2 (Z.eqb_eq _ _) (gr_thread _ _ Hg2 : tid_ (w_loop w3) = w_cur w3)).
  unfold TQ.addTimerInLoop, get_loop, upd_loop. wp_step. wp_step.
  assert (timers_ (w_loop w3) = []) as -> by done. simpl. wp_step. wp_step. set (w4 := set_w_loop _ w3).
  wp_step. apply wp_assert_true; [done|]. rewrite bool_decide_eq_true_2 by done.
  assert (Htn : t <> nullptr /\ 0 < t) by (pose proof (gr_next _ _ Hg2); lia).
  assert (Hg4 : ground (fun q => true = true /\ q = p) w4).
  { eapply ground_same; [exact Hg2|try done..]; [|simpl; lia|apply Hg2]. intros q y Hq%(gr_chans _ _ Hg2). simpl. lia. }
  eapply wp_weaken; [apply (timerfdSet_ok _ true k p d w4 Hg4); [|exact Hd]|].
  { eapply attempt_frame; [exact Ha2|try done..]; [apply Hg2|simpl; lia]. }
  intros [] w5 (Hg5&Ha5&C5&N5&L5&T5&CL5). wp_step. unfold upd_client, get_client. wp_step.
  eapply wp_deref_some; [by rewrite CL5|done|]. wp_step. set (w6 := put_client _ _ w5). split.
  - exists true, k, p, t. split; [by eapply ground_objects|]. split; [eapply attempt_frame; [exact Ha5|try done..]; apply Hg5|].
    split.
    + split; [done|]. eexists. split; [apply lookup_insert_eq|]. by split_and!.
    + split; [simpl; rewrite N5; simpl; lia|]. exists d. split; [done|]. simpl. rewrite L5, T5. split; [done|].
      simpl. by rewrite Htm.
  - intros q y Hy. simpl in Hy. rewrite C5 in Hy. by eapply Hid2.
Qed.
End start.

(** ** Property *)



(** C25: a client destroyed while it has no connection, between two handlers.
    Its timer is cancelled and deleted, the connector is deleted with its
    channel and its socket is closed, which takes the channel out of epoll; no
    object of the loop refers to any of them any more, and nothing that epoll
    can report is gone. *)
Theorem client_destroyed_clean on k p t cr w :
  pursues on k p t w -> idle w -> w_connectors w !! k = Some cr ->
  exists w' r, Ends.TcpClient_dtor x w = Ok tt w' /\ ground (fun _ => False) w' /\ idle w' /\
    w_timers w' = ∅ /\ timers_ (w_loop w') = [] /\
    w_clients w' = delete x (w_clients w) /\ w_connectors w' = delete k (w_connectors w) /\
    w_channels w' = delete p (w_channels w) /\
    w_trace w' = w_trace w ++ [Event (SysClose (x_sockfd_ cr)) r].
Proof.
  intros (Hg&[(Hk&Hkn&Hpw&Hpt) (cr'&Hcr'&Hst&Hnc&Hxp&Hxc&Hxf&Hd) (ch&Hch&_) (Hp&_)]&(Hx&cl&Hcl&Hcc&Hck&Hct&Hcn&_)&Hrt) Hid Hcr.
  assert (cr' = cr) as -> by congruence.
  enough (wp (Ends.TcpClient_dtor x) no_fault (fun _ w' => exists r, ground (fun _ => False) w' /\ idle w' /\
    w_timers w' = ∅ /\ timers_ (w_loop w') = [] /\ w_clients w' = delete x (w_clients w) /\
    w_connectors w' = delete k (w_connectors w) /\ w_channels w' = delete p (w_channels w) /\
    w_trace w' = w_trace w ++ [Event (SysClose (x_sockfd_ cr)) r]) w) as Hwp.
  { destruct (wp_total _ _ _ Hwp) as ([]&w'&Hr&r&HQ). by exists w', r. }
  unfold Ends.TcpClient_dtor, get_client. wp_step. wp_lookup. rewrite Hcn, Hct, Hck. wp_step. wp_step. wp_step.
  apply wp_when; [intros _|intros [=]%negb_false_iff%Z.eqb_eq; destruct Hrt; lia].
  eapply cancel_retry; [exact Hg|exact Hrt|]. intros w1 Hg1 Htm1 Hts1 CL1 CO1 C1 TR1 _.
  rewrite <- CO1 in Hcr. rewrite <- C1 in Hch. rewrite <- TR1 in Hd.
  wp_step. eapply wp_conseq.
  { eapply (Connector_dtor_ok _ k cr p ch w1); [exact Hg1|by intros q [_ ?]|done..| |].
    - rewrite C1 in Hch. by eapply Hid.
    - intros [? _]. by apply Hd. }
  intros [] w2 (Hg2&CO2&C2&_&CL2&L2&T2&A2&N2&r&TR2). rewrite CO1 in CO2. rewrite C1 in C2. rewrite TR1 in TR2.
  wp_step. exists r. split; [by eapply ground_objects|].
  split; [intros q y Hy; simpl in Hy; rewrite C2 in Hy; apply lookup_delete_Some in Hy as [_ Hy]; by eapply Hid|].
  simpl. rewrite T2, L2, CL2, CL1. by split_and!.
Qed.

(** *** A client destroyed while it is connected *)

Lemma Client_closeConnection_gone rc c (E : fault -> Prop) (Q : unit -> World K A -> Prop) w :
  Chan.in_loop_thread w -> x <> nullptr -> w_clients w !! x = None -> E UseAfterFree ->
  wp (Ends.Client_closeConnection rc x c) E Q w.
Proof.
  intros Ht Hx Hn HE. unfold Ends.Client_closeConnection, get_client. wp_step.
  apply Chan.wp_assertInLoopThread; [done|]. wp_step. apply wp_deref_at; [congruence|done|done].
Qed.

(** The task of forceClose calls the close callback of the connection. *)
Lemma forceClose_task_gone (app : React.App K A) c cn ch (Q : unit -> World K A -> Prop) w :
  Conn.conn_at c cn ch w -> Conn.up cn -> connCloseCallback_ cn = Some (ClientCloseConnection x) ->
  x <> nullptr -> w_clients w !! x = None ->
  wp (React.run_task app (TaskForceCloseInLoop c)) (eq UseAfterFree) Q w.
Proof.
  intros Hc Hup Hcl Hx Hn. simpl. unfold Conn.forceCloseInLoop. wp_step.
  eapply Conn.wp_in_loop; [apply Hc|]. wp_step. eapply Conn.wp_get_conn; [apply Hc|].
  apply wp_when; [intros _|intros Hd; by destruct Hup as [Hs|Hs]; rewrite Hs in Hd].
  eapply (Frame.handleClose_closes _ c cn ch _ (fun _ => True));
    [intros ? _; unfold wp; by destruct (Frame.close_prefix _ _)|done|exact Hc|exact Hup|exact Hcl|].
  intros ch' w' _ (Hf&Hc'&_). simpl. apply Client_closeConnection_gone; [apply Hc'|done| |done].
  by rewrite (Frame.fr_clients _ _ _ _ Hf).
Qed.

(** forceClose, seen from the rest of the world. *)
Lemma forceClose_evolves c cn ch w : Conn.conn_at c cn ch w -> Conn.up cn ->
  wp (Conn.forceClose c) no_fault (fun _ w' => exists cn' ch', Frame.evolves c cn cn' ch ch' w w' /\
    pendingTasks_ (w_loop w') = pendingTasks_ (w_loop w) ++ [TaskForceCloseInLoop c]) w.
Proof.
  intros Hc Hup. assert (Hst : state_ cn <> kConnecting) by (intros Hs; destruct Hup; congruence).
  eapply wp_conseq; [apply wp_and; [by apply (Conn.forceClose_wp c cn ch)|]|].
  - eapply wp_mono; [by apply (Frame.local_call_evolves Conn.CallForceClose Conn.no_message Conn.no_close c cn ch)|done|done].
  - intros _ w' [[_ Ho] (cn'&ch'&Hev&_)]. exists cn', ch'. split; [done|]. unfold Conn.obs in Ho. by injection Ho.
Qed.

(** A connector that has connected. *)
Definition retired (k : ptr) w : Prop := k <> nullptr /\ exists cr ch,
  w_connectors w !! k = Some cr /\ connected_ cr = true /\
  x_channel_ cr <> nullptr /\ w_channels w !! x_channel_ cr = Some ch /\
  forall c cn, w_conns w !! c = Some cn -> channel_ cn <> x_channel_ cr.

(** C33: a client destroyed while its connection is open, in its loop's thread
    and between two iterations. The destructor returns, having asked for the
    end of the connection; but the close callback of the connection is bound to
    the client, and the task it queued calls it: when the loop comes to its
    tasks it uses the client after it was destroyed. *)
Theorem client_dtor_dangles (app : React.App K A) c cl w :
  Srv.server_ok (site := site) w -> idle w -> pendingTasks_ (w_loop w) = [] ->
  w_clients w !! x = Some cl -> connection_ cl = Some c -> retryTimer_ cl = nullptr -> retired (connector_ cl) w ->
  exists w', Ends.TcpClient_dtor x w = Ok tt w' /\ React.doPendingTasks app w' = Err UseAfterFree.
Proof.
  intros Hok Hidl Htk Hcl Hcon Hrt (Hk0&cr&ch&Hcr&Hcc&Hq0&Hch&Hne). set (q := x_channel_ cr) in *.
  pose proof (Hidl q ch Hch) as Hid.
  destruct Hok as [[Ho [Hx (cl'&Hcl'&_&Hop)]] Hfi]. assert (cl' = cl) as -> by congruence.
  destruct (proj1 (Hop c) Hcon) as (cn&Hc&Hup). destruct (ob_conns _ Ho _ _ Hc) as [chc Hen].
  assert (Hc0 : c <> nullptr) by apply (en_conn _ _ _ _ Hen).
  set (Q := fun w' => exists cn' ch', Conn.conn_at c cn' ch' w' /\ Conn.up cn' /\
    connCloseCallback_ cn' = Some (ClientCloseConnection x) /\ w_clients w' !! x = None /\
    pendingTasks_ (w_loop w') = [TaskForceCloseInLoop c]).
  enough (Hw : wp (Ends.TcpClient_dtor x) no_fault (fun _ => Q) w).
  { destruct (wp_total _ _ _ Hw) as ([]&w'&Hr&cn'&ch'&Hc'&Hup'&Hcl''&Hn&Hts). exists w'. split; [done|].
    assert (Hf : wp (React.doPendingTasks app) (eq UseAfterFree) (fun _ _ => False) w').
    { unfold React.doPendingTasks, Ev.doPendingTasks, get_loop, upd_loop. wp_step.
      apply Chan.wp_assertInLoopThread; [apply Hc'|]. do 7 wp_step. rewrite Hts. simpl. wp_step. 
      eapply (forceClose_task_gone app c cn' ch'); [|done..]. destruct Hc' as [Hb Hph]. split; [|exact Hph].
      eapply Conn.base_frame; [exact Hb|done..]. }
    unfold wp in Hf. destruct (React.doPendingTasks app w'); [done|by rewrite Hf]. }
  unfold Ends.TcpClient_dtor, get_client. wp_step. wp_lookup. rewrite Hcon, Hrt. wp_step. wp_step.
  unfold Conn.disconnected. wp_step. eapply Conn.wp_get_conn; [apply Hen|]. wp_step.
  rewrite bool_decide_eq_false_2 by (intros Hs; destruct Hup; congruence). simpl.
  eapply wp_conseq; [by eapply forceClose_evolves; [apply Hen|]|]. intros [] w1 (cn1&ch1&[Hf Hc1 _ Hc1c _ Hcl1 Hup1 _ _]&Ht1).
  wp_step. simpl. wp_step. rewrite Htk in Ht1. simpl in Ht1.
  rewrite <- (Frame.fr_connectors _ _ _ _ Hf) in Hcr.
  assert (Hch1 : w_channels w1 !! q = Some ch) by (rewrite (Frame.fr_chans _ _ _ _ Hf); [done|]; by eapply Hne).
  unfold Ends.Connector_dtor, get_connector. wp_step. wp_step. wp_lookup. rewrite Hcc. fold q. simpl. wp_step. wp_step. wp_step.
  unfold Chan.Channel_dtor, get_channel. wp_step. wp_lookup. wp_step. apply wp_assert_true; [by rewrite Hid|].
  wp_step. wp_step. wp_step. exists cn1, ch1. simpl. split_and!.
  - destruct Hc1 as [Hb Hph]. split; [|exact Hph]. eapply Conn.base_frame; [exact Hb|done| |done..]. simpl.
    apply lookup_delete_ne. rewrite Hc1c. intros E. by apply (Hne c cn Hc).
  - by apply Hup1.
  - rewrite Hcl1. apply Hen.
  - apply lookup_delete_eq.
  - exact Ht1.
Qed.
End client.
End Cli.
