(* ===== verification/Decimal.v ===== *)
(** Numbers as text: std::to_string and std::stoll, as src/examples/AddOneServer.cc
    and src/examples/EchoServer.cc use them, over the bytes of a std::string. *)

From S2P Require Import Prelude Ints.

Module Dec.

Definition digit (d : Z) : byte := to_byte (48 + d).
Definition minus : byte := x2d.
Definition plus : byte := x2b.

(** The decimal digits of [x], of which there are at most [n]. *)
Fixpoint digits (n : nat) (x : Z) : list byte :=
  match n with
  | O => []
  | S n' => (if x <? 10 then [] else digits n' (x / 10)) ++ [digit (x mod 10)]
  end.

(** std::to_string of a long long or an int; 64 bits have at most 20 digits. *)
Definition to_string (x : Z) : list byte :=
  if x <? 0 then minus :: digits 20 (- x) else digits 20 x.

Definition digit_val (b : byte) : option Z :=
  let d := byte_val b - 48 in if (0 <=? d) && (d <=? 9) then Some d else None.
Definition is_space (b : byte) : bool :=
  let v := byte_val b in (v =? 32) || ((9 <=? v) && (v <=? 13)).

Fixpoint skip_spaces (s : list byte) : list byte :=
  match s with b :: s' => if is_space b then skip_spaces s' else s | [] => [] end.
Definition sign (s : list byte) : bool * list byte :=
  match s with
  | b :: s' => if decide (b = minus) then (true, s') else if decide (b = plus) then (false, s') else (false, s)
  | [] => (false, [])
  end.
(** The digits at the front; the rest of the string does not matter. *)
Fixpoint number (acc : Z) (s : list byte) : Z :=
  match s with
  | b :: s' => match digit_val b with Some d => number (10 * acc + d) s' | None => acc end
  | [] => acc
  end.

Inductive parsed := Value (x : Z) | InvalidArgument | OutOfRange.

Definition stoll (s : list byte) : parsed :=
  let (neg, s) := sign (skip_spaces s) in
  match s with
  | b :: _ =>
      match digit_val b with
      | Some _ =>
          let x := if neg then - number 0 s else number 0 s in
          if in_range_s 64 x then Value x else OutOfRange
      | None => InvalidArgument
      end
  | [] => InvalidArgument
  end.

(** ** Printing and reading *)

Lemma byte_val_digit d : 0 <= d <= 9 -> byte_val (digit d) = 48 + d.
Proof. intros Hd. unfold digit. rewrite byte_val_to_byte. apply wrapu_small. lia. Qed.
Lemma digit_val_digit d : 0 <= d <= 9 -> digit_val (digit d) = Some d.
Proof.
  intros Hd. unfold digit_val. rewrite byte_val_digit by done. replace (48 + d - 48) with d by lia.
  destruct Hd as [H1 H2]. apply Z.leb_le in H1, H2. by rewrite H1, H2.
Qed.
(** A digit is no space and no sign. *)
Lemma digit_val_plain b d : digit_val b = Some d -> is_space b = false /\ b <> minus /\ b <> plus.
Proof.
  unfold digit_val, is_space. intros Hd. destruct (_ && _) eqn:Hr; [|done]. apply andb_true_iff in Hr as [H1 H2].
  zbool. split; [|split; intros ->; vm_compute in H1; done].
  apply orb_false_iff. split; [apply Z.eqb_neq; lia|]. apply andb_false_iff. right. apply Z.leb_gt. lia.
Qed.

Lemma pow10_S n : 10 ^ Z.of_nat (S n) = 10 * 10 ^ Z.of_nat n.
Proof. rewrite Nat2Z.inj_succ, Z.pow_succ_r by lia. done. Qed.

Lemma number_digits n x t : 0 <= x < 10 ^ Z.of_nat n -> (0 < n)%nat -> number 0 (digits n x ++ t) = number x t.
Proof.
  revert x t. induction n as [|n IH]; intros x t Hx Hn; [lia|]. clear Hn. rewrite pow10_S in Hx.
  pose proof (Z.mod_pos_bound x 10 ltac:(lia)) as Hm. pose proof (Z.div_mod x 10 ltac:(lia)) as Hdm.
  simpl digits. rewrite <- app_assoc. destruct (x <? 10) eqn:Hlt; zbool.
  - simpl. rewrite digit_val_digit by lia. f_equal. rewrite Z.mod_small by lia. lia.
  - assert (Hd : 0 <= x / 10 < 10 ^ Z.of_nat n) by (split; [apply Z.div_pos; lia|apply Z.div_lt_upper_bound; lia]).
    destruct n as [|n]; [simpl in Hd; assert (x / 10 >= 1) by (apply Z.le_ge, Z.div_le_lower_bound; lia); lia|].
    rewrite IH by (done || lia). simpl. rewrite digit_val_digit by lia. f_equal. lia.
Qed.

Lemma digits_head n x : (0 < n)%nat -> 0 <= x -> exists b s d, digits n x = b :: s /\ digit_val b = Some d.
Proof.
  revert x. induction n as [|n IH]; intros x Hn Hx; [lia|]. simpl.
  pose proof (Z.mod_pos_bound x 10 ltac:(lia)) as Hm.
  assert (Hlast : exists b s d, [digit (x mod 10)] = b :: s /\ digit_val b = Some d).
  { eexists _, _, _. split; [done|]. apply digit_val_digit. lia. }
  destruct (x <? 10); [exact Hlast|]. destruct n as [|n]; [exact Hlast|].
  destruct (IH (x / 10)) as (b&s&d&Heq&Hb); [lia|apply Z.div_pos; lia|].
  rewrite Heq. by exists b, (s ++ [digit (x mod 10)]), d.
Qed.

(** Text that does not go on with a digit. *)
Definition no_digit (t : list byte) : Prop :=
  match t with b :: _ => digit_val b = None | [] => True end.

Lemma number_stop x t : no_digit t -> number x t = x.
Proof. destruct t as [|b t]; simpl; [done|]. by intros ->. Qed.

Lemma skip_all sp t : forallb is_space sp = true -> skip_spaces (sp ++ t) = skip_spaces t.
Proof. induction sp as [|b sp IH]; simpl; [done|]. by intros [-> ?]%andb_true_iff; auto. Qed.

Lemma sign_minus s : sign (minus :: s) = (true, s).
Proof. reflexivity. Qed.
Lemma sign_plain b s : b <> minus -> b <> plus -> sign (b :: s) = (false, b :: s).
Proof. intros Hm Hp. unfold sign. by rewrite !decide_False. Qed.

(** stoll reads back what to_string prints, between spaces and any text. *)
Lemma stoll_to_string sp x t :
  forallb is_space sp = true -> - 2 ^ 63 <= x < 2 ^ 63 -> no_digit t -> stoll (sp ++ to_string x ++ t) = Value x.
Proof.
  intros Hsp Hx Ht. unfold stoll. rewrite skip_all by done. unfold to_string.
  assert (Hr : in_range_s 64 x = true) by (unfold in_range_s; apply andb_true_iff; split; zbool; lia).
  destruct (x <? 0) eqn:Hneg; zbool.
  - destruct (digits_head 20 (- x)) as (b&s&d&Heq&Hb); [lia..|]. rewrite <- app_comm_cons. cbn [skip_spaces].
    change (is_space minus) with false. cbn match. rewrite sign_minus.
    pose proof (number_digits 20 (- x) t ltac:(simpl; lia) ltac:(lia)) as Hn. rewrite Heq in Hn |- *.
    rewrite <- app_comm_cons in Hn |- *. rewrite Hb, Hn, number_stop by done. rewrite Z.opp_involutive. by rewrite Hr.
  - destruct (digits_head 20 x) as (b&s&d&Heq&Hb); [lia..|].
    pose proof (number_digits 20 x t ltac:(simpl; lia) ltac:(lia)) as Hn. rewrite Heq in Hn |- *.
    rewrite <- app_comm_cons in Hn |- *. destruct (digit_val_plain b d Hb) as (Hs&Hm&Hp). cbn [skip_spaces]. rewrite Hs, sign_plain by done.
    rewrite Hb, Hn, number_stop by done. by rewrite Hr.
Qed.

Lemma length_digits n x : (length (digits n x) <= n)%nat.
Proof. revert x. induction n as [|n IH]; intros x; simpl; [lia|]. rewrite length_app. simpl. specialize (IH (x / 10)). destruct (x <? 10); simpl; lia. Qed.
Lemma length_to_string x : (length (to_string x) <= 21)%nat.
Proof. unfold to_string. pose proof (length_digits 20 x). pose proof (length_digits 20 (- x)). destruct (x <? 0); cbn [length]; lia. Qed.
End Dec.
