(* ===== verification/Idle.v ===== *)
(** What the example servers src/examples/EchoServer.cc and
    src/examples/AddOneServer.cc have in common: a deadline for each
    connection, put off by every event of the connection, and a periodic timer
    that closes the connections whose deadline has passed.  The state is that of
    the server object; the order in which the unordered_map is traversed is a
    parameter. *)

From S2P Require Import Prelude Ints Kernel Buffer World Poller Channel TimerQueue.
From S2P Require Import TcpConnection EventLoop Endpoints Frame Reports TimerRun Reactor ServerInv Server.

Module Idle.
Import Srv Serve.

(** The members of the server object that its callbacks use; the counter is the
    captured variable of the timers that main installs. *)
Record Server := mkServer {
  timeout_ : Z;
  connections_ : gmap ptr Z;
  countdown : Z
}.
Definition set_connections_ (v : gmap ptr Z) (s : Server) : Server := mkServer (timeout_ s) v (countdown s).
Definition set_countdown (v : Z) (s : Server) : Server := mkServer (timeout_ s) (connections_ s) v.

Section ops.
Context {K : Type} `{Kernel K} `{Build}.
Abbreviation W := (World K Server).

Definition get_server {T} (f : Server -> T) : M W T := gets (fun w => f (w_app w)).
Definition upd_server (f : Server -> Server) : M W unit := modify (fun w => set_w_app (f (w_app w)) w).

(** A product of durations. *)
Definition mul_i64 (a b : Z) : M W Z :=
  if in_range_s 64 (a * b) then ret (a * b) else throw SignedOverflow.

(** clock::nowAfter, clock::nowBefore *)
Definition nowAfter (interval : Z) : M W Z :=
  let! now := clock_now in add_i64 now interval.
Definition nowBefore (interval : Z) : M W Z :=
  let! now := clock_now in add_i64 now (- interval).

Definition expireAfter (c : ptr) (interval : Z) : M W unit :=
  let! when := nowAfter interval in
  upd_server (fun s => set_connections_ (<[c := when]> (connections_ s)) s).

Definition erase (c : ptr) : M W unit :=
  upd_server (fun s => set_connections_ (delete c (connections_ s)) s).

(** The body of the loop of onTimeout, for one entry of the map. *)
Definition expire (entry : ptr * Z) : M W unit :=
  let! now := clock_now in
  if snd entry <=? now then
    Conn.forceClose (fst entry) ;;;
    erase (fst entry)
  else ret tt.

(** The order of the entries of the unordered_map. *)
Variable order : gmap ptr Z -> list (ptr * Z).

Definition onTimeout : M W unit :=
  let! entries := get_server (fun s => order (connections_ s)) in
  for_each entries expire.

Definition onWriteComplete (c : ptr) : M W unit :=
  let! reading := Conn.isReading c in
  when (negb reading)
    (Conn.startRead c ;;;
     let! timeout := get_server timeout_ in
     expireAfter c timeout).

Definition onHighWaterMark (c : ptr) (mark : Z) : M W unit :=
  Conn.stopRead c ;;;
  let! timeout := get_server timeout_ in
  let! twice := mul_i64 2 timeout in
  expireAfter c twice.

(** The lambdas of main: after a minute, count down from five once a second,
    then quit. *)
Definition second : Z := 1000000000.
Definition start_countdown : M W unit :=
  upd_server (set_countdown 5) ;;;
  let! _ := TQ.runEvery second (Some (TimerUser 3)) in
  ret tt.
Definition tick : M W unit :=
  let! n := get_server countdown in
  upd_server (set_countdown (n - 1)) ;;;
  when (n - 1 =? 0) Loop.quit.

(** The timer callbacks: 1 is onTimeout, 2 and 3 are those of main. *)
Definition on_timer (cb : Z) : M W unit :=
  if cb =? 1 then onTimeout else if cb =? 2 then start_countdown else tick.
End ops.

(** ** Every callback keeps the contract *)

(** Only connections of the server are tracked; the timeout is far from the
    ends of the range of durations. *)
#[export] Instance server_inv : AppInv Server := {|
  app_inv := fun s P => 0 <= timeout_ s <= 2 ^ 61 /\ forall c d, connections_ s !! c = Some d -> P c;
  app_inv_mono := fun s P Q Hp HPQ => conj (proj1 Hp) (fun c d Hc => HPQ c (proj2 Hp c d Hc))
|}.

Section contract.
Context {K : Type} `{Kernel K} `{!KernelLaws K} `{Build}.
Context {site : Site} `{!Rep.Epoll K (st_wfd site)}.
Abbreviation W := (World K Server).
Implicit Types w : W.
Abbreviation server_ok := (Srv.server_ok (site := site)).
Abbreviation step_ok := (Srv.step_ok (site := site)).
Variable order : gmap ptr Z -> list (ptr * Z).
Hypothesis order_ok : forall m, order m ≡ₚ map_to_list m.

Lemma server_app w : server_ok w ->
  0 <= timeout_ (w_app w) <= 2 ^ 61 /\ forall c d, connections_ (w_app w) !! c = Some d -> live c w.
Proof. intros Hok. exact (ob_app _ (proj1 (proj1 Hok))). Qed.

Lemma upd_server_keeps f (E : fault -> Prop) w :
  server_ok w -> timeout_ (f (w_app w)) = timeout_ (w_app w) ->
  (forall c d, connections_ (f (w_app w)) !! c = Some d -> live c w) ->
  wp (upd_server f) E (fun _ => step_ok w) w.
Proof.
  intros Hok Ht Hc. unfold upd_server. wp_step. apply set_app_keeps; [done|]. split; [|done].
  rewrite Ht. by apply server_app.
Qed.

(** Two actions of an application in a row. *)
Lemma keeps_seq {T U} (m : M W T) (k : T -> M W U) (E : fault -> Prop) w :
  wp m E (fun _ => step_ok w) w ->
  (forall x w1, step_ok w w1 -> wp (k x) E (fun _ => step_ok w1) w1) ->
  wp (bind m k) E (fun _ => step_ok w) w.
Proof.
  intros Hm Hk. wp_step. eapply wp_conseq; [exact Hm|]. intros x w1 Hs1.
  eapply wp_conseq; [by apply Hk|]. intros y w2 Hs2. eapply step_trans; [exact Hs1|exact Hs2].
Qed.

Lemma step_live w w' c : step_ok w w' -> live c w -> live c w'.
Proof. intros Hs. eapply stays_live, Hs. Qed.

Lemma expireAfter_keeps c interval (E : fault -> Prop) w :
  server_ok w -> live c w -> 0 <= interval <= 2 ^ 62 ->
  wp (expireAfter c interval) E (fun _ => step_ok w) w.
Proof.
  intros Hok Hc Hi. unfold expireAfter, nowAfter. wp_step. wp_step.
  apply now_step; [done|]. intros t w1 Ht Hs1 _. apply TQ.add_i64_wp; [intros _|lia].
  eapply wp_conseq.
  - apply upd_server_keeps; [apply Hs1|done|]. simpl. intros q d [[<- _]|[_ Hq]]%lookup_insert_Some.
    + by eapply step_live.
    + by eapply (proj2 (server_app _ (proj1 Hs1))).
  - intros [] w2 Hs2. eapply step_trans; [exact Hs1|exact Hs2].
Qed.

Lemma erase_keeps c (E : fault -> Prop) w : server_ok w -> wp (erase c) E (fun _ => step_ok w) w.
Proof.
  intros Hok. apply upd_server_keeps; [done..|]. simpl. intros q d [_ Hq]%lookup_delete_Some.
  by eapply (proj2 (server_app w Hok)).
Qed.

Lemma call_keeps x c cn w :
  server_ok w -> w_conns w !! c = Some cn -> Conn.call_pre x cn ->
  match x with Conn.CallSend _ | Conn.CallForceClose | Conn.CallStopRead | Conn.CallStartRead => True | _ => False end ->
  wp (Conn.conn_call_run Conn.no_message Conn.no_close c x) (eq LengthError) (fun _ => step_ok w) w.
Proof.
  intros Hok Hc Hpre Hx. apply (app_keeps (AConn c x)); [done|]. exists cn. by destruct x.
Qed.

Lemma live_state c w : server_ok w -> live c w ->
  exists cn, w_conns w !! c = Some cn /\ state_ cn <> kConnecting.
Proof.
  intros Hok [cn Hc]. destruct (ob_conns _ (proj1 (proj1 Hok)) _ _ Hc) as [ch Hen].
  exists cn. split; [done|apply Hen].
Qed.

Lemma expire_keeps e w :
  server_ok w -> live (fst e) w -> wp (expire e) (eq LengthError) (fun _ => step_ok w) w.
Proof.
  intros Hok Hl. destruct e as [c d]. unfold expire. wp_step. apply now_step; [done|].
  intros t w1 _ Hs1 _. simpl in *. pose proof (step_live _ _ _ Hs1 Hl) as Hl1. wp_step.
  - destruct (live_state c w1 (proj1 Hs1) Hl1) as (cn&Hc&Hst). eapply wp_conseq.
    + apply keeps_seq; [by eapply (call_keeps Conn.CallForceClose); [apply Hs1|..]|].
      intros [] w2 Hs2. apply erase_keeps, Hs2.
    + intros [] w2 Hs2. eapply step_trans; [exact Hs1|exact Hs2].
  - by wp_step.
Qed.

Lemma onTimeout_keeps w :
  server_ok w -> wp (onTimeout order) (eq LengthError) (fun _ => step_ok w) w.
Proof.
  intros Hok. unfold onTimeout, get_server. wp_step. wp_step.
  assert (Hall : Forall (fun e => live (fst e) w) (order (connections_ (w_app w)))).
  { apply list.Forall_forall. intros [c d] Hin. rewrite order_ok in Hin.
    apply elem_of_map_to_list in Hin. by eapply (proj2 (server_app w Hok)). }
  revert Hall. generalize (order (connections_ (w_app w))) as l. intros l. revert w Hok.
  induction l as [|e l IH]; intros w Hok Hall; simpl; [wp_step; by apply step_refl|].
  apply list.Forall_cons in Hall as [He Hl]. apply keeps_seq; [by apply expire_keeps|].
  intros [] w1 Hs1. apply IH; [apply Hs1|]. eapply list.Forall_impl; [exact Hl|]. intros x. by apply step_live.
Qed.

Lemma conn_of_server c cn w : server_ok w -> w_conns w !! c = Some cn ->
  exists ch, Srv.entry (site := site) c cn ch w.
Proof. intros Hok. apply (ob_conns _ (proj1 (proj1 Hok))). Qed.

Lemma isReading_wp c cn ch (E : fault -> Prop) (Q : bool -> W -> Prop) w :
  Conn.base_at c cn ch w -> Q (Chan.isReading ch) w -> wp (Conn.isReading c) E Q w.
Proof.
  intros Hb HQ. unfold Conn.isReading, Conn.conn_channel. wp_step. wp_step.
  eapply Conn.wp_get_conn; [exact Hb|]. eapply Conn.wp_get_chan; [exact Hb|]. by wp_step.
Qed.

(** Starting to read again needs the connection to be open. *)
Lemma onWriteComplete_keeps c w :
  server_ok w -> open c w -> wp (onWriteComplete c) (eq LengthError) (fun _ => step_ok w) w.
Proof.
  intros Hok (cn&Hc&Hup). destruct (conn_of_server c cn w Hok Hc) as [ch Hen].
  unfold onWriteComplete. wp_step. eapply isReading_wp; [apply Hen|].
  apply wp_when; [intros _|intros; by apply step_refl].
  apply keeps_seq; [by eapply (call_keeps Conn.CallStartRead)|].
  intros _ w1 Hs1. unfold get_server. wp_step. wp_step.
  destruct (server_app w1 (proj1 Hs1)) as [Ht _].
  apply expireAfter_keeps; [apply Hs1|eapply step_live; [exact Hs1|by exists cn]|lia].
Qed.

Lemma onHighWaterMark_keeps c mark w :
  server_ok w -> live c w -> wp (onHighWaterMark c mark) (eq LengthError) (fun _ => step_ok w) w.
Proof.
  intros Hok Hl. destruct (live_state c w Hok Hl) as (cn&Hc&Hst). unfold onHighWaterMark.
  apply keeps_seq; [by eapply (call_keeps Conn.CallStopRead)|].
  intros _ w1 Hs1. unfold get_server, mul_i64. wp_step. wp_step.
  destruct (server_app w1 (proj1 Hs1)) as [Ht _].
  assert (in_range_s 64 (2 * timeout_ (w_app w1)) = true) as ->.
  { unfold in_range_s. apply andb_true_iff. rewrite !Z.leb_le || rewrite Z.leb_le, Z.ltb_lt. lia. }
  wp_step. wp_step. apply expireAfter_keeps; [apply Hs1|by eapply step_live|lia].
Qed.

Lemma on_timer_keeps k w : server_ok w -> wp (on_timer order k) quit_fault (fun _ => step_ok w) w.
Proof.
  intros Hok. unfold on_timer. destruct (k =? 1).
  { eapply wp_mono; [by apply onTimeout_keeps|by left|done]. } destruct (k =? 2).
  - unfold start_countdown. apply keeps_seq.
    + apply upd_server_keeps; [done..|]. apply server_app, Hok.
    + intros _ w1 Hs1. apply keeps_seq.
      * eapply wp_mono; [apply runEvery_keeps; [apply Hs1|done]|done|done].
      * intros p w2 Hs2. wp_step. apply step_refl, Hs2.
  - unfold tick, get_server. wp_step. wp_step. apply keeps_seq.
    + apply upd_server_keeps; [done..|]. apply server_app, Hok.
    + intros _ w1 Hs1. apply wp_when; [intros _; apply quit_keeps, Hs1|intros _; apply step_refl, Hs1].
Qed.
End contract.

(** ** What onTimeout does *)

Section sweep.
Context {K : Type} `{Kernel K} `{!KernelLaws K} `{Build}.
Abbreviation W := (World K Server).
Implicit Types w : W.

(** The connections whose deadline has passed when the traversal reads the
    clock, and the kernel after it. *)
Fixpoint sweep (k : K) (l : list (ptr * Z)) : list ptr * K :=
  match l with
  | [] => ([], k)
  | (c, d) :: l' =>
      let (now, k1) := k_now k in
      let (dead, k2) := sweep k1 l' in
      (if d <=? now then c :: dead else dead, k2)
  end.

Definition is_open w (c : ptr) : bool :=
  match w_conns w !! c with Some cn => negb (bool_decide (state_ cn = kDisconnected)) | None => false end.

(** forceClose, in the loop's thread and outside doPendingTasks. *)
Definition force_closed (c : ptr) w : W :=
  match w_conns w !! c with
  | Some cn =>
      if is_open w c then
        let w := put_conn c (set_state_ kDisconnecting cn) w in
        set_w_loop (set_pendingTasks_ (pendingTasks_ (w_loop w) ++ [TaskForceCloseInLoop c]) (w_loop w)) w
      else w
  | None => w
  end.
Definition erased (c : ptr) w : W :=
  set_w_app (set_connections_ (delete c (connections_ (w_app w))) (w_app w)) w.

(** The traversal runs in the loop's thread, in a timer callback. *)
Definition in_timer w : Prop := Chan.in_loop_thread w /\ doingPendingTasks_ (w_loop w) = false.

Lemma forceClose_eq c cn w : in_timer w -> c <> nullptr -> w_conns w !! c = Some cn ->
  Conn.forceClose c w = Ok tt (force_closed c w).
Proof.
  intros [Ht Hd] Hn Hc. apply Z.eqb_neq in Hn. unfold Chan.in_loop_thread in Ht. apply Z.eqb_eq in Ht.
  unfold Conn.forceClose, Conn.forceClose_exchange, Conn.stateAtomicGetAndSet, Conn.set_state, upd_conn,
    get_conn, deref_at, deref, Loop.queueInLoop, Loop.isInLoopThread, get_loop, upd_loop, when, force_closed,
    is_open, bind, gets, modify, ret.
  rewrite Hn, Hc. destruct (bool_decide _) eqn:Hs; simpl; [done|].
  repeat (rewrite ?Hn, ?Hc, ?Hs, ?Ht, ?Hd; simpl). done.
Qed.

Lemma expire_eq c d cn w : in_timer w -> c <> nullptr -> w_conns w !! c = Some cn ->
  expire (c, d) w = let (now, k) := k_now (w_kern w) in
    let w1 := set_w_kern k w in Ok tt (if d <=? now then erased c (force_closed c w1) else w1).
Proof.
  intros Ht Hn Hc. unfold expire, clock_now, bind at 1. destruct (k_now (w_kern w)) as [now k]. simpl.
  destruct (d <=? now); [|done]. unfold bind. by rewrite (forceClose_eq c cn).
Qed.

Lemma force_closed_facts c cn w : w_conns w !! c = Some cn ->
  (in_timer w -> in_timer (force_closed c w)) /\ w_kern (force_closed c w) = w_kern w /\
  w_app (force_closed c w) = w_app w /\
  pendingTasks_ (w_loop (force_closed c w)) =
    pendingTasks_ (w_loop w) ++ (if is_open w c then [TaskForceCloseInLoop c] else []) /\
  w_conns (force_closed c w) =
    if is_open w c then <[c := set_state_ kDisconnecting cn]> (w_conns w) else w_conns w.
Proof. intros Hc. unfold force_closed. rewrite Hc. destruct (is_open w c); split_and!; try done. by rewrite app_nil_r. Qed.

(** One entry of the traversal. *)
Definition expired (c d : ptr) w : W :=
  let (now, k) := k_now (w_kern w) in
  let w1 := set_w_kern k w in if d <=? now then erased c (force_closed c w1) else w1.

Record swept (l : list (ptr * Z)) w w' : Prop := {
  sp_kern : w_kern w' = snd (sweep (w_kern w) l);
  sp_tracked : forall c, connections_ (w_app w') !! c =
    if bool_decide (c ∈ fst (sweep (w_kern w) l)) then None else connections_ (w_app w) !! c;
  sp_tasks : pendingTasks_ (w_loop w') = pendingTasks_ (w_loop w) ++
    map TaskForceCloseInLoop (filter (fun c => is_open w c = true) (fst (sweep (w_kern w) l)));
  sp_conns : forall c cn, w_conns w !! c = Some cn -> w_conns w' !! c = Some
    (if bool_decide (c ∈ fst (sweep (w_kern w) l)) && is_open w c then set_state_ kDisconnecting cn else cn)
}.

Lemma sweep_in k l c : c ∈ fst (sweep k l) -> c ∈ l.*1.
Proof.
  revert k. induction l as [|[q d] l IH]; intros k; simpl; [done|].
  destruct (k_now k) as [now k1]. specialize (IH k1). destruct (sweep k1 l) as [dead k2]. simpl in *.
  destruct (d <=? now); [rewrite !elem_of_cons|rewrite elem_of_cons]; tauto.
Qed.

Lemma filter_open (w w' : W) (l : list ptr) : (forall q, q ∈ l -> is_open w' q = is_open w q) ->
  filter (fun q => is_open w' q = true) l = filter (fun q => is_open w q = true) l.
Proof.
  induction l as [|q l IH]; intros Hq; [done|]. rewrite !filter_cons, Hq by by left.
  rewrite IH by (intros x Hx; apply Hq; by right). done.
Qed.

(** The entry first, then the rest. *)
Lemma swept_cons c d cn l w w' :
  w_conns w !! c = Some cn -> c ∉ l.*1 -> swept l (expired c d w) w' -> swept ((c, d) :: l) w w'.
Proof.
  intros Hc Hnew. unfold expired. destruct (k_now (w_kern w)) as [now k] eqn:Hk.
  set (w1 := set_w_kern k w). destruct (d <=? now) eqn:Hd.
  2: { intros [S1 S2 S3 S4]. split; simpl in *; rewrite Hk, Hd; by destruct (sweep k l). }
  destruct (force_closed_facts c cn w1 Hc) as (_&Fk&Fa&Ft&Fc). set (w2 := erased c (force_closed c w1)).
  assert (E2 : w_kern w2 = k /\ connections_ (w_app w2) = delete c (connections_ (w_app w)) /\
    pendingTasks_ (w_loop w2) = pendingTasks_ (w_loop w) ++ (if is_open w c then [TaskForceCloseInLoop c] else []) /\
    w_conns w2 = if is_open w c then <[c := set_state_ kDisconnecting cn]> (w_conns w) else w_conns w)
    by (simpl; rewrite Fk, Fa, Ft, Fc; done).
  clearbody w2. destruct E2 as (Ek&Ea&Et&Ec). clear w1 Fk Fa Ft Fc.
  assert (Hlk : forall q, q <> c -> w_conns w2 !! q = w_conns w !! q).
  { intros q Hq. rewrite Ec. destruct (is_open w c); [by rewrite lookup_insert_ne|done]. }
  assert (Hop : forall q, q <> c -> is_open w2 q = is_open w q) by (intros q Hq; unfold is_open; by rewrite Hlk).
  intros [S1 S2 S3 S4]. rewrite Ek in *.
  assert (Hout : c ∉ fst (sweep k l)) by (intros Hx; by apply sweep_in in Hx).
  assert (Hsw : sweep (w_kern w) ((c, d) :: l) = (c :: fst (sweep k l), snd (sweep k l)))
    by (simpl; rewrite Hk, Hd; by destruct (sweep k l)).
  split; rewrite Hsw; simpl; [done|..].
  - intros q. rewrite S2, Ea. destruct (decide (q = c)) as [->|Hne].
    + rewrite lookup_delete_eq, (bool_decide_eq_true_2 (c ∈ c :: _)) by by left. by case_bool_decide.
    + rewrite lookup_delete_ne by done. assert (bool_decide (q ∈ c :: fst (sweep k l)) = bool_decide (q ∈ fst (sweep k l))) as ->; [|done].
      apply bool_decide_ext. rewrite elem_of_cons. tauto.
  - rewrite S3, Et, <- app_assoc. f_equal. rewrite (filter_open w w2).
    2: { intros q Hq. apply Hop. by intros ->. }
    rewrite filter_cons. by destruct (is_open w c).
  - intros q x Hq. destruct (decide (q = c)) as [->|Hne].
    + assert (x = cn) as -> by congruence. rewrite (bool_decide_eq_true_2 (c ∈ c :: _)) by by left. simpl.
      destruct (is_open w c) eqn:Ho.
      * rewrite (S4 c (set_state_ kDisconnecting cn)) by (rewrite Ec; apply lookup_insert_eq).
        by rewrite bool_decide_eq_false_2.
      * rewrite (S4 c cn) by (by rewrite Ec). by rewrite bool_decide_eq_false_2.
    + rewrite (S4 q x) by (by rewrite Hlk). rewrite Hop by done. f_equal.
      assert (bool_decide (q ∈ c :: fst (sweep k l)) = bool_decide (q ∈ fst (sweep k l))) as ->; [|done].
      apply bool_decide_ext. rewrite elem_of_cons. tauto.
Qed.

Lemma for_each_sweeps l w :
  in_timer w -> NoDup l.*1 -> (forall c, c ∈ l.*1 -> c <> nullptr /\ live c w) ->
  exists w', for_each l expire w = Ok tt w' /\ swept l w w'.
Proof.
  revert w. induction l as [|[c d] l IH]; intros w Ht Hnd Hl; simpl.
  { exists w. split; [done|]. split; simpl; [done|done|by rewrite app_nil_r|done]. }
  simpl in Hnd. apply list.NoDup_cons in Hnd as [Hc Hnd].
  destruct (Hl c ltac:(by left)) as [Hn [cn Hcn]].
  assert (He : expire (c, d) w = Ok tt (expired c d w)).
  { rewrite (expire_eq c d cn) by done. unfold expired. by destruct (k_now (w_kern w)). }
  assert (H2 : in_timer (expired c d w) /\ forall q, live q w -> live q (expired c d w)).
  { unfold expired. destruct (k_now (w_kern w)) as [now k]. set (w1 := set_w_kern k w).
    destruct (force_closed_facts c cn w1 Hcn) as (Fi&_&_&_&Fc). destruct (d <=? now); [|done].
    split; [exact (Fi Ht)|]. intros q [x Hq]. unfold live. simpl. rewrite Fc. destruct (is_open w1 c); [|by exists x].
    destruct (decide (q = c)) as [->|Hne]; [rewrite lookup_insert_eq|rewrite lookup_insert_ne by done; simpl; rewrite Hq]; done. }
  destruct H2 as [Ht2 Hl2]. destruct (IH (expired c d w) Ht2 Hnd) as (w'&Hr&Hs).
  { intros q Hq. destruct (Hl q ltac:(by right)) as [? ?]. auto. }
  exists w'. split; [unfold bind; by rewrite He|]. by eapply swept_cons.
Qed.

End sweep.

(** ** Property *)

Section property.
Context {K : Type} `{Kernel K} `{!KernelLaws K} `{Build}.
Context {site : Site} `{!Rep.Epoll K (st_wfd site)}.
Implicit Types w : World K Server.
Variable order : gmap ptr Z -> list (ptr * Z).
Hypothesis order_ok : forall m, order m ≡ₚ map_to_list m.

(** C26: onTimeout, erasing as it traverses the map, computes [sweep]: it calls
    forceClose on the connections whose deadline is not after the clock when
    they are visited, and on no other; it forgets exactly these and leaves the
    deadlines of the others; and it returns, without a fault. The sources are
    onTimeout of both servers. *)
Theorem onTimeout_sweeps w :
  Srv.server_ok (site := site) w -> doingPendingTasks_ (w_loop w) = false ->
  exists w', onTimeout order w = Ok tt w' /\ swept (order (connections_ (w_app w))) w w'.
Proof.
  intros Hok Hd. destruct (server_app w Hok) as [_ Hl].
  apply for_each_sweeps; [split; [apply Hok|exact Hd]|..].
  - rewrite order_ok. apply NoDup_fst_map_to_list.
  - intros c ([q d]&->&Hin)%list_elem_of_fmap. rewrite order_ok in Hin. apply elem_of_map_to_list in Hin.
    destruct (Hl q d Hin) as [cn Hc]. split; [|by exists cn]. by eapply server_conn.
Qed.
End property.
End Idle.
