(* ===== verification/Echo.v ===== *)
(** The echo server, src/examples/EchoServer.cc, with one thread: the callbacks
    of the class on the library's connections, and main, which builds the loop
    and the server and runs the loop. *)

From S2P Require Import Prelude Ints Kernel Buffer World Poller Channel TimerQueue.
From S2P Require Import TcpConnection EventLoop Endpoints Frame Reports TimerRun Reactor Os.
From S2P Require Import ServerInv Server TcpServer Decimal Idle.

Module Echo.
Import Srv Serve Idle.

(** The bytes of a string literal. *)
Definition text (s : String.string) : list byte := String.list_byte_of_string s.

Section ops.
Context {K : Type} `{Kernel K} `{Build}.
Abbreviation W := (World K Server).
Variable order : gmap ptr Z -> list (ptr * Z).

Definition onConnection (c : ptr) : M W unit :=
  let! up := Conn.connected c in
  if up then
    Conn.setHighWaterMarkCallback c (Some 1) 1024 ;;;
    let! timeout := get_server timeout_ in
    expireAfter c timeout
  else erase c.

Definition greeting (tid : Z) : list byte := text "Echo handled by tid " ++ Dec.to_string tid ++ text " : ".

Definition onMessage (c : ptr) : M W unit :=
  let! tid := gets w_cur in
  Conn.send c (greeting tid) ;;;
  Conn.send_buffer c (Conn.input_of c) ;;;
  let! timeout := get_server timeout_ in
  expireAfter c timeout.

Definition onWriteComplete : ptr -> M W unit := Idle.onWriteComplete.
Definition onHighWaterMark : ptr -> Z -> M W unit := Idle.onHighWaterMark.
Definition onTimeout : M W unit := Idle.onTimeout order.

(** The callbacks as they are passed to the library; nothing is queued and no
    client is made. *)
Definition app : React.App K Server := React.mkApp
  (fun _ => onConnection) (fun _ => onMessage) (fun _ => onWriteComplete) (fun _ => onHighWaterMark)
  (fun _ => ret tt) (Idle.on_timer order) (fun _ => ret tt) null_sockaddr.

(** The constructor: the members, the timer of onTimeout, the callbacks. *)
Definition EchoServer_ctor (local : sockaddr_in) (timeout : Z) : M W (Tcp.TcpServer K Server) :=
  let server_ := Tcp.TcpServer_ctor local in
  upd_server (fun _ => mkServer timeout ∅ 0) ;;;
  let! _ := TQ.runEvery timeout (Some (TimerUser 1)) in
  ret (Tcp.setWriteCompleteCallback (Some 1) (Tcp.setMessageCallback (UserMessage 1)
    (Tcp.setConnectionCallback (UserConnection 1) server_))).

(** start, with one thread: the server runs in the loop it was given. *)
Definition start : Tcp.TcpServer K Server -> M W ptr := Tcp.startInLoop.

Definition main (this : ptr) (local : sockaddr_in) (fuel : nat) : M W bool :=
  Ev.EventLoop_ctor this nullptr ;;;
  let! server := EchoServer_ctor local (20 * second) in
  let! _ := start server in
  let! _ := TQ.runAfter (60 * second) (Some (TimerUser 2)) in
  React.loop app fuel.
End ops.

(** ** The callbacks keep the contract *)

Section contract.
Context {K : Type} `{Kernel K} `{!KernelLaws K} `{Build}.
Context {site : Site} `{!Rep.Epoll K (st_wfd site)}.
Abbreviation W := (World K Server).
Implicit Types w : W.
Abbreviation server_ok := (Srv.server_ok (site := site)).
Abbreviation step_ok := (Srv.step_ok (site := site)).
Variable order : gmap ptr Z -> list (ptr * Z).
Hypothesis order_ok : forall m, order m ≡ₚ map_to_list m.

Lemma length_greeting tid : zlen (greeting tid) <= Buf.max_size.
Proof.
  unfold greeting, zlen. rewrite !length_app. pose proof (Dec.length_to_string tid).
  assert (E1 : length (text "Echo handled by tid ") = 20%nat) by reflexivity.
  assert (E2 : length (text " : ") = 3%nat) by reflexivity. rewrite E1, E2. unfold Buf.max_size. lia.
Qed.

Lemma connected_wp c cn (E : fault -> Prop) (Q : bool -> W -> Prop) w :
  server_ok w -> w_conns w !! c = Some cn -> Q (bool_decide (state_ cn = kConnected)) w ->
  wp (Conn.connected c) E Q w.
Proof.
  intros Hok Hc HQ. destruct (conn_of_server c cn w Hok Hc) as [ch Hen].
  unfold Conn.connected. wp_step. eapply Conn.wp_get_conn; [apply Hen|]. by wp_step.
Qed.

Lemma deadline_keeps c w : server_ok w -> live c w ->
  wp (let! timeout := get_server timeout_ in expireAfter c timeout) (eq LengthError) (fun _ => step_ok w) w.
Proof.
  intros Hok Hl. unfold get_server. wp_step. wp_step. destruct (server_app w Hok) as [Ht _].
  apply expireAfter_keeps; [done|done|lia].
Qed.

Lemma onConnection_keeps c w : server_ok w -> live c w ->
  wp (onConnection c) (eq LengthError) (fun _ => step_ok w) w.
Proof.
  intros Hok [cn Hc]. unfold onConnection. wp_step. eapply connected_wp; [exact Hok|exact Hc|].
  destruct (bool_decide _); [|by apply erase_keeps]. apply keeps_seq.
  - apply (app_keeps (ASetHighWaterMark c 1 1024)); [done|by exists cn].
  - intros [] w1 Hs1. apply deadline_keeps; [apply Hs1|]. eapply step_live; [exact Hs1|by exists cn].
Qed.

Lemma onMessage_keeps c w : server_ok w -> live c w ->
  wp (onMessage c) (eq LengthError) (fun _ => step_ok w) w.
Proof.
  intros Hok [cn Hc]. unfold onMessage. wp_step. wp_step. apply keeps_seq.
  { eapply (call_keeps (Conn.CallSend _)); [done|exact Hc|apply length_greeting|done]. }
  intros [] w1 Hs1. apply keeps_seq.
  - destruct (step_live w w1 c Hs1) as [cn1 Hc1]; [by exists cn|]. eapply send_buffer_keeps; [apply Hs1|exact Hc1].
  - intros [] w2 Hs2. apply deadline_keeps; [apply Hs2|]. eapply step_live, (step_live w w1); [done..|by exists cn].
Qed.

(** ** What a message is answered with *)

Lemma sendInLoop_answers c cn ch d w :
  server_ok w -> Srv.entry (site := site) c cn ch w -> state_ cn = kConnected -> zlen d <= Buf.max_size ->
  wp (Conn.sendInLoop c d) (eq LengthError) (fun _ w' => server_ok w' /\ w_app w' = w_app w /\ w_cur w' = w_cur w /\
    exists out ch', let cn' := set_outputBuffer_ out cn in
      Srv.entry (site := site) c cn' ch' w' /\
      wire (sockfd_ cn) (w_trace w') ++ Conn.pending cn' =
        wire (sockfd_ cn) (w_trace w) ++ Conn.pending cn ++ Conn.taken cn ch d w) w.
Proof.
  intros Hok Hen Hst Hd. pose proof (en_conn _ _ _ _ Hen) as Hca.
  assert (Hc : w_conns w !! c = Some cn) by apply Hca. assert (Hup : Conn.up cn) by by left.
  assert (Hpre : Conn.call_pre (Conn.CallSendInLoop d) cn) by (split; [by rewrite Hst|done]).
  assert (Hns : state_ cn <> kConnecting) by by rewrite Hst.
  eapply wp_conseq.
  - eapply wp_and; [eapply wp_and; [exact (Conn.sendInLoop_wp c cn ch d w Hca Hup Hd)|]|].
    + eapply wp_mono; [exact (Conn.sendInLoop_stream c cn ch d w Hca Hup Hd)|done|]. exact (fun _ _ Hs => Hs).
    + eapply wp_mono; [eapply wp_and; [apply (api_keeps (Conn.CallSendInLoop d) Conn.no_message Conn.no_close c w cn Hok Hc Hpre); done|]|done|].
      * eapply wp_mono; [apply (Frame.local_call_evolves (Conn.CallSendInLoop d) Conn.no_message Conn.no_close c cn ch w Hca Hns Hpre); done|done|].
        exact (fun _ _ Hs => Hs).
      * exact (fun _ _ Hs => Hs).
  - intros [] w' [[(out&ch1&Hc1&_) (cn2&ch2&Hc2&_&(_&_&Hw&_))] [Hs (cn3&ch3&Hev&_)]].
    pose proof (Frame.ev_frame _ _ _ _ _ _ _ Hev) as Hf.
    split; [apply Hs|]. split; [apply Hf|]. split; [apply Hf|]. exists out, ch1.
    assert (cn2 = set_outputBuffer_ out cn) as -> by (destruct Hc1 as [[] _], Hc2 as [[] _]; congruence).
    split; [|exact Hw]. destruct (conn_of_server c (set_outputBuffer_ out cn) w') as [ch' Hen']; [apply Hs|apply Hc1|].
    assert (ch' = ch1) as ->; [|done]. destruct Hen' as [[[] _] _ _ _ _ _], Hc1 as [[] _]. congruence.
Qed.

(** The connection [cn'] has been sent [d] since [cn]. *)
Definition answered (cn cn' : TcpConnection) (d : list byte) w w' : Prop :=
  sockfd_ cn' = sockfd_ cn /\
  wire (sockfd_ cn) (w_trace w') ++ Conn.pending cn' = wire (sockfd_ cn) (w_trace w) ++ Conn.pending cn ++ d.

Lemma answered_trans cn1 cn2 cn3 d1 d2 w1 w2 w3 :
  answered cn1 cn2 d1 w1 w2 -> answered cn2 cn3 d2 w2 w3 -> answered cn1 cn3 (d1 ++ d2) w1 w3.
Proof.
  intros [E1 S1] [E2 S2]. split; [congruence|]. rewrite E1 in S2. rewrite S2, !app_assoc. f_equal.
  by rewrite S1, !app_assoc.
Qed.

Lemma send_answers c cn ch d w :
  server_ok w -> Srv.entry (site := site) c cn ch w -> state_ cn = kConnected -> zlen d <= Buf.max_size ->
  wp (Conn.send c d) (eq LengthError) (fun _ w' => server_ok w' /\ w_app w' = w_app w /\ w_cur w' = w_cur w /\
    exists out ch', Srv.entry (site := site) c (set_outputBuffer_ out cn) ch' w' /\
      answered cn (set_outputBuffer_ out cn) (Conn.taken cn ch d w) w w') w.
Proof.
  intros Hok Hen Hst Hd. unfold Conn.send. wp_step. eapply Conn.wp_get_conn; [apply Hen|].
  rewrite Hst. simpl. wp_step. eapply Conn.wp_is_loop; [apply Hen|]. eapply wp_conseq.
  - by eapply sendInLoop_answers.
  - intros [] w' (?&?&?&out&ch'&?&?). split_and!; try done. by exists out, ch'.
Qed.

Lemma put_conn_id c cn w : w_conns w !! c = Some cn -> put_conn c cn w = w.
Proof. intros Hc. unfold put_conn, set_w_conns. rewrite insert_id by done. by destruct w. Qed.

(** A method of the input buffer. *)
Lemma on_buf_answers {T} (m : M Buf.Buffer T) (E : fault -> Prop) (Q : T -> W -> Prop) c cn ch w :
  server_ok w -> Srv.entry (site := site) c cn ch w ->
  wp m E (fun x b => Buf.wf b /\ forall w', server_ok w' -> Srv.entry (site := site) c (set_inputBuffer_ b cn) ch w' ->
    w_app w' = w_app w -> w_trace w' = w_trace w -> Q x w') (inputBuffer_ cn) ->
  wp (Conn.on_buf (Conn.input_of c) m) E Q w.
Proof.
  intros Hok Hen Hm. assert (Hc : w_conns w !! c = Some cn) by apply Hen.
  destruct (server_conn c cn w Hok Hc) as (Hc0&Hwf&Hms). eapply wp_on_buf; [exact Hc0|exact Hc|].
  eapply wp_conseq; [exact Hm|]. intros x b [Hb HQ].
  assert (Hs : step_ok w (put_conn c (set_inputBuffer_ b cn) w)) by by eapply put_conn_keeps.
  apply HQ; [apply Hs| |done..].
  destruct (conn_of_server c (set_inputBuffer_ b cn) (put_conn c (set_inputBuffer_ b cn) w)) as [ch' Hen'];
    [apply Hs|apply lookup_insert_eq|].
  assert (ch' = ch) as ->; [|done]. destruct Hen' as [[[] _] _ _ _ _ _], Hen as [[[] _] _ _ _ _ _]. simpl in *. congruence.
Qed.

(** send of the input buffer sends its contents and empties it. *)
Lemma send_buffer_answers c cn ch w :
  server_ok w -> Srv.entry (site := site) c cn ch w -> state_ cn = kConnected ->
  wp (Conn.send_buffer c (Conn.input_of c)) (eq LengthError) (fun _ w' => server_ok w' /\ w_app w' = w_app w /\
    exists cn' ch', Srv.entry (site := site) c cn' ch' w' /\ Buf.contents (inputBuffer_ cn') = [] /\
      answered cn cn' (Conn.taken cn ch (Buf.contents (inputBuffer_ cn)) w) w w') w.
Proof.
  intros Hok Hen Hst. assert (Hc : w_conns w !! c = Some cn) by apply Hen.
  destruct (server_conn c cn w Hok Hc) as (Hc0&Hwf&Hms).
  unfold Conn.send_buffer. wp_step. eapply Conn.wp_get_conn; [apply Hen|]. rewrite Hst. simpl.
  wp_step. eapply Conn.wp_is_loop; [apply Hen|]. wp_step.
  eapply wp_on_buf; [exact Hc0|exact Hc|]. wp_step. wp_step. unfold id. rewrite Buf.readable_wf by done.
  apply Buf.load_contents; [done|]. rewrite put_conn_id by (rewrite Hc; by destruct cn).
  wp_step. eapply wp_conseq; [eapply sendInLoop_answers; [exact Hok|exact Hen|exact Hst|]|].
  { rewrite Buf.zlen_contents by done. destruct Hwf as (?&?&?). lia. }
  intros [] w1 (Hok1&Ha1&_&out&ch1&Hen1&Hw1). set (cn1 := set_outputBuffer_ out cn) in *.
  eapply on_buf_answers; [exact Hok1|exact Hen1|].
  eapply wp_mono; [by apply Buf.retrieveAll_spec|done|]. intros [] b (Hb&Hb0&_). split; [done|].
  intros w2 Hok2 Hen2 Ha2 Ht2. split; [done|]. split; [congruence|].
  exists (set_inputBuffer_ b cn1), ch1. split; [exact Hen2|]. split; [exact Hb0|]. split; [done|]. rewrite Ht2. exact Hw1.
Qed.

(** Putting the deadline off. *)
Lemma touch_wp c (E : fault -> Prop) (Q : unit -> W -> Prop) w :
  server_ok w ->
  (forall now w', 0 <= now < 2 ^ 62 -> w_conns w' = w_conns w -> w_trace w' = w_trace w ->
    w_app w' = set_connections_ (<[c := now + timeout_ (w_app w)]> (connections_ (w_app w))) (w_app w) -> Q tt w') ->
  wp (let! timeout := get_server timeout_ in expireAfter c timeout) E Q w.
Proof.
  intros Hok HQ. unfold get_server, expireAfter, nowAfter. wp_step. wp_step. wp_step. wp_step.
  apply wp_now_run. destruct (k_now (w_kern w)) as [now k]. intros Hnow. destruct (server_app w Hok) as [Ht _].
  apply TQ.add_i64_wp; [intros _|lia]. unfold upd_server. wp_step. by apply (HQ now).
Qed.

Lemma onMessage_wp c cn ch w :
  server_ok w -> Srv.entry (site := site) c cn ch w -> state_ cn = kConnected ->
  wp (onMessage c) (eq LengthError) (fun _ w' => exists cn1 ch1 w1 cn' now,
    Srv.entry (site := site) c cn1 ch1 w1 /\ w_conns w' !! c = Some cn' /\
    Buf.contents (inputBuffer_ cn') = [] /\
    answered cn cn' (Conn.taken cn ch (greeting (w_cur w)) w ++
                     Conn.taken cn1 ch1 (Buf.contents (inputBuffer_ cn)) w1) w w' /\
    0 <= now < 2 ^ 62 /\
    w_app w' = set_connections_ (<[c := now + timeout_ (w_app w)]> (connections_ (w_app w))) (w_app w)) w.
Proof.
  intros Hok Hen Hst. unfold onMessage. wp_step. wp_step. wp_step. eapply wp_conseq.
  { eapply send_answers; [exact Hok|exact Hen|exact Hst|apply length_greeting]. }
  intros [] w1 (Hok1&Ha1&_&out&ch1&Hen1&Hw1). wp_step. eapply wp_conseq.
  { eapply send_buffer_answers; [exact Hok1|exact Hen1|exact Hst]. }
  intros [] w2 (Hok2&Ha2&cn2&ch2&Hen2&Hin&Hw2). apply touch_wp; [done|].
  intros now w3 Hnow Ec Et Ea. rewrite Ha2, Ha1 in Ea.
  exists (set_outputBuffer_ out cn), ch1, w1, cn2, now. split_and!; [done|rewrite Ec; apply Hen2|done| |lia|lia|done].
  destruct (answered_trans cn (set_outputBuffer_ out cn) cn2 _ _ w w1 w2 Hw1 Hw2) as [E1 E2].
  split; [done|]. by rewrite Et.
Qed.
End contract.

(** ** Properties *)

Section properties.
Context {K : Type} `{Kernel K} `{!KernelLaws K} `{Build}.
Context {site : Site} `{!Rep.Epoll K (st_wfd site)}.
Implicit Types w : World K Server.
Abbreviation server_ok := (Srv.server_ok (site := site)).
Abbreviation step_ok := (Srv.step_ok (site := site)).
Variable order : gmap ptr Z -> list (ptr * Z).
Hypothesis order_ok : forall m, order m ≡ₚ map_to_list m.


(** C30: the callbacks of the echo server keep the contract that
    [server_loop_safe] asks for, with one exception: onWriteComplete does when
    the connection is open, but the library also calls it when the connection
    was closed meanwhile. Besides an exhausted vector, they can only fail the
    assertion of quit that it is not called twice. *)
Theorem callbacks_keep_contract :
  (forall c w, server_ok w -> live c w -> wp (onConnection c) quit_fault (fun _ => step_ok w) w) /\
  (forall c w, server_ok w -> open c w -> wp (onMessage c) quit_fault (fun _ => step_ok w) w) /\
  (forall c w, server_ok w -> open c w -> wp (onWriteComplete c) quit_fault (fun _ => step_ok w) w) /\
  (forall c mark w, server_ok w -> live c w -> wp (onHighWaterMark c mark) quit_fault (fun _ => step_ok w) w) /\
  (forall k w, server_ok w -> wp (on_timer order k) quit_fault (fun _ => step_ok w) w).
Proof.
  assert (Hw : forall (m : M (World K Server) unit) w, wp m (eq LengthError) (fun _ => step_ok w) w ->
    wp m quit_fault (fun _ => step_ok w) w) by (intros m w Hm; eapply wp_mono; [exact Hm|by intros f <-; left|done]).
  split_and!; intros; [apply Hw, onConnection_keeps|apply Hw, onMessage_keeps|apply Hw, onWriteComplete_keeps|
    apply Hw, onHighWaterMark_keeps|apply on_timer_keeps]; try done.
  match goal with Ho : open _ _ |- _ => destruct Ho as (cn&?&_); by exists cn end.
Qed.
End properties.

(** ** A run that aborts *)

Import OsK.
Definition debug_build : Build := {| ndebug := false |}.
Definition release_build : Build := {| ndebug := true |}.

(** main, whose server has its acceptor's channel at 4 and its first
    connection, descriptor 30, at 9 with channel 8. The peer sends two bytes
    and reads nothing; after 25 seconds the timer and EPOLLOUT are reported
    together; then the end of the stream. *)
Definition slow_peer : list raw := Tcp.startup ++
  [REvents [(EPOLLIN, 4)]; RAccept 30 null_sockaddr;
   REvents [(EPOLLIN, 8)]; RBytes Tcp.hi; RErr EAGAIN;
   REvents [(EPOLLIN, 2); (EPOLLOUT, 8)]; RBytes []; RNum 1000; RNum 0;
   REvents [(EPOLLIN, 8)]; RBytes []].
Definition slow_clock : list Z := [0; 0; 0; 0; 0; 25 * second].
Definition slow_run (build : Build) (n : nat) : outcome (World Os Server) bool :=
  @main Os _ build map_to_list 1 null_sockaddr n (Tcp.new_thread (mkServer 0 ∅ 0) slow_peer slow_clock).


(** ** Witnesses: the callbacks in a thread of a server *)

#[local] Existing Instance debug_build.

(** The callbacks without the write-complete callback keep the contract. *)
Definition passive : React.App Os Server := React.mkApp
  (fun _ => onConnection) (fun _ => onMessage) (fun _ _ => ret tt) (fun _ => onHighWaterMark)
  (fun _ => ret tt) (on_timer map_to_list) (fun _ => ret tt) null_sockaddr.
Definition passive_fault (f : fault) : Prop := quit_fault f \/ f = Fatal "unexpected accept4() error".

Lemma passive_contract (site : Site) `{!Rep.Epoll Os (st_wfd site)} : contract (site := site) passive passive_fault.
Proof.
  assert (Hw : forall (m : M (World Os Server) unit) w, wp m (eq LengthError) (fun _ => Srv.step_ok (site := site) w) w ->
    wp m passive_fault (fun _ => Srv.step_ok (site := site) w) w).
  { intros m w Hm. eapply wp_mono; [exact Hm|by intros f <-; left; left|done]. }
  split; simpl; intros.
  - by apply Hw, onConnection_keeps.
  - apply Hw, onMessage_keeps; [done|]. match goal with Ho : open _ _ |- _ => destruct Ho as (cn&?&_); by exists cn end.
  - by apply wp_ret, step_refl.
  - by apply Hw, onHighWaterMark_keeps.
  - eapply wp_mono; [by apply on_timer_keeps|by left|done].
  - by apply wp_ret, step_refl.
Qed.

(** One iteration: a connection is accepted; then bytes arrive. *)
Definition passive_init : M (World Os Server) unit := upd_server (fun _ => mkServer (20 * second) ∅ 0).
Definition passive_server : Tcp.TcpServer Os Server :=
  Tcp.setThreadInitCallback (fun _ => passive_init) (Tcp.setMessageCallback (UserMessage 1)
    (Tcp.setConnectionCallback (UserConnection 1) (Tcp.TcpServer_ctor null_sockaddr))).
Definition passive_run := Tcp.runInThread 1 passive_server 1 passive 1
  (Tcp.new_thread (mkServer 0 ∅ 0) (Tcp.startup ++ Tcp.accepted) [second; 25 * second]).
Definition passive_world : World Os Server :=
  match passive_run with Ok _ w => w | Err _ => Tcp.new_thread (mkServer 0 ∅ 0) [] [] end.
Definition passive_site : Site := Tcp.thread_site (wfd := os_wfd) 1.
Definition arrived (d : list byte) : World Os Server :=
  after (Conn.on_input 7 (Buf.append d) passive_world) passive_world.
Definition received : World Os Server := arrived Tcp.hi.

Lemma passive_init_ok : Tcp.only_app passive_init.
Proof.
  intros w. exists (mkServer (20 * second) ∅ 0). split; [done|]. split; [vm_compute; done|].
  intros c d Hc. simpl in Hc. by rewrite lookup_empty in Hc.
Qed.

Lemma passive_run_eq : passive_run =
  Tcp.runInThread 1 passive_server 1 passive 1
    (Tcp.new_thread (mkServer 0 ∅ 0) (Tcp.startup ++ Tcp.accepted) [second; 25 * second]).
Proof. reflexivity. Qed.

Lemma passive_world_ok : Srv.server_ok (site := passive_site) passive_world.
Proof.
  pose proof (Tcp.thread_ok 1 passive_server 1 passive _ 1
    (Tcp.new_thread (mkServer 0 ∅ 0) (Tcp.startup ++ Tcp.accepted) [second; 25 * second])
    (Tcp.new_thread_blank _ _ _) passive_init_ok (passive_contract passive_site)
    (or_introl (or_introl eq_refl)) (or_intror eq_refl)) as Hs.
  rewrite <- passive_run_eq in Hs.
  assert (Hv : match passive_run with Ok _ _ => True | Err _ => False end) by (vm_compute; done).
  unfold passive_world. destruct passive_run as [b w'|f]; [apply Hs|done].
Qed.

Lemma arrived_ok d : is_ok (Conn.on_input 7 (Buf.append d) passive_world) = true -> zlen d <= Buf.max_size ->
  Srv.server_ok (site := passive_site) (arrived d).
Proof.
  intros Hr Hd. destruct (is_some (w_conns passive_world !! 7) (fun _ => True)) as (cn&Hc&_); [vm_compute; done|].
  destruct (server_conn 7 cn passive_world passive_world_ok Hc) as (_&Hwf&_).
  destruct (wp_after (Conn.on_input 7 (Buf.append d)) any_fault
    (fun _ => Srv.step_ok (site := passive_site) passive_world) passive_world passive_world) as [x Hx].
  - eapply input_keeps; [exact passive_world_ok|exact Hc|].
    eapply wp_conseq; [apply Buf.append_spec; [exact Hwf|right; by split]|]. by intros [] b (?&_).
  - exact Hr.
  - apply Hx.
Qed.
Lemma received_ok : Srv.server_ok (site := passive_site) received.
Proof. apply arrived_ok; vm_compute; done. Qed.

Lemma received_conn : exists cn, w_conns received !! 7 = Some cn /\ state_ cn = kConnected.
Proof. apply is_some. vm_compute. reflexivity. Qed.


Lemma callbacks_keep_contract_witness :
  wp (onMessage 7) quit_fault (fun _ => Srv.step_ok (site := passive_site) received) received.
Proof.
  destruct received_conn as (cn&Hc&Hst).
  apply (proj1 (proj2 (callbacks_keep_contract (site := passive_site) map_to_list (fun _ => Permutation_refl _)))); [exact received_ok|].
  exists cn. split; [exact Hc|]. left. exact Hst.
Defined.

(** 24 seconds after the connection was made. *)
Lemma onTimeout_sweeps_witness : exists w', Idle.onTimeout map_to_list passive_world = Ok tt w' /\
  pendingTasks_ (w_loop w') = [TaskForceCloseInLoop 7] /\ connections_ (w_app w') !! 7 = None.
Proof.
  destruct (onTimeout_sweeps (site := passive_site) map_to_list (fun _ => Permutation_refl _) passive_world
    passive_world_ok) as (w'&Hr&[_ Hm Ht _]); [vm_compute; reflexivity|].
  exists w'. split; [exact Hr|]. split; [rewrite Ht; vm_compute; reflexivity|].
  rewrite Hm. vm_compute. reflexivity.
Defined.
End Echo.
