(* ===== verification/AddOne.v ===== *)
(** The add-one server, src/examples/AddOneServer.cc: a message holds a decimal
    number, which a task of the server's ThreadPool reads, while the loop's
    thread waits for its future, and which is answered with its successor.
    Deadlines and timers are those of Idle.v. *)

From S2P Require Import Prelude Ints Kernel Buffer World Poller Channel TimerQueue.
From S2P Require Import TcpConnection EventLoop Endpoints Frame Reports TimerRun Reactor Os.
From S2P Require Import ServerInv Server TcpServer Decimal Idle Echo.

Module AddOne.
Import Srv Serve Idle.

Abbreviation text := Echo.text.

Section ops.
Context {K : Type} `{Kernel K} `{Build}.
Abbreviation W := (World K Server).
Variable order : gmap ptr Z -> list (ptr * Z).

Definition onConnection (c : ptr) : M W unit :=
  let! up := Conn.connected c in
  if up then Conn.setHighWaterMarkCallback c (Some 1) 1024 else erase c.

Definition greeting (tid : Z) : list byte := text "Connection handled by tid " ++ Dec.to_string tid ++ text ", ".
Definition computed (ttid : Z) : list byte := text "calculation handled by tid " ++ Dec.to_string ttid ++ text ": ".

(** The task, in the thread [ttid] of the pool; its value is that of the
    promise. An exception leaves the thread's function. *)
Definition calculate (c : ptr) (ttid : Z) : M W Z :=
  let! str := Conn.on_buf (Conn.input_of c) Buf.retrieveAllAsString in
  match Dec.stoll str with
  | Dec.Value oldNum =>
      Conn.on_buf (Conn.input_of c) (Buf.append (computed ttid)) ;;;
      add_i64 oldNum 1
  | Dec.InvalidArgument => throw (Uncaught "std::invalid_argument")
  | Dec.OutOfRange => throw (Uncaught "std::out_of_range")
  end.

Definition onMessage (c : ptr) (ttid : Z) : M W unit :=
  let! tid := gets w_cur in
  Conn.send c (greeting tid) ;;;
  let! res := calculate c ttid in
  Conn.on_buf (Conn.input_of c) (Buf.append (Dec.to_string res ++ [x0a])) ;;;
  Conn.send_buffer c (Conn.input_of c) ;;;
  let! timeout := get_server timeout_ in
  expireAfter c timeout.

Definition onWriteComplete : ptr -> M W unit := Idle.onWriteComplete.
Definition onHighWaterMark : ptr -> Z -> M W unit := Idle.onHighWaterMark.
Definition onTimeout : M W unit := Idle.onTimeout order.

(** The callbacks, the constructor, start with one thread, and main; the pool
    hands the task of a message to some thread, [worker]. *)
Variable worker : ptr -> Z.
Definition app : React.App K Server := React.mkApp
  (fun _ => onConnection) (fun _ c => onMessage c (worker c)) (fun _ => onWriteComplete) (fun _ => onHighWaterMark)
  (fun _ => ret tt) (Idle.on_timer order) (fun _ => ret tt) null_sockaddr.

Definition AddOneServer_ctor (local : sockaddr_in) (timeout : Z) : M W (Tcp.TcpServer K Server) :=
  let server_ := Tcp.TcpServer_ctor local in
  upd_server (fun _ => mkServer timeout ∅ 0) ;;;
  let! _ := TQ.runEvery timeout (Some (TimerUser 1)) in
  ret (Tcp.setWriteCompleteCallback (Some 1) (Tcp.setMessageCallback (UserMessage 1)
    (Tcp.setConnectionCallback (UserConnection 1) server_))).
Definition start : Tcp.TcpServer K Server -> M W ptr := Tcp.startInLoop.
Definition main (this : ptr) (local : sockaddr_in) (fuel : nat) : M W bool :=
  Ev.EventLoop_ctor this nullptr ;;;
  let! server := AddOneServer_ctor local (30 * second) in
  let! _ := start server in
  let! _ := TQ.runAfter (60 * second) (Some (TimerUser 2)) in
  React.loop app fuel.
End ops.

(** ** What a message is answered with *)

Section specs.
Context {K : Type} `{Kernel K} `{!KernelLaws K} `{Build}.
Context {site : Site} `{!Rep.Epoll K (st_wfd site)}.
Abbreviation W := (World K Server).
Implicit Types w : W.
Abbreviation server_ok := (Srv.server_ok (site := site)).
Abbreviation entry := (Srv.entry (site := site)).

Lemma short_text (l : list byte) (E : fault -> Prop) b : (length l <= 100)%nat -> Buf.wf b -> E LengthError -> Buf.fits (zlen l) E b.
Proof. intros Hl Hb HE. right. split; [|done]. unfold zlen, Buf.max_size. lia. Qed.

Lemma greeting_short tid : (length (greeting tid) <= 100)%nat.
Proof.
  unfold greeting. rewrite !length_app. pose proof (Dec.length_to_string tid).
  assert (E1 : length (text "Connection handled by tid ") = 26%nat) by reflexivity.
  assert (E2 : length (text ", ") = 2%nat) by reflexivity. lia.
Qed.
Lemma length_computed tid : (length (computed tid) <= 100)%nat.
Proof.
  unfold computed. rewrite !length_app. pose proof (Dec.length_to_string tid).
  assert (E1 : length (text "calculation handled by tid ") = 27%nat) by reflexivity.
  assert (E2 : length (text ": ") = 2%nat) by reflexivity. lia.
Qed.
Lemma length_result n : (length (Dec.to_string n ++ [x0a]) <= 100)%nat.
Proof. rewrite length_app. pose proof (Dec.length_to_string n). simpl. lia. Qed.

(** The number in the message. *)
Definition request (cn : TcpConnection) : Dec.parsed := Dec.stoll (Buf.contents (inputBuffer_ cn)).

(** How the task can fail. *)
Definition calculate_fault (p : Dec.parsed) (f : fault) : Prop :=
  f = LengthError \/
  match p with
  | Dec.Value n => n = 2 ^ 63 - 1 /\ f = SignedOverflow
  | Dec.InvalidArgument => f = Uncaught "std::invalid_argument"
  | Dec.OutOfRange => f = Uncaught "std::out_of_range"
  end.

Lemma stoll_range s n : Dec.stoll s = Dec.Value n -> - 2 ^ 63 <= n < 2 ^ 63.
Proof.
  unfold Dec.stoll. destruct (Dec.sign _) as [neg [|b s']]; [done|]. destruct (Dec.digit_val b); [|done].
  generalize (if neg then - Dec.number 0 (b :: s') else Dec.number 0 (b :: s')) as x. intros x.
  destruct (in_range_s 64 x) eqn:Hr; [|done]. intros [= <-]. unfold in_range_s in Hr.
  change (64 - 1) with 63 in Hr. zbool. lia.
Qed.

Lemma calculate_wp c cn ch ttid w :
  server_ok w -> entry c cn ch w ->
  wp (calculate c ttid) (calculate_fault (request cn)) (fun x w' => exists n b, request cn = Dec.Value n /\ x = n + 1 /\
    n < 2 ^ 63 - 1 /\ server_ok w' /\ entry c (set_inputBuffer_ b cn) ch w' /\ Buf.contents b = computed ttid /\
    w_app w' = w_app w /\ w_trace w' = w_trace w) w.
Proof.
  intros Hok Hen. destruct (server_conn c cn w Hok (Conn.ba_conn _ _ _ _ (proj1 (en_conn _ _ _ _ Hen)))) as (_&Hwf&_).
  unfold calculate. wp_step. eapply Echo.on_buf_answers; [exact Hok|exact Hen|].
  eapply wp_mono; [by apply Buf.retrieveAllAsString_spec|done|]. intros s b (Hb&->&Hb0). split; [done|].
  intros w1 Hok1 Hen1 Ha1 Ht1. fold (request cn). pose proof (stoll_range (Buf.contents (inputBuffer_ cn))) as Hrg.
  fold (request cn) in Hrg. destruct (request cn) as [n| |]; [|apply wp_throw; by right..].
  specialize (Hrg n eq_refl). wp_step. eapply Echo.on_buf_answers; [exact Hok1|exact Hen1|].
  eapply wp_conseq; [apply Buf.append_spec; [exact Hb|apply short_text; [apply length_computed|done|by left]]|].
  intros [] b2 (Hb2&Hc2&_). split; [done|]. intros w2 Hok2 Hen2 Ha2 Ht2.
  apply TQ.add_i64_wp; [intros Hn|intros Hn; right; split; [lia|done]].
  exists n, b2. split_and!; [done|done|lia|done|exact Hen2| |congruence|congruence].
  simpl in Hc2. by rewrite Hc2, Hb0.
Qed.

Lemma addone_wp c cn ch ttid w :
  server_ok w -> entry c cn ch w -> state_ cn = kConnected ->
  wp (onMessage c ttid) (calculate_fault (request cn)) (fun _ w' => exists n cn1 ch1 w1 cn',
    request cn = Dec.Value n /\ n < 2 ^ 63 - 1 /\ entry c cn1 ch1 w1 /\ w_conns w' !! c = Some cn' /\
    Buf.contents (inputBuffer_ cn') = [] /\
    Echo.answered cn cn' (Conn.taken cn ch (greeting (w_cur w)) w ++
      Conn.taken cn1 ch1 (computed ttid ++ Dec.to_string (n + 1) ++ [x0a]) w1) w w') w.
Proof.
  intros Hok Hen Hst. unfold onMessage. wp_step. wp_step. wp_step. eapply wp_mono.
  { eapply Echo.send_answers; [exact Hok|exact Hen|exact Hst|].
    pose proof (greeting_short (w_cur w)). unfold zlen, Buf.max_size. lia. }
  { intros f <-. by left. }
  intros [] w1 (Hok1&Ha1&_&out&ch1&Hen1&Hw1). wp_step.
  eapply wp_conseq; [exact (calculate_wp c (set_outputBuffer_ out cn) ch1 ttid w1 Hok1 Hen1)|].
  change (request (set_outputBuffer_ out cn)) with (request cn).
  intros x w2 (n&b&Hn&->&Hlt&Hok2&Hen2&Hb&Ha2&Ht2). wp_step.
  eapply Echo.on_buf_answers; [exact Hok2|exact Hen2|].
  assert (Hwf : Buf.wf b) by (apply (Conn.ba_in _ _ _ _ (proj1 (en_conn _ _ _ _ Hen2)))).
  eapply wp_conseq; [apply Buf.append_spec; [exact Hwf|apply short_text; [apply length_result|done|by left]]|].
  intros [] b3 (Hb3&Hc3&_). split; [done|]. intros w3 Hok3 Hen3 Ha3 Ht3. wp_step. eapply wp_mono.
  { eapply Echo.send_buffer_answers; [exact Hok3|exact Hen3|exact Hst]. }
  { intros f <-. by left. }
  intros [] w4 (Hok4&Ha4&cn4&ch4&Hen4&Hin&Hw4). apply Echo.touch_wp; [done|].
  intros now w5 _ Ec Et _. exists n, (set_inputBuffer_ b3 (set_inputBuffer_ b (set_outputBuffer_ out cn))), ch1, w3, cn4.
  split_and!; [done|done|exact Hen3|rewrite Ec; apply Hen4|done|]. simpl in Hw4, Hc3. rewrite Hc3, Hb in Hw4.
  destruct Hw1 as [E1 S1], Hw4 as [E4 S4]. simpl in E1, S1, E4, S4. split; [congruence|].
  rewrite Et, S4, Ht3, Ht2, !app_assoc. f_equal. rewrite <- !app_assoc. exact S1.
Qed.
End specs.

(** ** Properties *)

Section properties.
Context {K : Type} `{Kernel K} `{!KernelLaws K} `{Build}.
Context {site : Site} `{!Rep.Epoll K (st_wfd site)}.
Implicit Types w : World K Server.

(** C28: a number is answered with its successor. When the message is a number
    below the greatest of a long long, as std::to_string prints it, after any
    spaces and before any text that does not go on with a digit, onMessage
    commits the greeting and then the text of the pool's thread with the
    successor and a newline, and empties the input buffer; it can only fail
    where a vector would be too long. *)
Theorem onMessage_answers c cn ch ttid sp n t w :
  Srv.server_ok (site := site) w -> Srv.entry (site := site) c cn ch w -> state_ cn = kConnected ->
  Buf.contents (inputBuffer_ cn) = sp ++ Dec.to_string n ++ t ->
  forallb Dec.is_space sp = true -> Dec.no_digit t -> - 2 ^ 63 <= n < 2 ^ 63 - 1 ->
  match onMessage c ttid w with
  | Ok _ w' => exists cn1 ch1 w1 cn', Srv.entry (site := site) c cn1 ch1 w1 /\ w_conns w' !! c = Some cn' /\
      Buf.contents (inputBuffer_ cn') = [] /\
      Echo.answered cn cn' (Conn.taken cn ch (greeting (w_cur w)) w ++
        Conn.taken cn1 ch1 (computed ttid ++ Dec.to_string (n + 1) ++ [x0a]) w1) w w'
  | Err f => f = LengthError
  end.
Proof.
  intros Hok Hen Hst Hin Hsp Ht Hn. pose proof (addone_wp c cn ch ttid w Hok Hen Hst) as Hwp.
  assert (Hreq : request cn = Dec.Value n) by (unfold request; rewrite Hin; apply Dec.stoll_to_string; auto; lia).
  unfold wp, calculate_fault in Hwp. rewrite Hreq in Hwp. destruct (onMessage c ttid w) as [[] w'|f].
  - destruct Hwp as (m&cn1&ch1&w1&cn'&[= <-]&_&?&?&?&?). by exists cn1, ch1, w1, cn'.
  - destruct Hwp as [?|[? _]]; [done|lia].
Qed.

(** C29: no other message is survived. The task has no handler for what stoll
    throws, and adds one without a test: a message that does not begin with a
    number, or with one that a long long cannot hold, ends the process with an
    uncaught exception, and the greatest long long overflows. *)
Theorem bad_number_ends_server c cn ch ttid w :
  Srv.server_ok (site := site) w -> Srv.entry (site := site) c cn ch w -> state_ cn = kConnected ->
  match request cn with
  | Dec.Value n => - 2 ^ 63 <= n < 2 ^ 63 /\ (n = 2 ^ 63 - 1 ->
      onMessage c ttid w = Err SignedOverflow \/ onMessage c ttid w = Err LengthError)
  | Dec.InvalidArgument =>
      onMessage c ttid w = Err (Uncaught "std::invalid_argument") \/ onMessage c ttid w = Err LengthError
  | Dec.OutOfRange =>
      onMessage c ttid w = Err (Uncaught "std::out_of_range") \/ onMessage c ttid w = Err LengthError
  end.
Proof.
  intros Hok Hen Hst. pose proof (addone_wp c cn ch ttid w Hok Hen Hst) as Hwp.
  pose proof (stoll_range (Buf.contents (inputBuffer_ cn))) as Hr. fold (request cn) in Hr.
  unfold wp, calculate_fault in Hwp. destruct (onMessage c ttid w) as [[] w'|f].
  - destruct Hwp as (m&_&_&_&_&Hm&Hlt&_). rewrite Hm. specialize (Hr m Hm). lia.
  - destruct (request cn) as [n| |]; [split; [by apply Hr|intros _]| |];
      destruct Hwp as [->|Hf]; auto; [destruct Hf as [_ ->]; auto|rewrite Hf; auto..].
Qed.
End properties.

(** ** Witnesses *)

Import OsK.
#[local] Existing Instance Echo.debug_build.

(** A connection on which [d] has arrived. *)
Lemma arrived_entry d : is_ok (Conn.on_input 7 (Buf.append d) Echo.passive_world) = true -> zlen d <= Buf.max_size ->
  match w_conns (Echo.arrived d) !! 7 with
  | Some cn => state_ cn = kConnected /\ Buf.contents (inputBuffer_ cn) = d
  | None => False
  end ->
  exists cn ch, Srv.entry (site := Echo.passive_site) 7 cn ch (Echo.arrived d) /\ state_ cn = kConnected /\
    Buf.contents (inputBuffer_ cn) = d.
Proof.
  intros Hr Hd Hc. apply is_some in Hc as (cn&Hc&Hst&Hin).
  destruct (conn_of_server (site := Echo.passive_site) 7 cn (Echo.arrived d) (Echo.arrived_ok d Hr Hd) Hc) as [ch Hen].
  exists cn, ch. split; [exact Hen|]. split; [exact Hst|exact Hin].
Qed.

(** The message "41" and a newline, with the task in thread 77. *)
Definition forty_one : list byte := text "41" ++ [x0a].
Lemma forty_one_ok : Srv.server_ok (site := Echo.passive_site) (Echo.arrived forty_one).
Proof. apply Echo.arrived_ok; vm_compute; done. Qed.
Lemma onMessage_answers_witness : exists w', onMessage 7 77 (Echo.arrived forty_one) = Ok tt w' /\
  wire 30 (w_trace w') = text "Connection handled by tid 1, calculation handled by tid 77: 42" ++ [x0a].
Proof.
  destruct (arrived_entry forty_one) as (cn&ch&Hen&Hst&Hin); [vm_compute; reflexivity|vm_compute; discriminate|vm_compute; split; reflexivity|].
  pose proof (onMessage_answers 7 cn ch 77 [] 41 [x0a] (Echo.arrived forty_one)
    forty_one_ok Hen Hst Hin eq_refl eq_refl
    ltac:(lia)) as Ha.
  assert (Hv : match onMessage 7 77 (Echo.arrived forty_one) with Ok _ w' => wire 30 (w_trace w') =
    text "Connection handled by tid 1, calculation handled by tid 77: 42" ++ [x0a] | Err _ => False end)
    by (vm_compute; reflexivity).
  destruct (onMessage 7 77 (Echo.arrived forty_one)) as [[] w'|f]; [|destruct Hv]. exists w'. split; [reflexivity|exact Hv].
Defined.

(** The message "hi". *)
Lemma hi_ok : Srv.server_ok (site := Echo.passive_site) (Echo.arrived Tcp.hi).
Proof. apply Echo.arrived_ok; vm_compute; done. Qed.
Lemma bad_number_ends_server_witness :
  onMessage 7 77 (Echo.arrived Tcp.hi) = Err (Uncaught "std::invalid_argument").
Proof.
  destruct (arrived_entry Tcp.hi) as (cn&ch&Hen&Hst&Hin); [vm_compute; reflexivity|vm_compute; discriminate|vm_compute; split; reflexivity|].
  pose proof (bad_number_ends_server 7 cn ch 77 (Echo.arrived Tcp.hi) hi_ok Hen Hst) as Hb.
  assert (Hr : request cn = Dec.InvalidArgument) by (unfold request; rewrite Hin; vm_compute; reflexivity).
  rewrite Hr in Hb.
  assert (Hv : match onMessage 7 77 (Echo.arrived Tcp.hi) with Err LengthError => False | _ => True end)
    by (vm_compute; done).
  destruct (onMessage 7 77 (Echo.arrived Tcp.hi)) as [x w'|f]; destruct Hb as [Hb|Hb]; try exact Hb; [discriminate Hb|].
  injection Hb as ->. destruct Hv.
Defined.
End AddOne.
