(* ===== verification/Clients.v ===== *)
(** The interactive clients, src/examples/EchoClient.cc and
    src/examples/AddOneClient.cc, which differ in their log lines only: a
    TcpClient whose connection is handed to a thread that sends the lines of the
    standard input, while the loop's thread prints what is received. This file
    has the programs, what their thread calls, and their loop without it;
    Sessions.v puts the two together. *)

From S2P Require Import Prelude Ints Kernel Buffer World Poller Channel TimerQueue.
From S2P Require Import TcpConnection EventLoop Endpoints Frame Reports TimerRun Reactor Os.
From S2P Require Import ServerInv Server Lifetime TcpServer Teardown Client.

Module Clients.
Import Srv Serve Life Cli.

(** The thread of a connection: created, reading the standard input, or at its
    end, where it drops its reference. *)
Inductive Stage := Created | Reading | Done.
#[export] Instance stage_eq_dec : EqDecision Stage.
Proof. solve_decision. Defined.
Record User := mkUser { u_conn : ptr; u_stage : Stage }.

(** What was printed, the threads, and what happens next among them
    (Sessions.v): a turn of the i-th with a line of the standard input or its end,
    or nothing more before the loop goes on. *)
Record Bench := mkBench {
  printed : list byte;
  users : list User;
  turns : list (option (nat * option (list byte)))
}.

(** Each thread holds its connection until its end; getline delivers no line
    that is longer than a string can be. *)
Definition active (u : User) : bool := negb (bool_decide (u_stage u = Done)).
Definition turn_ok (t : option (nat * option (list byte))) : Prop :=
  match t with Some (_, Some d) => zlen d <= Buf.max_size | _ => True end.

#[export] Instance bench_inv : AppInv Bench := {|
  app_inv := fun a P => (forall u, u ∈ users a -> active u = true -> P (u_conn u)) /\ Forall turn_ok (turns a);
  app_inv_mono := fun a P Q HP HPQ => conj (fun u Hu Ha => HPQ _ (proj1 HP u Hu Ha)) (proj2 HP)
|}.
#[export, refine] Instance bench_owns : AppOwns Bench := {|
  holds := fun a c => existsb (fun u => active u && (u_conn u =? c)) (users a)
|}.
Proof.
  intros a P Q [HP Ht] HPQ. split; [|done]. intros u Hu Ha. apply HPQ; [|by apply HP]. apply existsb_elem.
  exists u. by rewrite Ha, Z.eqb_refl.
Defined.

Section ops.
Context {K : Type} `{Kernel K} `{Build}.
Abbreviation W := (World K Bench).

Definition upd_bench (f : Bench -> Bench) : M W unit := modify (fun w => set_w_app (f (w_app w)) w).

(** UserInput *)
Definition UserInput_ctor (conn : ptr) : M W unit := Conn.setMessageCallback conn (Some (UserMessage 1)).

Definition onMessage (conn : ptr) : M W unit :=
  let! s := Conn.on_input conn Buf.retrieveAllAsString in
  upd_bench (fun b => mkBench (printed b ++ s ++ [x0a]) (users b) (turns b)).

(** [lines] is what getline delivers until the end of the input. *)
Definition run (conn : ptr) (lines : list (list byte)) : M W unit :=
  for_each lines (Conn.send conn) ;;;
  Conn.shutdown conn.

(** The function of the thread [tid]. *)
Definition user_thread (tid : Z) (conn : ptr) (lines : list (list byte)) : M W unit :=
  let! cur := gets w_cur in
  modify (set_w_cur tid) ;;;
  UserInput_ctor conn ;;;
  run conn lines ;;;
  modify (set_w_cur cur).

(** EchoBench and AddOneBench *)
Definition onConnection (conn : ptr) : M W unit :=
  let! up := Conn.connected conn in
  if up then upd_bench (fun b => mkBench (printed b) (users b ++ [mkUser conn Created]) (turns b))
  else Loop.quit.

Definition Bench_ctor (addr : sockaddr_in) : M W ptr :=
  let! client := Ends.TcpClient_ctor addr in
  Ends.Client_setConnectionCallback client (Some (UserConnection 1)) ;;;
  ret client.

Definition app : React.App K Bench := React.mkApp
  (fun _ => onConnection) (fun _ => onMessage) (fun _ _ => ret tt) (fun _ _ _ => ret tt)
  (fun _ => ret tt) (fun _ => ret tt) (fun _ => ret tt) null_sockaddr.

Definition start (client : ptr) : M W unit :=
  Ends.Client_start null_sockaddr (React.run_connection app) (React.on_error app) client.

(** main up to the call of loop. *)
Definition setup (this : ptr) (addr : sockaddr_in) : M W ptr :=
  Ev.EventLoop_ctor this nullptr ;;;
  let! client := Bench_ctor addr in
  start client ;;;
  ret client.

Definition main (this : ptr) (addr : sockaddr_in) (fuel : nat) : M W bool :=
  let! _ := setup this addr in Life.loop app fuel.
End ops.

(** AddOneClient.cc, which has its own copies of both classes. *)
Module AddOne.
Section ops.
Context {K : Type} `{Kernel K} `{Build}.
Abbreviation W := (World K Bench).

(** UserInput *)
Definition UserInput_ctor (conn : ptr) : M W unit := Conn.setMessageCallback conn (Some (UserMessage 1)).

Definition onMessage (conn : ptr) : M W unit :=
  let! s := Conn.on_input conn Buf.retrieveAllAsString in
  upd_bench (fun b => mkBench (printed b ++ s ++ [x0a]) (users b) (turns b)).

Definition run (conn : ptr) (lines : list (list byte)) : M W unit :=
  for_each lines (fun line => Conn.send conn line) ;;;
  Conn.shutdown conn.

Definition user_thread (tid : Z) (conn : ptr) (lines : list (list byte)) : M W unit :=
  let! cur := gets w_cur in
  modify (set_w_cur tid) ;;;
  UserInput_ctor conn ;;;
  run conn lines ;;;
  modify (set_w_cur cur).

(** AddOneBench *)
Definition onConnection (conn : ptr) : M W unit :=
  let! up := Conn.connected conn in
  if up then upd_bench (fun b => mkBench (printed b) (users b ++ [mkUser conn Created]) (turns b))
  else Loop.quit.

Definition AddOneBench_ctor (addr : sockaddr_in) : M W ptr :=
  let! client := Ends.TcpClient_ctor addr in
  Ends.Client_setConnectionCallback client (Some (UserConnection 1)) ;;;
  ret client.

Definition app : React.App K Bench := React.mkApp
  (fun _ => onConnection) (fun _ => onMessage) (fun _ _ => ret tt) (fun _ _ _ => ret tt)
  (fun _ => ret tt) (fun _ => ret tt) (fun _ => ret tt) null_sockaddr.

Definition start (client : ptr) : M W unit :=
  Ends.Client_start null_sockaddr (React.run_connection app) (React.on_error app) client.

Definition main (this : ptr) (addr : sockaddr_in) (fuel : nat) : M W bool :=
  Ev.EventLoop_ctor this nullptr ;;;
  let! client := AddOneBench_ctor addr in
  start client ;;;
  Life.loop app fuel.
End ops.
End AddOne.

(** The two executables. *)
Inductive Program := EchoClient | AddOneClient.

Definition main_of {K : Type} `{Kernel K} `{Build} (p : Program) :
    ptr -> sockaddr_in -> nat -> M (World K Bench) bool :=
  match p with EchoClient => main | AddOneClient => AddOne.main end.

(** ** The thread *)

Section specs.
Context {K : Type} `{Kernel K} `{!KernelLaws K} `{Build}.
Abbreviation W := (World K Bench).
Implicit Types w : W.

(** What the calls of another thread leave alone, but for the tasks [ts] they
    queue. *)
Definition queued (ts : list Task) w w' : Prop :=
  pendingTasks_ (w_loop w') = pendingTasks_ (w_loop w) ++ ts /\ w_conns w' = w_conns w /\
  tid_ (w_loop w') = tid_ (w_loop w) /\ w_cur w' = w_cur w.

Lemma queued_trans t1 t2 w1 w2 w3 : queued t1 w1 w2 -> queued t2 w2 w3 -> queued (t1 ++ t2) w1 w3.
Proof. intros (P1&?&?&?) (P2&?&?&?). split; [by rewrite P2, P1, app_assoc|]. split_and!; congruence. Qed.

Lemma queueInLoop_queued t w : wp (Loop.queueInLoop t) no_fault (fun _ => queued [t] w) w.
Proof.
  unfold Loop.queueInLoop, Loop.isInLoopThread, Loop.wakeup, upd_loop, get_loop.
  wp_step. wp_step. wp_step. wp_step. wp_step. wp_step. apply wp_when; [intros _|done].
  wp_step. wp_step. wp_step. apply wp_sys. intros r k _. by wp_step.
Qed.

Lemma send_queued c cn d w :
  w_conns w !! c = Some cn -> c <> nullptr -> state_ cn = kConnected -> tid_ (w_loop w) <> w_cur w ->
  wp (Conn.send c d) no_fault (fun _ => queued [TaskSendInLoop c d] w) w.
Proof.
  intros Hc Hn Hst Ht. apply Z.eqb_neq in Ht. unfold Conn.send, get_conn, Loop.isInLoopThread.
  wp_step. wp_lookup. rewrite Hst. simpl. wp_step. wp_step. rewrite Ht. apply queueInLoop_queued.
Qed.

Lemma lines_queued c cn lines w :
  w_conns w !! c = Some cn -> c <> nullptr -> state_ cn = kConnected -> tid_ (w_loop w) <> w_cur w ->
  wp (for_each lines (Conn.send c)) no_fault (fun _ => queued (map (TaskSendInLoop c) lines) w) w.
Proof.
  intros Hc Hn Hst. revert w Hc. induction lines as [|l lines IH]; intros w Hc Ht; simpl.
  - wp_step. split; [by rewrite app_nil_r|done].
  - wp_step. eapply wp_conseq; [by eapply send_queued|]. intros [] w1 Hq.
    pose proof Hq as (_&E1&E2&E3). eapply wp_conseq; [apply IH; congruence|].
    intros [] w2 Hq2. by apply (queued_trans [_] _ w w1 w2).
Qed.

Lemma shutdown_queued c cn w :
  w_conns w !! c = Some cn -> c <> nullptr -> state_ cn = kConnected -> tid_ (w_loop w) <> w_cur w ->
  wp (Conn.shutdown c) no_fault (fun _ w' =>
    queued [TaskShutdownInLoop c] (put_conn c (set_state_ kDisconnecting cn) w) w') w.
Proof.
  intros Hc Hn Hst Ht. apply Z.eqb_neq in Ht.
  unfold Conn.shutdown, Conn.stateAtomicGetAndSet, Conn.set_state, upd_conn, get_conn.
  wp_step. wp_lookup. wp_step. apply wp_assert_true; [by rewrite Hst|].
  wp_step. wp_step. wp_lookup. wp_step. wp_step. wp_lookup. wp_step. wp_step. rewrite Hst.
  apply wp_when; [intros _|done]. unfold Loop.isInLoopThread. wp_step. wp_step. simpl. rewrite Ht.
  apply queueInLoop_queued.
Qed.
End specs.

(** ** From the first instruction on *)

Section main.
Context {K : Type} `{Kernel K} `{!KernelLaws K} `{Build} {wfd : Z} `{!Rep.Epoll K wfd}.
Implicit Types w : World K Bench.

Lemma bench_contract (site : Site) `{!Rep.Epoll K (st_wfd site)} : contract (site := site) app quit_fault.
Proof.
  assert (Hret : forall E w, Srv.server_ok (site := site) w ->
    wp (ret tt) E (fun _ => Srv.step_ok (site := site) w) w) by (intros; apply wp_ret, step_refl; done).
  split; simpl; auto.
  - intros k c w Hok [cn Hc]. destruct (server_conn c cn w Hok Hc) as (Hc0&_).
    unfold onConnection, Conn.connected, get_conn. wp_step. wp_step. wp_lookup. wp_step.
    destruct (bool_decide _); [|by apply quit_keeps]. unfold upd_bench. wp_step. apply set_app_keeps; [done|].
    destruct (ob_app _ (proj1 (proj1 Hok))) as [Hu Ht]. split; [|exact Ht].
    intros u [Hin| ->%list_elem_of_singleton]%elem_of_app Ha; [by apply Hu|by exists cn].
  - intros k c w Hok (cn&Hc&_). unfold onMessage. wp_step. eapply wp_mono.
    + eapply input_keeps; [exact Hok|exact Hc|].
      eapply wp_weaken; [apply Buf.retrieveAllAsString_spec; by eapply server_conn|]. simpl. intros ?? Hx. apply Hx.
    + by left.
    + intros s w1 Hs1. unfold upd_bench. wp_step. eapply step_trans; [exact Hs1|]. apply set_app_keeps; [apply Hs1|].
      simpl. apply (ob_app _ (proj1 (proj1 (proj1 Hs1)))).
Qed.

(** What may stop a client: a call that the library aborts on, a connect that
    ends at once, a vector that is too long, a second quit, and the retry timer
    if epoll_wait can report it together with another descriptor. *)
Definition client_fault (x wch tch : ptr) (f : fault) : Prop :=
  Tcp.fatal f \/ f = AssertFail "!channel->isNoneEvents()" \/ quit_fault f \/
  (f = UseAfterFree /\ reports_both (K := K) wch tch).

Section boot.
Variables (this : ptr) (addr : sockaddr_in) (w : World K Bench).
Hypothesis Hdebug : ndebug = false.
Hypothesis Hblank : Tcp.blank (wfd := wfd) w.
Hypothesis Husers : users (w_app w) = [].
Hypothesis Hturns : Forall turn_ok (turns (w_app w)).
Abbreviation n := (w_next w).
Abbreviation x := (n + 1 + 1 + 1 + 1).

Lemma bench_setup_ok : wp (setup this addr) (client_fault x n (n + 1))
  (fun c w' => c = x /\ seeking (wfd := wfd) x n (n + 1) w' /\ idle w') w.
Proof.
  pose proof (Tcp.bl_next _ Hblank) as Hn.
  assert (Hfat : forall f, Tcp.fatal f -> client_fault x n (n + 1) f) by (intros; by left).
  assert (Hcf : forall f, connect_fault f -> client_fault x n (n + 1) f) by (intros f [->| ->]; [left; by eexists|by right; left]).
  unfold setup. wp_step. eapply wp_mono; [by apply Tcp.EventLoop_ctor_ok|exact Hfat|].
  intros _ w1 (Hb1&L1&Hfd&N1&_&_&A1).
  destruct (booting_ground n (n + 1) w1 Hb1 L1 Hfd ltac:(lia)) as (Hg1&Htm1&Hid1).
  { rewrite A1. split; [|exact Hturns]. intros u. rewrite Husers. by intros ?%not_elem_of_nil. }
  unfold Bench_ctor, start. wp_step. wp_step.
  eapply wp_mono; [apply (TcpClient_ctor_ok x n (n + 1) addr w1 Hg1 Htm1 Hid1); lia|exact Hcf|].
  intros c w2 [-> Hm2]. wp_step. eapply wp_weaken; [by apply (setConnectionCallback_made x n (n + 1))|].
  intros [] w3 Hm3. wp_step. wp_step. eapply wp_mono; [by apply (Client_start_ok x n (n + 1) app Hdebug)|exact Hcf|].
  intros [] w4 Hs4. by wp_step.
Qed.

Lemma bench_loop_ok fuel w' : client_ok (wfd := wfd) x n (n + 1) w' ->
  wp (Life.loop app fuel) (client_fault x n (n + 1))
    (fun b w' => client_ok (wfd := wfd) x n (n + 1) w' /\ b = quit_ (w_loop w')) w'.
Proof.
  apply (loop_seek x n (n + 1) app Hdebug (client_fault x n (n + 1))).
  - eapply contract_mono; [apply bench_contract|]. intros f Hf. by right; right; left.
  - intros cb w1 Hs1. apply wp_ret. by split.
  - intros f [->| ->]; [left; by eexists|by right; left].
  - right. right. left. by left.
  - left. by eexists.
  - intros Hr. by right; right; right.
Qed.

Lemma bench_main_ok fuel : wp (main this addr fuel) (client_fault x n (n + 1))
  (fun b w' => client_ok (wfd := wfd) x n (n + 1) w' /\ b = quit_ (w_loop w')) w.
Proof.
  unfold main. wp_step. eapply wp_conseq; [exact bench_setup_ok|]. intros c w1 (_&Hs1). apply bench_loop_ok. by left.
Qed.
End boot.
End main.

(** ** Properties *)

Section property.
Context {K : Type} `{Kernel K} `{!KernelLaws K} `{Build}.
Implicit Types w : World K Bench.

(** Both executables do the same. *)
Lemma programs_agree p this addr fuel w : main_of p this addr fuel w = main this addr fuel w.
Proof.
  destruct p; [done|]. symmetry. etransitivity; [apply bind_assoc|]. apply bind_ext. intros this' w1.
  etransitivity; [apply bind_assoc|]. apply bind_ext. intros c w2. exact (bind_assoc _ _ _ _).
Qed.

(** The thread of the standard input touches nothing but the queue. It
    installs its message callback, queues the lines in order, each with a
    wakeup, and then the shutdown behind them, so that the loop sends FIN after
    the last line; it does not wait and does not fault. *)
Theorem user_thread_queues tid c cn lines w :
  w_conns w !! c = Some cn -> c <> nullptr -> state_ cn = kConnected -> tid <> tid_ (w_loop w) ->
  exists w', user_thread tid c lines w = Ok tt w' /\
    pendingTasks_ (w_loop w') =
      pendingTasks_ (w_loop w) ++ map (TaskSendInLoop c) lines ++ [TaskShutdownInLoop c] /\
    w_conns w' = <[c := set_state_ kDisconnecting (set_messageCallback_ (Some (UserMessage 1)) cn)]> (w_conns w) /\
    tid_ (w_loop w') = tid_ (w_loop w) /\ w_cur w' = w_cur w.
Proof.
  intros Hc Hn Hst Ht. apply not_eq_sym in Ht.
  enough (wp (user_thread tid c lines) no_fault (fun _ w' =>
    pendingTasks_ (w_loop w') =
      pendingTasks_ (w_loop w) ++ map (TaskSendInLoop c) lines ++ [TaskShutdownInLoop c] /\
    w_conns w' = <[c := set_state_ kDisconnecting (set_messageCallback_ (Some (UserMessage 1)) cn)]> (w_conns w) /\
    tid_ (w_loop w') = tid_ (w_loop w) /\ w_cur w' = w_cur w) w) as Hwp.
  { destruct (wp_total _ _ _ Hwp) as ([]&w'&Hr&HQ). by exists w'. }
  unfold user_thread, run, UserInput_ctor, Conn.setMessageCallback, upd_conn, get_conn.
  wp_step. wp_step. wp_step. wp_step. wp_step. wp_step. wp_lookup. wp_step. wp_step.
  set (cn1 := set_messageCallback_ _ cn). set (w1 := put_conn c cn1 _).
  assert (Hc1 : w_conns w1 !! c = Some cn1) by apply lookup_insert_eq.
  wp_step. eapply wp_conseq; [by eapply (lines_queued c cn1)|]. intros [] w2 (P2&C2&T2&U2).
  eapply wp_conseq; [apply (shutdown_queued c cn1); [by rewrite C2|done|done|by rewrite T2, U2]|]. intros [] w3 (P3&C3&T3&U3).
  wp_step. simpl in *. split_and!; try congruence; [by rewrite P3, P2, app_assoc|].
  rewrite C3, C2. apply insert_insert_eq.
Qed.

(** An interactive client, either executable, from its first instruction
    on. Whatever the kernel answers, EchoClient and AddOneClient abort while they start up
    because a call failed, or run the loop: it goes on connecting until a
    connection is established, prints what arrives, and returns only when the
    end of the connection made it quit, without a connection that nothing holds.
    It stops otherwise with the faults of [client_fault] only. *)
Theorem interactive_client_safe `{wfd : Z} `{!Rep.Epoll K wfd} p this addr fuel w :
  ndebug = false -> Tcp.blank (wfd := wfd) w -> users (w_app w) = [] -> Forall turn_ok (turns (w_app w)) ->
  let n := w_next w in let client := n + 1 + 1 + 1 + 1 in
  match main_of p this addr fuel w with
  | Ok b w' => client_ok (wfd := wfd) client n (n + 1) w' /\ b = quit_ (w_loop w')
  | Err f => Tcp.fatal f \/ f = AssertFail "!channel->isNoneEvents()" \/ quit_fault f \/
      (f = UseAfterFree /\ reports_both (K := K) n (n + 1))
  end.
Proof. intros Hdb Hbl Hu Ht n client. rewrite programs_agree. exact (bench_main_ok this addr w Hdb Hbl Hu Ht fuel). Qed.
End property.

(** ** A session *)

Import OsK.
#[local] Instance debug : Build := {| ndebug := false |}.

(** Connecting takes a while; the connection is on descriptor 6. The two tasks
    of the thread wake the loop up; the peer answers "ok" and closes. *)
Definition session_script : list raw :=
  [RNum 3; RNum os_wfd; RNum 4; RNum 6; RErr EINPROGRESS;
   REvents [(EPOLLOUT, 3)]; RNum 0; RAccept 0 null_sockaddr; RNum 8; RNum 8;
   REvents [(EPOLLIN, 1)]; RBytes (le_bytes 8 2); RNum 2; RNum 0;
   REvents [(EPOLLIN, 7)]; RBytes [x6f; x6b]; REvents [(EPOLLIN, 7)]; RBytes []].
Definition session : outcome (World Os Bench) bool :=
  (let! _ := main 1 null_sockaddr 1 in
   user_thread 2 8 [Tcp.hi] ;;;
   Life.loop app 9) (Tcp.new_thread (mkBench [] [] []) session_script []).

Example session_ends : match session with
  | Ok b w => b = true /\ printed (w_app w) = [x6f; x6b; x0a] /\ map u_conn (users (w_app w)) = [8] /\
      wire 6 (w_trace w) = Tcp.hi /\ shutdowns 6 (w_trace w) = 1%nat
  | Err _ => False
  end.
Proof. vm_compute. split_and!; reflexivity. Qed.

Definition connected_world : World Os Bench :=
  after (main 1 null_sockaddr 1 (Tcp.new_thread (mkBench [] [] []) session_script []))
        (Tcp.new_thread (mkBench [] [] []) [] []).

Lemma user_thread_queues_witness : exists w', user_thread 2 8 [Tcp.hi; [x21]] connected_world = Ok tt w' /\
  pendingTasks_ (w_loop w') = [TaskSendInLoop 8 Tcp.hi; TaskSendInLoop 8 [x21]; TaskShutdownInLoop 8].
Proof.
  destruct (is_some (w_conns connected_world !! 8) (fun cn => state_ cn = kConnected)) as (cn&Hc&Hst);
    [vm_compute; reflexivity|].
  destruct (user_thread_queues 2 8 cn [Tcp.hi; [x21]] connected_world Hc) as (w'&Hr&Ht&_);
    [discriminate|exact Hst|vm_compute; discriminate|].
  exists w'. split; [exact Hr|]. rewrite Ht. vm_compute. reflexivity.
Defined.

(** The retry timer has fired before the first connection: the world after
    start, where the connect of socket 6 by the connector 4 is in progress. *)
Definition starting (replies : list raw) (clock : list Z) : World Os Bench :=
  Down.result (setup 1 null_sockaddr) (Tcp.new_thread (mkBench [] [] [])
    ([RNum 3; RNum os_wfd; RNum 4; RNum 6; RErr EINPROGRESS] ++ replies) clock).

Lemma starting_ok replies clock : is_ok (setup 1 null_sockaddr (Tcp.new_thread (mkBench [] [] [])
    ([RNum 3; RNum os_wfd; RNum 4; RNum 6; RErr EINPROGRESS] ++ replies) clock)) = true ->
  seeking (wfd := os_wfd) 5 1 2 (starting replies clock) /\ idle (starting replies clock).
Proof.
  intros Hv. unfold starting.
  refine (Down.wp_result_ok (setup 1 null_sockaddr) (client_fault (K := Os) 5 1 2)
    (fun w => seeking (wfd := os_wfd) 5 1 2 w /\ idle w) _ _ _).
  - eapply wp_conseq; [apply (bench_setup_ok (wfd := os_wfd)); [done|apply Tcp.new_thread_blank|done|constructor]|].
    intros c w' [_ Hs]. exact Hs.
  - by destruct (setup _ _ _).
Qed.


Lemma client_destroyed_clean_witness : exists w', Ends.TcpClient_dtor 5 (starting [] []) = Ok tt w' /\
  w_timers w' = ∅ /\ w_connectors w' = ∅ /\ list.last (map ev_call (w_trace w')) = Some (SysClose 6).
Proof.
  assert (Hv : match Ends.TcpClient_dtor 5 (starting [] []) with
    | Ok _ w' => map_to_list (w_connectors w') = [] /\ list.last (map ev_call (w_trace w')) = Some (SysClose 6) | Err _ => False end)
    by (vm_compute; split; reflexivity).
  destruct (starting_ok [] []) as [(on&k&p&t&Hp) Hid]; [by vm_compute|].
  pose proof (at_conn _ _ _ _ _ _ _ (proj1 (proj2 Hp))) as (cr&Hcr&_).
  destruct (client_destroyed_clean 5 1 2 on k p t cr _ Hp Hid Hcr) as (w'&r&Hr&_&_&Ht&_). exists w'.
  rewrite Hr in Hv. destruct Hv as [Hc Hf]. split; [exact Hr|]. split; [exact Ht|].
  split; [by apply map_to_list_empty_iff|exact Hf].
Defined.

(** The connector's descriptor becomes writable and SO_ERROR is 0; the peer
    sends "ok" and closes. *)
Definition connects : list raw := [REvents [(EPOLLOUT, 3)]; RNum 0; RAccept 0 null_sockaddr].
Definition closes_after_ok : list raw := [REvents [(EPOLLIN, 7)]; RBytes [x6f; x6b]; REvents [(EPOLLIN, 7)]; RBytes []].

Lemma bench_os_contract : contract (site := client_site 5 1 2 os_wfd) app (client_fault (K := Os) 5 1 2).
Proof. eapply contract_mono; [apply bench_contract|]. intros f Hf. by right; right; left. Qed.


Lemma interactive_client_safe_witness :
  match main_of AddOneClient 1 null_sockaddr 9 (Tcp.new_thread (mkBench [] [] [])
    ([RNum 3; RNum os_wfd; RNum 4; RNum 6; RErr EINPROGRESS] ++ connects ++ closes_after_ok) []) with
  | Ok b w' => client_ok (wfd := os_wfd) 5 1 2 w' /\ b = true /\ map u_conn (users (w_app w')) = [8]
  | Err _ => False
  end.
Proof.
  set (w := Tcp.new_thread _ _ _).
  assert (Hv : match main_of AddOneClient 1 null_sockaddr 9 w with
    | Ok b w' => b = true /\ map u_conn (users (w_app w')) = [8] | Err _ => False end) by (vm_compute; split; reflexivity).
  pose proof (interactive_client_safe (wfd := os_wfd) AddOneClient 1 null_sockaddr 9 w
    eq_refl (Tcp.new_thread_blank _ _ _) eq_refl (Forall_nil_2 _)) as Hs. cbv zeta in Hs.
  destruct (main_of AddOneClient 1 null_sockaddr 9 w) as [b w'|f]; [|destruct Hv].
  destruct Hs as [Hs _]. split; [exact Hs|exact Hv].
Defined.

(** The client after the first iteration, connected by the connection 8. *)
Definition client_joined : World Os Bench := Down.result (Life.loop app 1) (starting (connects ++ [REvents []]) []).

Lemma client_joined_ok : Srv.server_ok (site := client_site 5 1 2 os_wfd) client_joined /\ idle client_joined.
Proof.
  assert (Hs : client_ok (wfd := os_wfd) 5 1 2 client_joined).
  { refine (Down.wp_result_ok (Life.loop app 1) (client_fault (K := Os) 5 1 2) (client_ok (wfd := os_wfd) 5 1 2) _ _ _);
      [|by vm_compute]. eapply wp_conseq.
    - refine (bench_loop_ok (wfd := os_wfd) (Tcp.new_thread (mkBench [] [] []) [] []) _ 1 _ _); [done|].
      left. by apply starting_ok; vm_compute.
    - intros b w' [Hc _]. exact Hc. }
  destruct Hs as [[(on&k&p&t&Hp) _]|(Hok&Hid&_)]; [|by split]. exfalso.
  pose proof (gr_conns _ _ _ _ (proj1 Hp)) as Hn. apply (f_equal map_to_list) in Hn. vm_compute in Hn. discriminate Hn.
Qed.

Lemma client_dtor_dangles_witness : exists w', Ends.TcpClient_dtor 5 client_joined = Ok tt w' /\
  React.doPendingTasks app w' = Err UseAfterFree.
Proof.
  destruct (is_some (w_clients client_joined !! 5) (fun cl => connection_ cl = Some 8 /\ retryTimer_ cl = nullptr /\ connector_ cl = 4))
    as (cl&Hcl&Hcon&Hrt&Hk); [vm_compute; by split_and!|].
  apply (client_dtor_dangles 5 1 2 app 8 cl client_joined);
    [apply client_joined_ok|apply client_joined_ok|vm_compute; reflexivity|exact Hcl|exact Hcon|exact Hrt|].
  rewrite Hk. split; [done|].
  destruct (is_some (w_connectors client_joined !! 4) (fun cr => connected_ cr = true /\ x_channel_ cr = 3)) as (cr&Hcr&Hc&Hq);
    [vm_compute; by split_and!|].
  destruct (is_some (w_channels client_joined !! 3) (fun _ => True)) as (ch&Hch&_); [by vm_compute|].
  exists cr, ch. rewrite Hq. split_and!; [exact Hcr|exact Hc|done|exact Hch|].
  assert (Hall : Forall (fun e => channel_ (snd e) <> 3) (map_to_list (w_conns client_joined)))
    by (vm_compute; repeat constructor; discriminate).
  intros c cn Hcn%elem_of_map_to_list. rewrite list.Forall_forall in Hall. exact (Hall _ Hcn).
Defined.

(** ** What goes wrong *)

(** After four seconds epoll_wait reports the timer and the connector together:
    the retry destroys the connector, whose channel is handled next. *)
Example retry_race : Life.loop app 1
  (starting [REvents [(EPOLLIN, 2); (EPOLLOUT, 3)]; RBytes (le_bytes 8 1); RNum 7; RErr EINPROGRESS] [0; 0; 4000000000]) =
  Err UseAfterFree.
Proof. vm_compute. reflexivity. Qed.

(** The standard input ends after the peer has closed. *)
Example shutdown_after_close :
  user_thread 2 8 [] (Down.result (Life.loop app 9) (starting (connects ++ closes_after_ok) [])) =
  Err (AssertFail "state_ != kDisconnected").
Proof. vm_compute. reflexivity. Qed.
End Clients.
