(* ===== verification/Sessions.v ===== *)
(** A client whose connection another thread uses: the loop of Client.v with the
    interludes of Shared.v.  The interactive clients of src/examples
    (EchoClient.cc, AddOneClient.cc) are such programs: the thread that the
    connection callback starts installs its message callback, sends the lines
    of the standard input and shuts the connection down, at any points between
    the handlers and tasks of the loop. *)

From S2P Require Import Prelude Ints Kernel Buffer World Poller Channel TimerQueue.
From S2P Require Import TcpConnection EventLoop Endpoints Frame Reports TimerRun Reactor Os.
From S2P Require Import ServerInv Server Lifetime TcpServer Teardown Shared Client Clients.

Module Sess.
Import Srv Serve Life Share Cli Clients.

(** ** The loop of a client among other threads *)

Section client.
Context {K A : Type} `{Kernel K} `{!KernelLaws K} `{Build} {wfd : Z} `{!Rep.Epoll K wfd} `{AppOwns A}.
Implicit Types w : World K A.
Variables x wch tch : ptr.
Abbreviation site := (client_site x wch tch wfd).
Abbreviation server_ok := (Srv.server_ok (site := site)).
Abbreviation pursues := (Cli.pursues (wfd := wfd) x wch tch).
Abbreviation client_ok := (Cli.client_ok (wfd := wfd) x wch tch).

Lemma seeking_app a w : Cli.seeking (wfd := wfd) x wch tch w /\ idle w -> app_inv a (fun _ => False) ->
  client_ok (set_w_app a w).
Proof. intros [(on&k&p&t&Hp) Hid] Ha. left. split; [|exact Hid]. exists on, k, p, t. by apply pursues_app. Qed.

(** What other threads may do: with a connection anything that keeps the
    contract of an application, without one nothing but a change of the
    application's state. *)
Definition bystanders (others : M (World K A) unit) (E : fault -> Prop) : Prop :=
  (forall w, server_ok w -> wp others E (fun _ => Srv.step_ok (site := site) w) w) /\
  (forall on k p t w, pursues on k p t w ->
     wp others E (fun _ w' => exists a, w' = set_w_app a w /\ app_inv a (fun _ => False)) w).

Section loop.
Variable app : React.App K A.
Variable others : M (World K A) unit.
Hypothesis Hdebug : ndebug = false.
Variable E : fault -> Prop.
Hypothesis Happ : contract (site := site) app E.
Hypothesis Herr : error_contract (wfd := wfd) x wch tch app E.
Hypothesis E_connect : forall f, connect_fault f -> E f.
Hypothesis E_length : E LengthError.
Hypothesis E_accept : E (Fatal "unexpected accept4() error").
Hypothesis E_race : reports_both (K := K) wch tch -> E UseAfterFree.
Hypothesis Hothers : bystanders others E.

Abbreviation batch_ok := (Cli.batch_ok (wfd := wfd) x wch tch).

Lemma interlude_seek on k p t w : pursues on k p t w -> idle w ->
  wp (interlude others) E (fun _ w' => pursues on k p t w' /\ idle w' /\ forall q, dead q w -> dead q w') w.
Proof.
  intros Hp Hid. unfold interlude. wp_step. eapply wp_conseq; [by eapply Hothers|]. intros [] w1 (a&->&Ha).
  pose proof (pursues_app _ _ _ _ _ _ _ a w Hp Ha) as Hp1. by eapply seek_then_sweep.
Qed.

Lemma interlude_batch l w : batch_ok l w -> idle w ->
  wp (interlude others) E (fun _ w' => batch_ok l w' /\ idle w') w.
Proof.
  intros [(on&k&p&t&Hp&Hl)|[(Hr&on&k&p&t&Hp&Hl)|[Hok Hl]]] Hid.
  - eapply wp_conseq; [by apply (interlude_seek on k p t)|]. intros [] w1 (Hp1&Hid1&_). split; [|done].
    left. by exists on, k, p, t.
  - eapply wp_conseq; [by apply (interlude_seek on k p t)|]. intros [] w1 (Hp1&Hid1&Hd). split; [|done].
    right. left. split; [done|]. exists on, k, p, t. split; [done|]. intros q Hq. destruct (Hl q Hq) as [?|[?|?]]; auto.
  - eapply wp_conseq; [by apply (interlude_ok (site := site) others E (proj1 Hothers))|]. intros [] w1 (Hok1&Hid1&_).
    split; [|done]. right. by right.
Qed.

Lemma shared_batch_dispatch l w : batch_ok l w -> idle w -> NoDup l ->
  wp (for_each l (Share.handleEvents app others)) E (fun _ w' => batch_ok [] w' /\ idle w') w.
Proof.
  intros Hb Hid Hnd.
  eapply wp_conseq with (Q := fun _ w' => batch_ok [] w' /\ idle w' /\ NoDup ([] : list ptr)).
  2: { intros [] w' (?&?&_). by split. }
  apply (wp_for_each _ _ _ (fun l w' => batch_ok l w' /\ idle w' /\ NoDup l)); [done|].
  intros q l' w' (Hb'&Hid'&[Hq Hnd']%list.NoDup_cons). unfold Share.handleEvents. wp_step.
  eapply wp_conseq; [by apply interlude_batch|]. intros [] w1 [Hb1 Hid1].
  eapply wp_conseq; [by apply (batch_step x wch tch app Hdebug E Happ Herr E_connect E_length E_accept E_race)|].
  by intros [] w2 [? ?].
Qed.

Lemma shared_tasks_seek w : batch_ok [] w -> idle w ->
  wp (Share.doPendingTasks app others) E (fun _ => client_ok) w.
Proof.
  intros Hb Hid.
  assert (Hs : (exists on k p t, pursues on k p t w) \/ server_ok w).
  { destruct Hb as [(on&k&p&t&Hp&_)|[(_&on&k&p&t&Hp&_)|[Hok _]]]; [left..|by right]; by exists on, k, p, t. }
  destruct Hs as [(on&k&p&t&Hp)|Hok].
  - unfold Share.doPendingTasks. wp_step. eapply wp_conseq; [by apply (interlude_seek on k p t)|].
    intros [] w1 (Hp1&Hid1&_). wp_step. eapply wp_conseq; [by apply (no_tasks_seek x wch tch E _ on k p t)|].
    intros [] w2 [Hp2 Hid2]. eapply seek_then_sweep; [exact Hp2|]. left. split; [by exists on, k, p, t|done].
  - eapply wp_conseq; [by apply (shared_tasks_ok (site := site) app others E Happ E_length (proj1 Hothers))|].
    intros [] w1 Hl. by right.
Qed.

Lemma shared_iteration_seek w : client_ok w -> wp (Share.iteration app others) E (fun _ => client_ok) w.
Proof.
  intros [[(on&k&p&t&Hp) Hid]|(Hok&Hid&_)].
  2: { eapply wp_conseq;
         [by apply (shared_iteration_ok (site := site) app others E Happ E_length E_accept (proj1 Hothers))|]. by right. }
  unfold Share.iteration, upd_loop. wp_step. wp_step. wp_step.
  eapply wp_conseq; [apply (interlude_seek on k p t); [by eapply pursues_loop|exact Hid]|].
  intros [] w1 (Hp1&Hid1&_). wp_step. eapply wp_conseq; [apply (poll_seek x wch tch E w1); [by exists on, k, p, t|done]|].
  intros l w2 (Hnd&Hb&Hid2). wp_step. wp_step. set (w3 := set_w_loop _ w2). wp_step.
  eapply wp_conseq; [apply (shared_batch_dispatch l w3); [|exact Hid2|exact Hnd]|].
  - by apply batch_active.
  - intros [] w4 [Hb4 Hid4]. by apply shared_tasks_seek.
Qed.

Lemma shared_loop_seek n w : client_ok w ->
  wp (Share.loop app others n) E (fun b w' => client_ok w' /\ b = quit_ (w_loop w')) w.
Proof.
  apply run_loop_inv; [exact shared_iteration_seek|apply client_thread|apply client_entered].
Qed.
End loop.

(** The loop of a client while other threads use its connection: the theorem
    on the client's session, with other threads' calls and dropped references
    before epoll_wait, before each handler, before the tasks and before each of
    them. As long as there is no connection they have nothing to call. *)
Theorem shared_client_safe (app : React.App K A) (others : M (World K A) unit) (E : fault -> Prop) n w :
  ndebug = false -> contract (site := site) app E -> error_contract (wfd := wfd) x wch tch app E ->
  (forall f, connect_fault f -> E f) -> E LengthError -> E (Fatal "unexpected accept4() error") ->
  (reports_both (K := K) wch tch -> E UseAfterFree) -> bystanders others E -> client_ok w ->
  match Share.loop app others n w with
  | Ok b w' => client_ok w' /\ b = quit_ (w_loop w')
  | Err f => E f
  end.
Proof.
  intros Hdb Happ Herr Hcf Hlen Hacc Hrc Hoth Hok.
  exact (shared_loop_seek app others Hdb E Happ Herr Hcf Hlen Hacc Hrc Hoth n w Hok).
Qed.
End client.

(** ** The threads of the standard input *)

Section ops.
Context {K : Type} `{Kernel K} `{Build}.
Abbreviation W := (World K Bench).

Definition set_stage (i : nat) (s : Stage) : M W unit :=
  upd_bench (fun b => mkBench (printed b) (alter (fun u => mkUser (u_conn u) s) i (users b)) (turns b)).

(** A turn of the [i]-th thread: the constructor of its UserInput, then one
    iteration of run for each line, and what follows the loop. *)
Definition user_turn (ctor : ptr -> M W unit) (i : nat) (line : option (list byte)) : M W unit :=
  let! us := gets (fun w => users (w_app w)) in
  let! tid := get_loop tid_ in
  let t := tid + 1 + Z.of_nat i in
  match us !! i with
  | Some u =>
      match u_stage u, line with
      | Created, _ => on_thread t (ctor (u_conn u)) ;;; set_stage i Reading
      | Reading, Some d => on_thread t (Conn.send (u_conn u) d)
      | Reading, None => on_thread t (Conn.shutdown (u_conn u)) ;;; set_stage i Done
      | Done, _ => ret tt
      end
  | None => ret tt
  end.

Fixpoint take_turns (ctor : ptr -> M W unit) (ts : list (option (nat * option (list byte)))) : M W unit :=
  match ts with
  | [] => upd_bench (fun b => mkBench (printed b) (users b) [])
  | None :: ts => upd_bench (fun b => mkBench (printed b) (users b) ts)
  | Some (i, line) :: ts => user_turn ctor i line ;;; take_turns ctor ts
  end.
Definition input_threads (ctor : ptr -> M W unit) : M W unit :=
  let! ts := gets (fun w => turns (w_app w)) in
  take_turns ctor ts.

(** main of each client, with its threads. *)
Definition echo_session (this : ptr) (addr : sockaddr_in) (fuel : nat) : M W bool :=
  Ev.EventLoop_ctor this nullptr ;;;
  let! client := Bench_ctor addr in
  start client ;;;
  Share.loop app (input_threads UserInput_ctor) fuel.
Definition add_one_session (this : ptr) (addr : sockaddr_in) (fuel : nat) : M W bool :=
  Ev.EventLoop_ctor this nullptr ;;;
  let! client := AddOne.AddOneBench_ctor addr in
  AddOne.start client ;;;
  Share.loop AddOne.app (input_threads AddOne.UserInput_ctor) fuel.
Definition session_of (p : Program) : ptr -> sockaddr_in -> nat -> M W bool :=
  match p with EchoClient => echo_session | AddOneClient => add_one_session end.
End ops.

Section server.
Context {K : Type} `{Kernel K} `{!KernelLaws K} `{Build}.
Context {site : Site} `{!Rep.Epoll K (st_wfd site)}.
Implicit Types w : World K Bench.
Hypothesis Hdebug : ndebug = false.
Abbreviation server_ok := (Srv.server_ok (site := site)).
Abbreviation step_ok := (Srv.step_ok (site := site)).

(** The standard input may end after the connection. *)
Definition late_shutdown (f : fault) : Prop := f = AssertFail "state_ != kDisconnected".

Lemma set_stage_ok i s (E : fault -> Prop) w : server_ok w -> s <> Created ->
  (forall u, users (w_app w) !! i = Some u -> active u = true) -> wp (set_stage i s) E (fun _ => step_ok w) w.
Proof.
  intros Hok Hs Hu. unfold set_stage, upd_bench. wp_step. apply set_app_keeps; [done|].
  destruct (ob_app _ (proj1 (proj1 Hok))) as [Hh Ht]. split; [|exact Ht]. simpl.
  intros u [j Hj]%list_elem_of_lookup Ha. destruct (decide (j = i)) as [->|Hne].
  - rewrite list_lookup_alter_eq in Hj. destruct (users (w_app w) !! i) as [v|] eqn:Hv; [|done].
    injection Hj as <-. simpl. apply Hh; [by eapply list_elem_of_lookup_2|by apply Hu].
  - rewrite list_lookup_alter_ne in Hj by done. apply Hh; [by eapply list_elem_of_lookup_2|done].
Qed.

Lemma ctor_ok tid c (E : fault -> Prop) w : server_ok w -> live c w ->
  wp (on_thread tid (UserInput_ctor c)) E (fun _ w' => step_ok w w' /\ w_app w' = w_app w) w.
Proof.
  intros Hok [cn Hc]. destruct (server_conn c cn w Hok Hc) as (Hc0&Hwf&Hm). apply wp_on_thread.
  unfold UserInput_ctor, Conn.setMessageCallback, upd_conn, get_conn. wp_step. wp_lookup. wp_step.
  change (put_conn c ?cn' (set_w_cur tid w)) with (set_w_cur tid (put_conn c cn' w)).
  rewrite leave_back by done. split; [|done]. by eapply put_conn_keeps.
Qed.

Lemma shutdown_ok tid c w : server_ok w -> live c w -> tid_ (w_loop w) <> tid ->
  wp (on_thread tid (Conn.shutdown c)) late_shutdown (fun _ w' => step_ok w w' /\ w_app w' = w_app w) w.
Proof.
  intros Hok [cn Hc] Ht. destruct (server_conn c cn w Hok Hc) as (Hc0&_).
  destruct (decide (state_ cn = kDisconnected)) as [Hd|Hd].
  - apply wp_on_thread. unfold Conn.shutdown, get_conn. wp_step. wp_lookup. wp_step.
    unfold assert_. rewrite Hd, Hdebug. done.
  - assert (Hup : Conn.up cn).
    { destruct (ob_conns _ (proj1 (proj1 Hok)) _ _ Hc) as [ch Hen].
      by destruct (Conn.not_connecting _ (en_state _ _ _ _ Hen)). }
    eapply wp_conseq; [apply (foreign_wp tid w late_shutdown Hok Ht (FShutdown c)); by exists cn|].
    intros _ w' [Hp _]. split; apply Hp.
Qed.

Lemma user_turn_ok i line w : server_ok w -> turn_ok (Some (i, line)) ->
  wp (user_turn UserInput_ctor i line) late_shutdown (fun _ => step_ok w) w.
Proof.
  intros Hok Hl. unfold user_turn, get_loop. wp_step. wp_step. wp_step. wp_step.
  destruct (users (w_app w) !! i) as [u|] eqn:Hu; [|wp_step; by apply step_refl].
  destruct (decide (u_stage u = Done)) as [Hd|Hd]; [rewrite Hd; destruct line; wp_step; by apply step_refl|].
  assert (Ha : active u = true) by (unfold active; by rewrite bool_decide_eq_false_2).
  pose proof (proj1 (ob_app _ (proj1 (proj1 Hok))) u (list_elem_of_lookup_2 _ _ _ Hu) Ha) as Hc.
  set (t := tid_ (w_loop w) + 1 + Z.of_nat i). assert (Ht : tid_ (w_loop w) <> t) by (subst t; lia).
  assert (Hstage : forall s w1, s <> Created -> step_ok w w1 /\ w_app w1 = w_app w ->
    wp (set_stage i s) late_shutdown (fun _ => step_ok w) w1).
  { intros s w1 Hs [Hs1 A1]. eapply wp_conseq; [apply set_stage_ok; [apply Hs1|exact Hs|]|].
    - rewrite A1. intros v Hv. by assert (v = u) as -> by congruence.
    - intros [] w2. by eapply step_trans. }
  destruct (u_stage u); [|destruct line as [d|]|done].
  - wp_step. eapply wp_conseq; [by apply ctor_ok|]. intros [] w1 Hs1. by apply Hstage.
  - eapply wp_conseq; [by apply (foreign_wp t w late_shutdown Hok Ht (FSend (u_conn u) d))|].
    intros [] w1 [Hp _]. apply Hp.
  - wp_step. eapply wp_conseq; [by apply shutdown_ok|]. intros [] w1 Hs1. by apply Hstage.
Qed.

Lemma set_turns_ok ts (E : fault -> Prop) w : server_ok w -> Forall turn_ok ts ->
  wp (upd_bench (fun b => mkBench (printed b) (users b) ts)) E (fun _ => step_ok w) w.
Proof.
  intros Hok Ht. unfold upd_bench. wp_step. apply set_app_keeps; [done|]. split; [|exact Ht].
  apply (ob_app _ (proj1 (proj1 Hok))).
Qed.

Lemma take_turns_ok ts w : server_ok w -> Forall turn_ok ts ->
  wp (take_turns UserInput_ctor ts) late_shutdown (fun _ => step_ok w) w.
Proof.
  revert w. induction ts as [|[[i line]|] ts IH]; intros w Hok Ht; simpl.
  - by apply set_turns_ok.
  - apply list.Forall_cons in Ht as [Ht Hts]. wp_step. eapply wp_conseq; [by apply user_turn_ok|].
    intros [] w1 Hs1. eapply wp_conseq; [apply IH; [apply Hs1|done]|]. intros [] w2. by eapply step_trans.
  - apply list.Forall_cons in Ht as [_ Ht]. by apply set_turns_ok.
Qed.

Lemma input_threads_ok w : server_ok w ->
  wp (input_threads UserInput_ctor) late_shutdown (fun _ => step_ok w) w.
Proof.
  intros Hok. unfold input_threads. wp_step. wp_step. apply take_turns_ok; [done|].
  apply (ob_app _ (proj1 (proj1 Hok))).
Qed.

(** Without a connection the threads are at their end, if there are any. *)
Lemma take_turns_idle ts w : (forall u, u ∈ users (w_app w) -> active u = false) -> Forall turn_ok ts ->
  wp (take_turns UserInput_ctor ts) late_shutdown (fun _ w' =>
    exists a, w' = set_w_app a w /\ app_inv a (fun _ => False)) w.
Proof.
  intros Hu. assert (Hset : forall ts, Forall turn_ok ts ->
    wp (upd_bench (fun b => mkBench (printed b) (users b) ts)) late_shutdown (fun _ w' =>
      exists a, w' = set_w_app a w /\ app_inv a (fun _ => False)) w).
  { intros ts' Ht. unfold upd_bench. wp_step. eexists. split; [reflexivity|]. split; [|exact Ht]. simpl.
    intros u Hin Ha. by rewrite Hu in Ha. }
  induction ts as [|[[i line]|] ts IH]; intros Ht; simpl; [by apply Hset| |].
  - apply list.Forall_cons in Ht as [_ Ht]. wp_step. unfold user_turn, get_loop. wp_step. wp_step. wp_step. wp_step.
    destruct (users (w_app w) !! i) as [u|] eqn:Hi; [|wp_step; by apply IH].
    apply list_elem_of_lookup_2, Hu in Hi. unfold active in Hi. apply negb_false_iff, bool_decide_eq_true in Hi.
    rewrite Hi. destruct line; wp_step; by apply IH.
  - apply list.Forall_cons in Ht as [_ Ht]. by apply Hset.
Qed.
End server.

(** ** A whole run *)

Section main.
Context {K : Type} `{Kernel K} `{!KernelLaws K} `{Build} {wfd : Z} `{!Rep.Epoll K wfd}.
Implicit Types w : World K Bench.

Definition session_fault (x wch tch : ptr) (f : fault) : Prop :=
  client_fault (K := K) x wch tch f \/ late_shutdown f.

Lemma threads_bystanders x wch tch : ndebug = false ->
  bystanders (wfd := wfd) x wch tch (input_threads UserInput_ctor) (session_fault x wch tch).
Proof.
  intros Hdb. split.
  - intros w' Hok. eapply wp_mono; [exact (input_threads_ok (site := client_site x wch tch wfd) Hdb w' Hok)|intros f Hf; by right|done].
  - intros on k p t w' Hp. destruct (gr_app _ _ _ _ (proj1 Hp)) as [Hu Ht].
    unfold input_threads. wp_step. wp_step. eapply wp_mono; [apply take_turns_idle; [|exact Ht]|intros f Hf; by right|done].
    intros u Hin. destruct (active u) eqn:Ha; [|done]. by destruct (Hu u Hin Ha).
Qed.

Lemma session_loop_ok x wch tch fuel w : ndebug = false -> client_ok (wfd := wfd) x wch tch w ->
  wp (Share.loop app (input_threads UserInput_ctor) fuel) (session_fault x wch tch)
    (fun b w' => client_ok (wfd := wfd) x wch tch w' /\ b = quit_ (w_loop w')) w.
Proof.
  intros Hdb. apply (shared_loop_seek x wch tch app _ Hdb (session_fault x wch tch)).
  - eapply contract_mono; [apply bench_contract|]. intros f Hf. left. by right; right; left.
  - intros cb w1 Hs1. apply wp_ret. by split.
  - intros f Hf. left. destruct Hf as [->| ->]; [left; by eexists|by right; left].
  - left. right. right. left. by left.
  - left. left. by eexists.
  - intros Hr. left. by right; right; right.
  - by apply threads_bystanders.
Qed.

Lemma echo_session_eq this addr fuel w : echo_session this addr fuel w =
  (let! _ := setup this addr in Share.loop app (input_threads UserInput_ctor) fuel) w.
Proof.
  symmetry. etransitivity; [apply bind_assoc|]. apply bind_ext. intros this' w1.
  etransitivity; [apply bind_assoc|]. apply bind_ext. intros c w2. exact (bind_assoc _ _ _ _).
Qed.

(** Both executables do the same. *)
Lemma sessions_agree p this addr fuel w : session_of p this addr fuel w = echo_session this addr fuel w.
Proof. by destruct p. Qed.

End main.

(** ** A session *)

Import OsK.
#[local] Instance debug : Build := {| ndebug := false |}.

(** The thread begins before the tasks of the first iteration and sends "hi";
    "!" follows before the second epoll_wait, and the end of the input while the
    wakeup is handled, before the answer "ok" is; then the peer closes. *)
Definition typing : list (option (nat * option (list byte))) :=
  [None; None; Some (0%nat, None); Some (0%nat, Some Tcp.hi); None; None;
   Some (0%nat, Some [x21]); None; Some (0%nat, None)].
Lemma typing_ok : Forall turn_ok typing.
Proof. repeat constructor; by vm_compute. Qed.
Lemma typing_inv : app_inv (mkBench [] [] typing) (fun _ => False).
Proof. split; [by intros u ?%not_elem_of_nil|exact typing_ok]. Qed.
Definition startup : list raw := [RNum 3; RNum os_wfd; RNum 4; RNum 6; RErr EINPROGRESS].
Definition conversation : list raw :=
  connects ++ [RNum 8; RNum 2; RNum 8;
   REvents [(EPOLLIN, 1); (EPOLLIN, 7)]; RNum 8; RBytes (le_bytes 8 2); RBytes [x6f; x6b]; RNum 1; RNum 0;
   REvents [(EPOLLIN, 1); (EPOLLIN, 7)]; RBytes (le_bytes 8 1); RBytes []].

(** Both lines are sent, FIN after them, the answer is printed, and the loop
    ends with the connection. *)
Definition conversed (b : bool) (w : World Os Bench) : Prop :=
  b = true /\ wire 6 (w_trace w) = Tcp.hi ++ [x21] /\ shutdowns 6 (w_trace w) = 1%nat /\
  printed (w_app w) = [x6f; x6b; x0a] /\ users (w_app w) = [mkUser 8 Done].


Lemma shared_client_safe_witness :
  match Share.loop app (input_threads UserInput_ctor) 9 (set_w_app (mkBench [] [] typing) (starting conversation [])) with
  | Ok b w' => client_ok (wfd := os_wfd) 5 1 2 w' /\ conversed b w'
  | Err _ => False
  end.
Proof.
  set (w := set_w_app _ _).
  assert (Hv : match Share.loop app (input_threads UserInput_ctor) 9 w with
    | Ok b w' => conversed b w' | Err _ => False end) by (vm_compute; split_and!; reflexivity).
  assert (Hok : client_ok (wfd := os_wfd) 5 1 2 w).
  { apply seeking_app; [by apply starting_ok; vm_compute|exact typing_inv]. }
  pose proof (shared_client_safe 5 1 2 app (input_threads UserInput_ctor) (session_fault (K := Os) 5 1 2) 9 w eq_refl
    (contract_mono (site := client_site 5 1 2 os_wfd) app _ _ bench_os_contract (fun f Hf => or_introl Hf))
    (fun cb w1 Hs => wp_ret _ _ _ _ (conj Hs (reflexivity _)))
    (fun f Hf => or_introl (match Hf with or_introl e => or_introl (ex_intro _ _ e) | or_intror e => or_intror (or_introl e) end))
    (or_introl (or_intror (or_intror (or_introl (or_introl eq_refl))))) (or_introl (or_introl (ex_intro _ _ eq_refl)))
    (fun Hr => or_introl (or_intror (or_intror (or_intror (conj eq_refl Hr)))))
    (threads_bystanders 5 1 2 eq_refl) Hok) as Hs.
  destruct (Share.loop app (input_threads UserInput_ctor) 9 w) as [b w'|f]; [|destruct Hv]. destruct Hs as [Hs _].
  split; [exact Hs|exact Hv].
Defined.

(** The peer closes first: the loop ends the connection, and the thread, which
    reads on, aborts at the end of its input. *)
Example closed_before_end :
  session_of EchoClient 1 null_sockaddr 9 (Tcp.new_thread
    (mkBench [] [] [None; None; Some (0%nat, None); None; None; None; Some (0%nat, None)])
    (startup ++ connects ++ [REvents [(EPOLLIN, 7)]; RBytes []]) []) =
  Err (AssertFail "state_ != kDisconnected").
Proof. vm_compute. reflexivity. Qed.
End Sess.
