(* ===== verification/Logger.v ===== *)
(** The log, src/Logger.hpp: levels, the text of a line, and where it goes.
    The other files of the library leave the log out, but for the abort that
    follows a FATAL or SYSFATAL line.  An argument of a line is its text; the
    time, the process id and errno at the call are given to it.  strerror, which
    depends on the C library, and the files that can be opened are parameters. *)

From S2P Require Import Prelude Ints Decimal.

Module Log.

Abbreviation text := (String.list_byte_of_string).
Abbreviation bytes := (list byte).

#[export] Instance byte_countable : Countable byte := inj_countable Byte.to_N Byte.of_N Byte.of_to_N.

Inductive LOG_LEVEL := LOG_LEVEL_TRACE | LOG_LEVEL_DEBUG | LOG_LEVEL_INFO | LOG_LEVEL_WARN
  | LOG_LEVEL_ERROR | LOG_LEVEL_FATAL.
Definition level_val (l : LOG_LEVEL) : Z :=
  match l with
  | LOG_LEVEL_TRACE => 0 | LOG_LEVEL_DEBUG => 1 | LOG_LEVEL_INFO => 2
  | LOG_LEVEL_WARN => 3 | LOG_LEVEL_ERROR => 4 | LOG_LEVEL_FATAL => 5
  end.
Definition logLevelStr (l : LOG_LEVEL) : bytes :=
  match l with
  | LOG_LEVEL_TRACE => text "[ TRACE]" | LOG_LEVEL_DEBUG => text "[ DEBUG]" | LOG_LEVEL_INFO => text "[  INFO]"
  | LOG_LEVEL_WARN => text "[  WARN]" | LOG_LEVEL_ERROR => text "[ ERROR]" | LOG_LEVEL_FATAL => text "[ FATAL]"
  end.

(** ** The state *)

(** logLevel is static: each translation unit has its own.  [ofs] is the file
    the stream has open. *)
Record Logger := mkLogger {
  logFileName : bytes;
  ofs : option bytes;
  logLevel : Z -> LOG_LEVEL;          (* by translation unit *)
  stdout_ : list bytes;               (* the lines written, the last one first *)
  files : gmap bytes (list bytes)
}.
Definition init `{Build} : Logger :=
  mkLogger [] None (fun _ => if ndebug then LOG_LEVEL_INFO else LOG_LEVEL_DEBUG) [] ∅.

(** ** The text of a line *)

(** std::setw(n) with std::setfill(c). *)
Definition setw (n : nat) (c : byte) (s : bytes) : bytes := replicate (n - length s) c ++ s.

(** std::vformat, for replacement fields without options. *)
Fixpoint vformat (fmt : bytes) (args : list bytes) : option bytes :=
  match fmt with
  | [] => Some []
  | x7b :: fmt1 =>                                               (* { *)
      match fmt1 with
      | x7b :: fmt2 => cons x7b <$> vformat fmt2 args
      | x7d :: fmt2 => match args with a :: args => app a <$> vformat fmt2 args | [] => None end
      | _ => None
      end
  | x7d :: fmt1 => match fmt1 with x7d :: fmt2 => cons x7d <$> vformat fmt2 args | _ => None end
  | b :: fmt1 => cons b <$> vformat fmt1 args
  end.

(** The part of a path after the last slash, if it has one: strrchr(...) + 1. *)
Fixpoint after_slash (path : bytes) : option bytes :=
  match path with
  | [] => None
  | b :: path' =>
      match after_slash path' with
      | Some s => Some s
      | None => if decide (b = x2f) then Some path' else None
      end
  end.

(** gmtime: the year and the day in it, the month and its day, from the days
    since 1970. *)
Definition leap (y : Z) : bool := ((y mod 4 =? 0) && negb (y mod 100 =? 0)) || (y mod 400 =? 0).
Fixpoint year_of (fuel : nat) (y days : Z) : Z * Z :=
  let len := if leap y then 366 else 365 in
  match fuel with
  | S n => if days <? len then (y, days) else year_of n (y + 1) (days - len)
  | O => (y, days)
  end.
Definition months (y : Z) : list Z := [31; if leap y then 29 else 28; 31; 30; 31; 30; 31; 31; 30; 31; 30; 31].
Fixpoint month_of (m day : Z) (l : list Z) : Z * Z :=
  match l with
  | len :: l => if day <? len then (m, day + 1) else month_of (m + 1) (day - len) l
  | [] => (m, day + 1)
  end.

(** timestamp(): "%Y%m%d %H:%M:%S" and the milliseconds, of the nanoseconds
    [now]; the clock does not reach 200 years. *)
Definition pad (n : nat) (x : Z) : bytes := setw n x30 (Dec.to_string x).
Definition timestamp (now : Z) : bytes :=
  let secs := now / 10 ^ 9 in
  let '(y, yd) := year_of 200 1970 (secs / 86400) in
  let '(m, d) := month_of 1 yd (months y) in
  pad 4 y ++ pad 2 m ++ pad 2 d ++ text " " ++ pad 2 (secs mod 86400 / 3600) ++ text ":" ++
  pad 2 (secs mod 3600 / 60) ++ text ":" ++ pad 2 (secs mod 60) ++ text "." ++ pad 3 (now / 10 ^ 6 mod 1000).

(** What a call finds in its environment. *)
Record Env := mkEnv { e_now : Z; e_pid : Z; e_errno : Z }.

Definition head (env : Env) : bytes :=
  timestamp (e_now env) ++ text " [" ++ setw 5 x20 (Dec.to_string (e_pid env)) ++ text "]".

Section ops.
Variable can_open : bytes -> bool.
Variable strerror : Z -> bytes.

(** ** Writing *)

Definition std_out (name : bytes) : bool := bool_decide (name = []) || bool_decide (name = text "stdout").

Definition write (line : bytes) (s : Logger) : Logger :=
  if std_out (logFileName s)
  then mkLogger (logFileName s) (ofs s) (logLevel s) (line :: stdout_ s) (files s)
  else match ofs s with
       | Some f => mkLogger (logFileName s) (ofs s) (logLevel s) (stdout_ s)
                     (<[f := line :: default [] (files s !! f)]> (files s))
       | None => s
       end.

Definition or_throw {T} (o : option T) (f : fault) : M Logger T :=
  match o with Some x => ret x | None => throw f end.

Definition logBase (env : Env) (file : bytes) (line : Z) (level : LOG_LEVEL) (to_abort : bool)
    (fmt : bytes) (args : list bytes) : M Logger unit :=
  let! msg := or_throw (vformat fmt args) (Uncaught "std::format_error") in
  let ss := head env ++ text " " ++ logLevelStr level ++ text " " ++ msg in
  let! name := or_throw (after_slash file) NullDeref in
  modify (write (ss ++ text " - " ++ name ++ text ":" ++ Dec.to_string line ++ [x0a])) ;;;
  when to_abort (throw (Fatal "logBase")).

(** A std::string printed through c_str() ends at its first NUL. *)
Fixpoint c_str (s : bytes) : bytes :=
  match s with
  | x00 :: _ => []
  | b :: s => b :: c_str s
  | [] => []
  end.

Definition logSys (env : Env) (file : bytes) (line : Z) (to_abort : bool)
    (fmt : bytes) (args : list bytes) : M Logger unit :=
  let! msg := or_throw (vformat fmt args) (Uncaught "std::format_error") in
  let ss := head env ++ text " " ++ (if to_abort then text "[ SYSFA] " else text "[SYSERR] ") ++ msg in
  let! name := or_throw (after_slash file) NullDeref in
  modify (write (c_str ss ++ text ": " ++ strerror (e_errno env) ++ text " - " ++ name ++ text ":" ++
    Dec.to_string line ++ [x0a])) ;;;
  when to_abort (throw (Fatal "logSys")).

(** The macros TRACE to FATAL, in the translation unit [tu]. *)
Definition enabled (threshold level : LOG_LEVEL) : bool := level_val threshold <=? level_val level.
Definition LOG (tu : Z) (level : LOG_LEVEL) (env : Env) (file : bytes) (line : Z) (fmt : bytes) (args : list bytes) : M Logger unit :=
  let! threshold := gets (fun s => logLevel s tu) in
  when (enabled threshold level)
    (logBase env file line level (bool_decide (level_val level = 5)) fmt args).
Definition SYSERR (env : Env) (file : bytes) (line : Z) := logSys env file line false.
Definition SYSFATAL (env : Env) (file : bytes) (line : Z) := logSys env file line true.

(** setLogLevel is an inline function that names the static variable of the
    unit whose copy of it the linker kept, [tu]. *)
Definition setLogLevel (tu : Z) (rhs : LOG_LEVEL) : M Logger unit :=
  modify (fun s => mkLogger (logFileName s) (ofs s)
    (fun u => if u =? tu then rhs else logLevel s u) (stdout_ s) (files s)).

(** ofs.open fails when a file is open, and leaves it open. *)
Definition ofs_open (name : bytes) (o : option bytes) : option bytes :=
  match o with Some f => Some f | None => if can_open name then Some name else None end.
Definition setLogFile (fileName : bytes) : M Logger unit :=
  modify (fun s =>
    let o := if std_out (logFileName s) then ofs s else None in
    let o := if bool_decide (fileName = text "stdout") then o else ofs_open fileName o in
    mkLogger fileName o (logLevel s) (stdout_ s) (files s)).
End ops.

(** ** Where a line goes *)

Section specs.
Variable can_open : bytes -> bool.
Variable strerror : Z -> bytes.
(** open("") fails. *)
Hypothesis no_name : can_open [] = false.

(** A call of the program; its arguments are formatted without an exception. *)
Inductive call :=
  | CallLog (tu : Z) (level : LOG_LEVEL) (env : Env) (file : bytes) (line : Z) (fmt : bytes) (args : list bytes)
  | CallSyserr (env : Env) (file : bytes) (line : Z) (fmt : bytes) (args : list bytes)
  | CallSetLevel (tu : Z) (level : LOG_LEVEL)
  | CallSetFile (name : bytes).

Definition run (x : call) : M Logger unit :=
  match x with
  | CallLog tu level env file line fmt args => LOG tu level env file line fmt args
  | CallSyserr env file line fmt args => SYSERR strerror env file line fmt args
  | CallSetLevel tu level => setLogLevel tu level
  | CallSetFile name => setLogFile can_open name
  end.
Definition runs (l : list call) : M Logger unit := for_each l run.

(** The stream has the file of [logFileName] open, if it names one that can be
    opened. *)
Definition open_for (name : bytes) : option bytes :=
  if std_out name then None else if can_open name then Some name else None.
Definition log_ok (s : Logger) : Prop := ofs s = open_for (logFileName s).

(** The lines that went to a destination: the standard output or a file. *)
Definition lines (dest : option bytes) (s : Logger) : list bytes :=
  match dest with None => stdout_ s | Some f => default [] (files s !! f) end.
(** The destination a name stands for; a file that could not be opened swallows
    its lines. *)
Definition destination (name : bytes) : option (option bytes) :=
  if std_out name then Some None else if can_open name then Some (Some name) else None.

(** The text of a line. *)
Definition base_line (env : Env) (level : LOG_LEVEL) (msg name : bytes) (line : Z) : bytes :=
  (head env ++ text " " ++ logLevelStr level ++ text " " ++ msg) ++
  text " - " ++ name ++ text ":" ++ Dec.to_string line ++ [x0a].

Lemma write_ok line s : log_ok s -> log_ok (write line s).
Proof. unfold log_ok, write. intros Hs. destruct (std_out _); [done|]. destruct (ofs s) eqn:Ho; simpl; congruence. Qed.

Lemma write_lines line s dest : log_ok s ->
  lines dest (write line s) =
    (if bool_decide (destination (logFileName s) = Some dest) then [line] else []) ++ lines dest s.
Proof.
  unfold log_ok, open_for, destination, write. intros Hs. destruct (std_out (logFileName s)).
  - destruct dest as [f|]; simpl; repeat case_bool_decide; done.
  - destruct (can_open (logFileName s)); rewrite Hs; simpl.
    + destruct dest as [f|]; simpl; [|by repeat case_bool_decide].
      case_bool_decide as Hf; [injection Hf as <-; by rewrite lookup_insert_eq|].
      rewrite lookup_insert_ne; [done|congruence].
    + by repeat case_bool_decide.
Qed.

Lemma logBase_ok env file line level to_abort fmt args s : log_ok s ->
  wp (logBase env file line level to_abort fmt args) any_fault (fun _ => log_ok) s.
Proof.
  intros Hs. unfold logBase. destruct (vformat fmt args); simpl; [|done]. destruct (after_slash file); simpl; [|done].
  wp_step. wp_step. wp_step. wp_step. wp_step. apply wp_when; [done|]. intros _. by apply write_ok.
Qed.
Lemma logSys_ok env file line to_abort fmt args s : log_ok s ->
  wp (logSys strerror env file line to_abort fmt args) any_fault (fun _ => log_ok) s.
Proof.
  intros Hs. unfold logSys. destruct (vformat fmt args); simpl; [|done]. destruct (after_slash file); simpl; [|done].
  wp_step. wp_step. wp_step. wp_step. wp_step. apply wp_when; [done|]. intros _. by apply write_ok.
Qed.

Lemma setLogFile_ok name s : log_ok s -> wp (setLogFile can_open name) any_fault (fun _ => log_ok) s.
Proof.
  unfold log_ok, setLogFile. intros Hs. wp_step. simpl. rewrite Hs.
  assert (Hd : (if std_out (logFileName s) then open_for (logFileName s) else None) = None)
    by (unfold open_for; by destruct (std_out _)).
  rewrite Hd. unfold open_for, std_out. repeat case_bool_decide; subst; simpl; try done. by rewrite no_name.
Qed.

Lemma run_ok x s : log_ok s -> wp (run x) any_fault (fun _ => log_ok) s.
Proof.
  intros Hs. destruct x; simpl.
  - unfold LOG. wp_step. wp_step. apply wp_when; [intros _; by apply logBase_ok|done].
  - by apply logSys_ok.
  - unfold setLogLevel. wp_step. exact Hs.
  - by apply setLogFile_ok.
Qed.

Lemma runs_ok l s : log_ok s -> wp (runs l) any_fault (fun _ => log_ok) s.
Proof.
  intros Hs. apply (wp_for_each _ _ _ (fun _ => log_ok)); [done|]. intros x _ s' Hs'. by apply run_ok.
Qed.

(** The file name and the level of unit [u] after some calls. *)
Fixpoint last_file (name : bytes) (l : list call) : bytes :=
  match l with
  | CallSetFile f :: l => last_file f l
  | _ :: l => last_file name l
  | [] => name
  end.
Fixpoint last_level (level : LOG_LEVEL) (u : Z) (l : list call) : LOG_LEVEL :=
  match l with
  | CallSetLevel tu r :: l => last_level (if u =? tu then r else level) u l
  | _ :: l => last_level level u l
  | [] => level
  end.

Lemma LOG_eq tu level env file line fmt args s : LOG tu level env file line fmt args s =
  if enabled (logLevel s tu) level then logBase env file line level (bool_decide (level_val level = 5)) fmt args s
  else Ok tt s.
Proof. unfold LOG, bind, gets, when. by destruct (enabled _ _). Qed.

Definition settings s s' : Prop := logFileName s' = logFileName s /\ forall u, logLevel s' u = logLevel s u.
Lemma write_settings line s : settings s (write line s).
Proof. unfold settings, write. destruct (std_out _); [done|]. by destruct (ofs s). Qed.
Lemma logBase_settings env file line level to_abort fmt args s :
  wp (logBase env file line level to_abort fmt args) any_fault (fun _ => settings s) s.
Proof.
  unfold logBase. destruct (vformat fmt args); simpl; [|done]. destruct (after_slash file); simpl; [|done].
  do 5 wp_step. apply wp_when; [done|]. intros _. apply write_settings.
Qed.
Lemma logSys_settings env file line to_abort fmt args s :
  wp (logSys strerror env file line to_abort fmt args) any_fault (fun _ => settings s) s.
Proof.
  unfold logSys. destruct (vformat fmt args); simpl; [|done]. destruct (after_slash file); simpl; [|done].
  do 5 wp_step. apply wp_when; [done|]. intros _. apply write_settings.
Qed.

Lemma runs_settings l s s' : runs l s = Ok tt s' ->
  logFileName s' = last_file (logFileName s) l /\ forall u, logLevel s' u = last_level (logLevel s u) u l.
Proof.
  unfold runs. revert s. induction l as [|x l IH]; intros s; simpl; [by intros [= <-]|].
  unfold bind at 1. destruct (run x s) as [[] s1|f] eqn:Hx; [|done]. intros Hl. destruct (IH s1 Hl) as [En El].
  assert (Hsame : settings s s1 -> logFileName s' = last_file (logFileName s) l /\
    forall u, logLevel s' u = last_level (logLevel s u) u l).
  { intros [E1 E2]. rewrite En, E1. split; [done|]. intros u. by rewrite El, E2. }
  destruct x; simpl in Hx |- *.
  - apply Hsame. revert Hx. rewrite LOG_eq. destruct (enabled _ _); [|by intros [= <-]].
    intros Hx. exact (wp_ok _ _ _ _ _ _ Hx (logBase_settings _ _ _ _ _ _ _ _)).
  - apply Hsame. exact (wp_ok _ _ _ _ _ _ Hx (logSys_settings _ _ _ _ _ _ _)).
  - injection Hx as <-. simpl in *. split; [done|]. intros u. by rewrite El.
  - injection Hx as <-. by split.
Qed.
End specs.

(** ** Property *)

Section property.
Context `{Build}.
Variable can_open : bytes -> bool.
Variable strerror : Z -> bytes.
Hypothesis no_name : can_open [] = false.

End property.

(** A Release build; the program names a file, then logs at two levels. *)
#[local] Instance release : Build := {| ndebug := true |}.
Definition example_env : Env := mkEnv 1700000000123000000 4242 0.
Definition example_open (name : bytes) : bool := negb (bool_decide (name = [])).
Definition example_calls : list call :=
  [CallSetFile (text "ev.log");
   CallLog 0 LOG_LEVEL_DEBUG example_env (text "/src/a.cc") 7 (text "hidden") [];
   CallSetLevel 0 LOG_LEVEL_TRACE].
End Log.
