(* ===== verification/TestLogger.v ===== *)
(** The test program of the log, src/test/test_Logger.cc: a line at each of
    several levels, to the standard output and to a file, and an abort. *)

From S2P Require Import Prelude Ints Decimal Logger.

Module TestLog.
Import Log.

Section ops.
Variable can_open : bytes -> bool.
Variable strerror : Z -> bytes.
(** __FILE__ and what the calls find. *)
Variable file : bytes.
Variable env : Z -> Env.                    (* by the line of the call *)

(** std::cout << line << std::endl *)
Definition cout (line : bytes) : M Logger unit :=
  modify (fun s => mkLogger (logFileName s) (ofs s) (logLevel s) ((line ++ [x0a]) :: stdout_ s) (files s)).

Definition log (level : LOG_LEVEL) (line : Z) : bytes -> list bytes -> M Logger unit :=
  LOG 0 level (env line) file line.
Definition digits_of (l : list Z) : list bytes := map Dec.to_string l.

(** main up to its last line; the program is one translation unit. *)
Definition before_abort : M Logger unit :=
  setLogLevel 0 LOG_LEVEL_DEBUG ;;;
  log LOG_LEVEL_INFO 11 (text "server quit after {} second...") (digits_of [10]) ;;;
  log LOG_LEVEL_DEBUG 12 (text "DEBUG log") [] ;;;
  setLogFile can_open (text "./test_Logger.log") ;;;
  log LOG_LEVEL_ERROR 15 (text "something wrong test {} {} {}") (digits_of [1; 2; 3]) ;;;
  setLogFile can_open (text "stdout") ;;;
  SYSERR strerror (env 18) file 18 (text "someting sys wrong test {} {} {}") (digits_of [1; 2; 3]) ;;;
  cout (text "ready to abort") ;;;
  cout (Dec.to_string 3) ;;;
  cout (Dec.to_string 2) ;;;
  cout (Dec.to_string 1).
Definition main : M Logger unit :=
  before_abort ;;;
  SYSFATAL strerror (env 29) file 29 (text "ready to abort{} {} {} {}") (text ":" :: digits_of [3; 2; 1]).
End ops.

Section specs.
Context `{Build}.
Variable can_open : bytes -> bool.
Variable strerror : Z -> bytes.
Variables file name : bytes.
Variable env : Z -> Env.
Hypothesis Hfile : after_slash file = Some name.

(** The line of a macro, and that of SYSERR. *)
Definition line_of (level : LOG_LEVEL) (msg : bytes) (line : Z) : bytes := base_line (env line) level msg name line.
Definition sys_line (msg : bytes) (line : Z) : bytes :=
  c_str (head (env line) ++ text " [SYSERR] " ++ msg) ++ text ": " ++
    strerror (e_errno (env line)) ++ text " - " ++ name ++ text ":" ++ Dec.to_string line ++ [x0a].

Lemma log_eq level line fmt args msg s :
  vformat fmt args = Some msg -> logLevel s 0 = LOG_LEVEL_DEBUG -> 0 < level_val level < 5 ->
  log file env level line fmt args s = Ok tt (write (line_of level msg line) s).
Proof.
  intros Hv Hl He. unfold log. rewrite LOG_eq, Hl. unfold enabled. rewrite (proj2 (Z.leb_le _ _)) by (simpl; lia).
  unfold logBase, bind, or_throw. rewrite Hv, Hfile. by rewrite bool_decide_eq_false_2 by lia.
Qed.
Lemma syserr_eq line fmt args msg s : vformat fmt args = Some msg ->
  SYSERR strerror (env line) file line fmt args s = Ok tt (write (sys_line msg line) s).
Proof. intros Hv. unfold SYSERR, logSys, bind, or_throw. by rewrite Hv, Hfile. Qed.

Lemma bind_ok {A B} (m : M Logger A) (k : A -> M Logger B) s a s' : m s = Ok a s' -> bind m k s = k a s'.
Proof. unfold bind. by intros ->. Qed.

(** Writing to the standard output, and to a file that is open or not. *)
Definition put (f : option bytes) (line : bytes) (fs : gmap bytes (list bytes)) : gmap bytes (list bytes) :=
  match f with Some f => <[f := line :: default [] (fs !! f)]> fs | None => fs end.
Lemma write_std f o l out fs line : std_out f = true ->
  write line (mkLogger f o l out fs) = mkLogger f o l (line :: out) fs.
Proof. unfold write. simpl. by intros ->. Qed.
Lemma write_file f o l out fs line : std_out f = false ->
  write line (mkLogger f o l out fs) = mkLogger f o l out (put o line fs).
Proof. unfold write. simpl. intros ->. by destruct o. Qed.

(** What is left when the program aborts. *)
Definition written : Logger :=
  let path := text "./test_Logger.log" in
  mkLogger (text "stdout") None (fun u => if u =? 0 then LOG_LEVEL_DEBUG else logLevel init u)
    (rev [line_of LOG_LEVEL_INFO (text "server quit after 10 second...") 11;
          line_of LOG_LEVEL_DEBUG (text "DEBUG log") 12;
          sys_line (text "someting sys wrong test 1 2 3") 18;
          text "ready to abort" ++ [x0a]; text "3" ++ [x0a]; text "2" ++ [x0a]; text "1" ++ [x0a]])
    (if can_open path then {[path := [line_of LOG_LEVEL_ERROR (text "something wrong test 1 2 3") 15]]} else ∅).

Lemma before_abort_eq : before_abort can_open strerror file env init = Ok tt written.
Proof.
  unfold before_abort, init. erewrite bind_ok by reflexivity.
  erewrite bind_ok by (apply log_eq; [vm_compute; reflexivity|done|simpl; lia]). cbn [logFileName ofs logLevel stdout_ files].
  rewrite write_std by reflexivity.
  erewrite bind_ok by (apply log_eq; [vm_compute; reflexivity|done|simpl; lia]). rewrite write_std by reflexivity.
  erewrite bind_ok by reflexivity. cbn [logFileName ofs logLevel stdout_ files].
  erewrite bind_ok by (apply log_eq; [vm_compute; reflexivity|done|simpl; lia]). rewrite write_file by reflexivity.
  erewrite bind_ok by reflexivity. cbn [logFileName ofs logLevel stdout_ files].
  erewrite bind_ok by (apply syserr_eq; vm_compute; reflexivity). rewrite write_std by reflexivity.
  repeat (erewrite bind_ok by reflexivity; cbn [logFileName ofs logLevel stdout_ files]).
  assert (E1 : std_out [] = true) by reflexivity. assert (E2 : std_out (text "./test_Logger.log") = false) by reflexivity.
  assert (E3 : bool_decide (text "./test_Logger.log" = text "stdout") = false) by reflexivity.
  rewrite E1, E2, E3, bool_decide_eq_true_2 by done. unfold ofs_open, written, put. by destruct (can_open _).
Qed.
End specs.

(** What the test writes, in either build and whatever can be opened. Its
    first two lines go to the standard output, the third to the file, or nowhere
    when it cannot be opened, the line of SYSERR and what is written to
    std::cout to the standard output again, in this order; and the program
    ends by the abort of SYSFATAL. *)
Theorem test_output `{Build} can_open strerror file name env :
  after_slash file = Some name ->
  main can_open strerror file env init = Err (Fatal "logSys") /\
  before_abort can_open strerror file env init = Ok tt (written can_open strerror name env).
Proof.
  intros Hf. pose proof (before_abort_eq can_open strerror file name env Hf) as Hb. split; [|exact Hb].
  unfold main. erewrite bind_ok by exact Hb. unfold SYSFATAL, logSys, bind, or_throw. rewrite Hf. reflexivity.
Qed.

(** A debug build that can open every file. *)
#[local] Instance debug : Build := {| ndebug := false |}.
Lemma test_output_witness :
  main example_open (fun _ => []) (text "/src/test/test_Logger.cc") (fun _ => example_env) init = Err (Fatal "logSys") /\
  after_slash (text "/src/test/test_Logger.cc") = Some (text "test_Logger.cc") /\
  (files (written example_open (fun _ => []) (text "test_Logger.cc") (fun _ => example_env)) !! text "./test_Logger.log") =
    Some [text "20231114 22:13:20.123 [ 4242] [ ERROR] something wrong test 1 2 3 - test_Logger.cc:15" ++ [x0a]].
Proof.
  assert (Hf : after_slash (text "/src/test/test_Logger.cc") = Some (text "test_Logger.cc")) by reflexivity.
  destruct (test_output example_open (fun _ => []) _ _ (fun _ => example_env) Hf) as [Hm _].
  split; [exact Hm|]. split; [exact Hf|]. vm_compute. reflexivity.
Defined.
End TestLog.
